(* ===== verification/_CoqProject ===== *)
-Q . S2P
Prelude.v
Errs.v
GoTime.v
GoJson.v
Ext.v
Types.v
Regimes.v
Lifecycle.v
Deadlines.v
Ledger.v
Questionnaire.v
Risk.v
Notice.v
Redact.v
Access.v
Text.v
Config.v
Http.v
Template.v
TemplateFacts.v
Store.v
Wire.v
Authz.v
AuthzFacts.v
AuthzScenario.v
Fixture.v
Tx.v
Oapi.v
Answers.v
Sql.v
Migrate.v
PgStore.v
Directory.v
PgMirror.v
Auth.v
Keys.v
Provision.v
ProvisionFacts.v
SeedFacts.v
Followed.v
FollowedScenario.v
Seed.v
Sessions.v
Limits.v
Guard.v
Service.v
Correspondence.v
Dispatch.v
Gauges.v
Smtp.v
PgRefine.v
PgContract.v
ServiceFacts.v
Frames.v
Profile.v
Suggest.v
TypedModel.v
Handlers.v
Server.v
Requests.v
DispatchFacts.v
CorrespondenceFacts.v
Integrity.v
Guarantees.v
Core.v
MockCore.v
Contract.v
Wakeup.v
Duties.v
Mailroom.v
ApiFacts.v
ApiGuarantees.v
ApiScenario.v
