(* ===== verification/Prelude.v ===== *)
(** * Prelude, and the guide to the development

    This library models the dispute engine of [src/backend]: a service through which the analysts of several banks
    (its tenants) open payment disputes, move them through a regulated life cycle, keep the books and the deadlines that go
    with it, and write to customers. It models the Go code as functions and proves what makes that code correct.

    ** The program, and where each part is

    A request enters the HTTP server, is matched to an operation of the OpenAPI contract, checked and decoded, and reaches
    a handler; the handler calls a use case of the application service; the use case runs in a transaction of the storage
    port and calls the pure rules of the domain; a banking core moves the money; notices are queued in an outbox, from
    which a dispatcher sends mail.

    The run time and the standard library, as far as the source uses them: [GoTime] (instants, zones, calendar arithmetic,
    layouts), [GoJson] (encoding/json), [Text] (strings, strconv, regular expressions of templates), [Wire] (bytes, base64,
    RFC 3339, page cursors, amounts). Packages of others are classes in [Ext] (decimals and UUIDs).

    The domain, [internal/dispute/domain], one file per source file: [Types] (the vocabulary), [Regimes] (regime.go, rail.go,
    notice.go), [Lifecycle] (state.go), [Deadlines] (deadline.go), [Ledger] (ledger.go), [Questionnaire] (questionnaire.go),
    [Risk] (risk.go); [Notice] and [Template], [TemplateFacts] are [internal/dispute/notice].

    The use cases, [internal/dispute/application]: [Access] (who calls, what is granted, routing), [Store] (the storage port and
    its in-memory implementation, apptest/memstore.go), [Tx] (the world of a use case, transactions, and the monad the code
    is written in), [Service] (service.go, authorize.go, routing.go), [Correspondence] (compose.go, attachments.go), [Dispatch]
    (mail.go, purge.go), [Profile] (identity.go), [Suggest] (decisions.go, suggestions.go), [Core] (core.go) with the
    simulated adapter in [MockCore] (infrastructure/mockcore).

    Authorization, [internal/dispute/authz]: [Authz] (the engine, its entities, the compiler of grants and the guardrails),
    [AuthzFacts] (what it decides), [Fixture] (fixture.go, a tenant's access data as a document), [Duties] (what its answers
    mean for a dispute); [AuthzScenario] plays it. [Provision] and [ProvisionFacts] are the tables of access data and the
    commands that write them (cmd/seed/access.go, cmd/tenant/member.go, migration 0023), [SeedFacts] what seeding again
    does, [Followed] the engine on those rows, played in [FollowedScenario]. [Seed] is the demonstration data (cmd/seed/main.go).

    The infrastructure: [Smtp] (infrastructure/mail), [TypedModel] (infrastructure/typedmodel, the hosted model behind the
    suggestions), [Gauges] (what both stores count for operators).

    PostgreSQL, [internal/dispute/infrastructure/postgres] and the migrations: [Sql] (tables, constraints, row-level security
    and the generated queries), [PgStore] (store.go), [Directory] (tenants, keys and sessions, which are outside row-level
    security), [PgMirror], [PgRefine] and [PgContract] (the relation to the in-memory store), [Migrate]
    (platform/postgres/migrate.go: instances that bring the schema up to date at once).

    The platform: [Errs] (classified errors), [Http] (problems, middleware, CORS), [Guard] (the internal surface, request ids),
    [Auth] (credentials), [Keys] (tenant keys and the commands that manage keys and tenants), [Sessions] (web sessions),
    [Limits] (budgets per tenant, failures per address), [Config] (the settings in the environment), [Redact] (what the log
    lets out).

    The API: [Oapi] (the structures of the generated server and their JSON), [Answers] (the declared responses), [Handlers]
    (ports/http/handler.go), [Server] (routes, parameters, bodies, the contract's security, and the chain of middleware of
    cmd/api).

    ** How state and operations correspond to the code

    Go's string-typed enumerations are inductive types with a constructor for a value outside the constants where one can
    arrive. A function that returns a value and an error is a [res]: the two constructors are the two ways callers read it.
    Instants are nanoseconds in [Z]; 64-bit arithmetic wraps where the code can reach the edge; floats are the kernel's. A
    method of the store is a function of the store. A use case is a computation ([A], in [Tx]) over a world - the
    store, the core's own state, the clock's readings, fresh ids, nudges to the dispatcher - that ends with a value, an
    error or a panic; a transaction puts back the fields the code snapshots. A statement on PostgreSQL can be refused, at any
    position, by a [fault]. Each kind of server state appears once: [World] for the use cases, [KeyWorld] for keys, tenants and
    sessions, the limiters' maps beside them.

    ** What the theorems show

    The rules: the states reachable under each regime are exactly those its configuration enables, no dispute runs for ever,
    every one can be closed, and each refusal of the state machine is described ([Lifecycle]); suspense is empty when a dispute
    closes and no one is ever paid beyond the bounds of a claim ([Ledger]); the deadline loop ends with the date the rule
    names, for every calendar ([Deadlines]); loaded questionnaires are sound and answers are judged completely ([Questionnaire]);
    words cannot become markup, and a tenant's wording changes words only ([Notice], [TemplateFacts]).

    The use cases: [ServiceFacts] describes each step, [Frames] what it leaves alone, [Integrity] the transition every step
    of a dispute is, and the invariant of all stored data; [Guarantees] and [Contract] draw the consequences - an
    abstract specification [ApplyEvent] refines, integrity of every reachable store, closed disputes at rest, idempotent
    replay, atomic failure and the order of refusals. [CorrespondenceFacts], [Requests] and [DispatchFacts] do the same for
    emails, files and the outbox, against every interleaving of requests with the dispatcher; [Wakeup] adds the nudges
    between them - whoever queues an email nudges, and a nudged dispatcher empties the outbox without its timer. [Mailroom] and the [Scenario] of
    [Contract] play concrete stories, on which the theorems are instantiated.

    Authorization: the policy engine, cache included, decides exactly the written rules - separation of duties, ladders
    that stay inside their team, administration by the realm's role only, limits on amounts ([AuthzFacts]). The use
    cases are proved against the interface [ByTheRules], which the engine implements: every event an analyst applied was
    theirs to apply, and a final credit takes two people ([Duties]). Whatever operators and seeding do to the rows, the
    engine's cache never answers by old ones, the tables keep their constraints, and seeding again changes only versions
    ([Followed], [SeedFacts]).

    PostgreSQL: what a program over the port commits, the in-memory store would have done ([PgRefine]); a transaction
    never touches another tenant and is all or nothing ([PgContract]); the schema only moves forward, however many instances
    migrate it and wherever they die, and a stopped migration is finished by the next ([Migrate]); the gauges of both
    stores read the same ([Gauges]).

    The API: no operation that needs proof answers without it, a caller changes at most the rows of the tenant it proved,
    reading changes nothing, every operation ends with an answer, and an error reads the same whichever layer reports it
    ([ApiFacts], [ApiGuarantees]; played in [ApiScenario]). Keys, sessions and budgets have theirs in [Auth], [Keys],
    [Sessions] and [Limits]. A message on the wire holds the six lines of its header and its files, whatever is written in it
    ([Smtp]); nothing below a sensitive key is logged ([Redact]); [Config] and [TypedModel] describe what is accepted and
    what is made of an answer.

    ** Bounds and fuel

    Loops over lists are structural. The few that are not carry a measure, and a theorem says it is enough: the
    day count of [Due] is bounded by the business days it must find and the holidays in the way; the dispatcher's loop of
    passes by the emails waiting, and its loop of steps by an explicit effort; the sweep of an entity's ancestors by the number of entities; the decoder of JSON works on
    trees. Nothing is proved only under the assumption that a body returns.

    ** Classes and hypotheses

    Decimals, UUIDs, the banking cores, the relay, the model behind suggestions, the token verifier, the parameter binder, the
    contract validator, the policy language, the reader of YAML and PostgreSQL's collation and numerics are the code of others: classes, with laws where the source relies on
    documented behaviour. Every theorem with a hypothesis has an instance in which it holds.

    ** Not modelled

    Metrics, spans and log lines everywhere, and with them the telemetry package but for the redaction of the log. Start-up
    and shutdown, the flags of commands, connection pools, the load generator cmd/eval and
    the test helpers: input and output around what is modelled. The schema language of the contract and its
    formats (the validator is a parameter). The HTTP client and the relay that answer the model and the mailer are
    parameters, and so is what a migration's script does to the schema. In detail: a commit whose acknowledgement is lost is outside the PostgreSQL model; so is the lease that keeps two
    dispatchers apart, a function of the database. Paths the mux cleans or redirects are not requests here. Instants are
    written in one zone, strings hold bytes and are written as they are even where they are not UTF-8, and a body is
    one JSON value, of which the decoder would read only the first. The order in which Go walks a map is fixed where no result
    depends on it. The frontend, deployment and documents of the repository are in other languages.

    ** This file

    Results, a result monad, and the helpers every component shares. *)
From Stdlib Require Export ZArith Lia Ascii Sorting.Sorted.
From stdpp Require Export base tactics list gmap strings option.
From stdpp Require Import pretty.

#[global] Open Scope string_scope.
#[global] Open Scope list_scope.
#[global] Open Scope Z_scope.

(** ** Results

    A Go call returning [(T, error)] is a [res E T]: either the value, or the error with no value the
    caller looks at. *)
Inductive res (E A : Type) : Type :=
| Ok (a : A)
| Err (e : E).
Arguments Ok {E A} a.
Arguments Err {E A} e.

#[export] Instance res_ret {E} : MRet (res E) := fun A a => Ok a.
#[export] Instance res_bind {E} : MBind (res E) := fun A B f m =>
  match m with
  | Ok a => f a
  | Err e => Err e
  end.
#[export] Instance res_fmap {E} : FMap (res E) := fun A B f m =>
  match m with
  | Ok a => Ok (f a)
  | Err e => Err e
  end.

Definition is_ok {E A} (m : res E A) : bool :=
  match m with Ok _ => true | Err _ => false end.

(** The early return [if c { return err }]. *)
Definition guard_res {E} (c : bool) (e : E) : res E unit :=
  if c then Err e else Ok tt.

Lemma bind_ok {E A B} (f : A -> res E B) (m : res E A) b :
  mbind f m = Ok b <-> exists a, m = Ok a /\ f a = Ok b.
Proof.
  destruct m as [a|e]; split.
  - intros H; exists a; done.
  - intros (a' & [= <-] & H); done.
  - done.
  - intros (a' & [=] & _).
Qed.

Lemma bind_err {E A B} (f : A -> res E B) (m : res E A) e :
  mbind f m = Err e <-> m = Err e \/ exists a, m = Ok a /\ f a = Err e.
Proof.
  destruct m as [a|e']; cbn; split.
  - intros H; right; eauto.
  - intros [H|(a' & [= <-] & H)]; done.
  - intros [= ->]; by left.
  - intros [[= ->]|(a' & [=] & _)]; done.
Qed.

Lemma guard_res_ok {E} (c : bool) (e : E) u : guard_res c e = Ok u <-> c = false.
Proof. destruct c, u; cbn; split; done. Qed.

Lemma guard_res_err {E} (c : bool) (e e' : E) :
  guard_res c e = Err e' <-> c = true /\ e = e'.
Proof. destruct c; cbn; split; [intros [= ->]; done| intros [_ ->]; done | done | intros [[=] _]]. Qed.

(** [inv_res] turns a successful (or failed) chain of binds into the facts about its steps. *)
Ltac inv_res_step :=
  match goal with
  | H : mbind _ ?m = Ok _ |- _ =>
      let a := fresh "a" in let H1 := fresh H in
      apply bind_ok in H as (a & H1 & H)
  | H : guard_res _ _ = Ok _ |- _ => apply guard_res_ok in H
  | H : Ok _ = Ok _ |- _ => injection H; clear H; intros; subst
  | H : Err _ = Err _ |- _ => injection H; clear H; intros; subst
  | H : Ok _ = Err _ |- _ => discriminate H
  | H : Err _ = Ok _ |- _ => discriminate H
  | H : mret _ = Ok _ |- _ => injection H; clear H; intros; subst
  end.
Ltac inv_res := repeat inv_res_step; simplify_eq.

(** Destructs the scrutinee of the innermost [match] or [if] of a hypothesis or of the goal. *)
Ltac case_match_in H :=
  match type of H with
  | context [ match ?x with _ => _ end ] => destruct x eqn:?
  end.
Ltac split_ifs :=
  repeat match goal with
  | |- context [ if ?b then _ else _ ] => destruct b eqn:?
  end.

(** Membership in (or equality of) concrete values, by evaluation. *)
Ltac by_eval := apply (bool_decide_unpack _); vm_compute; exact I.

(** Boolean comparisons as propositions, for [lia]. *)
Ltac to_prop :=
  repeat match goal with
  | H : (_ <? _) = true |- _ => apply Z.ltb_lt in H
  | H : (_ <? _) = false |- _ => apply Z.ltb_ge in H
  | H : (_ <=? _) = true |- _ => apply Z.leb_le in H
  | H : (_ <=? _) = false |- _ => apply Z.leb_gt in H
  | H : (_ =? _) = true |- _ => apply Z.eqb_eq in H
  | H : (_ =? _) = false |- _ => apply Z.eqb_neq in H
  | H : (_ && _)%bool = true |- _ => apply andb_true_iff in H as [? ?]
  | H : (_ && _)%bool = false |- _ => apply andb_false_iff in H
  | H : (_ || _)%bool = true |- _ => apply orb_true_iff in H
  | H : (_ || _)%bool = false |- _ => apply orb_false_iff in H as [? ?]
  | H : negb _ = true |- _ => apply negb_true_iff in H
  | H : negb _ = false |- _ => apply negb_false_iff in H
  | H : bool_decide _ = true |- _ => apply bool_decide_eq_true in H
  | H : bool_decide _ = false |- _ => apply bool_decide_eq_false in H
  end.

(** ** Strings

    Go strings are byte strings; [String.string] is a list of bytes, so [len] is [String.length]. *)
Definition dquote : string := String (Ascii.ascii_of_nat 34) EmptyString.
(** [%q] of a string without characters that need escaping. *)
Definition quoted (s : string) : string := (dquote +:+ s +:+ dquote)%string.
Definition newline : string := String (Ascii.ascii_of_nat 10) EmptyString.
Definition show (z : Z) : string := pretty z.

Lemma str_app_inj_l (s s1 s2 : string) : (s +:+ s1 = s +:+ s2)%string -> s1 = s2.
Proof. induction s as [|c s IH]; cbn; [done|]. intros [= H]. by apply IH. Qed.

Lemma str_app_assoc (a b c : string) : ((a +:+ b) +:+ c = a +:+ (b +:+ c))%string.
Proof. induction a as [|x a IH]; cbn; [done|]. exact (f_equal (String x) IH). Qed.

Lemma str_length_app (a b : string) :
  String.length (a +:+ b)%string = (String.length a + String.length b)%nat.
Proof. induction a as [|x a IH]; cbn; [done|]. exact (f_equal S IH). Qed.

(** Two concatenations whose first parts have the same length agree part by part. *)
Lemma str_app_inj_length (a b c d : string) :
  String.length a = String.length b -> (a +:+ c = b +:+ d)%string -> a = b /\ c = d.
Proof.
  revert b. induction a as [|x a IH]; intros [|y b] Hl H; cbn in *; try done.
  injection H as -> H. injection Hl as Hl. destruct (IH b Hl H) as [-> ->]. done.
Qed.

(** [slices.Contains]. *)
Definition slices_contains `{EqDecision A} (l : list A) (a : A) : bool := bool_decide (a ∈ l).

Lemma slices_contains_spec `{EqDecision A} (l : list A) a : slices_contains l a = true <-> a ∈ l.
Proof. apply bool_decide_eq_true. Qed.

(** ** Sums of a list of integers *)
Definition sumZ {A} (f : A -> Z) (l : list A) : Z := foldr (fun a n => f a + n) 0 l.

Lemma sumZ_cons {A} (f : A -> Z) a l : sumZ f (a :: l) = f a + sumZ f l.
Proof. done. Qed.

Lemma sumZ_app {A} (f : A -> Z) l1 l2 : sumZ f (l1 ++ l2) = sumZ f l1 + sumZ f l2.
Proof.
  induction l1 as [|a l1 IH]; [done|].
  change (f a + sumZ f (l1 ++ l2) = f a + sumZ f l1 + sumZ f l2). lia.
Qed.

(** ** Sorting

    [sort.Slice] by a string key: insertion from the left, so equal keys keep their order. *)
Section sort_Slice.
Context {A : Type} (key : A -> string).

Fixpoint sort_insert (a : A) (l : list A) : list A :=
  match l with
  | [] => [a]
  | b :: l' => match String.compare (key a) (key b) with
               | Lt => a :: l
               | _ => b :: sort_insert a l'
               end
  end.
Definition sort_Slice (l : list A) : list A := foldl (fun l a => sort_insert a l) [] l.

Lemma sort_insert_perm a l : sort_insert a l ≡ₚ a :: l.
Proof.
  induction l as [|b l IH]; [done|]. cbn.
  destruct (String.compare _ _); [|done|]; rewrite IH; apply Permutation_swap.
Qed.

Lemma sort_Slice_perm l : sort_Slice l ≡ₚ l.
Proof.
  unfold sort_Slice. change l with ([] ++ l) at 2. generalize (@nil A) as acc.
  induction l as [|a l IH]; intros acc; cbn; [by rewrite app_nil_r|].
  rewrite IH, sort_insert_perm. apply Permutation_middle.
Qed.

Lemma elem_of_sort_Slice a l : a ∈ sort_Slice l <-> a ∈ l.
Proof. by rewrite sort_Slice_perm. Qed.

Lemma sort_Slice_nil l : sort_Slice l = [] <-> l = [].
Proof.
  split; intros H; [|by subst].
  apply Permutation_nil_r. by rewrite <- (sort_Slice_perm l), H.
Qed.

(** In order: no element before one with a smaller key. *)
Definition key_le (a b : A) : Prop := String.compare (key a) (key b) <> Gt.

Lemma sort_insert_sorted a l : Sorted key_le l -> Sorted key_le (sort_insert a l).
Proof.
  induction l as [|b l IH]; cbn; [repeat constructor|]. intros Hs.
  destruct (String.compare (key a) (key b)) eqn:E.
  1,3: apply Sorted_inv in Hs as [Hs Hb]; constructor; [by apply IH|].
  1,2: assert (key_le b a) by (unfold key_le; rewrite String.compare_antisym, E; done).
  1,2: destruct l as [|c l]; cbn; [by constructor|];
       destruct (String.compare (key a) (key c)); constructor; try done; by inversion Hb.
  constructor; [done|]. constructor. unfold key_le. by rewrite E.
Qed.

Lemma sort_Slice_sorted l : Sorted key_le (sort_Slice l).
Proof.
  unfold sort_Slice. assert (H : Sorted key_le (@nil A)) by constructor. revert H.
  generalize (@nil A) as acc. induction l as [|a l IH]; intros acc H; cbn; [done|].
  by apply IH, sort_insert_sorted.
Qed.
End sort_Slice.

(** ** [strings.TrimSpace]

    The white space of Unicode, as the bytes of its UTF-8 encodings. *)
Definition bytes (l : list nat) : string := foldr (fun n s => String (Ascii.ascii_of_nat n) s) EmptyString l.
Definition white_space : list string := map bytes
  ([[9]; [10]; [11]; [12]; [13]; [32]; [194; 133]; [194; 160]; [225; 154; 128]]
   ++ map (fun n => [226; 128; 128 + n])%nat (seq 0 11)
   ++ [[226; 128; 168]; [226; 128; 169]; [226; 128; 175]; [226; 129; 159]; [227; 128; 128]])%nat.

(** The rest of a text after a prefix. *)
Fixpoint cut_prefix (p s : string) : option string :=
  match p, s with
  | EmptyString, _ => Some s
  | String a p, String b s => if bool_decide (a = b) then cut_prefix p s else None
  | String _ _, EmptyString => None
  end.
Definition cut_one_of (ps : list string) (s : string) : option string :=
  foldr (fun p r => match cut_prefix p s with Some s' => Some s' | None => r end) None ps.
Fixpoint trim_with (fuel : nat) (ps : list string) (s : string) : string :=
  match fuel with
  | O => s
  | S fuel => match cut_one_of ps s with Some s' => trim_with fuel ps s' | None => s end
  end.
Fixpoint str_rev (s acc : string) : string :=
  match s with EmptyString => acc | String a s => str_rev s (String a acc) end.
Definition TrimSpace (s : string) : string :=
  let s := trim_with (String.length s) white_space s in
  str_rev (trim_with (String.length s) (map (fun p => str_rev p EmptyString) white_space) (str_rev s EmptyString)) EmptyString.
