(* ===== verification/Errs.v ===== *)
(** * Errs: classified errors ([internal/platform/errs/errs.go]).

    A Go [error] value is one of: a classified [*errs.Error]; an error that wraps another with
    [fmt.Errorf("...: %w")] (which is what [errs.Wrap] builds); or any other error, of which the program only
    ever reads the text. [errors.As] and [errors.Is] walk the wrap chain outermost first. *)
From S2P Require Import Prelude.

(** [errs.Kind]; the constants in their [iota] order. *)
Inductive Kind : Type :=
| Internal | Invalid | NotFound | Conflict | Unprocessable
| Unauthorized | Forbidden | Unavailable | RateLimited.
#[export] Instance Kind_eq_dec : EqDecision Kind.
Proof. solve_decision. Defined.

Record FieldError : Type := mkFieldError { Field : string; Message : string }.
#[export] Instance FieldError_eq_dec : EqDecision FieldError.
Proof. solve_decision. Defined.

Record Error : Type := mkError {
  EKind : Kind;
  ECode : string;
  EMsg : string;
  EFields : list FieldError
}.
#[export] Instance Error_eq_dec : EqDecision Error.
Proof. solve_decision. Defined.

Inductive error : Type :=
| EClass (e : Error)
| EWrap (ctx : string) (err : error)
| EPlain (msg : string).
#[export] Instance error_eq_dec : EqDecision error.
Proof. solve_decision. Defined.

(** A Go function returning [(A, error)]. *)
Abbreviation M := (res error).

(** The code registry [New] appends to and [Codes] reads: every kind a code was constructed with. *)
Abbreviation registry := (gmap string (list Kind)).
Definition internalCode : string := "internal".
Definition initial_registry : registry := {[ internalCode := [Internal] ]}.

Definition New (r : registry) (kind : Kind) (code msg : string) : registry * Error :=
  (<[code := default [] (r !! code) ++ [kind]]> r, mkError kind code msg []).

(** A package-level [var Err... = errs.New(...)]: the value, whatever the registry held before. *)
Definition sentinel (kind : Kind) (code msg : string) : Error :=
  (New initial_registry kind code msg).2.

Definition Codes (r : registry) : registry := (fun kinds => kinds) <$> r.

Fixpoint Error_string (err : error) : string :=
  match err with
  | EClass e => EMsg e
  | EWrap ctx err => ctx +:+ ": " +:+ Error_string err
  | EPlain msg => msg
  end.

(** The method [Is] of [*Error]: code and kind, never identity. *)
Definition Is (e t : Error) : bool :=
  bool_decide (ECode t = ECode e) && bool_decide (EKind t = EKind e).

(** [errors.Is] against a classified sentinel. *)
Fixpoint errors_is (err : error) (target : Error) : bool :=
  match err with
  | EClass e => Is e target
  | EWrap _ err => errors_is err target
  | EPlain _ => false
  end.

(** [errors.As] into a [*errs.Error]: the outermost classified error of the chain. *)
Fixpoint errors_as (err : error) : option Error :=
  match err with
  | EClass e => Some e
  | EWrap _ err => errors_as err
  | EPlain _ => None
  end.

Definition Wrap (err : error) (ctx : string) : error := EWrap ctx err.

Definition KindOf (err : error) : Kind :=
  match errors_as err with Some e => EKind e | None => Internal end.
Definition CodeOf (err : error) : string :=
  match errors_as err with Some e => ECode e | None => internalCode end.
Definition FieldsOf (err : error) : list FieldError :=
  match errors_as err with Some e => EFields e | None => [] end.
Definition UserMessage (err : error) : string :=
  match errors_as err with Some e => EMsg e | None => "" end.

Definition WithDetail (e : Error) (detail : string) : Error :=
  mkError (EKind e) (ECode e) (EMsg e +:+ ": " +:+ detail) (EFields e).
Definition WithFields (e : Error) (fields : list FieldError) : Error :=
  mkError (EKind e) (ECode e) (EMsg e) fields.

Definition Retryable (err : error) : bool :=
  match KindOf err with
  | Unavailable | RateLimited => true
  | Conflict => bool_decide (CodeOf err = "concurrent-update")
  | _ => false
  end.

(** Failing with a sentinel, or with one wrapped or detailed. *)
Definition fail {A} (e : Error) : M A := Err (EClass e).
Definition failw {A} (e : Error) (ctx : string) : M A := Err (Wrap (EClass e) ctx).

(** ** Facts *)

Lemma Is_spec e t : Is e t = true <-> ECode t = ECode e /\ EKind t = EKind e.
Proof. unfold Is. by rewrite andb_true_iff, !bool_decide_eq_true. Qed.

(** Whatever context is wrapped around an error, however often, a port classifies it the same way. *)
Lemma Wrap_transparent err ctx :
  KindOf (Wrap err ctx) = KindOf err /\ CodeOf (Wrap err ctx) = CodeOf err /\
  FieldsOf (Wrap err ctx) = FieldsOf err /\ UserMessage (Wrap err ctx) = UserMessage err /\
  Retryable (Wrap err ctx) = Retryable err.
Proof. done. Qed.

(** The copies keep satisfying [errors.Is] against everything their original satisfied it against. *)
Lemma WithFields_is e fields t : errors_is (EClass (WithFields e fields)) t = errors_is (EClass e) t.
Proof. done. Qed.
Lemma WithDetail_is e d t : errors_is (EClass (WithDetail e d)) t = errors_is (EClass e) t.
Proof. done. Qed.

(** [errors.Is] with a sentinel is decided by the kind and code the ports read. *)
Lemma errors_is_kind_code err t :
  errors_is err t = true <-> exists e, errors_as err = Some e /\ Is e t = true.
Proof.
  induction err as [e|ctx err IH|msg]; cbn; [|done|].
  - split; [eauto|]. by intros (e' & [= <-] & H).
  - split; [done|]. by intros (e' & [=] & _).
Qed.

Lemma errors_is_KindOf err t : errors_is err t = true -> KindOf err = EKind t /\ CodeOf err = ECode t.
Proof.
  rewrite errors_is_kind_code. intros (e & He & [Hc Hk]%Is_spec). unfold KindOf, CodeOf. by rewrite He.
Qed.

(** Every code [New] was called with is listed with the kind it was called with, and no code is lost. *)
Lemma New_registers r kind code msg k :
  k ∈ default [] (Codes (New r kind code msg).1 !! code) <-> k ∈ default [] (Codes r !! code) \/ k = kind.
Proof.
  unfold Codes, New. cbn. rewrite lookup_fmap, lookup_insert_eq, lookup_fmap. cbn.
  destruct (r !! code); cbn; rewrite ?elem_of_app, ?list_elem_of_singleton; set_solver.
Qed.

#[export] Hint Rewrite WithFields_is WithDetail_is : errs.
