(* ===== verification/GoTime.v ===== *)
(** * GoTime: the part of Go's [time] package the program uses.

    An instant is a number of nanoseconds since the Unix epoch (type [Z]); a [time.Location] is what its
    [lookup] returns for an instant in seconds: the offset from UTC in force and the half-open interval of
    instants it is in force for. [Date], [AddDate], [In(loc).Date()], [Weekday], [Format] and [Parse] are the
    library's, including the rule [Date] uses to pick an offset near a zone transition. *)
From S2P Require Import Prelude.

Abbreviation time := Z (only parsing).

Definition Nanosecond : Z := 1.
Definition Millisecond : Z := 1000000.
Definition Second : Z := 1000000000.
Definition Minute : Z := 60 * Second.
Definition Hour : Z := 60 * Minute.
Definition Day_seconds : Z := 86400.

(** ** The proleptic Gregorian calendar, by day number (day 0 is 1970-01-01). *)
Definition days_from_civil (y m d : Z) : Z :=
  let y' := if m <=? 2 then y - 1 else y in
  let era := y' / 400 in
  let yoe := y' mod 400 in
  let mp := if 2 <? m then m - 3 else m + 9 in
  let doy := (153 * mp + 2) / 5 + d - 1 in
  let doe := yoe * 365 + yoe / 4 - yoe / 100 + doy in
  era * 146097 + doe - 719468.

Definition civil_from_days (n : Z) : Z * Z * Z :=
  let z := n + 719468 in
  let era := z / 146097 in
  let doe := z mod 146097 in
  let yoe := (doe - doe / 1460 + doe / 36524 - doe / 146096) / 365 in
  let doy := doe - (365 * yoe + yoe / 4 - yoe / 100) in
  let mp := (5 * doy + 2) / 153 in
  let d := doy - (153 * mp + 2) / 5 + 1 in
  let m := if mp <? 10 then mp + 3 else mp - 9 in
  let y := yoe + era * 400 in
  (if m <=? 2 then y + 1 else y, m, d).

(** ** Locations *)
Record Location : Type := mkLocation { loc_lookup : Z -> Z * Z * Z }.

Definition loc_offset (loc : Location) (sec : Z) : Z := (loc_lookup loc sec).1.1.

Definition UTC : Location := mkLocation (fun _ => (0, - 2 ^ 63, 2 ^ 63 - 1)).
(** [time.FixedZone]. *)
Definition FixedZone (offset : Z) : Location := mkLocation (fun _ => (offset, - 2 ^ 63, 2 ^ 63 - 1)).

Definition secs (t : time) : Z := t / Second.
Definition nanos (t : time) : Z := t mod Second.
Definition local_secs (loc : Location) (t : time) : Z := secs t + loc_offset loc (secs t).
(** The day number and the seconds since midnight an instant shows on a wall clock of [loc]. *)
Definition local_day (loc : Location) (t : time) : Z := local_secs loc t / Day_seconds.
Definition local_clock (loc : Location) (t : time) : Z := local_secs loc t mod Day_seconds.
Definition date_of (loc : Location) (t : time) : Z * Z * Z := civil_from_days (local_day loc t).
(** [time.Weekday]: Sunday is 0, Saturday 6. *)
Definition weekday (day : Z) : Z := (day + 4) mod 7.

(** The offset [time.Date] settles on for a wall-clock reading given as seconds. *)
Definition resolve_offset (loc : Location) (unix : Z) : Z :=
  let '(offset, start, stop) := loc_lookup loc unix in
  if offset =? 0 then 0
  else
    let utc := unix - offset in
    if (utc <? start) || (stop <=? utc) then loc_offset loc utc else offset.

Definition Date (y mo d h mi s ns : Z) (loc : Location) : time :=
  let y1 := y + (mo - 1) / 12 in
  let m1 := (mo - 1) mod 12 + 1 in
  let days := days_from_civil y1 m1 1 + (d - 1) in
  let unix := days * Day_seconds + h * 3600 + mi * 60 + s + ns / Second in
  (unix - resolve_offset loc unix) * Second + ns mod Second.

Definition AddDate (loc : Location) (t : time) (years months days : Z) : time :=
  let '(y, m, d) := date_of loc t in
  let c := local_clock loc t in
  Date (y + years) (m + months) (d + days) (c / 3600) (c / 60 mod 60) (c mod 60) (nanos t) loc.

(** ** Formatting and parsing *)
Definition digit (n : Z) : string := String (Ascii.ascii_of_nat (48 + Z.to_nat (n mod 10))) EmptyString.
Definition pad2 (n : Z) : string := digit (n / 10) +:+ digit n.
(** A year as [2006] prints it: at least four digits. *)
Definition pad4 (n : Z) : string :=
  if (0 <=? n) && (n <? 10000)
  then digit (n / 1000) +:+ digit (n / 100) +:+ digit (n / 10) +:+ digit n
  else if n <? 0
       then "-" +:+ (if n <? - 9999 then show (- n)
                     else digit (- n / 1000) +:+ digit (- n / 100) +:+ digit (- n / 10) +:+ digit (- n))
       else show n.

Definition format_ymd (ymd : Z * Z * Z) : string :=
  let '(y, m, d) := ymd in pad4 y +:+ ("-" +:+ pad2 m +:+ "-" +:+ pad2 d).
(** [Format("2006-01-02")] of a day. *)
Definition format_day (day : Z) : string := format_ymd (civil_from_days day).

Definition month_names : list string :=
  ["January"; "February"; "March"; "April"; "May"; "June"; "July"; "August"; "September"; "October";
   "November"; "December"].
(** [Format("2 January 2006")]. *)
Definition format_long (loc : Location) (t : time) : string :=
  let '(y, m, d) := date_of loc t in
  show d +:+ " " +:+ default "" (month_names !! Z.to_nat (m - 1)) +:+ " " +:+ pad4 y.

Definition is_leap (y : Z) : bool :=
  (y mod 4 =? 0) && (negb (y mod 100 =? 0) || (y mod 400 =? 0)).
Definition days_in (m y : Z) : Z :=
  if m =? 2 then (if is_leap y then 29 else 28)
  else if (m =? 4) || (m =? 6) || (m =? 9) || (m =? 11) then 30 else 31.

Definition digit_value (a : Ascii.ascii) : option Z :=
  let n := Z.of_nat (Ascii.nat_of_ascii a) in
  if (48 <=? n) && (n <=? 57) then Some (n - 48) else None.

(** [time.Parse("2006-01-02", s)]: four digits, two, two, a real day of a real month, nothing after it. *)
Definition parse_ymd (s : string) : option (Z * Z * Z) :=
  match s with
  | String a (String b (String c (String d (String h1 (String e (String f (String h2
      (String g (String i EmptyString))))))))) =>
      if bool_decide (h1 = "-"%char) && bool_decide (h2 = "-"%char) then
        y3 ← digit_value a; y2 ← digit_value b; y1 ← digit_value c; y0 ← digit_value d;
        m1 ← digit_value e; m0 ← digit_value f; d1 ← digit_value g; d0 ← digit_value i;
        let y := y3 * 1000 + y2 * 100 + y1 * 10 + y0 in
        let m := m1 * 10 + m0 in
        let dd := d1 * 10 + d0 in
        if (1 <=? m) && (m <=? 12) && (1 <=? dd) && (dd <=? days_in m y) then Some (y, m, dd) else None
      else None
  | _ => None
  end.

(** [t.Truncate(d)] for a [d] that divides the seconds of the zero time. *)
Definition Truncate (t d : Z) : time := t - t mod d.

(** ** Facts about the calendar *)

Lemma yoe_range doe : 0 <= doe < 146097 ->
  let yoe := (doe - doe / 1460 + doe / 36524 - doe / 146096) / 365 in
  0 <= yoe <= 399 /\ 0 <= doe - (365 * yoe + yoe / 4 - yoe / 100) <= 365.
Proof.
  intros H yoe.
  assert (Hy : 0 <= yoe <= 399) by (subst yoe; Z.to_euclidean_division_equations; lia).
  split; [done|]. subst yoe. Z.to_euclidean_division_equations. lia.
Qed.

Lemma month_range doy : 0 <= doy <= 365 -> 0 <= (5 * doy + 2) / 153 <= 11.
Proof. intros H. Z.to_euclidean_division_equations. lia. Qed.

Lemma month_day_range doy : 0 <= doy <= 365 ->
  let mp := (5 * doy + 2) / 153 in 1 <= doy - (153 * mp + 2) / 5 + 1 <= 31.
Proof. intros H mp. subst mp. Z.to_euclidean_division_equations. lia. Qed.

Lemma civil_from_days_range n y m d :
  civil_from_days n = (y, m, d) -> 1 <= m <= 12 /\ 1 <= d <= 31.
Proof.
  unfold civil_from_days. set (doe := (n + 719468) mod 146097).
  assert (Hd : 0 <= doe < 146097) by (apply Z.mod_pos_bound; lia).
  pose proof (yoe_range doe Hd) as [_ Hdoy].
  set (doy := doe - _) in *. clearbody doy.
  pose proof (month_range doy Hdoy) as Hm. pose proof (month_day_range doy Hdoy) as Hdd. cbv zeta in Hdd.
  set (mp := (5 * doy + 2) / 153) in *. clearbody mp.
  intros [= _ <- <-]. destruct (mp <? 10) eqn:E; to_prop; lia.
Qed.

(** The day number is recovered from the date it shows: dates are a faithful name for days. *)
Lemma days_from_civil_from_days n :
  let '(y, m, d) := civil_from_days n in days_from_civil y m d = n.
Proof.
  unfold civil_from_days, days_from_civil.
  set (era := (n + 719468) / 146097). set (doe := (n + 719468) mod 146097).
  assert (Hz : n = era * 146097 + doe - 719468).
  { subst era doe. pose proof (Z.div_mod (n + 719468) 146097). lia. }
  assert (Hd : 0 <= doe < 146097) by (apply Z.mod_pos_bound; lia).
  pose proof (yoe_range doe Hd) as [Hy Hdoy]. cbv zeta in Hy, Hdoy.
  set (yoe := (doe - doe / 1460 + doe / 36524 - doe / 146096) / 365) in *.
  clearbody yoe. rewrite Hz. clearbody era doe.
  set (doy := doe - (365 * yoe + yoe / 4 - yoe / 100)) in *.
  assert (Hdoe : doe = 365 * yoe + yoe / 4 - yoe / 100 + doy) by (subst doy; lia). clearbody doy.
  pose proof (month_range doy Hdoy) as Hm.
  set (mp := (5 * doy + 2) / 153) in *. clearbody mp.
  assert (Hq : (yoe + era * 400) / 400 = era) by (Z.to_euclidean_division_equations; lia).
  assert (Hr : (yoe + era * 400) mod 400 = yoe) by (Z.to_euclidean_division_equations; lia).
  destruct (mp <? 10) eqn:E; to_prop.
  - replace (mp + 3 <=? 2) with false by (symmetry; apply Z.leb_gt; lia).
    replace (2 <? mp + 3) with true by (symmetry; apply Z.ltb_lt; lia).
    rewrite Hq, Hr. replace (mp + 3 - 3) with mp by lia. lia.
  - replace (mp - 9 <=? 2) with true by (symmetry; apply Z.leb_le; lia).
    replace (2 <? mp - 9) with false by (symmetry; apply Z.ltb_ge; lia).
    replace (yoe + era * 400 + 1 - 1) with (yoe + era * 400) by lia.
    rewrite Hq, Hr. replace (mp - 9 + 9) with mp by lia. lia.
Qed.

Lemma civil_from_days_inj a b : civil_from_days a = civil_from_days b -> a = b.
Proof.
  intros H. pose proof (days_from_civil_from_days a) as Ha. pose proof (days_from_civil_from_days b) as Hb.
  rewrite H in Ha. destruct (civil_from_days b) as [[y m] d]. congruence.
Qed.

(** Days whose year prints with four digits. *)
Definition four_digit_year (day : Z) : Prop := 0 <= (civil_from_days day).1.1 < 10000.

Lemma digit_inj a b : digit a = digit b -> a mod 10 = b mod 10.
Proof.
  unfold digit. intros [= H].
  assert (Ha : (48 + Z.to_nat (a mod 10) < 256)%nat) by (pose proof (Z.mod_pos_bound a 10); lia).
  assert (Hb : (48 + Z.to_nat (b mod 10) < 256)%nat) by (pose proof (Z.mod_pos_bound b 10); lia).
  apply (f_equal Ascii.nat_of_ascii) in H. rewrite !Ascii.nat_ascii_embedding in H by done.
  pose proof (Z.mod_pos_bound a 10). pose proof (Z.mod_pos_bound b 10). lia.
Qed.

Lemma digits_app_inj a b s t : (digit a +:+ s = digit b +:+ t)%string -> a mod 10 = b mod 10 /\ s = t.
Proof. intros H. apply str_app_inj_length in H as [H ->]; [|done]. split; [by apply digit_inj|done]. Qed.

Lemma pad2_inj a b s t : 0 <= a < 100 -> 0 <= b < 100 -> (pad2 a +:+ s = pad2 b +:+ t)%string -> a = b /\ s = t.
Proof.
  intros Ha Hb. unfold pad2. rewrite !str_app_assoc. intros H.
  apply digits_app_inj in H as [H1 H]. apply digits_app_inj in H as [H2 ->]. split; [|done].
  Z.to_euclidean_division_equations. lia.
Qed.

Lemma pad4_inj a b s t : 0 <= a < 10000 -> 0 <= b < 10000 ->
  (pad4 a +:+ s = pad4 b +:+ t)%string -> a = b /\ s = t.
Proof.
  intros Ha Hb. unfold pad4.
  replace ((0 <=? a) && (a <? 10000)) with true
    by (symmetry; apply andb_true_iff; split; [apply Z.leb_le|apply Z.ltb_lt]; lia).
  replace ((0 <=? b) && (b <? 10000)) with true
    by (symmetry; apply andb_true_iff; split; [apply Z.leb_le|apply Z.ltb_lt]; lia).
  rewrite !str_app_assoc. intros H.
  apply digits_app_inj in H as [H1 H]. apply digits_app_inj in H as [H2 H].
  apply digits_app_inj in H as [H3 H]. apply digits_app_inj in H as [H4 ->]. split; [|done].
  Z.to_euclidean_division_equations. lia.
Qed.

Lemma format_day_inj a b : four_digit_year a -> four_digit_year b -> format_day a = format_day b -> a = b.
Proof.
  unfold four_digit_year, format_day. intros Ha Hb H. apply civil_from_days_inj.
  destruct (civil_from_days a) as [[y m] d] eqn:Ea. destruct (civil_from_days b) as [[y' m'] d'] eqn:Eb.
  apply civil_from_days_range in Ea as [Hm Hd]. apply civil_from_days_range in Eb as [Hm' Hd'].
  cbn in Ha, Hb. unfold format_ymd in H.
  apply pad4_inj in H as [-> H]; [|lia|lia]. apply str_app_inj_l in H.
  apply pad2_inj in H as [-> H]; [|lia|lia]. apply str_app_inj_l in H.
  change (pad2 d +:+ EmptyString = pad2 d' +:+ EmptyString)%string in H.
  apply pad2_inj in H as [-> _]; [done|lia|lia].
Qed.

(** ** Midnights

    [midnight loc day] is the instant [time.Date] gives for the start of a day. In a zone that never skips
    midnight ([regular]) that instant reads as 00:00:00 of that day, and adding one day moves from one
    midnight to the next. *)
Definition midnight (loc : Location) (day : Z) : time :=
  (day * Day_seconds - resolve_offset loc (day * Day_seconds)) * Second.

Class Regular (loc : Location) : Prop := {
  midnight_day : forall day, local_day loc (midnight loc day) = day;
  midnight_clock : forall day, local_clock loc (midnight loc day) = 0
}.

Lemma days_from_civil_add y m d k : days_from_civil y m 1 + (d - 1 + k) = days_from_civil y m d + k.
Proof. unfold days_from_civil. lia. Qed.

(** A date plus a number of days, at midnight: [time.Date] normalises to the right day. *)
Lemma Date_midnight loc n k :
  let '(y, m, d) := civil_from_days n in Date y m (d + k) 0 0 0 0 loc = midnight loc (n + k).
Proof.
  pose proof (days_from_civil_from_days n) as Hn.
  destruct (civil_from_days n) as [[y m] d] eqn:E.
  pose proof (civil_from_days_range n y m d E) as [Hm Hd].
  unfold Date, midnight.
  replace ((m - 1) / 12) with 0 by (symmetry; apply Z.div_small; lia).
  replace ((m - 1) mod 12) with (m - 1) by (symmetry; apply Z.mod_small; lia).
  change (0 / Second) with 0. change (0 mod Second) with 0.
  replace (m - 1 + 1) with m by lia. rewrite !Z.add_0_r.
  replace (d + k - 1) with (d - 1 + k) by lia.
  rewrite days_from_civil_add, Hn. change (0 * 3600) with 0. change (0 * 60) with 0. rewrite ?Z.add_0_r. done.
Qed.

Lemma nanos_midnight loc day : nanos (midnight loc day) = 0.
Proof. unfold nanos, midnight. apply Z.mod_mul. done. Qed.

Lemma AddDate_midnight `{Regular loc} day k :
  AddDate loc (midnight loc day) 0 0 k = midnight loc (day + k).
Proof.
  unfold AddDate, date_of. rewrite midnight_day, midnight_clock, nanos_midnight.
  pose proof (Date_midnight loc day k) as HD. destruct (civil_from_days day) as [[y m] d].
  rewrite !Z.add_0_r. exact HD.
Qed.

#[export] Instance fixed_zone_regular off : Regular (FixedZone off).
Proof.
  assert (Hr : forall u, resolve_offset (FixedZone off) u = off).
  { intros u. unfold resolve_offset, FixedZone, loc_offset. cbn.
    destruct (off =? 0) eqn:E; to_prop; [done|]. by destruct (_ || _). }
  assert (Hs : forall day, local_secs (FixedZone off) (midnight (FixedZone off) day) = day * Day_seconds).
  { intros day. unfold local_secs, midnight, secs. rewrite Hr. change (loc_offset (FixedZone off) _) with off.
    rewrite Z.div_mul by done. lia. }
  split; intros day; [unfold local_day|unfold local_clock]; rewrite Hs; [by apply Z.div_mul|by apply Z.mod_mul].
Qed.

#[export] Instance UTC_regular : Regular UTC := fixed_zone_regular 0.

(** The zero [time.Time] (midnight of 1 January of year 1), and [IsZero]. *)
Definition zero_time : time := -62135596800 * Second.
Definition IsZero (t : time) : bool := t =? zero_time.
