(* ===== verification/GoJson.v ===== *)
(** * GoJson: the part of [encoding/json] the program uses.

    A JSON text is either not JSON at all or a tree; the tree keeps object members in textual order (with
    repeats) and number literals as written. Decoding follows the library: [null] leaves a value alone, member
    names match exactly or by case folding, a mismatched member is skipped and makes the whole call fail, and a
    number met as [any] becomes a [float64], so it is rounded and printed back in its shortest form. *)
From Stdlib Require Import SpecFloat.
From S2P Require Import Prelude.

Inductive json : Type :=
| JNull
| JBool (b : bool)
| JNumber (lit : string)
| JString (s : string)
| JArray (l : list json)
| JObject (members : list (string * json)).

(** [json.RawMessage], [[]byte]: empty, a JSON text, or bytes that are not JSON. *)
Inductive RawMessage : Type :=
| RawEmpty
| RawJSON (j : json)
| RawInvalid (text : string).

(** ** Numbers *)

(** A literal as a sign, a decimal mantissa and a power of ten. *)
Record decimal_literal : Type := mkLiteral { lit_neg : bool; lit_mant : Z; lit_exp : Z }.

Definition digit_of (a : Ascii.ascii) : option Z :=
  let n := Z.of_nat (Ascii.nat_of_ascii a) - 48 in
  if (0 <=? n) && (n <=? 9) then Some n else None.

(** Digits from the front of a text: their value, how many, and the rest. *)
Fixpoint scan_digits (s : string) (acc : Z) (count : nat) : Z * nat * string :=
  match s with
  | EmptyString => (acc, count, s)
  | String a s' =>
      match digit_of a with
      | Some d => scan_digits s' (acc * 10 + d) (S count)
      | None => (acc, count, s)
      end
  end.

Definition strip_sign (s : string) : bool * string :=
  match s with
  | String a s' =>
      if bool_decide (a = "-"%char) then (true, s')
      else if bool_decide (a = "+"%char) then (false, s') else (false, s)
  | EmptyString => (false, s)
  end.

Definition scan_literal (s : string) : option decimal_literal :=
  let '(neg, s) := strip_sign s in
  let '(ip, n, s) := scan_digits s 0 0 in
  if bool_decide (n = 0%nat) then None else
  let '(mant, frac, s) :=
    match s with
    | String a s' => if bool_decide (a = "."%char) then let '(m, k, s) := scan_digits s' ip 0 in (m, Z.of_nat k, s)
                     else (ip, 0, s)
    | EmptyString => (ip, 0, s)
    end in
  match s with
  | EmptyString => Some (mkLiteral neg mant (- frac))
  | String a s' =>
      if bool_decide (a = "e"%char) || bool_decide (a = "E"%char) then
        let '(eneg, s') := strip_sign s' in
        let '(e, k, s') := scan_digits s' 0 0 in
        if bool_decide (k = 0%nat) || negb (bool_decide (s' = EmptyString)) then None
        else Some (mkLiteral neg mant ((if eneg then - e else e) - frac))
      else None
  end.

(** The [float64] nearest to [mant * 10^exp], ties to even. *)
Definition nearest_float (l : decimal_literal) : spec_float :=
  match lit_mant l with
  | Zpos m =>
      if 0 <=? lit_exp l then
        match Zpos m * 10 ^ lit_exp l with
        | Zpos p => binary_normalize 53 1024 (if lit_neg l then Zneg p else Zpos p) 0 (lit_neg l)
        | _ => S754_nan
        end
      else
        match 10 ^ (- lit_exp l) with
        | Zpos p => SFdiv 53 1024 (S754_finite (lit_neg l) m 0) (S754_finite false p 0)
        | _ => S754_nan
        end
  | _ => S754_zero (lit_neg l)
  end.

(** [strconv.ParseFloat(lit, 64)]: [None] when the literal is out of range. *)
Definition ParseFloat (lit : string) : option spec_float :=
  match scan_literal lit with
  | Some l =>
      match nearest_float l with
      | S754_infinity _ | S754_nan => None
      | f => Some f
      end
  | None => None
  end.

Definition decimal_digits (n : Z) : Z := Z.of_nat (String.length (show n)).

(** The [n]-digit decimal nearest to [m * 2^e], as a mantissa and a power of ten. *)
Definition round_digits (n m e : Z) : Z * Z :=
  let '(num, den) := if 0 <=? e then (m * 2 ^ e, 1) else (m, 2 ^ (- e)) in
  let mag := if den <=? num then decimal_digits (num / den)
             else 1 - decimal_digits (den / num) in
  let k := mag - n in
  let '(num', den') := if 0 <=? k then (num, den * 10 ^ k) else (num * 10 ^ (- k), den) in
  ((2 * num' + den') / (2 * den'), k).

(** The shortest decimal that reads back as the same number. *)
Fixpoint shortest_from (fuel : nat) (n : Z) (m e : Z) : Z * Z :=
  let '(d, k) := round_digits n m e in
  match fuel with
  | O => (d, k)
  | S fuel =>
      match nearest_float (mkLiteral false d k), nearest_float (mkLiteral false m 0) with
      | S754_finite _ m' e', _ =>
          if (if bool_decide (e <= e') then bool_decide (Zpos m' * 2 ^ (e' - e) = m)
              else bool_decide (Zpos m' = m * 2 ^ (e - e'))) then (d, k)
          else shortest_from fuel (n + 1) m e
      | _, _ => shortest_from fuel (n + 1) m e
      end
  end.

Fixpoint strip_zeros (fuel : nat) (d k : Z) : Z * Z :=
  match fuel with
  | O => (d, k)
  | S fuel => if bool_decide (d mod 10 = 0) && bool_decide (d <> 0) then strip_zeros fuel (d / 10) (k + 1) else (d, k)
  end.

Definition zeros (n : Z) : string := String.concat "" (repeat "0" (Z.to_nat n)).
Definition str_take (n : Z) (s : string) : string := String.substring 0 (Z.to_nat n) s.
Definition str_drop (n : Z) (s : string) : string :=
  String.substring (Z.to_nat n) (String.length s - Z.to_nat n) s.

(** A [float64] as [encoding/json] prints it: shortest, in exponent form below 1e-6 and from 1e21. *)
Definition FormatFloat (f : spec_float) : string :=
  match f with
  | S754_finite neg m e =>
      let '(d, k) := shortest_from 17 1 (Zpos m) e in
      let '(d, k) := strip_zeros 40 d k in
      let digits := show d in
      let len := Z.of_nat (String.length digits) in
      let x := len + k in  (* the value is 0.digits * 10^x *)
      let body :=
        if (x <? -5) || (21 <? x) then
          str_take 1 digits +:+ (if len =? 1 then "" else "." +:+ str_drop 1 digits)
          +:+ "e" +:+ (if x - 1 <? 0 then "-" else "+") +:+ show (Z.abs (x - 1))
        else if x <=? 0 then "0." +:+ zeros (- x) +:+ digits
        else if len <=? x then digits +:+ zeros (x - len)
        else str_take x digits +:+ "." +:+ str_drop x digits in
      (if neg then "-" else "") +:+ body
  | S754_zero true => "-0"
  | _ => "0"
  end.

Definition float_text (lit : string) : option string := FormatFloat <$> ParseFloat lit.

(** ** Objects *)

(** The last member of a name wins when an object is decoded into a map. *)
Definition members_map {A} (members : list (string * A)) : gmap string A :=
  foldl (fun m kv => <[kv.1 := kv.2]> m) ∅ members.

Fixpoint insert_member {A} (k : string) (a : A) (l : list (string * A)) : list (string * A) :=
  match l with
  | [] => [(k, a)]
  | (k', a') :: l' =>
      match String.compare k k' with
      | Lt => (k, a) :: l
      | Eq => (k, a) :: l'
      | Gt => (k', a') :: insert_member k a l'
      end
  end.

(** The members of a Go map as [json.Marshal] writes them: sorted by key, each once. *)
Definition sorted_members {A} (members : list (string * A)) : list (string * A) :=
  foldl (fun l kv => insert_member kv.1 kv.2 l) [] members.

(** A tree decoded into an [any] and marshalled again; [None] when a number overflows a [float64]. *)
Fixpoint through_any (j : json) : option json :=
  match j with
  | JNumber lit => JNumber <$> float_text lit
  | JArray l =>
      JArray <$> (fix go (l : list json) : option (list json) :=
        match l with
        | [] => Some []
        | j :: l => j' ← through_any j; l' ← go l; Some (j' :: l')
        end) l
  | JObject ms =>
      (fun ms => JObject (sorted_members ms)) <$> (fix go (l : list (string * json)) : option (list (string * json)) :=
        match l with
        | [] => Some []
        | (k, j) :: l => j' ← through_any j; l' ← go l; Some ((k, j') :: l')
        end) ms
  | _ => Some j
  end.

(** ** Decoding into typed values

    A decoder takes the value already there and returns the new value and whether every part fitted. *)
Definition decoder (A : Type) : Type := json -> A -> A * bool.

Definition into_string : decoder string := fun j s =>
  match j with JNull => (s, true) | JString s' => (s', true) | _ => (s, false) end.
Definition into_bool : decoder bool := fun j b =>
  match j with JNull => (b, true) | JBool b' => (b', true) | _ => (b, false) end.
Definition into_float : decoder string := fun j s =>
  match j with
  | JNull => (s, true)
  | JNumber lit => match float_text lit with Some s' => (s', true) | None => (s, false) end
  | _ => (s, false)
  end.
Definition into_pointer {A} (zero : A) (d : decoder A) : decoder (option A) := fun j p =>
  match j with
  | JNull => (None, true)
  | _ => let '(a, ok) := d j (default zero p) in (Some a, ok)
  end.
(** A map: [None] is Go's nil map. Every member is decoded into a fresh element. *)
Definition into_map {A} (zero : A) (d : decoder A) : decoder (option (gmap string A)) := fun j m =>
  match j with
  | JNull => (None, true)
  | JObject ms =>
      let '(m', ok) := foldl (fun '(m, ok) '(k, j) => let '(a, ok') := d j zero in (<[k := a]> m, ok && ok'))
                             (default ∅ m, true) ms in
      (Some m', ok)
  | _ => (m, false)
  end.
Definition into_slice {A} (zero : A) (d : decoder A) : decoder (list A) := fun j l =>
  match j with
  | JNull => ([], true)
  | JArray js =>
      (fix go (js : list json) (l : list A) : list A * bool :=
        match js with
        | [] => ([], true)
        | j :: js =>
            let '(a, ok) := d j (default zero (head l)) in
            let '(rest, ok') := go js (tail l) in (a :: rest, ok && ok')
        end) js l
  | _ => (l, false)
  end.

(** Case folding of a member name: ASCII letters, and the two non-ASCII letters that fold to one (the Kelvin
    sign and the long s). *)
Definition upper (a : Ascii.ascii) : Ascii.ascii :=
  let n := Ascii.nat_of_ascii a in
  if (Nat.leb 97 n && Nat.leb n 122)%bool then Ascii.ascii_of_nat (n - 32) else a.
Fixpoint foldName (s : string) : string :=
  match s with
  | EmptyString => EmptyString
  | String a s' =>
      match Ascii.nat_of_ascii a, s' with
      | 226%nat, String b (String c s'') =>
          if (Nat.eqb (Ascii.nat_of_ascii b) 132 && Nat.eqb (Ascii.nat_of_ascii c) 170)%bool
          then String "K"%char (foldName s'') else String a (foldName s')
      | 197%nat, String b s'' =>
          if Nat.eqb (Ascii.nat_of_ascii b) 191 then String "S"%char (foldName s'') else String a (foldName s')
      | _, _ => String (upper a) (foldName s')
      end
  end.

(** The fields of a struct: each a member name and how its value is decoded into the struct. *)
Definition find_field {R} (fields : list (string * decoder R)) (k : string) : option (decoder R) :=
  match List.find (fun f => bool_decide (f.1 = k)) fields with
  | Some f => Some f.2
  | None => snd <$> List.find (fun f => bool_decide (foldName f.1 = foldName k)) fields
  end.
Definition struct_member {R} (fields : list (string * decoder R)) (acc : R * bool) (kv : string * json) : R * bool :=
  match find_field fields kv.1 with
  | Some d => (fun r => (r.1, acc.2 && r.2)) (d kv.2 acc.1)
  | None => acc
  end.
Definition into_struct {R} (fields : list (string * decoder R)) : decoder R := fun j r =>
  match j with
  | JNull => (r, true)
  | JObject ms => foldl (struct_member fields) (r, true) ms
  | _ => (r, false)
  end.

(** A decoder of one field, through a getter and a setter. *)
Definition field {R A} (get : R -> A) (set : R -> A -> R) (d : decoder A) : decoder R := fun j r =>
  (fun a => (set r a.1, a.2)) (d j (get r)).

(** [json.Unmarshal(raw, &v)]: the value when every part of the text fitted. *)
Definition Unmarshal {A} (d : decoder A) (raw : RawMessage) (zero : A) : option A :=
  match raw with
  | RawJSON j => let '(a, ok) := d j zero in if (ok : bool) then Some a else None
  | RawEmpty | RawInvalid _ => None
  end.

Example numbers_as_any :
  (float_text <$> ["0.1"; "50.00"; "1e21"; "1E-7"; "123456789012345678"; "1e999"; "-12.50"; "9007199254740993"; "0.000001"; "100"; "5e-324"; "1.7976931348623157e308"])
  = [Some "0.1"; Some "50"; Some "1e+21"; Some "1e-7"; Some "123456789012345680"; None; Some "-12.5";
     Some "9007199254740992"; Some "0.000001"; Some "100"; Some "5e-324"; Some "1.7976931348623157e+308"].
Proof. vm_compute. reflexivity. Qed.

(** The text of the library's own errors is not modelled; every failure to decode reads the same. *)
Definition json_error : string := "json: the text does not fit the type".
