(* ===== verification/Ext.v ===== *)
(** * Ext: what the program uses of packages outside the repository.

    [shopspring/decimal] and [google/uuid] are parameters: classes of operations over an abstract carrier, and
    for decimals a class of laws stating the documented behaviour (exact arithmetic and comparison of the
    denoted numbers). Two decimals may denote the same number at different precisions ([1.0] and [1.00]), so
    the equivalence is [deq], coarser than equality. Witnesses use the instances at the end. *)
From Stdlib Require Import QArith Qround Lqa.
From stdpp Require Import pretty.
From S2P Require Import Prelude.
Local Open Scope Z_scope.

(** ** Decimals *)
Class Decimal : Type := {
  dec : Type;
  dec_eq_dec :: EqDecision dec;
  dec_zero : dec;
  NewFromInt : Z -> dec;
  NewFromString : string -> option dec;
  Shift : dec -> Z -> dec;
  dec_add : dec -> dec -> dec;
  dec_sub : dec -> dec -> dec;
  dec_neg : dec -> dec;
  dec_cmp : dec -> dec -> comparison;
  dec_sign : dec -> Z;
  IntPart : dec -> Z;
  StringFixed : dec -> Z -> string
}.

Class DecimalLaws (DC : Decimal) : Type := {
  dval : dec -> Q;
  dval_zero : (dval dec_zero == 0)%Q;
  dval_int : forall z, (dval (NewFromInt z) == inject_Z z)%Q;
  dval_shift : forall d n, (dval (Shift d n) == dval d * Qpower (inject_Z 10) n)%Q;
  dval_add : forall a b, (dval (dec_add a b) == dval a + dval b)%Q;
  dval_sub : forall a b, (dval (dec_sub a b) == dval a - dval b)%Q;
  dval_neg : forall a, (dval (dec_neg a) == - dval a)%Q;
  dval_cmp : forall a b, dec_cmp a b = (dval a ?= dval b)%Q;
  dval_sign : forall a, dec_sign a = match (dval a ?= 0)%Q with Lt => -1 | Eq => 0 | Gt => 1 end
}.

Section decimal_ops.
Context `{DC : Decimal}.

Definition IsPositive (d : dec) : bool := dec_sign d =? 1.
Definition IsNegative (d : dec) : bool := dec_sign d =? -1.
Definition GreaterThan (a b : dec) : bool := match dec_cmp a b with Gt => true | _ => false end.
Definition LessThan (a b : dec) : bool := match dec_cmp a b with Lt => true | _ => false end.
Definition GreaterThanOrEqual (a b : dec) : bool := match dec_cmp a b with Lt => false | _ => true end.

Context `{!DecimalLaws DC}.

(** Same number, whatever the precision. *)
Definition deq (a b : dec) : Prop := (dval a == dval b)%Q.

#[export] Instance deq_equivalence : Equivalence deq.
Proof.
  split.
  - intros a. apply Qeq_refl.
  - intros a b. apply Qeq_sym.
  - intros a b c. apply Qeq_trans.
Qed.

#[export] Instance dec_add_proper : Proper (deq ==> deq ==> deq) dec_add.
Proof. intros a a' Ha b b' Hb. unfold deq in *. rewrite !dval_add, Ha, Hb. apply Qeq_refl. Qed.
#[export] Instance dec_sub_proper : Proper (deq ==> deq ==> deq) dec_sub.
Proof. intros a a' Ha b b' Hb. unfold deq in *. rewrite !dval_sub, Ha, Hb. apply Qeq_refl. Qed.
#[export] Instance dec_neg_proper : Proper (deq ==> deq) dec_neg.
Proof. intros a a' Ha. unfold deq in *. rewrite !dval_neg, Ha. apply Qeq_refl. Qed.
#[export] Instance dec_cmp_proper : Proper (deq ==> deq ==> eq) dec_cmp.
Proof. intros a a' Ha b b' Hb. unfold deq in *. rewrite !dval_cmp. by rewrite Ha, Hb. Qed.
#[export] Instance IsPositive_proper : Proper (deq ==> eq) IsPositive.
Proof. intros a a' Ha. unfold IsPositive, deq in *. rewrite !dval_sign. by rewrite Ha. Qed.

Lemma IsPositive_spec d : IsPositive d = true <-> (0 < dval d)%Q.
Proof.
  unfold IsPositive. rewrite dval_sign. destruct (Qcompare_spec (dval d) 0) as [H|H|H];
    rewrite Z.eqb_eq; split; intros; first [done|lra|congruence].
Qed.
Lemma IsPositive_false d : IsPositive d = false <-> (dval d <= 0)%Q.
Proof.
  unfold IsPositive. rewrite dval_sign. destruct (Qcompare_spec (dval d) 0) as [H|H|H];
    rewrite Z.eqb_neq; split; intros; first [done|lra|congruence].
Qed.
Lemma IsNegative_spec d : IsNegative d = true <-> (dval d < 0)%Q.
Proof.
  unfold IsNegative. rewrite dval_sign. destruct (Qcompare_spec (dval d) 0) as [H|H|H];
    rewrite Z.eqb_eq; split; intros; first [done|lra|congruence].
Qed.
Lemma IsNegative_false d : IsNegative d = false <-> (0 <= dval d)%Q.
Proof.
  rewrite <- not_true_iff_false, IsNegative_spec. split; intros; lra.
Qed.
Lemma GreaterThan_spec a b : GreaterThan a b = true <-> (dval b < dval a)%Q.
Proof.
  unfold GreaterThan. rewrite dval_cmp.
  destruct (Qcompare_spec (dval a) (dval b)); split; intros; first [done|lra|congruence].
Qed.
Lemma GreaterThan_false a b : GreaterThan a b = false <-> (dval a <= dval b)%Q.
Proof. rewrite <- not_true_iff_false, GreaterThan_spec. split; intros; lra. Qed.
Lemma LessThan_spec a b : LessThan a b = true <-> (dval a < dval b)%Q.
Proof.
  unfold LessThan. rewrite dval_cmp.
  destruct (Qcompare_spec (dval a) (dval b)); split; intros; first [done|lra|congruence].
Qed.
Lemma GreaterThanOrEqual_spec a b : GreaterThanOrEqual a b = true <-> (dval b <= dval a)%Q.
Proof.
  unfold GreaterThanOrEqual. rewrite dval_cmp.
  destruct (Qcompare_spec (dval a) (dval b)); split; intros; first [done|lra|congruence].
Qed.
Lemma GreaterThanOrEqual_false a b : GreaterThanOrEqual a b = false <-> (dval a < dval b)%Q.
Proof. rewrite <- not_true_iff_false, GreaterThanOrEqual_spec. split; intros; lra. Qed.
End decimal_ops.

(** Boolean tests on decimals as comparisons of their values, for [lra]. *)
Ltac dec_prop :=
  repeat match goal with
  | H : IsPositive _ = true |- _ => apply IsPositive_spec in H
  | H : IsPositive _ = false |- _ => apply IsPositive_false in H
  | H : IsNegative _ = true |- _ => apply IsNegative_spec in H
  | H : IsNegative _ = false |- _ => apply IsNegative_false in H
  | H : GreaterThan _ _ = true |- _ => apply GreaterThan_spec in H
  | H : GreaterThan _ _ = false |- _ => apply GreaterThan_false in H
  | H : GreaterThanOrEqual _ _ = true |- _ => apply GreaterThanOrEqual_spec in H
  | H : GreaterThanOrEqual _ _ = false |- _ => apply GreaterThanOrEqual_false in H
  | H : context [dval (dec_add _ _)] |- _ => rewrite dval_add in H
  | H : context [dval (dec_sub _ _)] |- _ => rewrite dval_sub in H
  | H : context [dval (dec_neg _)] |- _ => rewrite dval_neg in H
  | H : context [dval dec_zero] |- _ => rewrite dval_zero in H
  | |- context [dval (dec_add _ _)] => rewrite dval_add
  | |- context [dval (dec_sub _ _)] => rewrite dval_sub
  | |- context [dval (dec_neg _)] => rewrite dval_neg
  | |- context [dval dec_zero] => rewrite dval_zero
  end.

(** ** UUIDs *)
Class UUID : Type := {
  uuid : Type;
  uuid_eq_dec :: EqDecision uuid;
  uuid_countable :: Countable uuid;
  uuid_Nil : uuid;
  uuid_String : uuid -> string
}.

(** What the program relies on of a UUID's text: it identifies the UUID and has no NUL byte. *)
Fixpoint no_nul (s : string) : bool :=
  match s with
  | EmptyString => true
  | String a s => negb (bool_decide (a = Ascii.zero)) && no_nul s
  end.
Class UUIDLaws (UU : UUID) : Prop := {
  uuid_String_inj : forall a b, uuid_String a = uuid_String b -> a = b;
  uuid_String_no_nul : forall a, no_nul (uuid_String a) = true
}.

(** ** Instances for concrete evaluation *)

(** Rationals in lowest terms, with the documented behaviour of the decimal operations on them. *)
Module QDec.
Fixpoint digits (s : string) (acc : Z) : option Z :=
  match s with
  | EmptyString => Some acc
  | String a s =>
      let n := Z.of_nat (Ascii.nat_of_ascii a) - 48 in
      if (0 <=? n) && (n <=? 9) then digits s (acc * 10 + n) else None
  end.
Fixpoint split_point (s : string) : string * option string :=
  match s with
  | EmptyString => (EmptyString, None)
  | String a s' =>
      if bool_decide (a = "."%char) then (EmptyString, Some s')
      else let '(i, f) := split_point s' in (String a i, f)
  end.
Definition of_string (s : string) : option Q :=
  let '(neg, body) := match s with
    | String a s' => if bool_decide (a = "-"%char) then (true, s') else (false, s)
    | EmptyString => (false, s) end in
  if bool_decide (body = EmptyString) then None else
  let '(i, f) := split_point body in
  let frac := default EmptyString f in
  n ← digits (i +:+ frac) 0;
  let q := Qred (n # Pos.of_nat (10 ^ String.length frac)) in
  Some (if neg then Qred (- q) else q).
Definition fixed (q : Q) (places : Z) : string :=
  let scaled := (q * Qpower (inject_Z 10) places)%Q in
  let n := if Qle_bool 0 scaled then Qfloor (scaled + (1 # 2)) else (- Qfloor (- scaled + (1 # 2)))%Z in
  let a := Z.abs n in
  let p := 10 ^ places in
  let frac := show (a mod p) in
  let pad := String.concat "" (repeat "0" (Z.to_nat places - String.length frac)) in
  (if n <? 0 then "-" else "") +:+ show (a / p) +:+ (if places =? 0 then "" else "." +:+ pad +:+ frac).
Definition trunc (q : Q) : Z := if Qle_bool 0 q then Qfloor q else (- Qfloor (- q))%Z.

#[export] Instance Q_eq_dec : EqDecision Q.
Proof. intros [a b] [c d]. destruct (decide (a = c)), (decide (b = d)); [left|right|right|right]; congruence. Defined.

#[export] Instance ops : Decimal := {
  dec := Q;
  dec_zero := 0%Q;
  NewFromInt z := inject_Z z;
  NewFromString := of_string;
  Shift d n := Qred (d * Qpower (inject_Z 10) n);
  dec_add a b := Qred (a + b);
  dec_sub a b := Qred (a - b);
  dec_neg a := Qred (- a);
  dec_cmp a b := (a ?= b)%Q;
  dec_sign a := match (a ?= 0)%Q with Lt => -1 | Eq => 0 | Gt => 1 end;
  IntPart := trunc;
  StringFixed := fixed
}.

#[export] Instance laws : DecimalLaws ops.
Proof.
  refine {| dval := fun q : @dec ops => (q : Q) |}; cbn; intros; rewrite ?Qred_correct; reflexivity.
Defined.
End QDec.

Module NUuid.
#[export] Instance ops : UUID := {
  uuid := N;
  uuid_Nil := 0%N;
  uuid_String n := show (Z.of_N n)
}.

#[export] Instance laws : UUIDLaws ops.
Proof.
  split.
  - intros a b H. cbn in H. unfold show in H.
    apply (inj pretty) in H. by apply N2Z.inj.
  - intros a. cbn. unfold show. destruct (Z.of_N a) as [|p|p] eqn:E; [done| |lia].
    change (pretty (Z.pos p)) with (pretty (N.pos p)). generalize (N.pos p) as n. clear.
    intros n. unfold pretty, pretty_N. case_decide as Hz; [done|]. clear Hz.
    assert (Hs0 : no_nul "" = true) by done. revert Hs0. generalize ""%string as s.
    induction (N.lt_wf_0 n) as [n _ IH]. intros s Hs.
    destruct (decide (0 < n)%N) as [Hn|Hn].
    + rewrite pretty_N_go_step by done. apply IH; [apply N.div_lt; lia|].
      cbn. rewrite Hs. unfold pretty_N_char. by repeat case_match.
    + replace n with 0%N by lia. by rewrite pretty_N_go_0.
Qed.
End NUuid.
