(* ===== verification/Types.v ===== *)
(** * Types: the vocabulary of [internal/dispute/domain].

    Go's string-typed enumerations are inductive types with the constants as constructors and a function giving
    the string. Where a value outside the constants can reach the code (a column of the database, an event
    name from a request, the empty state the opening event comes from) the type has a constructor for it. *)
From S2P Require Import Prelude Errs.

(** ** [state.go]: states and events *)
Inductive State : Type :=
| StateInitiated | StateInvestigating | StateQuestionnaireSent | StateQuestionnaireReceived
| StateProvisionalCreditIssued | StateFastRefundIssued | StateSEPANQARefundIssued
| StateChargebackFiled | StateChargebackAcknowledged | StateEvidenceSubmitted
| StateChargebackWon | StateChargebackLost
| StateFinalCreditIssued | StateProvisionalCreditReversed | StateClosed
| StateEmpty.  (* the empty string: the state before the opening event, and no refund state *)
#[export] Instance State_eq_dec : EqDecision State.
Proof. solve_decision. Defined.

Definition State_string (s : State) : string :=
  match s with
  | StateInitiated => "INITIATED" | StateInvestigating => "INVESTIGATING"
  | StateQuestionnaireSent => "QUESTIONNAIRE_SENT" | StateQuestionnaireReceived => "QUESTIONNAIRE_RECEIVED"
  | StateProvisionalCreditIssued => "PROVISIONAL_CREDIT_ISSUED" | StateFastRefundIssued => "FAST_REFUND_ISSUED"
  | StateSEPANQARefundIssued => "SEPA_NQA_REFUND_ISSUED" | StateChargebackFiled => "CHARGEBACK_FILED"
  | StateChargebackAcknowledged => "CHARGEBACK_ACKNOWLEDGED" | StateEvidenceSubmitted => "EVIDENCE_SUBMITTED"
  | StateChargebackWon => "CHARGEBACK_WON" | StateChargebackLost => "CHARGEBACK_LOST"
  | StateFinalCreditIssued => "FINAL_CREDIT_ISSUED"
  | StateProvisionalCreditReversed => "PROVISIONAL_CREDIT_REVERSED" | StateClosed => "CLOSED"
  | StateEmpty => ""
  end.

Definition AllStates : list State :=
  [StateInitiated; StateInvestigating; StateQuestionnaireSent; StateQuestionnaireReceived;
   StateProvisionalCreditIssued; StateFastRefundIssued; StateSEPANQARefundIssued; StateChargebackFiled;
   StateChargebackAcknowledged; StateEvidenceSubmitted; StateChargebackWon; StateChargebackLost;
   StateFinalCreditIssued; StateProvisionalCreditReversed; StateClosed].

Definition ParseState (raw : string) : M State :=
  match List.find (fun s => bool_decide (State_string s = raw)) AllStates with
  | Some s => Ok s
  | None => Err (EPlain ("unknown state " +:+ quoted raw))
  end.

Inductive Event : Type :=
| EventOpenInvestigation | EventSendQuestionnaire | EventReceiveQuestionnaire | EventIssueRefund
| EventFileChargeback | EventAcknowledgeChargeback | EventSubmitEvidence | EventWinChargeback
| EventLoseChargeback | EventIssueFinalCredit | EventReverseProvisionalCredit | EventClose | EventAppeal
| EventOther (name : string).  (* any other event name: OPENED, REASSIGNED, or one no handler knows *)
#[export] Instance Event_eq_dec : EqDecision Event.
Proof. solve_decision. Defined.

Definition Event_string (e : Event) : string :=
  match e with
  | EventOpenInvestigation => "OPEN_INVESTIGATION" | EventSendQuestionnaire => "SEND_QUESTIONNAIRE"
  | EventReceiveQuestionnaire => "RECEIVE_QUESTIONNAIRE" | EventIssueRefund => "ISSUE_REFUND"
  | EventFileChargeback => "FILE_CHARGEBACK" | EventAcknowledgeChargeback => "ACKNOWLEDGE_CHARGEBACK"
  | EventSubmitEvidence => "SUBMIT_EVIDENCE" | EventWinChargeback => "WIN_CHARGEBACK"
  | EventLoseChargeback => "LOSE_CHARGEBACK" | EventIssueFinalCredit => "ISSUE_FINAL_CREDIT"
  | EventReverseProvisionalCredit => "REVERSE_PROVISIONAL_CREDIT" | EventClose => "CLOSE"
  | EventAppeal => "APPEAL" | EventOther name => name
  end.

Definition AllEvents : list Event :=
  [EventOpenInvestigation; EventSendQuestionnaire; EventReceiveQuestionnaire; EventIssueRefund;
   EventFileChargeback; EventAcknowledgeChargeback; EventSubmitEvidence; EventWinChargeback;
   EventLoseChargeback; EventIssueFinalCredit; EventReverseProvisionalCredit; EventClose; EventAppeal].

(** ** [regime.go], [rail.go] *)
Inductive Regime : Type :=
| RegimeEUSEPADirectDebit | RegimeEUPSD2Card | RegimeUSRegE | RegimeUSRegZ
| RegimeOther (raw : string).
#[export] Instance Regime_eq_dec : EqDecision Regime.
Proof. solve_decision. Defined.

Definition Regime_string (r : Regime) : string :=
  match r with
  | RegimeEUSEPADirectDebit => "EU_SEPA_DIRECT_DEBIT" | RegimeEUPSD2Card => "EU_PSD2_CARD"
  | RegimeUSRegE => "US_REG_E" | RegimeUSRegZ => "US_REG_Z" | RegimeOther raw => raw
  end.

Definition AllRegimes : list Regime :=
  [RegimeEUSEPADirectDebit; RegimeEUPSD2Card; RegimeUSRegE; RegimeUSRegZ].

Inductive RefundPath : Type :=
| RefundNone | RefundProvisionalCredit | RefundFast | RefundNoQuestionsAsked.
#[export] Instance RefundPath_eq_dec : EqDecision RefundPath.
Proof. solve_decision. Defined.

Inductive Rail : Type := RailCard | RailCreditCard | RailSEPADD | RailOther (raw : string).
#[export] Instance Rail_eq_dec : EqDecision Rail.
Proof. solve_decision. Defined.

Definition Rail_string (r : Rail) : string :=
  match r with
  | RailCard => "CARD" | RailCreditCard => "CREDIT_CARD" | RailSEPADD => "SEPA_DD" | RailOther raw => raw
  end.

(** ** [ledger.go] *)
Inductive Account : Type := AccountCustomer | AccountSuspense | AccountRecovery | AccountLoss.
#[export] Instance Account_eq_dec : EqDecision Account.
Proof. solve_decision. Defined.

Definition Account_string (a : Account) : string :=
  match a with
  | AccountCustomer => "CUSTOMER" | AccountSuspense => "SUSPENSE" | AccountRecovery => "RECOVERY" | AccountLoss => "LOSS"
  end.

Inductive PostingKind : Type :=
| PostingProvisionalCredit | PostingFastRefund | PostingNQARefund
| PostingProvisionalCreditReversal | PostingRecovery | PostingWriteOff.
#[export] Instance PostingKind_eq_dec : EqDecision PostingKind.
Proof. solve_decision. Defined.

Definition PostingKind_string (k : PostingKind) : string :=
  match k with
  | PostingProvisionalCredit => "PROVISIONAL_CREDIT" | PostingFastRefund => "FAST_REFUND"
  | PostingNQARefund => "NQA_REFUND" | PostingProvisionalCreditReversal => "PROVISIONAL_CREDIT_REVERSAL"
  | PostingRecovery => "RECOVERY" | PostingWriteOff => "WRITE_OFF"
  end.

Inductive SuspenseSettlement : Type := SettleRecovered | SettleWrittenOff.
#[export] Instance SuspenseSettlement_eq_dec : EqDecision SuspenseSettlement.
Proof. solve_decision. Defined.

(** ** [deadline.go] *)
Inductive DeadlineKind : Type := DeadlineRefund | DeadlineAcknowledge | DeadlineResolution.
#[export] Instance DeadlineKind_eq_dec : EqDecision DeadlineKind.
Proof. solve_decision. Defined.

Definition DeadlineKind_string (k : DeadlineKind) : string :=
  match k with DeadlineRefund => "REFUND" | DeadlineAcknowledge => "ACKNOWLEDGE" | DeadlineResolution => "RESOLUTION" end.

Inductive DayUnit : Type := BusinessDays | CalendarDays.
#[export] Instance DayUnit_eq_dec : EqDecision DayUnit.
Proof. solve_decision. Defined.

Record Clock : Type := mkClock { CKind : DeadlineKind; CCount : Z; CUnit : DayUnit; CBasis : string }.
#[export] Instance Clock_eq_dec : EqDecision Clock.
Proof. solve_decision. Defined.

(** ** [questionnaire.go] *)
Inductive Reason : Type := ReasonUnauthorised | ReasonNotReceived | ReasonDuplicate | ReasonAmountDiffers.
#[export] Instance Reason_eq_dec : EqDecision Reason.
Proof. solve_decision. Defined.

Definition Reason_string (r : Reason) : string :=
  match r with
  | ReasonUnauthorised => "UNAUTHORISED" | ReasonNotReceived => "NOT_RECEIVED"
  | ReasonDuplicate => "DUPLICATE" | ReasonAmountDiffers => "AMOUNT_DIFFERS"
  end.

Definition AllReasons : list Reason :=
  [ReasonUnauthorised; ReasonNotReceived; ReasonDuplicate; ReasonAmountDiffers].

(** ** [notice.go] of the domain *)
Inductive NoticeKind : Type :=
| NoticeAcknowledgement | NoticeQuestionnaire | NoticeProvisionalCredit | NoticeRefund | NoticeReversal
| NoticeResolution | NoticeRequestForInformation | NoticeStatusUpdate | NoticeDocumentsReceived | NoticeCustom
| NoticeOther (raw : string).
#[export] Instance NoticeKind_eq_dec : EqDecision NoticeKind.
Proof. solve_decision. Defined.

Definition NoticeKind_string (k : NoticeKind) : string :=
  match k with
  | NoticeAcknowledgement => "ACKNOWLEDGEMENT" | NoticeQuestionnaire => "QUESTIONNAIRE"
  | NoticeProvisionalCredit => "PROVISIONAL_CREDIT" | NoticeRefund => "REFUND" | NoticeReversal => "REVERSAL"
  | NoticeResolution => "RESOLUTION" | NoticeRequestForInformation => "REQUEST_FOR_INFORMATION"
  | NoticeStatusUpdate => "STATUS_UPDATE" | NoticeDocumentsReceived => "DOCUMENTS_RECEIVED"
  | NoticeCustom => "CUSTOM" | NoticeOther raw => raw
  end.

Inductive Channel : Type := ChannelEmail | ChannelLetter.
#[export] Instance Channel_eq_dec : EqDecision Channel.
Proof. solve_decision. Defined.

Definition Channel_string (ch : Channel) : string := match ch with ChannelEmail => "EMAIL" | ChannelLetter => "LETTER" end.

(** ** Facts about the vocabulary *)
Lemma AllStates_complete s : s <> StateEmpty -> s ∈ AllStates.
Proof. intros H. destruct s; try by_eval. done. Qed.

Lemma AllEvents_complete e : (forall name, e <> EventOther name) -> e ∈ AllEvents.
Proof. intros H. destruct e; try by_eval. by destruct (H name). Qed.

Lemma AllRegimes_complete r : (forall raw, r <> RegimeOther raw) -> r ∈ AllRegimes.
Proof. intros H. destruct r; try by_eval. by destruct (H raw). Qed.

(** A parsed state prints back as the text it was parsed from, and every state of the lifecycle parses. *)
Lemma ParseState_string raw s : ParseState raw = Ok s <-> State_string s = raw /\ s <> StateEmpty.
Proof.
  unfold ParseState. split.
  - intros H. destruct (List.find _ _) as [s'|] eqn:E; [|done]. injection H as ->.
    apply List.find_some in E as [Hin Hs]. apply bool_decide_eq_true in Hs. split; [done|].
    intros ->. cbn in Hin. by repeat destruct Hin as [[=]|Hin].
  - intros [<- Hs]. by destruct s.
Qed.
