(* ===== verification/Regimes.v ===== *)
(** * Regimes: what each regulatory regime contributes ([domain/regime.go], [domain/rail.go],
    [domain/notice.go]).

    [rules] is the configuration table; everything that depends on the regime reads a property of its row. *)
From S2P Require Import Prelude Errs Types.

Record Rules : Type := mkRules {
  RRegime : Regime;
  Refund : RefundPath;
  Clocks : list Clock;
  HasAdjudication : bool;
  MerchantMayContest : bool;
  LiabilityCapMinor : Z;
  RCurrency : string;
  MaxAppeals : Z;
  CloseSettlement : SuspenseSettlement;
  WrittenNotices : bool
}.

Definition HasProvisionalCredit (r : Rules) : bool := bool_decide (Refund r = RefundProvisionalCredit).
Definition HasRefundStep (r : Rules) : bool := bool_decide (Refund r <> RefundNone).

Definition defaultAppeals : Z := 1.

Definition rules (r : Regime) : option Rules :=
  match r with
  | RegimeEUSEPADirectDebit => Some {|
      RRegime := RegimeEUSEPADirectDebit;
      Refund := RefundNoQuestionsAsked;
      Clocks := [
        mkClock DeadlineRefund 10 BusinessDays "PSD2 art. 77(2): refund or justification within 10 business days of the request";
        mkClock DeadlineResolution 15 BusinessDays "PSD2 art. 101(2): final reply to a complaint within 15 business days"];
      HasAdjudication := false;
      MerchantMayContest := false;
      LiabilityCapMinor := 0;
      RCurrency := "EUR";
      MaxAppeals := defaultAppeals;
      CloseSettlement := SettleRecovered;
      WrittenNotices := false |}
  | RegimeEUPSD2Card => Some {|
      RRegime := RegimeEUPSD2Card;
      Refund := RefundFast;
      Clocks := [
        mkClock DeadlineRefund 1 BusinessDays "PSD2 art. 73(1): refund by the end of the following business day";
        mkClock DeadlineResolution 15 BusinessDays "PSD2 art. 101(2): final reply to a complaint within 15 business days"];
      HasAdjudication := true;
      MerchantMayContest := true;
      LiabilityCapMinor := 5000;
      RCurrency := "EUR";
      MaxAppeals := defaultAppeals;
      CloseSettlement := SettleWrittenOff;
      WrittenNotices := false |}
  | RegimeUSRegE => Some {|
      RRegime := RegimeUSRegE;
      Refund := RefundProvisionalCredit;
      Clocks := [
        mkClock DeadlineRefund 10 BusinessDays "12 CFR 1005.11(c)(2)(i): provisional credit within 10 business days";
        mkClock DeadlineResolution 45 CalendarDays "12 CFR 1005.11(c)(2): investigation complete within 45 days"];
      HasAdjudication := true;
      MerchantMayContest := true;
      LiabilityCapMinor := 5000;
      RCurrency := "USD";
      MaxAppeals := defaultAppeals;
      CloseSettlement := SettleWrittenOff;
      WrittenNotices := true |}
  | RegimeUSRegZ => Some {|
      RRegime := RegimeUSRegZ;
      Refund := RefundNone;
      Clocks := [
        mkClock DeadlineAcknowledge 30 CalendarDays "12 CFR 1026.13(c)(1): written acknowledgement within 30 days";
        mkClock DeadlineResolution 90 CalendarDays "12 CFR 1026.13(c)(2): resolution within two billing cycles, at most 90 days"];
      HasAdjudication := true;
      MerchantMayContest := true;
      LiabilityCapMinor := 0;
      RCurrency := "USD";
      MaxAppeals := defaultAppeals;
      CloseSettlement := SettleWrittenOff;
      WrittenNotices := true |}
  | RegimeOther _ => None
  end.

Definition ErrUnknownRegime : Error := sentinel Invalid "unknown-regime" "unknown regulatory regime".

Definition RulesFor (r : Regime) : M Rules :=
  match rules r with
  | Some cfg => Ok cfg
  | None => failw ErrUnknownRegime (quoted (Regime_string r))
  end.

Definition refundState (r : Rules) : State :=
  match Refund r with
  | RefundProvisionalCredit => StateProvisionalCreditIssued
  | RefundFast => StateFastRefundIssued
  | RefundNoQuestionsAsked => StateSEPANQARefundIssued
  | RefundNone => StateEmpty
  end.

Definition hasClock (r : Rules) (kind : DeadlineKind) : bool :=
  existsb (fun c => bool_decide (CKind c = kind)) (Clocks r).

(** ** The regime of a transaction *)
Definition ErrNoRegime : Error :=
  sentinel Unprocessable "no-regime" "no regulatory regime covers this transaction's rail and currency".

Definition RegimeFor (rail : Rail) (currency : string) : M Regime :=
  if bool_decide (rail = RailSEPADD) && bool_decide (currency = "EUR") then Ok RegimeEUSEPADirectDebit
  else if bool_decide (rail = RailCard) && bool_decide (currency = "EUR") then Ok RegimeEUPSD2Card
  else if bool_decide (rail = RailCard) && bool_decide (currency = "USD") then Ok RegimeUSRegE
  else if bool_decide (rail = RailCreditCard) && bool_decide (currency = "USD") then Ok RegimeUSRegZ
  else failw ErrNoRegime (Rail_string rail +:+ "/" +:+ currency).

(** ** Notices owed *)
Definition ManualNoticeKinds : list NoticeKind :=
  [NoticeRequestForInformation; NoticeStatusUpdate; NoticeDocumentsReceived; NoticeCustom].

Definition NoticesFor (r : Rules) (entered : State) : list NoticeKind :=
  match entered with
  | StateInitiated => [NoticeAcknowledgement]
  | StateQuestionnaireSent => [NoticeQuestionnaire]
  | StateProvisionalCreditIssued => [NoticeProvisionalCredit]
  | StateFastRefundIssued | StateSEPANQARefundIssued => [NoticeRefund]
  | StateProvisionalCreditReversed => [NoticeReversal]
  | StateClosed => [NoticeResolution]
  | _ => []
  end.

Definition ChannelsFor (r : Rules) (kind : NoticeKind) : list Channel :=
  if WrittenNotices r && bool_decide (kind <> NoticeQuestionnaire)
  then [ChannelEmail; ChannelLetter] else [ChannelEmail].

(** ** Facts *)

Lemma RulesFor_ok r cfg : RulesFor r = Ok cfg -> rules r = Some cfg /\ RRegime cfg = r.
Proof. unfold RulesFor. destruct r; intros [= <-]; done. Qed.

Lemma rules_RulesFor r cfg : rules r = Some cfg -> RulesFor r = Ok cfg.
Proof. unfold RulesFor. by intros ->. Qed.

Lemma RulesFor_known r : r ∈ AllRegimes -> exists cfg, RulesFor r = Ok cfg.
Proof. destruct r; eauto. unfold AllRegimes. set_solver. Qed.

(** Case analysis on a rules row through the regime it came from. *)
Ltac cases_rules H :=
  match type of H with
  | rules ?r = Some _ => destruct r; cbn in H; try discriminate H; injection H as <-
  end.

(** Each regime gives the money back along at most one path, and only one without adjudication is the
    no-questions-asked one: what [next] relies on when it gates on properties rather than regimes. *)
Lemma rules_shape r cfg : rules r = Some cfg ->
  MaxAppeals cfg = 1 /\ (HasAdjudication cfg = false <-> Refund cfg = RefundNoQuestionsAsked) /\
  (HasRefundStep cfg = true <-> refundState cfg <> StateEmpty) /\
  MerchantMayContest cfg = HasAdjudication cfg /\ hasClock cfg DeadlineResolution = true /\
  0 <= LiabilityCapMinor cfg.
Proof. intros H. cases_rules H; cbn; repeat split; try done; lia. Qed.

Lemma RegimeFor_ok rail cur r : RegimeFor rail cur = Ok r ->
  exists cfg, rules r = Some cfg /\ RCurrency cfg = cur.
Proof.
  unfold RegimeFor. repeat case_bool_decide; cbn; intros; inv_res; subst; eauto.
Qed.
