(* ===== verification/Lifecycle.v ===== *)
(** * Lifecycle: the dispute state machine ([domain/state.go]). *)
From S2P Require Import Prelude Errs Types Regimes.

Definition ErrInvalidTransition : Error :=
  sentinel Conflict "invalid-transition" "this action is not allowed in the dispute's current state".
Definition ErrAppealsExhausted : Error :=
  sentinel Conflict "appeals-exhausted" "this dispute has used all of its appeals".

Record Dispute : Type := mkDispute { DRegime : Regime; DState : State; DAppeals : Z }.
#[export] Instance Dispute_eq_dec : EqDecision Dispute.
Proof. solve_decision. Defined.

(** [domain.New]. *)
Definition NewDispute (regime : Regime) : M Dispute :=
  _ ← RulesFor regime;
  Ok (mkDispute regime StateInitiated 0).

(** The transition table; [None] is the [false] of the source. *)
Definition next (r : Rules) (from : State) (e : Event) : option State :=
  match from with
  | StateInitiated =>
      match e with
      | EventOpenInvestigation => Some StateInvestigating
      | EventIssueRefund =>
          if bool_decide (Refund r = RefundNoQuestionsAsked) then Some StateSEPANQARefundIssued else None
      | _ => None
      end
  | StateInvestigating =>
      match e with
      | EventSendQuestionnaire => Some StateQuestionnaireSent
      | EventIssueRefund => if HasRefundStep r then Some (refundState r) else None
      | EventFileChargeback =>
          if HasAdjudication r && negb (HasRefundStep r) then Some StateChargebackFiled else None
      | EventClose => Some StateClosed
      | _ => None
      end
  | StateQuestionnaireSent =>
      match e with
      | EventReceiveQuestionnaire => Some StateQuestionnaireReceived
      | EventClose => Some StateClosed
      | _ => None
      end
  | StateQuestionnaireReceived =>
      match e with
      | EventIssueRefund => if HasRefundStep r then Some (refundState r) else None
      | EventFileChargeback =>
          if HasAdjudication r && negb (HasRefundStep r) then Some StateChargebackFiled else None
      | EventClose => Some StateClosed
      | _ => None
      end
  | StateProvisionalCreditIssued | StateFastRefundIssued | StateSEPANQARefundIssued =>
      match e with
      | EventFileChargeback => if HasAdjudication r then Some StateChargebackFiled else None
      | EventClose => Some StateClosed
      | _ => None
      end
  | StateChargebackFiled =>
      match e with
      | EventAcknowledgeChargeback => Some StateChargebackAcknowledged
      | _ => None
      end
  | StateChargebackAcknowledged =>
      match e with
      | EventSubmitEvidence => if MerchantMayContest r then Some StateEvidenceSubmitted else None
      | EventWinChargeback => Some StateChargebackWon
      | EventLoseChargeback => Some StateChargebackLost
      | _ => None
      end
  | StateEvidenceSubmitted =>
      match e with
      | EventWinChargeback => Some StateChargebackWon
      | EventLoseChargeback => Some StateChargebackLost
      | _ => None
      end
  | StateChargebackWon =>
      match e with
      | EventIssueFinalCredit => if HasProvisionalCredit r then Some StateFinalCreditIssued else None
      | EventClose => if HasProvisionalCredit r then None else Some StateClosed
      | _ => None
      end
  | StateChargebackLost =>
      match e with
      | EventReverseProvisionalCredit =>
          if HasProvisionalCredit r then Some StateProvisionalCreditReversed else None
      | EventClose => if HasProvisionalCredit r then None else Some StateClosed
      | _ => None
      end
  | StateFinalCreditIssued | StateProvisionalCreditReversed =>
      match e with
      | EventClose => Some StateClosed
      | _ => None
      end
  | StateClosed | StateEmpty => None
  end.

Definition invalid (d : Dispute) (e : Event) : error :=
  Wrap (EClass ErrInvalidTransition)
    (Event_string e +:+ " from " +:+ State_string (DState d) +:+ " under " +:+ Regime_string (DRegime d)).

Definition Apply (d : Dispute) (event : Event) : M Dispute :=
  r ← RulesFor (DRegime d);
  if bool_decide (event = EventAppeal) then
    if bool_decide (DState d <> StateClosed) then Err (invalid d event)
    else if MaxAppeals r <=? DAppeals d
    then failw ErrAppealsExhausted
           (show (DAppeals d) +:+ " of " +:+ show (MaxAppeals r) +:+ " used under " +:+ Regime_string (DRegime d))
    else Ok (mkDispute (DRegime d) StateInvestigating (DAppeals d + 1))
  else
    match next r (DState d) event with
    | None => Err (invalid d event)
    | Some to => Ok (mkDispute (DRegime d) to (DAppeals d))
    end.

Definition Allowed (d : Dispute) : list Event :=
  filter (fun e => is_ok (Apply d e) = true) AllEvents.

Definition IsTerminal (d : Dispute) : bool := bool_decide (DState d = StateClosed).

(** ** Runs *)

(** A sequence of accepted events. *)
Inductive run : Dispute -> list Event -> Dispute -> Prop :=
| run_nil d : run d [] d
| run_cons d e d' es d'' : Apply d e = Ok d' -> run d' es d'' -> run d (e :: es) d''.

Inductive reachable (regime : Regime) : Dispute -> Prop :=
| reachable_new d : NewDispute regime = Ok d -> reachable regime d
| reachable_apply d e d' : reachable regime d -> Apply d e = Ok d' -> reachable regime d'.

(** The lifecycle each regime is meant to have: the states of ADR 0002 its configuration enables. *)
Definition lifecycle_states (regime : Regime) : list State :=
  let investigation := [StateInitiated; StateInvestigating; StateQuestionnaireSent; StateQuestionnaireReceived] in
  let adjudication := [StateChargebackFiled; StateChargebackAcknowledged; StateEvidenceSubmitted;
                       StateChargebackWon; StateChargebackLost] in
  match regime with
  | RegimeEUSEPADirectDebit => investigation ++ [StateSEPANQARefundIssued; StateClosed]
  | RegimeEUPSD2Card => investigation ++ [StateFastRefundIssued] ++ adjudication ++ [StateClosed]
  | RegimeUSRegE => investigation ++ [StateProvisionalCreditIssued] ++ adjudication ++
                    [StateFinalCreditIssued; StateProvisionalCreditReversed; StateClosed]
  | RegimeUSRegZ => investigation ++ adjudication ++ [StateClosed]
  | RegimeOther _ => []
  end.

(** What one accepted event does, branch by branch. *)
Definition step_spec (cfg : Rules) (d : Dispute) (e : Event) (d' : Dispute) : Prop :=
  DRegime d' = DRegime d /\
  ((e = EventAppeal /\ DState d = StateClosed /\ DAppeals d < MaxAppeals cfg /\
    DState d' = StateInvestigating /\ DAppeals d' = DAppeals d + 1) \/
   (e <> EventAppeal /\ next cfg (DState d) e = Some (DState d') /\ DAppeals d' = DAppeals d)).

Lemma Apply_ok d e d' :
  Apply d e = Ok d' <-> exists cfg, rules (DRegime d) = Some cfg /\ step_spec cfg d e d'.
Proof.
  destruct d as [r s a], d' as [r' s' a']. unfold Apply, step_spec, RulesFor. cbn [DRegime DState DAppeals].
  destruct (rules r) as [cfg|]; cbn; [|split; [done|intros (? & [=] & _)]].
  split.
  - intros H. exists cfg. split; [done|]. case_bool_decide as He.
    + case_bool_decide as Hs; [done|]. destruct (MaxAppeals cfg <=? a) eqn:Ha; [done|]. to_prop.
      injection H as <- <- <-. split; [done|]. left. destruct (decide (s = StateClosed)); [done|by destruct Hs].
    + destruct (next cfg s e) as [to|]; [|done]. injection H as <- <- <-. eauto 6.
  - intros (cfg' & [= <-] & -> & [(-> & -> & Ha & -> & ->)|(He & Hn & ->)]); cbn.
    + rewrite bool_decide_eq_true_2 by done. rewrite bool_decide_eq_false_2 by (intros H; by apply H).
      by replace (MaxAppeals cfg <=? a) with false by (symmetry; apply Z.leb_gt; lia).
    + by rewrite bool_decide_eq_false_2, Hn by done.
Qed.

(** ** Which states a regime reaches *)

Lemma step_lifecycle cfg s e s' :
  rules (RRegime cfg) = Some cfg -> s ∈ lifecycle_states (RRegime cfg) -> next cfg s e = Some s' ->
  s' ∈ lifecycle_states (RRegime cfg).
Proof.
  intros Hc Hs Hn. cases_rules Hc; cbn in *; destruct s, e; vm_compute in Hn; try discriminate Hn;
    injection Hn as <-; revert Hs; by_eval.
Qed.

Lemma run_reachable regime d es d' : reachable regime d -> run d es d' -> reachable regime d'.
Proof. intros Hr H. induction H; [done|]. apply IHrun. by eapply reachable_apply. Qed.

Lemma run_app d es d' es' d'' : run d es d' -> run d' es' d'' -> run d (es ++ es') d''.
Proof. intros H H'. induction H; [done|]. econstructor; eauto. Qed.

(** The events of a run, executed. *)
Fixpoint apply_all (d : Dispute) (es : list Event) : M Dispute :=
  match es with
  | [] => Ok d
  | e :: es => d' ← Apply d e; apply_all d' es
  end.

Lemma run_apply_all d es d' : run d es d' <-> apply_all d es = Ok d'.
Proof.
  split.
  - induction 1 as [|d0 e d1 es d2 H Hr IH]; cbn; [done|]. by rewrite H.
  - revert d. induction es as [|e es IH]; cbn; intros d H; [injection H as <-; constructor|].
    apply bind_ok in H as (d1 & H1 & H2). econstructor; eauto.
Qed.

(** The invariant of every reachable dispute. *)
Definition dispute_inv (regime : Regime) (d : Dispute) : Prop :=
  DRegime d = regime /\ DState d ∈ lifecycle_states regime /\
  exists cfg, rules regime = Some cfg /\ 0 <= DAppeals d <= MaxAppeals cfg.

Lemma new_inv regime d : NewDispute regime = Ok d -> dispute_inv regime d.
Proof.
  unfold NewDispute. intros H. apply bind_ok in H as (cfg & Hc & H). injection H as <-.
  apply RulesFor_ok in Hc as [Hc _]. unfold dispute_inv. cbn.
  pose proof (rules_shape _ _ Hc) as (Hm & _). split; [done|]. split.
  - cases_rules Hc; by_eval.
  - exists cfg. split; [done|lia].
Qed.

Lemma apply_inv regime d e d' : dispute_inv regime d -> Apply d e = Ok d' -> dispute_inv regime d'.
Proof.
  intros (Hr & Hs & cfg & Hc & Ha) H. apply Apply_ok in H as (cfg' & Hc' & Hr' & Hcase).
  rewrite Hr, Hc in Hc'. injection Hc' as <-. unfold dispute_inv. rewrite Hr'. split; [done|].
  destruct Hcase as [(_ & _ & Hlt & Hst & Hap)|(_ & Hn & Hap)].
  - rewrite Hst, Hap. split; [cases_rules Hc; by_eval|]. exists cfg. split; [done|lia].
  - rewrite Hap. split; [|eauto]. assert (H : RRegime cfg = regime) by (cases_rules Hc; done).
    rewrite <- H in *. by eapply step_lifecycle.
Qed.

Lemma reachable_inv regime d : reachable regime d -> dispute_inv regime d.
Proof. induction 1; eauto using new_inv, apply_inv. Qed.

(** ** How long a dispute can run *)

(** How many more events a cycle can take, at most. *)
Definition rank (s : State) : Z :=
  match s with
  | StateInitiated => 10 | StateInvestigating => 9 | StateQuestionnaireSent => 8
  | StateQuestionnaireReceived => 7
  | StateProvisionalCreditIssued | StateFastRefundIssued | StateSEPANQARefundIssued => 6
  | StateChargebackFiled => 5 | StateChargebackAcknowledged => 4 | StateEvidenceSubmitted => 3
  | StateChargebackWon | StateChargebackLost => 2
  | StateFinalCreditIssued | StateProvisionalCreditReversed => 1
  | StateClosed | StateEmpty => 0
  end.

Definition measure (cfg : Rules) (d : Dispute) : Z := rank (DState d) + 10 * (MaxAppeals cfg - DAppeals d).

Lemma next_rank r s e s' : next r s e = Some s' -> rank s' < rank s.
Proof.
  unfold next, refundState. destruct s, e; intros H; try discriminate H;
    repeat (case_match; try discriminate H); injection H as <-; cbn; lia.
Qed.

Lemma apply_measure cfg d e d' :
  rules (DRegime d) = Some cfg -> Apply d e = Ok d' -> DRegime d' = DRegime d /\ measure cfg d' < measure cfg d.
Proof.
  intros Hc (cfg' & Hc' & Hr & Hcase)%Apply_ok. rewrite Hc in Hc'. injection Hc' as <-. split; [done|].
  unfold measure. destruct Hcase as [(_ & -> & Ha & -> & ->)|(_ & Hn & ->)].
  - cbn. lia.
  - apply next_rank in Hn. lia.
Qed.

Lemma run_measure cfg d es d' :
  rules (DRegime d) = Some cfg -> run d es d' -> Z.of_nat (length es) + measure cfg d' <= measure cfg d.
Proof.
  intros Hc H. induction H as [d|d e d1 es d2 He Hr IH]; cbn [length]; [lia|].
  apply (apply_measure _ _ _ _ Hc) in He as [Hreg Hm]. rewrite Hreg in IH. specialize (IH Hc). lia.
Qed.

Lemma rank_nonneg s : 0 <= rank s.
Proof. destruct s; cbn; lia. Qed.

(** ** Closing a dispute *)

(** Events that bring a dispute in state [s] to [CLOSED]. *)
Definition closing_events (cfg : Rules) (s : State) : list Event :=
  let outcome := if HasProvisionalCredit cfg then [EventIssueFinalCredit; EventClose] else [EventClose] in
  match s with
  | StateInitiated => [EventOpenInvestigation; EventClose]
  | StateChargebackFiled => [EventAcknowledgeChargeback; EventWinChargeback] ++ outcome
  | StateChargebackAcknowledged | StateEvidenceSubmitted => EventWinChargeback :: outcome
  | StateChargebackWon => outcome
  | StateChargebackLost =>
      if HasProvisionalCredit cfg then [EventReverseProvisionalCredit; EventClose] else [EventClose]
  | StateClosed | StateEmpty => []
  | _ => [EventClose]
  end.

(** Moving along the table alone. *)
Fixpoint walk (cfg : Rules) (s : State) (es : list Event) : option State :=
  match es with
  | [] => Some s
  | e :: es => s' ← next cfg s e; walk cfg s' es
  end.

Lemma next_not_appeal cfg s : next cfg s EventAppeal = None.
Proof. by destruct s. Qed.

Lemma walk_run cfg r s a es s' :
  rules r = Some cfg -> walk cfg s es = Some s' -> run (mkDispute r s a) es (mkDispute r s' a).
Proof.
  intros Hc. revert s. induction es as [|e es IH]; cbn; intros s H; [injection H as <-; constructor|].
  destruct (next cfg s e) as [s1|] eqn:En; [|done]. cbn in H.
  apply run_cons with (d' := mkDispute r s1 a); [|by apply IH].
  apply Apply_ok. exists cfg. cbn. split; [done|]. split; [done|]. right. cbn.
  split; [|done]. intros ->. by rewrite next_not_appeal in En.
Qed.

Lemma closing_walk regime cfg s : rules regime = Some cfg -> s ∈ lifecycle_states regime ->
  walk cfg s (closing_events cfg s) = Some StateClosed.
Proof. intros Hc Hs. cases_rules Hc; destruct s; revert Hs; by_eval. Qed.

(** ** Getting to a state *)
Definition opening_events (cfg : Rules) (s : State) : list Event :=
  let refund := if HasRefundStep cfg then [EventIssueRefund] else [] in
  let file := [EventOpenInvestigation] ++ refund ++ [EventFileChargeback] in
  let ack := file ++ [EventAcknowledgeChargeback] in
  match s with
  | StateInitiated | StateEmpty => []
  | StateInvestigating => [EventOpenInvestigation]
  | StateQuestionnaireSent => [EventOpenInvestigation; EventSendQuestionnaire]
  | StateQuestionnaireReceived => [EventOpenInvestigation; EventSendQuestionnaire; EventReceiveQuestionnaire]
  | StateProvisionalCreditIssued | StateFastRefundIssued | StateSEPANQARefundIssued =>
      [EventOpenInvestigation; EventIssueRefund]
  | StateChargebackFiled => file
  | StateChargebackAcknowledged => ack
  | StateEvidenceSubmitted => ack ++ [EventSubmitEvidence]
  | StateChargebackWon => ack ++ [EventWinChargeback]
  | StateChargebackLost => ack ++ [EventLoseChargeback]
  | StateFinalCreditIssued => ack ++ [EventWinChargeback; EventIssueFinalCredit]
  | StateProvisionalCreditReversed => ack ++ [EventLoseChargeback; EventReverseProvisionalCredit]
  | StateClosed => [EventOpenInvestigation; EventClose]
  end.

Lemma opening_walk regime cfg s : rules regime = Some cfg -> s ∈ lifecycle_states regime ->
  walk cfg StateInitiated (opening_events cfg s) = Some s.
Proof. intros Hc Hs. cases_rules Hc; destruct s; revert Hs; by_eval. Qed.

(** ** Every way a first cycle can go *)
Fixpoint closing_paths (fuel : nat) (cfg : Rules) (s : State) : list (list Event) :=
  if bool_decide (s = StateClosed) then [[]] else
  match fuel with
  | O => []
  | S fuel =>
      flat_map (fun e => match next cfg s e with
                         | Some s' => cons e <$> closing_paths fuel cfg s'
                         | None => []
                         end) AllEvents
  end.

Lemma closed_walk cfg es s : walk cfg StateClosed es = Some s -> es = [] /\ s = StateClosed.
Proof. destruct es as [|e es]; cbn; [by intros [= ->]|done]. Qed.

(** With fuel for the longest cycle the enumeration is exactly the paths to [CLOSED]. *)
Lemma closing_paths_complete cfg n s es :
  (Z.to_nat (rank s) <= n)%nat -> In es (closing_paths n cfg s) <-> walk cfg s es = Some StateClosed.
Proof.
  revert s es. induction n as [|n IH]; intros s es Hn.
  - assert (Hs : s = StateClosed \/ s = StateEmpty) by (destruct s; cbn in Hn; auto; lia).
    destruct Hs as [-> | ->]; cbn.
    + split; [intros [<-|[]]; done|]. intros H. apply closed_walk in H as [-> _]. by left.
    + split; [done|]. destruct es; cbn; discriminate.
  - cbn [closing_paths]. case_bool_decide as Hs.
    { subst. split; [intros [<-|[]]; done|]. intros H. apply closed_walk in H as [-> _]. by left. }
    rewrite in_flat_map. split.
    + intros (e & _ & Hin). destruct (next cfg s e) as [s'|] eqn:En; [|done].
      apply list_elem_of_In, list_elem_of_fmap in Hin as (es' & -> & Hin%list_elem_of_In). cbn. rewrite En. cbn.
      apply IH; [|done]. apply next_rank in En. pose proof (rank_nonneg s'). lia.
    + destruct es as [|e es]; [cbn; congruence|]. intros H. cbn [walk] in H.
      destruct (next cfg s e) as [s'|] eqn:En; [|done].
      cbn in H. exists e. split.
      * apply list_elem_of_In, AllEvents_complete. intros name ->. by destruct s.
      * rewrite En. apply list_elem_of_In, list_elem_of_fmap_2, list_elem_of_In, IH; [|done].
        apply next_rank in En. pose proof (rank_nonneg s'). lia.
Qed.

(** ** Properties *)


(** What [Apply] answers, branch by branch: an unknown regime, an appeal of an open or an exhausted dispute and
    a move the table lacks are refused with the error of that branch, an appeal of a closed dispute reopens the
    investigation and counts, and any other move enters the state the table gives and touches nothing else. *)
Theorem Apply_branches d e :
  match rules (DRegime d) with
  | None => exists err, Apply d e = Err err /\ errors_is err ErrUnknownRegime = true /\ KindOf err = Invalid
  | Some cfg =>
      if decide (e = EventAppeal) then
        if decide (DState d = StateClosed) then
          if decide (DAppeals d < MaxAppeals cfg)
          then Apply d e = Ok (mkDispute (DRegime d) StateInvestigating (DAppeals d + 1))
          else exists err, Apply d e = Err err /\ errors_is err ErrAppealsExhausted = true /\ KindOf err = Conflict
        else exists err, Apply d e = Err err /\ errors_is err ErrInvalidTransition = true /\ KindOf err = Conflict
      else
        match next cfg (DState d) e with
        | Some to => Apply d e = Ok (mkDispute (DRegime d) to (DAppeals d))
        | None => exists err, Apply d e = Err err /\ errors_is err ErrInvalidTransition = true /\ KindOf err = Conflict
        end
  end.
Proof.
  unfold Apply, RulesFor. destruct (rules (DRegime d)) as [cfg|]; [|eexists; done]. cbn [mbind res_bind].
  destruct (decide (e = EventAppeal)) as [He|He].
  - rewrite bool_decide_eq_true_2 by done. destruct (decide (DState d = StateClosed)) as [Hs|Hs].
    + rewrite bool_decide_eq_false_2 by (intros H; by apply H). destruct (decide _) as [Ha|Ha].
      * by replace (MaxAppeals cfg <=? DAppeals d) with false by (symmetry; apply Z.leb_gt; lia).
      * replace (MaxAppeals cfg <=? DAppeals d) with true by (symmetry; apply Z.leb_le; lia). by eexists.
    + rewrite bool_decide_eq_true_2 by done. by eexists.
  - rewrite bool_decide_eq_false_2 by done. destruct (next _ _ _); [done|by eexists].
Qed.

(** No dispute goes on for ever: whatever accepted events it takes from its opening, appeal included, there are
    at most 20 of them. *)
Theorem run_bounded regime d es d' :
  NewDispute regime = Ok d -> run d es d' -> (length es <= 20)%nat.
Proof.
  intros Hd Hrun. pose proof (new_inv _ _ Hd) as (Hr & _ & cfg & Hc & Ha).
  pose proof (reachable_inv regime d' ltac:(eapply run_reachable; [by apply reachable_new|done])) as (_ & _ & cfg' & Hc' & Ha').
  rewrite Hc in Hc'. injection Hc' as <-.
  pose proof (run_measure cfg d es d' ltac:(by rewrite Hr) Hrun) as Hm.
  pose proof (rules_shape _ _ Hc) as (Hmax & _).
  unfold NewDispute in Hd. apply bind_ok in Hd as (? & _ & [= <-]). unfold measure in Hm. cbn in Hm.
  pose proof (rank_nonneg (DState d')). lia.
Qed.

(** The bound is reached: a contested Regulation E dispute, lost, appealed and won. *)
Definition longest_run : list Event :=
  let cycle := [EventSendQuestionnaire; EventReceiveQuestionnaire; EventIssueRefund; EventFileChargeback;
                EventAcknowledgeChargeback; EventSubmitEvidence] in
  [EventOpenInvestigation] ++ cycle ++ [EventLoseChargeback; EventReverseProvisionalCredit; EventClose] ++
  [EventAppeal] ++ cycle ++ [EventWinChargeback; EventIssueFinalCredit; EventClose].

Lemma run_bounded_witness :
  NewDispute RegimeUSRegE = Ok (mkDispute RegimeUSRegE StateInitiated 0) /\ length longest_run = 20%nat /\
  (length longest_run <= 20)%nat.
Proof.
  split; [reflexivity|]. split; [reflexivity|].
  apply (run_bounded RegimeUSRegE (mkDispute RegimeUSRegE StateInitiated 0) longest_run
           (mkDispute RegimeUSRegE StateClosed 1)); [reflexivity|].
  apply run_apply_all. vm_compute. reflexivity.
Defined.

(** C18: No dispute gets stuck: from every state it can be in, some sequence of at most four accepted events closes
    it, without an appeal. *)
Theorem reachable_can_close regime d :
  reachable regime d ->
  exists es, (length es <= 4)%nat /\ ~ (EventAppeal ∈ es) /\ run d es (mkDispute regime StateClosed (DAppeals d)).
Proof.
  intros H. apply reachable_inv in H as (Hr & Hs & cfg & Hc & _). exists (closing_events cfg (DState d)).
  split; [|split].
  - unfold closing_events. destruct (HasProvisionalCredit cfg), (DState d); cbn; lia.
  - unfold closing_events. destruct (HasProvisionalCredit cfg), (DState d); by_eval.
  - destruct d as [r s a]. cbn in *. subst r. apply (walk_run cfg); [done|]. by eapply closing_walk.
Qed.

Lemma reachable_can_close_witness :
  reachable RegimeUSRegE (mkDispute RegimeUSRegE StateInvestigating 0) /\
  exists es, (length es <= 4)%nat /\ ~ (EventAppeal ∈ es) /\
    run (mkDispute RegimeUSRegE StateInvestigating 0) es (mkDispute RegimeUSRegE StateClosed 0).
Proof.
  assert (H : reachable RegimeUSRegE (mkDispute RegimeUSRegE StateInvestigating 0)).
  { eapply reachable_apply with (e := EventOpenInvestigation);
      [apply reachable_new; reflexivity | reflexivity]. }
  split; [exact H|]. exact (reachable_can_close _ _ H).
Defined.

(** The actions a dispute offers are exactly the events [Apply] accepts, an unknown event name is never one of
    them, and a terminal dispute is one that offers at most an appeal. *)
Theorem Allowed_exact regime d :
  reachable regime d ->
  (forall e, e ∈ Allowed d <-> exists d', Apply d e = Ok d') /\
  (IsTerminal d = true <-> forall e, e ∈ Allowed d -> e = EventAppeal).
Proof.
  intros Hreach.
  assert (Hall : forall e, e ∈ Allowed d <-> exists d', Apply d e = Ok d').
  { intros e. unfold Allowed. rewrite list_elem_of_filter. split.
    - intros [H _]. destruct (Apply d e) as [d'|]; [eauto|done].
    - intros (d' & H). rewrite H. split; [done|]. apply AllEvents_complete. intros name ->.
      apply Apply_ok in H as (cfg & _ & _ & [(Hx & _)|(_ & Hn & _)]); [done|]. by destruct (DState d). }
  split; [done|]. apply reachable_inv in Hreach as (Hr & Hs & cfg & Hc & Ha).
  unfold IsTerminal. rewrite bool_decide_eq_true. split.
  - intros Hcl e. rewrite Hall. intros (d' & H). apply Apply_ok in H as (cfg' & _ & _ & [(He & _)|(_ & Hn & _)]);
      [done|]. by rewrite Hcl in Hn.
  - intros Honly. destruct (decide (DState d = StateClosed)) as [|Hne]; [done|exfalso].
    pose proof (closing_walk regime cfg (DState d) Hc Hs) as Hw.
    destruct (closing_events cfg (DState d)) as [|e es] eqn:Ee; [cbn in Hw; congruence|]. cbn in Hw.
    destruct (next cfg (DState d) e) as [s'|] eqn:En; [|done].
    assert (He : e = EventAppeal).
    { apply Honly, Hall. exists (mkDispute (DRegime d) s' (DAppeals d)). apply Apply_ok. exists cfg.
      split; [by rewrite Hr|]. split; [done|]. right. split; [|done]. intros ->. by rewrite next_not_appeal in En. }
    subst. by rewrite next_not_appeal in En.
Qed.

Lemma Allowed_exact_witness :
  Allowed (mkDispute RegimeEUPSD2Card StateInvestigating 0) =
    [EventSendQuestionnaire; EventIssueRefund; EventClose] /\
  (IsTerminal (mkDispute RegimeEUPSD2Card StateInvestigating 0) = true <->
   forall e, e ∈ Allowed (mkDispute RegimeEUPSD2Card StateInvestigating 0) -> e = EventAppeal).
Proof.
  split; [vm_compute; reflexivity|]. apply (Allowed_exact RegimeEUPSD2Card).
  eapply reachable_apply with (e := EventOpenInvestigation); [apply reachable_new; reflexivity | reflexivity].
Defined.

(** A dispute's first cycle can go 43 ways in all, and the enumeration that counts them misses none: a sequence
    of events leads from the opening to CLOSED under a regime if and only if it is listed. *)
Theorem closing_paths_exact :
  (forall cfg es, In es (closing_paths 10 cfg StateInitiated) <-> walk cfg StateInitiated es = Some StateClosed) /\
  sumZ (fun regime => match rules regime with
                      | Some cfg => Z.of_nat (length (closing_paths 10 cfg StateInitiated))
                      | None => 0
                      end) AllRegimes = 43.
Proof. split; [|vm_compute; reflexivity]. intros cfg es. apply closing_paths_complete. cbn. lia. Qed.
