(* ===== verification/Deadlines.v ===== *)
(** * Deadlines: regulatory clocks and the business-day calendar ([domain/deadline.go]). *)
From S2P Require Import Prelude Errs GoTime Types Regimes.

Inductive DeadlineStatus : Type :=
| DeadlineRunning | DeadlineMet | DeadlineLate | DeadlineBreached | DeadlineVoid.
#[export] Instance DeadlineStatus_eq_dec : EqDecision DeadlineStatus.
Proof. solve_decision. Defined.

Definition DeadlineStatus_string (s : DeadlineStatus) : string :=
  match s with
  | DeadlineRunning => "RUNNING" | DeadlineMet => "MET" | DeadlineLate => "LATE" | DeadlineBreached => "BREACHED"
  | DeadlineVoid => "VOID"
  end.

Record Deadline : Type := mkDeadline {
  DlKind : DeadlineKind;
  DlCycle : Z;
  DlStartedAt : time;
  DlDueAt : time;
  DlMetAt : option time;
  DlVoidedAt : option time;
  DlBasis : string
}.
#[export] Instance Deadline_eq_dec : EqDecision Deadline.
Proof. solve_decision. Defined.

Definition Status (d : Deadline) (now : time) : DeadlineStatus :=
  match DlMetAt d with
  | Some met => if negb (DlDueAt d <? met) then DeadlineMet else DeadlineLate
  | None =>
      match DlVoidedAt d with
      | Some _ => DeadlineVoid
      | None => if DlDueAt d <? now then DeadlineBreached else DeadlineRunning
      end
  end.

Definition Open (d : Deadline) : bool :=
  match DlMetAt d, DlVoidedAt d with None, None => true | _, _ => false end.

(** ** Calendars

    [Holidays] is the map from ["2006-01-02"] strings; only its keys matter. *)
Record Calendar : Type := mkCalendar { CLocation : option Location; Holidays : gset string }.

Definition DefaultCalendar : Calendar := mkCalendar (Some UTC) ∅.

Definition cal_loc (c : Calendar) : Location := default UTC (CLocation c).

(** [NewCalendar]; [load] is [time.LoadLocation], which reads the system's zone database. *)
Definition NewCalendar (load : string -> option Location) (zone : string) (holidays : list string) : M Calendar :=
  loc ← (if bool_decide (zone = "") then Ok UTC
         else match load zone with
              | Some loc => Ok loc
              | None => Err (EWrap ("domain: calendar zone " +:+ quoted zone) (EPlain "unknown time zone"))
              end);
  foldl (fun acc h =>
           c ← acc;
           match parse_ymd h with
           | None => Err (EWrap ("domain: calendar holiday " +:+ quoted h) (EPlain "cannot parse"))
           | Some _ => Ok (mkCalendar (CLocation c) ({[ h ]} ∪ Holidays c))
           end) (Ok (mkCalendar (Some loc) ∅)) holidays.

(** Whether a day number is a business day. *)
Definition business_day (c : Calendar) (day : Z) : bool :=
  negb ((weekday day =? 6) || (weekday day =? 0)) && negb (bool_decide (format_day day ∈ Holidays c)).

Definition IsBusinessDay (c : Calendar) (t : time) : bool := business_day c (local_day (cal_loc c) t).

(** The loop of [Due]: [n] days counted so far, [day] the instant reached. Returns both, so that the theorems
    can say the loop ended because the count was reached and not because the fuel was. *)
Fixpoint due_loop (fuel : nat) (c : Calendar) (clock : Clock) (day : time) (n : Z) : time * Z :=
  if n <? CCount clock then
    match fuel with
    | O => (day, n)
    | S fuel =>
        let day' := AddDate (cal_loc c) day 0 0 1 in
        if bool_decide (CUnit clock = CalendarDays) || IsBusinessDay c day'
        then due_loop fuel c clock day' (n + 1)
        else due_loop fuel c clock day' n
    end
  else (day, n).

(** In each of [count + holidays] weeks five days are weekdays, and each holiday takes away one of them at most. *)
Definition due_fuel (c : Calendar) (clock : Clock) : nat :=
  7 * (Z.to_nat (CCount clock) + size (Holidays c)).

(** [time.Date(day.Year(), day.Month(), day.Day(), 0, 0, 0, 0, loc)]. *)
Definition start_of_day (loc : Location) (t : time) : time :=
  let '(y, m, d) := date_of loc t in Date y m d 0 0 0 0 loc.

Definition Due (c : Calendar) (start : time) (clock : Clock) : time :=
  let day := start_of_day (cal_loc c) start in
  AddDate (cal_loc c) (due_loop (due_fuel c clock) c clock day 0).1 0 0 1 - Nanosecond.

Definition OpeningDeadlines (r : Rules) (openedAt : time) (cal : Calendar) : list Deadline :=
  (fun c => mkDeadline (CKind c) 0 openedAt (Due cal openedAt c) None None (CBasis c)) <$> Clocks r.

Definition AppealDeadlines (r : Rules) (appeal : Z) (at_ : time) (cal : Calendar) : list Deadline :=
  (fun c => mkDeadline (CKind c) appeal at_ (Due cal at_ c) None None (CBasis c)) <$>
    filter (fun c => CKind c = DeadlineResolution) (Clocks r).

Inductive Settlement : Type := Untouched | Met | Void.
#[export] Instance Settlement_eq_dec : EqDecision Settlement.
Proof. solve_decision. Defined.

Definition Settle (kind : DeadlineKind) (entered : State) : Settlement :=
  match kind with
  | DeadlineRefund =>
      match entered with
      | StateProvisionalCreditIssued | StateFastRefundIssued | StateSEPANQARefundIssued
      | StateFinalCreditIssued => Met
      | StateClosed => Void
      | _ => Untouched
      end
  | DeadlineAcknowledge => if bool_decide (entered = StateClosed) then Void else Untouched
  | DeadlineResolution => if bool_decide (entered = StateClosed) then Met else Untouched
  end.

(** ** The clock loop on midnights *)

(** How many of the days [from+1 .. from+k] satisfy a predicate. *)
Fixpoint count_days (p : Z -> bool) (from : Z) (k : nat) : Z :=
  match k with
  | O => 0
  | S k => count_days p from k + (if p (from + Z.of_nat (S k)) then 1 else 0)
  end.

Lemma count_days_app p from a b :
  count_days p from (a + b) = count_days p from a + count_days p (from + Z.of_nat a) b.
Proof.
  induction b as [|b IH]; cbn [count_days]; [rewrite Nat.add_0_r; lia|].
  rewrite Nat.add_succ_r. cbn [count_days]. rewrite IH.
  replace (from + Z.of_nat a + Z.of_nat (S b)) with (from + Z.of_nat (S (a + b))) by lia. lia.
Qed.

Lemma count_days_range p from k : 0 <= count_days p from k <= Z.of_nat k.
Proof. induction k as [|k IH]; cbn [count_days]; [lia|]. case_match; lia. Qed.

Lemma count_days_mono p from j k : (j <= k)%nat -> count_days p from j <= count_days p from k.
Proof. induction 1 as [|k Hk IH]; [lia|]. cbn [count_days]. case_match; lia. Qed.

Lemma count_days_all from k : count_days (fun _ => true) from k = Z.of_nat k.
Proof. induction k as [|k IH]; cbn [count_days]; lia. Qed.

Lemma count_days_sub p q r from k :
  (forall d, q d = true -> p d = true \/ r d = true) ->
  count_days q from k - count_days r from k <= count_days p from k.
Proof.
  intros H. induction k as [|k IH]; cbn [count_days]; [lia|].
  specialize (H (from + Z.of_nat (S k))).
  destruct (q _), (p _), (r _); lia.
Qed.

Definition is_weekday (day : Z) : bool := negb ((weekday day =? 6) || (weekday day =? 0)).

Lemma weekdays_in_week from : count_days is_weekday from 7 = 5.
Proof.
  assert (H : exists q x, from = 7 * q + x /\ 0 <= x < 7).
  { exists (from / 7), (from mod 7). pose proof (Z.div_mod from 7). pose proof (Z.mod_pos_bound from 7). lia. }
  destruct H as (q & x & -> & Hx).
  assert (Hw : forall i, is_weekday (7 * q + x + i) = is_weekday (x + i)).
  { intros i. unfold is_weekday, weekday. replace (7 * q + x + i + 4) with (x + i + 4 + q * 7) by lia. by rewrite Z.mod_add. }
  cbn [count_days]. rewrite !Hw. assert (Hc : x = 0 \/ x = 1 \/ x = 2 \/ x = 3 \/ x = 4 \/ x = 5 \/ x = 6) by lia.
  by destruct Hc as [->|[->|[->|[->|[->|[->| ->]]]]]].
Qed.

Lemma weekdays_in_weeks from m : count_days is_weekday from (7 * m) = 5 * Z.of_nat m.
Proof.
  revert from. induction m as [|m IH]; intros from; [done|].
  replace (7 * S m)%nat with (7 + 7 * m)%nat by lia. rewrite count_days_app, weekdays_in_week, IH. lia.
Qed.

Definition is_holiday (c : Calendar) (day : Z) : bool := bool_decide (format_day day ∈ Holidays c).

(** The holidays among a stretch of days are different strings of the calendar's set. *)
Lemma holidays_bounded c from k :
  (forall i, 1 <= i <= Z.of_nat k -> four_digit_year (from + i)) ->
  count_days (is_holiday c) from k <= Z.of_nat (size (Holidays c)).
Proof.
  intros Hy.
  assert (H : exists l : list Z, Z.of_nat (length l) = count_days (is_holiday c) from k /\ NoDup (format_day <$> l) /\
    forall d, d ∈ l -> format_day d ∈ Holidays c /\ exists i, 1 <= i <= Z.of_nat k /\ d = from + i).
  { induction k as [|k IH]; [exists []; repeat split; [constructor|..]; by apply not_elem_of_nil in H|].
    destruct IH as (l & Hl & Hnd & Hin); [intros i Hi; apply Hy; lia|]. cbn [count_days].
    destruct (is_holiday c (from + Z.of_nat (S k))) eqn:E.
    - exists ((from + Z.of_nat (S k)) :: l). split; [cbn [length]; lia|]. split.
      + rewrite fmap_cons. constructor; [|done]. intros (d & Hd & Hdl)%list_elem_of_fmap.
        destruct (Hin d Hdl) as (_ & i & Hi & ->). apply format_day_inj in Hd; [lia|apply Hy; lia|apply Hy; lia].
      + intros d [->|Hd]%elem_of_cons; [|destruct (Hin d Hd) as (? & i & ? & ->); split; [done|exists i; lia]].
        split; [by apply bool_decide_eq_true in E|]. exists (Z.of_nat (S k)). lia.
    - exists l. split; [lia|]. split; [done|]. intros d Hd. destruct (Hin d Hd) as (? & i & ? & ->). split; [done|exists i; lia]. }
  destruct H as (l & <- & Hnd & Hin).
  rewrite <- (length_fmap format_day l), <- (size_list_to_set (C:=gset string)) by done.
  apply inj_le, subseteq_size. intros s (d & -> & Hd)%elem_of_list_to_set%list_elem_of_fmap. by apply Hin.
Qed.

(** Days that count towards a clock. *)
Definition counts (c : Calendar) (clock : Clock) (day : Z) : bool :=
  bool_decide (CUnit clock = CalendarDays) || business_day c day.
Abbreviation counted c clock := (count_days (counts c clock)).

Lemma counted_shift c clock from k :
  counted c clock from (S k) =
  (if counts c clock (from + 1) then 1 else 0) + counted c clock (from + 1) k.
Proof. change (S k) with (1 + k)%nat. rewrite count_days_app. change (Z.of_nat 1) with 1.
  cbn [count_days]. change (Z.of_nat 1) with 1. lia.
Qed.

(** The fuel of [Due] is enough. *)
Lemma due_fuel_enough c clock from :
  0 <= CCount clock ->
  (forall i, 1 <= i <= Z.of_nat (due_fuel c clock) -> four_digit_year (from + i)) ->
  CCount clock <= counted c clock from (due_fuel c clock).
Proof.
  intros Hn Hy. destruct (CUnit clock) eqn:Eu.
  - pose proof (holidays_bounded c from (due_fuel c clock) Hy) as Hh.
    assert (Hwd : forall d, is_weekday d = true -> counts c clock d = true \/ is_holiday c d = true).
    { intros d Hd. unfold counts, business_day, is_holiday. fold (is_weekday d). rewrite Hd.
      destruct (bool_decide (format_day d ∈ _)); [by right|left; by rewrite orb_true_r]. }
    pose proof (count_days_sub _ _ _ from (due_fuel c clock) Hwd) as Hs.
    unfold due_fuel in *. rewrite weekdays_in_weeks in Hs. lia.
  - assert (Hall : counted c clock from (due_fuel c clock) = Z.of_nat (due_fuel c clock)).
    { rewrite <- (count_days_all from). induction (due_fuel c clock) as [|k IH]; [done|]. cbn [count_days].
      unfold counts at 2. rewrite Eu. cbn. rewrite IH; [done|]. intros i Hi. apply Hy. lia. }
    rewrite Hall. unfold due_fuel. lia.
Qed.

(** From one midnight the loop walks day by day and stops at the first one with the wanted count. *)
Lemma due_loop_midnight c clock `{!Regular (cal_loc c)} fuel from n :
  n <= CCount clock ->
  CCount clock <= n + counted c clock from fuel ->
  exists k, (k <= fuel)%nat /\
    due_loop fuel c clock (midnight (cal_loc c) from) n = (midnight (cal_loc c) (from + Z.of_nat k), CCount clock) /\
    n + counted c clock from k = CCount clock /\
    (forall j, (j < k)%nat -> n + counted c clock from j < CCount clock).
Proof.
  revert from n. induction fuel as [|fuel IH]; intros from n Hn Hc.
  - exists 0%nat. cbn [count_days due_loop] in *. replace (n <? CCount clock) with false by (symmetry; apply Z.ltb_ge; lia).
    rewrite Z.add_0_r. replace (CCount clock) with n by lia. repeat split; [lia|lia|]. intros j Hj. lia.
  - cbn [due_loop]. destruct (n <? CCount clock) eqn:E; to_prop.
    + rewrite AddDate_midnight. unfold IsBusinessDay. rewrite midnight_day. fold (counts c clock (from + 1)).
      rewrite counted_shift in Hc.
      assert (Hrec : forall n', n' = n + (if counts c clock (from + 1) then 1 else 0) ->
        exists k, (k <= S fuel)%nat /\
          due_loop fuel c clock (midnight (cal_loc c) (from + 1)) n' =
            (midnight (cal_loc c) (from + Z.of_nat k), CCount clock) /\
          n + counted c clock from k = CCount clock /\
          (forall j, (j < k)%nat -> n + counted c clock from j < CCount clock)).
      { intros n' ->. destruct (IH (from + 1) (n + (if counts c clock (from + 1) then 1 else 0))) as (k & Hk & Hl & Hk1 & Hk2).
        { case_match; lia. } { lia. }
        exists (S k). split; [lia|]. rewrite Hl. split; [do 2 f_equal; lia|]. rewrite counted_shift. split; [lia|].
        intros [|j] Hj; [cbn [count_days]; lia|]. rewrite counted_shift. specialize (Hk2 j ltac:(lia)). lia. }
      destruct (counts c clock (from + 1)); apply Hrec; lia.
    + exists 0%nat. rewrite Z.add_0_r. replace (CCount clock) with n by lia.
      cbn [count_days]. repeat split; [lia|lia|]. intros j Hj. lia.
Qed.

Lemma start_of_day_midnight loc t : start_of_day loc t = midnight loc (local_day loc t).
Proof.
  unfold start_of_day, date_of. pose proof (Date_midnight loc (local_day loc t) 0) as H.
  destruct (civil_from_days _) as [[y m] d]. by rewrite !Z.add_0_r in H.
Qed.

(** The dates a clock may look at print with a four-digit year, so that different days are different holiday
    strings; for the clocks of the regimes this covers every start until the year 9998. *)
Definition dates_in_range (c : Calendar) (clock : Clock) (day : Z) : Prop :=
  forall i, 1 <= i <= Z.of_nat (due_fuel c clock) -> four_digit_year (day + i).

(** ** Properties *)

(** C21: In a zone that never skips midnight, [Due] terminates (the loop ends because it has counted enough days,
    whatever the holidays) and returns the last nanosecond of the first day after the start on which the number of
    counting days reaches the clock's count: weekends and holidays do not count for a business-day clock, every day
    counts for a calendar-day clock. *)
Theorem Due_exact c start clock :
  Regular (cal_loc c) -> 0 <= CCount clock -> dates_in_range c clock (local_day (cal_loc c) start) ->
  let d0 := local_day (cal_loc c) start in
  (due_loop (due_fuel c clock) c clock (start_of_day (cal_loc c) start) 0).2 = CCount clock /\
  exists k, Due c start clock = midnight (cal_loc c) (d0 + Z.of_nat k + 1) - 1 /\
    count_days (counts c clock) d0 k = CCount clock /\
    (forall j, (j < k)%nat -> count_days (counts c clock) d0 j < CCount clock).
Proof.
  intros Hreg Hn Hy d0. rewrite start_of_day_midnight. fold d0.
  destruct (due_loop_midnight c clock (due_fuel c clock) d0 0 Hn) as (k & Hk & Hl & Hk1 & Hk2).
  { apply (due_fuel_enough c clock d0 Hn Hy). }
  unfold Due. rewrite start_of_day_midnight. fold d0. rewrite Hl. split; [done|]. exists k. cbn [fst].
  by rewrite AddDate_midnight.
Qed.

(** Friday 2024-03-29 18:00 UTC with Easter Monday a holiday: one business day ends with Tuesday. *)
Definition easter_calendar : Calendar := mkCalendar (Some UTC) {[ "2024-04-01" ]}.
Lemma Due_exact_witness :
  let start := 1711735200 * Second in
  let clock := mkClock DeadlineRefund 1 BusinessDays "" in
  Due easter_calendar start clock = 1712102400 * Second - 1 /\
  exists k, Due easter_calendar start clock = midnight UTC (local_day UTC start + Z.of_nat k + 1) - 1 /\
    count_days (counts easter_calendar clock) (local_day UTC start) k = 1 /\
    (forall j, (j < k)%nat -> count_days (counts easter_calendar clock) (local_day UTC start) j < 1).
Proof.
  intros start clock. split; [vm_compute; reflexivity|].
  refine (proj2 (Due_exact easter_calendar start clock UTC_regular _ _)); [cbn; lia|].
  intros i Hi. change (Z.of_nat (due_fuel easter_calendar clock)) with 14 in Hi.
  change (local_day (cal_loc easter_calendar) start) with 19811.
  assert (Hc : i ∈ ([1; 2; 3; 4; 5; 6; 7; 8; 9; 10; 11; 12; 13; 14] : list Z)) by (rewrite !elem_of_cons; lia).
  apply list_elem_of_In in Hc. clear Hi. unfold four_digit_year. revert i Hc.
  apply (proj1 (Forall_forall _ _)). by_eval.
Defined.

(** A clock's status only ever changes with the passing of time from RUNNING to BREACHED, and does so when its
    due time passes; once met or voided it keeps its status for good, met first if both stamps are there. *)
Theorem Status_progress d t1 t2 :
  t1 <= t2 ->
  (Status d t1 = Status d t2 \/
   (Status d t1 = DeadlineRunning /\ Status d t2 = DeadlineBreached /\ t1 <= DlDueAt d < t2)) /\
  (Open d = true <-> Status d t1 = DeadlineRunning \/ Status d t1 = DeadlineBreached) /\
  (Open d = false -> Status d t1 =
     match DlMetAt d with
     | Some met => if DlDueAt d <? met then DeadlineLate else DeadlineMet
     | None => DeadlineVoid
     end).
Proof.
  intros Ht. unfold Status, Open. destruct (DlMetAt d) as [met|]; [|destruct (DlVoidedAt d) as [v|]].
  - destruct (DlDueAt d <? met); cbn; (split; [by left|]); split; intuition discriminate.
  - split; [by left|]. split; intuition discriminate.
  - destruct (DlDueAt d <? t1) eqn:E1, (DlDueAt d <? t2) eqn:E2; to_prop; try lia;
      (split; [(by left) || (right; repeat split; lia)|]); split; intuition discriminate.
Qed.

Lemma Status_progress_witness :
  let d := mkDeadline DeadlineRefund 0 0 10 None None "" in
  10 <= 11 /\ (Status d 10 = Status d 11 \/
   (Status d 10 = DeadlineRunning /\ Status d 11 = DeadlineBreached /\ 10 <= DlDueAt d < 11)).
Proof. intros d. split; [lia|]. apply (Status_progress d 10 11). lia. Defined.

(** A zone like Egypt's: summer time starts at midnight of Friday 2024-04-26, so that day starts at 01:00. *)
Definition midnight_gap_zone : Location :=
  mkLocation (fun u => if u <? 1714082400 then (7200, - 2 ^ 63, 1714082400) else (10800, 1714082400, 2 ^ 63 - 1)).

(** Where a zone's clocks skip midnight the due time is not the end of a day: one business day from Thursday
    2024-04-25 12:00 in a zone that jumps from 00:00 to 01:00 on Friday runs out at 00:59:59.999999999 on Saturday,
    an hour after Friday has ended, because every later day is reached from the 01:00 the skipped midnight became. *)
Theorem Due_after_skipped_midnight :
  let c := mkCalendar (Some midnight_gap_zone) ∅ in
  let start := 1714039200 * Second in
  let due := Due c start (mkClock DeadlineRefund 1 BusinessDays "") in
  date_of midnight_gap_zone start = (2024, 4, 25) /\
  date_of midnight_gap_zone due = (2024, 4, 27) /\ local_clock midnight_gap_zone due = 3599 /\
  weekday (local_day midnight_gap_zone due) = 6.
Proof. vm_compute. repeat split. Qed.
