(* ===== verification/Ledger.v ===== *)
(** * Ledger: the double-entry dispute ledger ([domain/ledger.go], and the [Balances] of
    [application/service.go]). *)
From Stdlib Require Import QArith Lqa.
From S2P Require Import Prelude Errs Ext Types Regimes Lifecycle.
Local Open Scope Z_scope.

Definition ErrInvalidLiability : Error :=
  sentinel Unprocessable "invalid-liability" "the customer liability is not allowed under this regime".
Definition ErrInvalidSettlement : Error :=
  sentinel Unprocessable "invalid-settlement" "the settlement is not one of RECOVERED or WRITTEN_OFF".

Section ledger.
Context `{DC : Decimal}.

Record Posting : Type := mkPosting {
  PKind : PostingKind;
  PDebit : Account;
  PCredit : Account;
  PAmount : dec;
  PCurrency : string
}.

Definition CreditAmount (r : Rules) (disputed liability : dec) : M dec :=
  let cap := Shift (NewFromInt (LiabilityCapMinor r)) (-2) in
  let refuse msg := fail (WithFields ErrInvalidLiability [mkFieldError "body.payload.liability" msg]) in
  if IsNegative liability then refuse "must not be negative"
  else if GreaterThan liability cap then
    refuse ("exceeds the " +:+ StringFixed cap 2 +:+ " " +:+ RCurrency r +:+ " cap under " +:+ Regime_string (RRegime r))
  else if GreaterThanOrEqual liability disputed && IsPositive disputed then
    refuse ("consumes the whole disputed amount of " +:+ StringFixed disputed 2 +:+ " " +:+ RCurrency r)
  else Ok (dec_sub disputed liability).

Definition ParseSettlement (r : Rules) (raw : string) : M SuspenseSettlement :=
  if bool_decide (raw = "") then Ok (CloseSettlement r)
  else if bool_decide (raw = "RECOVERED") then Ok SettleRecovered
  else if bool_decide (raw = "WRITTEN_OFF") then Ok SettleWrittenOff
  else fail (WithFields ErrInvalidSettlement
               [mkFieldError "body.payload.settlement" (quoted raw +:+ " is not RECOVERED or WRITTEN_OFF")]).

Record PostingInput : Type := mkPostingInput {
  Entered : State;
  Disputed : dec;
  PICurrency : string;
  Liability : dec;
  Outstanding : dec;
  PISettlement : SuspenseSettlement
}.

(** The local closures [post] and [settle] of [Postings]. *)
Definition post_one (i : PostingInput) (kind : PostingKind) (debit credit : Account) (amount : dec) : list Posting :=
  if negb (IsPositive amount) then [] else [mkPosting kind debit credit amount (PICurrency i)].
Definition settle_one (i : PostingInput) (s : SuspenseSettlement) : list Posting :=
  match s with
  | SettleRecovered => post_one i PostingRecovery AccountRecovery AccountSuspense (Outstanding i)
  | SettleWrittenOff => post_one i PostingWriteOff AccountLoss AccountSuspense (Outstanding i)
  end.

Definition Postings (r : Rules) (i : PostingInput) : list Posting :=
  match Entered i with
  | StateProvisionalCreditIssued =>
      post_one i PostingProvisionalCredit AccountSuspense AccountCustomer (dec_sub (Disputed i) (Liability i))
  | StateFastRefundIssued =>
      post_one i PostingFastRefund AccountSuspense AccountCustomer (dec_sub (Disputed i) (Liability i))
  | StateSEPANQARefundIssued =>
      post_one i PostingNQARefund AccountSuspense AccountCustomer (dec_sub (Disputed i) (Liability i))
  | StateProvisionalCreditReversed =>
      post_one i PostingProvisionalCreditReversal AccountCustomer AccountSuspense (Outstanding i)
  | StateChargebackWon => settle_one i SettleRecovered
  | StateChargebackLost => if HasProvisionalCredit r then [] else settle_one i SettleWrittenOff
  | StateClosed => settle_one i (PISettlement i)
  | _ => []
  end.

Definition SuspenseBalance (postings : list Posting) : dec :=
  foldl (fun total p =>
           let total := if bool_decide (PDebit p = AccountSuspense) then dec_add total (PAmount p) else total in
           if bool_decide (PCredit p = AccountSuspense) then dec_sub total (PAmount p) else total)
    dec_zero postings.

(** ** Running totals per account ([Balances.add]) *)
Record Balances : Type := mkBalances { BCustomer : dec; BSuspense : dec; BRecovery : dec; BLoss : dec }.
Definition zero_balances : Balances := mkBalances dec_zero dec_zero dec_zero dec_zero.

Definition Balances_add (b : Balances) (a : Account) (debit : dec) : Balances :=
  match a with
  | AccountCustomer => mkBalances (dec_sub (BCustomer b) debit) (BSuspense b) (BRecovery b) (BLoss b)
  | AccountSuspense => mkBalances (BCustomer b) (dec_add (BSuspense b) debit) (BRecovery b) (BLoss b)
  | AccountRecovery => mkBalances (BCustomer b) (BSuspense b) (dec_add (BRecovery b) debit) (BLoss b)
  | AccountLoss => mkBalances (BCustomer b) (BSuspense b) (BRecovery b) (dec_add (BLoss b) debit)
  end.

(** The loop the view and the notice facts share: each posting's debit, then its credit negated. *)
Definition balances_of (postings : list Posting) : Balances :=
  foldl (fun b p => Balances_add (Balances_add b (PDebit p) (PAmount p)) (PCredit p) (dec_neg (PAmount p)))
    zero_balances postings.

(** ** The ledger along a dispute's life

    One accepted event and the postings it causes, as the service's [post] computes them: the liability was
    accepted by [CreditAmount] or none was given, the settlement is whatever was parsed, and the outstanding
    amount is the suspense balance of the ledger so far. *)
Definition liability_ok (r : Rules) (disputed l : dec) : Prop :=
  l = dec_zero \/ exists c, CreditAmount r disputed l = Ok c.

Inductive ledger_run (r : Rules) (disputed : dec) (cur : string) : Dispute -> list Posting -> Prop :=
| ledger_new d : NewDispute (RRegime r) = Ok d -> ledger_run r disputed cur d []
| ledger_apply d ps e d' l s :
    ledger_run r disputed cur d ps -> Apply d e = Ok d' -> liability_ok r disputed l ->
    ledger_run r disputed cur d'
      (ps ++ Postings r (mkPostingInput (DState d') disputed cur l (SuspenseBalance ps) s)).
End ledger.

Section ledger_facts.
Context `{DC : Decimal} {DL : DecimalLaws DC}.
Local Open Scope Q_scope.
Implicit Types (p : Posting) (ps : list Posting) (b : Balances).

(** The four running totals as numbers. *)
Definition customer ps : Q := dval (BCustomer (balances_of ps)).
Definition suspense ps : Q := dval (BSuspense (balances_of ps)).
Definition recovery ps : Q := dval (BRecovery (balances_of ps)).
Definition loss ps : Q := dval (BLoss (balances_of ps)).

Lemma balances_snoc ps p :
  balances_of (ps ++ [p]) =
  Balances_add (Balances_add (balances_of ps) (PDebit p) (PAmount p)) (PCredit p) (dec_neg (PAmount p)).
Proof. unfold balances_of. by rewrite foldl_app. Qed.

Lemma SuspenseBalance_snoc ps p :
  SuspenseBalance (ps ++ [p]) =
  (let total := if bool_decide (PDebit p = AccountSuspense) then dec_add (SuspenseBalance ps) (PAmount p)
                else SuspenseBalance ps in
   if bool_decide (PCredit p = AccountSuspense) then dec_sub total (PAmount p) else total).
Proof. unfold SuspenseBalance. by rewrite foldl_app. Qed.

(** The suspense balance the service settles by is the one the views show. *)
Lemma SuspenseBalance_suspense ps : dval (SuspenseBalance ps) == suspense ps.
Proof.
  unfold suspense. induction ps as [|p ps IH] using rev_ind; [reflexivity|].
  rewrite SuspenseBalance_snoc, balances_snoc.
  destruct (PDebit p), (PCredit p); repeat case_bool_decide; try congruence; cbn; dec_prop; lra.
Qed.

(** Double entry: what the customer received is what the bank still advances, recovered or lost. *)
Lemma double_entry ps : customer ps == suspense ps + recovery ps + loss ps.
Proof.
  unfold customer, suspense, recovery, loss.
  induction ps as [|p ps IH] using rev_ind; [cbn; rewrite !dval_zero; lra|].
  rewrite balances_snoc. destruct (PDebit p), (PCredit p); cbn; dec_prop; lra.
Qed.

(** *** What one transition posts *)

(** States in which nothing is advanced: before a refund and after settlement. *)
Definition settled_state (r : Rules) (s : State) : bool :=
  match s with
  | StateProvisionalCreditIssued | StateFastRefundIssued | StateSEPANQARefundIssued
  | StateChargebackFiled | StateChargebackAcknowledged | StateEvidenceSubmitted => false
  | StateChargebackLost => negb (HasProvisionalCredit r)
  | _ => true
  end.
(** States of a cycle before its refund. *)
Definition unrefunded_state (s : State) : bool :=
  match s with
  | StateInitiated | StateInvestigating | StateQuestionnaireSent | StateQuestionnaireReceived => true
  | _ => false
  end.
Definition refund_state (s : State) : bool :=
  match s with
  | StateProvisionalCreditIssued | StateFastRefundIssued | StateSEPANQARefundIssued => true
  | _ => false
  end.

Lemma post_one_totals ps i kind debit credit amount :
  let ps' := (ps ++ post_one i kind debit credit amount)%list in
  let a := if IsPositive amount then dval amount else 0 in
  customer ps' == customer ps - (if decide (debit = AccountCustomer) then a else 0)
                              + (if decide (credit = AccountCustomer) then a else 0) /\
  suspense ps' == suspense ps + (if decide (debit = AccountSuspense) then a else 0)
                              - (if decide (credit = AccountSuspense) then a else 0).
Proof.
  unfold post_one, customer, suspense. destruct (IsPositive amount); cbn [negb].
  - rewrite balances_snoc. cbn [PDebit PCredit PAmount].
    destruct debit, credit; repeat case_decide; try congruence; cbn; split; dec_prop; lra.
  - rewrite app_nil_r. split; repeat case_match; lra.
Qed.

(** A transition posts nothing, a refund, or the clearing of everything outstanding. *)
Lemma Postings_cases r i :
  (Postings r i = [] /\
     (unrefunded_state (Entered i) || negb (settled_state r (Entered i)) ||
      bool_decide (Entered i = StateFinalCreditIssued) || bool_decide (Entered i = StateEmpty)) = true /\
     refund_state (Entered i) = false) \/
  (refund_state (Entered i) = true /\
     exists kind, Postings r i = post_one i kind AccountSuspense AccountCustomer (dec_sub (Disputed i) (Liability i))) \/
  (refund_state (Entered i) = false /\ unrefunded_state (Entered i) = false /\
     exists kind debit, debit <> AccountSuspense /\
       Postings r i = post_one i kind debit AccountSuspense (Outstanding i)).
Proof.
  unfold Postings, settle_one. destruct (Entered i);
    try (left; split; [done|]; split; [cbn; rewrite ?orb_true_r; done|done]);
    try (right; left; split; [done|by eexists]).
  all: try destruct (PISettlement i).
  all: try (destruct (HasProvisionalCredit r) eqn:E;
            [left; split; [done|]; split; [cbn; by rewrite E|done]|]).
  all: right; right; split; [done|]; split; [done|]; do 2 eexists; (split; [|done]); done.
Qed.

Lemma refund_effect ps i kind : 0 <= dval (Liability i) ->
  let ps' := (ps ++ post_one i kind AccountSuspense AccountCustomer (dec_sub (Disputed i) (Liability i)))%list in
  exists a, 0 <= a /\ (a <= dval (Disputed i) \/ a == 0) /\
    customer ps' == customer ps + a /\ suspense ps' == suspense ps + a.
Proof.
  intros Hl. destruct (post_one_totals ps i kind AccountSuspense AccountCustomer
                         (dec_sub (Disputed i) (Liability i))) as [Hc Hs].
  cbv zeta. repeat case_decide; try congruence. destruct (IsPositive _) eqn:E; dec_prop.
  - exists (dval (Disputed i) - dval (Liability i)). repeat split; [lra|left; lra|rewrite Hc|rewrite Hs]; dec_prop; lra.
  - exists 0. repeat split; [lra|right; lra|rewrite Hc|rewrite Hs]; lra.
Qed.

Lemma clear_effect ps i kind debit :
  debit <> AccountSuspense -> dval (Outstanding i) == suspense ps -> 0 <= suspense ps ->
  let ps' := (ps ++ post_one i kind debit AccountSuspense (Outstanding i))%list in
  suspense ps' == 0 /\ customer ps - suspense ps <= customer ps' /\ customer ps' <= customer ps.
Proof.
  intros Hd Ho Hs. destruct (post_one_totals ps i kind debit AccountSuspense (Outstanding i)) as [Hc Hsu].
  cbv zeta. rewrite Hc, Hsu. destruct (IsPositive _) eqn:E; dec_prop; repeat case_decide; try congruence;
    repeat split; lra.
Qed.

(** *** The invariant of a dispute's ledger *)

(** The disputed amount as a bound, zero when it is not positive. *)
Definition claimed (disputed : dec) : Q := if IsPositive disputed then dval disputed else 0.

Record ledger_inv (r : Rules) (disputed : dec) (d : Dispute) ps : Prop := {
  li_dispute : dispute_inv (RRegime r) d;
  li_settled : settled_state r (DState d) = true -> suspense ps == 0;
  li_suspense : 0 <= suspense ps <= claimed disputed;
  li_absorbed : suspense ps <= customer ps;
  li_customer : customer ps <=
    inject_Z (if unrefunded_state (DState d) then DAppeals d else DAppeals d + 1) * claimed disputed
}.

Lemma claimed_nonneg disputed : 0 <= claimed disputed.
Proof. unfold claimed. destruct (IsPositive disputed) eqn:E; dec_prop; lra. Qed.

Lemma liability_nonneg r disputed l : liability_ok r disputed l -> 0 <= dval l.
Proof.
  intros [->|(c & H)]; [rewrite dval_zero; lra|]. unfold CreditAmount in H.
  destruct (IsNegative l) eqn:E; [done|]. by dec_prop.
Qed.

(** Nothing is outstanding when a cycle starts over, is refunded, or its won chargeback is confirmed. *)
Lemma next_from_settled cfg s e s' :
  next cfg s e = Some s' -> unrefunded_state s' = true \/ refund_state s' = true \/ s' = StateFinalCreditIssued ->
  settled_state cfg s = true /\
  (unrefunded_state s' = true \/ refund_state s' = true -> unrefunded_state s = true).
Proof.
  unfold next. destruct s, e; intros H; try discriminate H; repeat (case_match; try discriminate H);
    injection H as <-; cbn; intuition discriminate.
Qed.

(** States of the table move forward; only an appeal returns to an unrefunded state. *)
Lemma next_nonempty cfg s e s' : rules (RRegime cfg) = Some cfg -> s ∈ lifecycle_states (RRegime cfg) ->
  next cfg s e = Some s' -> s' <> StateEmpty.
Proof.
  intros Hc Hs Hn ->. pose proof (step_lifecycle _ _ _ _ Hc Hs Hn) as Hin. cases_rules Hc; revert Hin; by_eval.
Qed.

Lemma mul_claimed_mono (a k : Z) disputed : (a <= k)%Z -> inject_Z a * claimed disputed <= inject_Z k * claimed disputed.
Proof. intros H. apply Qmult_le_compat_r; [by rewrite <- Zle_Qle|apply claimed_nonneg]. Qed.

Lemma mul_claimed_succ a disputed :
  inject_Z (a + 1) * claimed disputed == inject_Z a * claimed disputed + claimed disputed.
Proof. rewrite inject_Z_plus. change (inject_Z 1) with 1. lra. Qed.

Lemma ledger_step_inv r disputed d ps e d' l st cur :
  rules (RRegime r) = Some r -> ledger_inv r disputed d ps -> Apply d e = Ok d' -> liability_ok r disputed l ->
  ledger_inv r disputed d'
    (ps ++ Postings r (mkPostingInput (DState d') disputed cur l (SuspenseBalance ps) st)).
Proof.
  intros Hc [Hd Hset [Hs0 Hs1] Habs Hcust] Happ Hl%liability_nonneg.
  pose proof (apply_inv _ _ _ _ Hd Happ) as Hd'. pose proof (claimed_nonneg disputed) as Hm.
  pose proof Hd as (Hr & Hst & _). pose proof Hd' as (_ & Hst' & _).
  apply Apply_ok in Happ as (cfg & Hc2 & _ & Hcase). rewrite Hr, Hc in Hc2. injection Hc2 as <-.
  set (i := mkPostingInput _ _ _ _ _ _).
  assert (Ho : dval (Outstanding i) == suspense ps) by apply SuspenseBalance_suspense.
  pose proof (mul_claimed_succ (DAppeals d) disputed) as Hsucc.
  pose proof (mul_claimed_mono (DAppeals d) (DAppeals d + 1) disputed ltac:(lia)) as Hle.
  (* what the step does to the counters *)
  assert (Hstep : (unrefunded_state (DState d') = true /\ settled_state r (DState d) = true /\
                    customer ps <= inject_Z (DAppeals d') * claimed disputed) \/
                  (unrefunded_state (DState d') = false /\ DAppeals d' = DAppeals d /\
                    next r (DState d) e = Some (DState d'))).
  { destruct Hcase as [(_ & E1 & _ & -> & ->)|(_ & Hn & Ea)].
    - left. rewrite E1 in *. split; [done|]. split; [done|]. exact Hcust.
    - rewrite Ea. destruct (unrefunded_state (DState d')) eqn:Eu; [left|by right].
      destruct (next_from_settled _ _ _ _ Hn ltac:(by left)) as [H1 H2]. rewrite H2 in Hcust by auto. auto. }
  assert (Hcust' : customer ps <= inject_Z (DAppeals d) * claimed disputed + claimed disputed).
  { destruct (unrefunded_state (DState d)); lra. }
  destruct (Postings_cases r i) as [(Ep & Hcl & Href)|[(Href & kind & Ep)|(Href & Hun & kind & debit & Hdeb & Ep)]];
    rewrite Ep; change (Entered i) with (DState d') in *.
  - rewrite app_nil_r. split; [done| |lra|done|].
    + intros Hset'. destruct Hstep as [(_ & H & _)|(Hu & _ & Hn)]; [by apply Hset|].
      apply Hset. rewrite Hu, Hset' in Hcl. cbn in Hcl. apply orb_true_iff in Hcl as [Hcl|Hcl]; to_prop.
      * by destruct (next_from_settled _ _ _ _ Hn ltac:(auto)).
      * exfalso. eapply next_nonempty; [exact Hc|exact Hst|exact Hn|exact Hcl].
    + destruct Hstep as [(-> & _ & H)|(-> & -> & _)]; [done|lra].
  - destruct (refund_effect ps i kind Hl) as (a & Ha0 & Ha & Hc1 & Hs2). change (Disputed i) with disputed in *.
    destruct Hstep as [(Hu & _)|(Hu & Ea & Hn)]; [by destruct (DState d')|].
    destruct (next_from_settled _ _ _ _ Hn ltac:(auto)) as [Hset' Hun]. specialize (Hset Hset').
    rewrite Hun in Hcust by auto.
    assert (Hac : a <= claimed disputed).
    { unfold claimed in *. destruct (IsPositive disputed) eqn:E; dec_prop; destruct Ha; lra. }
    split; [done| |lra|lra|].
    + intros H. by destruct (DState d').
    + rewrite Hu, Ea. lra.
  - destruct (clear_effect ps i kind debit Hdeb Ho Hs0) as (Hz & Hlo & Hhi).
    destruct Hstep as [(Hu & _)|(Hu & Ea & Hn)]; [congruence|].
    split; [done|done|lra|lra|]. rewrite Hu, Ea. lra.
Qed.

Lemma ledger_run_inv r disputed cur d ps :
  rules (RRegime r) = Some r -> ledger_run r disputed cur d ps -> ledger_inv r disputed d ps.
Proof.
  intros Hc H. induction H as [d Hd|d ps e d' l s Hrun IH Happ Hl]; [|by eapply ledger_step_inv].
  pose proof (new_inv _ _ Hd) as Hinv. unfold NewDispute in Hd. apply bind_ok in Hd as (? & _ & [= <-]).
  assert (Hz : suspense [] == 0 /\ customer [] == 0) by (unfold suspense, customer; cbn; by rewrite dval_zero).
  pose proof (claimed_nonneg disputed). destruct Hz as [Hz1 Hz2].
  split; [done|done|lra|lra|]. cbn. change (inject_Z 0) with 0. lra.
Qed.

(** A run, executed: each event with the liability an analyst gives and the settlement in force. *)
Fixpoint ledger_play (r : Rules) (disputed : dec) (cur : string) (d : Dispute) ps
    (es : list (Event * option dec * SuspenseSettlement)) : M (Dispute * list Posting) :=
  match es with
  | [] => Ok (d, ps)
  | (e, l, st) :: es =>
      d' ← Apply d e;
      _ ← match l with Some l => CreditAmount r disputed l | None => Ok dec_zero end;
      ledger_play r disputed cur d'
        (ps ++ Postings r (mkPostingInput (DState d') disputed cur (default dec_zero l) (SuspenseBalance ps) st)) es
  end.

Lemma ledger_play_run r disputed cur d ps es d' ps' :
  ledger_run r disputed cur d ps -> ledger_play r disputed cur d ps es = Ok (d', ps') ->
  ledger_run r disputed cur d' ps'.
Proof.
  revert d ps. induction es as [|[[e l] st] es IH]; cbn; intros d ps Hrun H; [by injection H as <- <-|].
  apply bind_ok in H as (d1 & Ha & H). apply bind_ok in H as (u & Hl & H). apply IH in H; [done|].
  eapply ledger_apply; [done|done|]. destruct l; [right; eauto|by left].
Qed.

(** ** Properties *)

(** C19: Whichever path a dispute takes to CLOSED, under whatever liabilities and settlements, its suspense account
    is zero when it gets there, and everything the customer kept is accounted for as recovered or lost. *)
Theorem closed_suspense_zero r disputed cur d ps :
  rules (RRegime r) = Some r -> ledger_run r disputed cur d ps -> DState d = StateClosed ->
  suspense ps == 0 /\ customer ps == recovery ps + loss ps.
Proof.
  intros Hc Hrun Hcl. apply ledger_run_inv in Hrun as [_ Hset _ _ _]; [|done].
  rewrite Hcl in Hset. specialize (Hset eq_refl). pose proof (double_entry ps). split; [done|lra].
Qed.

(** C20: At every moment the bank has advanced between nothing and the claim, the customer never owes the bank, and
    holds at most one full claim per cycle: once, and once more for each appeal. *)
Theorem ledger_bounds r disputed cur d ps :
  rules (RRegime r) = Some r -> ledger_run r disputed cur d ps ->
  0 <= suspense ps <= claimed disputed /\
  0 <= customer ps <= inject_Z (DAppeals d + 1) * claimed disputed /\
  (unrefunded_state (DState d) = true -> customer ps <= inject_Z (DAppeals d) * claimed disputed).
Proof.
  intros Hc Hrun. apply ledger_run_inv in Hrun as [_ _ Hs Ha Hcu]; [|done].
  pose proof (mul_claimed_mono (DAppeals d) (DAppeals d + 1) disputed ltac:(lia)).
  split; [done|]. split; [|intros Hu; by rewrite Hu in Hcu].
  destruct (unrefunded_state (DState d)); lra.
Qed.

(** [CreditAmount] accepts a liability exactly when it is not negative, within the regime's cap in minor units
    of a hundredth, and smaller than a positive claim; it then grants the claim less the liability, and otherwise
    refuses with an unprocessable error naming the liability field. *)
Theorem CreditAmount_exact r disputed l :
  let cap := inject_Z (LiabilityCapMinor r) * Qpower (inject_Z 10) (-2) in
  match CreditAmount r disputed l with
  | Ok c => 0 <= dval l /\ dval l <= cap /\ (0 < dval disputed -> dval l < dval disputed) /\
            dval c == dval disputed - dval l /\ (0 < dval disputed -> 0 < dval c)
  | Err err => (dval l < 0 \/ cap < dval l \/ (0 < dval disputed /\ dval disputed <= dval l)) /\
               errors_is err ErrInvalidLiability = true /\ KindOf err = Unprocessable /\
               Field <$> FieldsOf err = ["body.payload.liability"]
  end.
Proof.
  cbv zeta. set (cap := inject_Z _ * _).
  assert (Hcap : dval (Shift (NewFromInt (LiabilityCapMinor r)) (-2)) == cap)
    by (rewrite dval_shift, dval_int; reflexivity).
  unfold CreditAmount. destruct (IsNegative l) eqn:E1; [dec_prop; repeat split; auto|].
  destruct (GreaterThan l _) eqn:E2; [dec_prop; repeat split; rewrite Hcap in E2; auto|].
  destruct (GreaterThanOrEqual l disputed && IsPositive disputed) eqn:E3.
  - apply andb_true_iff in E3 as [E3 E4]. dec_prop. repeat split; auto.
  - apply andb_false_iff in E3. dec_prop. rewrite Hcap in E2.
    assert (Hlt : 0 < dval disputed -> dval l < dval disputed).
    { intros Hp. destruct E3 as [E3|E3]; dec_prop; lra. }
    split; [done|]. split; [done|]. split; [done|]. split; [reflexivity|]. intros Hp. specialize (Hlt Hp). dec_prop. lra.
Qed.
End ledger_facts.

(** ** Concrete runs *)
Module LedgerExamples.
  Import QDec.

Definition reg_e : Rules := Eval cbv in match rules RegimeUSRegE with Some r => r | None => mkRules RegimeUSRegE RefundNone [] false false 0 "" 0 SettleRecovered false end.
Definition psd2 : Rules := Eval cbv in match rules RegimeEUPSD2Card with Some r => r | None => reg_e end.
Definition claim : @dec QDec.ops := 100%Q.

(** A Regulation E dispute credited, lost, reversed and closed. *)
Definition reversed_events : list (Event * option (@dec QDec.ops) * SuspenseSettlement) :=
  (fun e => (e, None, SettleWrittenOff)) <$>
    [EventOpenInvestigation; EventIssueRefund; EventFileChargeback; EventAcknowledgeChargeback;
     EventLoseChargeback; EventReverseProvisionalCredit; EventClose].

Definition outcome (r : Rules) es : Dispute * list Posting :=
  match ledger_play r claim "USD" (mkDispute (RRegime r) StateInitiated 0) [] es with
  | Ok x => x
  | Err _ => (mkDispute (RRegime r) StateEmpty 0, [])
  end.

Lemma outcome_run r es :
  NewDispute (RRegime r) = Ok (mkDispute (RRegime r) StateInitiated 0) ->
  DState (outcome r es).1 <> StateEmpty ->
  ledger_run r claim "USD" (outcome r es).1 (outcome r es).2.
Proof.
  intros Hn. unfold outcome.
  destruct (ledger_play r claim "USD" _ [] es) as [[d ps]|err] eqn:E; cbn [fst snd]; [intros _|done].
  eapply ledger_play_run; [|exact E]. by apply ledger_new.
Qed.

Lemma reversed_run : ledger_run reg_e claim "USD" (outcome reg_e reversed_events).1 (outcome reg_e reversed_events).2.
Proof. apply outcome_run; [reflexivity|vm_compute; discriminate]. Qed.

Lemma closed_suspense_zero_witness :
  DState (outcome reg_e reversed_events).1 = StateClosed /\
  length (outcome reg_e reversed_events).2 = 2%nat /\
  (suspense (outcome reg_e reversed_events).2 == 0 /\
   customer (outcome reg_e reversed_events).2 ==
   recovery (outcome reg_e reversed_events).2 + loss (outcome reg_e reversed_events).2)%Q.
Proof.
  split; [vm_compute; reflexivity|]. split; [vm_compute; reflexivity|].
  apply (closed_suspense_zero reg_e claim "USD" (outcome reg_e reversed_events).1);
    [reflexivity | exact reversed_run | vm_compute; reflexivity].
Defined.

Lemma ledger_bounds_witness :
  (0 <= suspense (outcome reg_e reversed_events).2 <= claimed claim)%Q /\
  (0 <= customer (outcome reg_e reversed_events).2 <= inject_Z (DAppeals (outcome reg_e reversed_events).1 + 1) * claimed claim)%Q.
Proof.
  destruct (ledger_bounds reg_e claim "USD" (outcome reg_e reversed_events).1 (outcome reg_e reversed_events).2)
    as (H1 & H2 & _); [reflexivity | exact reversed_run | exact (conj H1 H2)].
Defined.

(** The bound of one claim per cycle is reached: nothing stops a dispute whose customer already holds the whole
    claim from being refunded again after an appeal, so a PSD2 card dispute of 100 can leave the customer with 200. *)
Theorem refunded_twice_after_appeal :
  let events := (fun e => (e, None, SettleWrittenOff)) <$>
    [EventOpenInvestigation; EventIssueRefund; EventClose; EventAppeal; EventIssueRefund; EventClose] in
  let d := (outcome psd2 events).1 in
  let ps := (outcome psd2 events).2 in
  ledger_run psd2 claim "USD" d ps /\ DState d = StateClosed /\ DAppeals d = 1 /\
  (customer ps == 200)%Q /\ (dval claim == 100)%Q.
Proof.
  cbv zeta. split; [apply outcome_run; [reflexivity|vm_compute; discriminate]|]. vm_compute. done.
Qed.
End LedgerExamples.
