(* ===== verification/Questionnaire.v ===== *)
(** * Questionnaire: what the customer is asked and how the answers are checked ([domain/questionnaire.go]). *)
From S2P Require Import Prelude Errs GoTime Ext GoJson Types.

Inductive AnswerType : Type := AnswerYesNo | AnswerDate | AnswerText | AnswerAmount | AnswerOther (raw : string).
#[export] Instance AnswerType_eq_dec : EqDecision AnswerType.
Proof. solve_decision. Defined.

Definition AnswerType_string (t : AnswerType) : string :=
  match t with
  | AnswerYesNo => "YES_NO" | AnswerDate => "DATE" | AnswerText => "TEXT" | AnswerAmount => "AMOUNT"
  | AnswerOther raw => raw
  end.
Definition AnswerTypes : list AnswerType := [AnswerYesNo; AnswerDate; AnswerText; AnswerAmount].
Definition AnswerType_of (raw : string) : AnswerType :=
  default (AnswerOther raw) (List.find (fun t => bool_decide (AnswerType_string t = raw)) AnswerTypes).

Record Question : Type := mkQuestion { ID : string; Text : string; QType : AnswerType; Required : bool }.
#[export] Instance Question_eq_dec : EqDecision Question.
Proof. solve_decision. Defined.

Definition ErrUnknownReason : Error := sentinel Invalid "unknown-reason" "unknown dispute reason".
Definition ErrInvalidAnswers : Error :=
  sentinel Unprocessable "invalid-answers" "the questionnaire answers are incomplete or malformed".

(** ** The question sets *)

(** A decoded file; its reason is still any text. *)
Record questionnaireFile : Type := mkFile { FReason : string; FQuestions : list Question }.

Definition zero_question : Question := mkQuestion "" "" (AnswerOther "") false.
Definition into_AnswerType : decoder AnswerType := fun j t =>
  let '(s, ok) := into_string j (AnswerType_string t) in (AnswerType_of s, ok).
Definition into_Question : decoder Question := into_struct
  [("id", field ID (fun q s => mkQuestion s (Text q) (QType q) (Required q)) into_string);
   ("text", field Text (fun q s => mkQuestion (ID q) s (QType q) (Required q)) into_string);
   ("type", field QType (fun q t => mkQuestion (ID q) (Text q) t (Required q)) into_AnswerType);
   ("required", field Required (fun q b => mkQuestion (ID q) (Text q) (QType q) b) into_bool)].
Definition into_questionnaireFile : decoder questionnaireFile := into_struct
  [("reason", field FReason (fun f s => mkFile s (FQuestions f)) into_string);
   ("questions", field FQuestions (fun f l => mkFile (FReason f) l) (into_slice zero_question into_Question))].

(** [%+v] of a question. *)
Definition show_Question (q : Question) : string :=
  "{ID:" +:+ ID q +:+ " Text:" +:+ Text q +:+ " Type:" +:+ AnswerType_string (QType q)
  +:+ " Required:" +:+ (if Required q then "true" else "false") +:+ "}".

(** The loop of [checkQuestionSet] over the questions, with the ids seen and whether one was required. *)
Fixpoint check_questions (seen : gset string) (required : bool) (qs : list Question) : M bool :=
  match qs with
  | [] => Ok required
  | q :: qs =>
      if bool_decide (ID q = "") || bool_decide (Text q = "") then
        Err (EPlain ("question " +:+ show_Question q +:+ " needs an id and text"))
      else if bool_decide (ID q ∈ seen) then
        Err (EPlain ("question id " +:+ quoted (ID q) +:+ " repeated"))
      else if negb (slices_contains AnswerTypes (QType q)) then
        Err (EPlain ("question " +:+ quoted (ID q) +:+ ": unknown type " +:+ quoted (AnswerType_string (QType q))))
      else check_questions ({[ID q]} ∪ seen) (required || Required q) qs
  end.

Definition checkQuestionSet (f : questionnaireFile) : M unit :=
  if negb (slices_contains (Reason_string <$> AllReasons) (FReason f)) then
    Err (EPlain ("unknown reason " +:+ quoted (FReason f)))
  else
    required ← check_questions ∅ false (FQuestions f);
    guard_res (negb required) (EPlain "no required question").

(** The loop of [LoadQuestionSets] over the files, in the order [fs.Glob] lists them. *)
Fixpoint load_files (sets : gmap string (list Question)) (files : list (string * RawMessage))
    : M (gmap string (list Question)) :=
  match files with
  | [] => Ok sets
  | (name, raw) :: files =>
      match Unmarshal into_questionnaireFile raw (mkFile "" []) with
      | None => Err (Wrap (EPlain json_error) ("questionnaire " +:+ name))
      | Some f =>
          match checkQuestionSet f with
          | Err e => Err (Wrap e ("questionnaire " +:+ name))
          | Ok _ =>
              match sets !! FReason f with
              | Some _ => Err (EPlain ("questionnaire " +:+ name +:+ ": reason " +:+ FReason f +:+ " defined twice"))
              | None => load_files (<[FReason f := FQuestions f]> sets) files
              end
          end
      end
  end.

Definition LoadQuestionSets (files : list (string * RawMessage)) : M (gmap string (list Question)) :=
  sets ← load_files ∅ files;
  match List.find (fun r => bool_decide (sets !! Reason_string r = None)) AllReasons with
  | Some r => Err (EPlain ("questionnaire for " +:+ Reason_string r +:+ " missing"))
  | None => Ok sets
  end.

(** The embedded files, as their JSON. *)
Definition questionnaireFiles : list (string * RawMessage) :=
  [("questionnaires/AMOUNT_DIFFERS.json", RawJSON (JObject [("reason", JString "AMOUNT_DIFFERS"); ("questions", JArray [JObject [("id", JString "amount_agreed"); ("text", JString "What amount did you agree to?"); ("type", JString "AMOUNT"); ("required", JBool true)];
    JObject [("id", JString "receipt_available"); ("text", JString "Do you have a receipt showing that amount?"); ("type", JString "YES_NO"); ("required", JBool true)];
    JObject [("id", JString "details"); ("text", JString "Describe the difference."); ("type", JString "TEXT"); ("required", JBool true)]])]));
   ("questionnaires/DUPLICATE.json", RawJSON (JObject [("reason", JString "DUPLICATE"); ("questions", JArray [JObject [("id", JString "original_on"); ("text", JString "When was the transaction you did authorise?"); ("type", JString "DATE"); ("required", JBool true)];
    JObject [("id", JString "same_merchant"); ("text", JString "Was it with the same merchant?"); ("type", JString "YES_NO"); ("required", JBool true)];
    JObject [("id", JString "details"); ("text", JString "Anything else we should know?"); ("type", JString "TEXT"); ("required", JBool false)]])]));
   ("questionnaires/NOT_RECEIVED.json", RawJSON (JObject [("reason", JString "NOT_RECEIVED"); ("questions", JArray [JObject [("id", JString "expected_on"); ("text", JString "When were the goods or services due?"); ("type", JString "DATE"); ("required", JBool true)];
    JObject [("id", JString "contacted_merchant"); ("text", JString "Have you contacted the merchant?"); ("type", JString "YES_NO"); ("required", JBool true)];
    JObject [("id", JString "merchant_response"); ("text", JString "What did the merchant say?"); ("type", JString "TEXT"); ("required", JBool false)];
    JObject [("id", JString "partial_delivery"); ("text", JString "Did you receive part of the order?"); ("type", JString "YES_NO"); ("required", JBool true)]])]));
   ("questionnaires/UNAUTHORISED.json", RawJSON (JObject [("reason", JString "UNAUTHORISED"); ("questions", JArray [JObject [("id", JString "recognise_merchant"); ("text", JString "Do you recognise the merchant?"); ("type", JString "YES_NO"); ("required", JBool true)];
    JObject [("id", JString "card_in_possession"); ("text", JString "Do you still have the card, rather than having lost it or had it stolen?"); ("type", JString "YES_NO"); ("required", JBool true)];
    JObject [("id", JString "shared_credentials"); ("text", JString "Has anyone else had access to your card or its details?"); ("type", JString "YES_NO"); ("required", JBool true)];
    JObject [("id", JString "prior_disputes_merchant"); ("text", JString "Have you disputed a transaction with this merchant before?"); ("type", JString "YES_NO"); ("required", JBool true)];
    JObject [("id", JString "noticed_on"); ("text", JString "When did you notice the transaction?"); ("type", JString "DATE"); ("required", JBool true)];
    JObject [("id", JString "police_report"); ("text", JString "Have you reported the card lost or stolen, or filed a police report?"); ("type", JString "YES_NO"); ("required", JBool true)];
    JObject [("id", JString "details"); ("text", JString "Anything else we should know?"); ("type", JString "TEXT"); ("required", JBool false)]])]))].

(** [mustLoadQuestionSets]; that it does not panic is [questionSets_load]. *)
Definition questionSets : gmap string (list Question) := Eval vm_compute in
  match LoadQuestionSets questionnaireFiles with Ok sets => sets | Err _ => ∅ end.

Definition ReasonMeaning (r : Reason) : string :=
  match r with
  | ReasonUnauthorised => "the customer says they did not make or authorise the payment at all"
  | ReasonNotReceived => "the customer paid but the goods or services never arrived, or arrived only in part"
  | ReasonDuplicate => "the same purchase was charged more than once"
  | ReasonAmountDiffers => "the customer made the purchase but was charged a different amount than agreed"
  end.

(** The reason a known text names; [ParseReason] has checked that the text is a key of the sets. *)
Definition reason_of (raw : string) : option Reason :=
  List.find (fun r => bool_decide (Reason_string r = raw)) AllReasons.

Definition ParseReason (raw : string) : M Reason :=
  if bool_decide (raw = "") then Ok ReasonUnauthorised
  else match questionSets !! raw, reason_of raw with
       | Some _, Some r => Ok r
       | _, _ => failw ErrUnknownReason (quoted raw)
       end.

Definition QuestionSet (reason : Reason) : list Question := default [] (questionSets !! Reason_string reason).

(** ** Answers *)
Abbreviation Answers := (gmap string string).
Definition answer (answers : Answers) (id : string) : string := default "" (answers !! id).

Definition missingAnswer (t : AnswerType) : string :=
  match t with
  | AnswerYesNo => "Please choose yes or no"
  | AnswerDate => "Please select a date"
  | AnswerAmount => "Please enter an amount"
  | _ => "Please enter an answer"
  end.

Section answers.
Context `{DC : Decimal}.

Definition checkAnswer (t : AnswerType) (v : string) : string :=
  match t with
  | AnswerYesNo =>
      if negb (bool_decide (v = "yes")) && negb (bool_decide (v = "no")) then "Please choose yes or no" else ""
  | AnswerDate =>
      match parse_ymd v with Some _ => "" | None => "Please enter a date as YYYY-MM-DD" end
  | AnswerAmount =>
      match NewFromString v with
      | None => "Please enter an amount of zero or more, such as 12.50"
      | Some d => if IsNegative d then "Please enter an amount of zero or more, such as 12.50" else ""
      end
  | AnswerText =>
      let len := Z.of_nat (String.length v) in
      if 2000 <? len then "Please keep the answer under 2000 characters (" +:+ show len +:+ " given)" else ""
  | AnswerOther _ => ""
  end.

Definition answer_field (id msg : string) : FieldError := mkFieldError ("body.payload.answers." +:+ id) msg.

(** One round of the loop over the questions. *)
Definition question_problem (answers : Answers) (q : Question) : list FieldError :=
  let v := answer answers (ID q) in
  if bool_decide (v = "") then
    if Required q then [answer_field (ID q) (missingAnswer (QType q))] else []
  else
    let msg := checkAnswer (QType q) v in
    if bool_decide (msg = "") then [] else [answer_field (ID q) msg].

Definition ValidateAnswers (questions : list Question) (answers : Answers) : M unit :=
  let asked := foldl (fun m q => <[ID q := q]> m) (∅ : gmap string Question) questions in
  let fields := flat_map (question_problem answers) questions ++
    flat_map (fun kv => match asked !! kv.1 with
                        | Some _ => []
                        | None => [answer_field kv.1 "this question was not asked"]
                        end) (map_to_list answers) in
  match fields with
  | [] => Ok tt
  | _ => fail (WithFields ErrInvalidAnswers (sort_Slice Field fields))
  end.
End answers.

Definition Inconsistencies (reason : Reason) (answers : Answers) : list string :=
  let holds id v := bool_decide (answer answers id = v) in
  match reason with
  | ReasonUnauthorised =>
      (if holds "recognise_merchant" "yes" && holds "card_in_possession" "yes" && holds "shared_credentials" "no" then
         ["the customer recognises the merchant, held the card and shared it with nobody, yet claims the payment was unauthorised"]
       else []) ++
      (if holds "police_report" "yes" && holds "card_in_possession" "yes" then
         ["a card reported lost or stolen was said to be in the customer's possession"] else [])
  | ReasonNotReceived =>
      if holds "contacted_merchant" "no" && negb (holds "merchant_response" "") then
        ["a merchant response was given although the merchant was not contacted"] else []
  | ReasonDuplicate =>
      if holds "same_merchant" "no" then ["a duplicate is claimed against a different merchant"] else []
  | ReasonAmountDiffers => []
  end.

(** ** Facts *)

(** What a question set loaded from files is guaranteed to be. *)
Definition question_ok (q : Question) : Prop := ID q <> "" /\ Text q <> "" /\ QType q ∈ AnswerTypes.
Definition set_ok (qs : list Question) : Prop :=
  Forall question_ok qs /\ NoDup (ID <$> qs) /\ Exists (fun q => Required q = true) qs.

Lemma check_questions_ok seen required qs r :
  check_questions seen required qs = Ok r <->
  Forall question_ok qs /\ NoDup (ID <$> qs) /\ (forall q, q ∈ qs -> ID q ∉ seen) /\
  r = required || existsb Required qs.
Proof.
  revert seen required. induction qs as [|q qs IH]; intros seen required.
  { cbn. rewrite orb_false_r. split; [intros [= ->]|intros (_ & _ & _ & ->)]; [|done].
    repeat split; [constructor|constructor|]. by intros q ?%not_elem_of_nil. }
  cbn [check_questions existsb fmap list_fmap]. rewrite list.Forall_cons, list.NoDup_cons, orb_assoc. unfold question_ok at 1.
  destruct (bool_decide (ID q = "") || bool_decide (Text q = "")) eqn:E1.
  { split; [done|]. intros (((HI & HT & _) & _) & _).
    apply orb_true_iff in E1 as [E1%bool_decide_eq_true|E1%bool_decide_eq_true]; done. }
  to_prop. case_bool_decide as E2.
  { split; [done|]. intros (_ & _ & Hs & _). by destruct (Hs q (list_elem_of_here _ _)). }
  destruct (slices_contains AnswerTypes (QType q)) eqn:E3; cbn.
  2:{ split; [done|]. intros (((_ & _ & HT) & _) & _).
      apply slices_contains_spec in HT. congruence. }
  apply slices_contains_spec in E3. rewrite IH. split.
  - intros (Hf & Hn & Hs & ->). repeat split; try done.
    + rewrite list_elem_of_fmap. intros (q' & Hid & Hin). apply (Hs q' Hin). set_solver.
    + intros q' [->|Hin]%elem_of_cons; [done|]. specialize (Hs q' Hin). set_solver.
  - intros ((_ & Hf) & (Hq & Hn) & Hs & ->). repeat split; try done.
    intros q' Hin. apply not_elem_of_union. split; [|apply Hs; by constructor].
    rewrite elem_of_singleton. intros Heq. apply Hq, list_elem_of_fmap. by exists q'.
Qed.

Lemma checkQuestionSet_ok f u : checkQuestionSet f = Ok u <->
  FReason f ∈ Reason_string <$> AllReasons /\ set_ok (FQuestions f).
Proof.
  unfold checkQuestionSet, set_ok. destruct u.
  destruct (slices_contains _ (FReason f)) eqn:E; cbn [negb].
  2:{ split; [done|]. intros [H%slices_contains_spec _]. congruence. }
  apply slices_contains_spec in E. split.
  - intros H. apply bind_ok in H as (r & (Hf & Hn & _ & ->)%check_questions_ok & Hg%guard_res_ok).
    apply negb_false_iff in Hg. cbn in Hg. apply existsb_exists in Hg as (q & Hin & Hr).
    repeat split; try done. apply List.Exists_exists. eauto.
  - intros (_ & Hf & Hn & He). apply bind_ok. exists true. split; [|done].
    apply check_questions_ok. repeat split; [done|done|set_solver|].
    cbn. symmetry. apply existsb_exists. by apply List.Exists_exists in He.
Qed.

Lemma load_files_ok sets files sets' :
  load_files sets files = Ok sets' -> map_Forall (fun _ qs => set_ok qs) sets ->
  map_Forall (fun _ qs => set_ok qs) sets'.
Proof.
  revert sets. induction files as [|[name raw] files IH]; cbn; intros sets H Hs.
  { by injection H as <-. }
  destruct (Unmarshal _ _ _) as [f|]; [|done].
  destruct (checkQuestionSet f) as [u|] eqn:E; [|done].
  apply checkQuestionSet_ok in E as [_ E].
  destruct (sets !! FReason f) eqn:Es; [done|]. apply (IH _ H). by apply map_Forall_insert_2.
Qed.

Lemma questionSets_load : LoadQuestionSets questionnaireFiles = Ok questionSets.
Proof. vm_compute. reflexivity. Qed.

Section answer_facts.
Context `{DC : Decimal}.

(** The answers given, question by question: what a reviewer of the answers would report. *)
Inductive problem (qs : list Question) (answers : Answers) : FieldError -> Prop :=
| problem_missing q : q ∈ qs -> Required q = true -> answer answers (ID q) = "" ->
    problem qs answers (answer_field (ID q) (missingAnswer (QType q)))
| problem_malformed q : q ∈ qs -> answer answers (ID q) <> "" ->
    checkAnswer (QType q) (answer answers (ID q)) <> "" ->
    problem qs answers (answer_field (ID q) (checkAnswer (QType q) (answer answers (ID q))))
| problem_unasked id v : answers !! id = Some v -> (forall q, q ∈ qs -> ID q <> id) ->
    problem qs answers (answer_field id "this question was not asked").

Lemma asked_lookup (qs : list Question) id :
  foldl (fun m q => <[ID q := q]> m) (∅ : gmap string Question) qs !! id = None <-> forall q, q ∈ qs -> ID q <> id.
Proof.
  induction qs as [|q qs IH] using rev_ind.
  - cbn. rewrite lookup_empty. split; [|done]. by intros _ q ?%not_elem_of_nil.
  - rewrite foldl_app. cbn. rewrite lookup_insert_None, IH. split.
    + intros [H1 H2] q' [Hin| ->%list_elem_of_singleton]%elem_of_app; auto.
    + intros H. split; [|apply H; set_solver]. intros q' Hin. apply H. set_solver.
Qed.

Lemma question_problem_spec answers q fe : In fe (question_problem answers q) <->
  (Required q = true /\ answer answers (ID q) = "" /\ fe = answer_field (ID q) (missingAnswer (QType q))) \/
  (answer answers (ID q) <> "" /\ checkAnswer (QType q) (answer answers (ID q)) <> "" /\
   fe = answer_field (ID q) (checkAnswer (QType q) (answer answers (ID q)))).
Proof.
  unfold question_problem. repeat case_bool_decide; [destruct (Required q)|..]; cbn; naive_solver.
Qed.

(** The list [ValidateAnswers] collects before sorting holds exactly the problems. *)
Lemma collected_exact qs answers fe :
  In fe (flat_map (question_problem answers) qs ++
    flat_map (fun kv => match foldl (fun m q => <[ID q := q]> m) (∅ : gmap string Question) qs !! kv.1 with
                        | Some _ => []
                        | None => [answer_field kv.1 "this question was not asked"]
                        end) (map_to_list answers))
  <-> problem qs answers fe.
Proof.
  rewrite in_app_iff, !in_flat_map. split.
  - intros [(q & Hq & Hp)|([id v] & Hkv & Hp)].
    + apply list_elem_of_In in Hq.
      apply question_problem_spec in Hp as [(? & ? & ->)|(? & ? & ->)]; by constructor.
    + apply list_elem_of_In, elem_of_map_to_list in Hkv. cbn in Hp.
      match type of Hp with In _ (match ?x with _ => _ end) => destruct x eqn:E end; [done|]. destruct Hp as [<-|[]].
      pose proof (proj1 (asked_lookup qs id) E) as E'. by eapply problem_unasked.
  - intros [q Hq Hr Ha|q Hq Ha Hc|id v Hv Hn].
    1,2: left; exists q; split; [by apply list_elem_of_In|]; apply question_problem_spec; naive_solver.
    right. exists (id, v). split; [by apply list_elem_of_In, elem_of_map_to_list|].
    apply asked_lookup in Hn. cbn. rewrite Hn. by left.
Qed.
End answer_facts.


(** A directory of questionnaire files that loads gives, for every dispute reason, a set with distinct
    non-empty ids, known answer types and at least one required question; the files shipped with the program
    do load, so start-up does not panic and every reason has its questionnaire. *)
Theorem LoadQuestionSets_sound :
  (forall files sets, LoadQuestionSets files = Ok sets ->
     forall r, exists qs, sets !! Reason_string r = Some qs /\ set_ok qs) /\
  LoadQuestionSets questionnaireFiles = Ok questionSets /\
  (forall r, set_ok (QuestionSet r)).
Proof.
  assert (Hall : forall files sets, LoadQuestionSets files = Ok sets ->
     forall r, exists qs, sets !! Reason_string r = Some qs /\ set_ok qs).
  { unfold LoadQuestionSets. intros files sets H r. apply bind_ok in H as (sets' & Hl & H).
    destruct (List.find _ _) eqn:Ef; [done|]. injection H as ->.
    destruct (sets !! Reason_string r) as [qs|] eqn:Er.
    - exists qs. split; [done|]. apply (load_files_ok _ _ _ Hl) in Er; [done|]. apply map_Forall_empty.
    - assert (Hin : In r AllReasons) by (destruct r; cbn; tauto).
      apply (List.find_none _ _ Ef) in Hin. by rewrite Er in Hin. }
  split; [exact Hall|]. split; [apply questionSets_load|]. intros r.
  destruct (Hall _ _ questionSets_load r) as (qs & Hqs & Hok). unfold QuestionSet. by rewrite Hqs.
Qed.

(** The contradictions flagged for a reason depend only on answers to questions that reason's
    questionnaire asks: answers that agree on those are flagged alike, so a flag never rests on a question the
    customer was not asked. At most two contradictions are ever flagged. *)
Theorem Inconsistencies_asked_only r answers answers' :
  (forall q, q ∈ QuestionSet r -> answer answers (ID q) = answer answers' (ID q)) ->
  Inconsistencies r answers = Inconsistencies r answers' /\ (length (Inconsistencies r answers) <= 2)%nat.
Proof.
  intros H.
  assert (Hid : forall id, id ∈ ID <$> QuestionSet r -> answer answers id = answer answers' id).
  { intros id Hin. apply list_elem_of_fmap in Hin as (q & -> & Hq). by apply H. }
  unfold Inconsistencies. split.
  - destruct r; repeat (erewrite (Hid _) by by_eval); done.
  - destruct r; split_ifs; cbn; lia.
Qed.

Lemma Inconsistencies_asked_only_witness :
  Inconsistencies ReasonDuplicate {[ "same_merchant" := "no" ]} =
    ["a duplicate is claimed against a different merchant"] /\
  Inconsistencies ReasonDuplicate {[ "same_merchant" := "no" ]} =
    Inconsistencies ReasonDuplicate {[ "same_merchant" := "no"; "police_report" := "yes" ]}.
Proof.
  split; [reflexivity|].
  apply (Inconsistencies_asked_only ReasonDuplicate {[ "same_merchant" := "no" ]}
           {[ "same_merchant" := "no"; "police_report" := "yes" ]}).
  apply (proj1 (list.Forall_forall _ _)). repeat constructor.
Defined.
