(* ===== verification/Risk.v ===== *)
(** * Risk: the fraud score and the hold it puts on credits ([domain/risk.go]). *)
From Stdlib Require Import SpecFloat QArith Lqa.
From S2P Require Import Prelude Errs GoTime Ext.
Local Open Scope Z_scope.

Inductive RiskTier : Type := RiskLow | RiskMedium | RiskHigh.
#[export] Instance RiskTier_eq_dec : EqDecision RiskTier.
Proof. solve_decision. Defined.
Definition RiskTier_string (t : RiskTier) : string :=
  match t with RiskLow => "LOW" | RiskMedium => "MEDIUM" | RiskHigh => "HIGH" end.

Definition mediumFrom : Z := 20.
Definition highFrom : Z := 45.

Record Signal : Type := mkSignal { SName : string; SWeight : Z; SPoints : Z; SDetail : string }.
#[export] Instance Signal_eq_dec : EqDecision Signal.
Proof. solve_decision. Defined.

Record Assessment : Type := mkAssessment { AScore : Z; ATier : RiskTier; ASignals : list Signal }.
#[export] Instance Assessment_eq_dec : EqDecision Assessment.
Proof. solve_decision. Defined.

Definition highRiskMCCs : list (string * string) :=
  [("5815", "digital goods: media"); ("5816", "digital goods: games"); ("5817", "digital goods: software");
   ("5818", "digital goods: large merchant"); ("7995", "gambling"); ("6051", "quasi cash");
   ("4829", "money transfer")].

Definition HighRiskMCC (mcc : string) : string * bool :=
  match List.find (fun e => bool_decide (e.1 = mcc)) highRiskMCCs with
  | Some e => (e.2, true)
  | None => ("", false)
  end.

Section assess.
Context `{DC : Decimal}.

Record RiskInput : Type := mkRiskInput {
  DisputesLast12Months : Z;
  LostChargebacks : Z;
  TransactionAgeDays : Z;
  HighRiskMerchant : bool;
  RAmount : dec;
  AccountAgeDays : Z;
  InconsistenciesN : Z;
  QuestionnaireKnown : bool
}.

Definition frequency_signal (in_ : RiskInput) : Signal :=
  let n := DisputesLast12Months in_ in
  if 3 <=? n then mkSignal "dispute frequency" 25 25 (show n +:+ " other disputes on this account in the last twelve months")
  else if n =? 2 then mkSignal "dispute frequency" 25 18 "two other disputes on this account in the last twelve months"
  else if n =? 1 then mkSignal "dispute frequency" 25 10 "one other dispute on this account in the last twelve months"
  else mkSignal "dispute frequency" 25 0 "no other dispute on this account in the last twelve months".

Definition consistency_signal (in_ : RiskInput) : Signal :=
  let n := InconsistenciesN in_ in
  if negb (QuestionnaireKnown in_) then mkSignal "questionnaire consistency" 25 0 "questionnaire not yet received"
  else if 2 <=? n then mkSignal "questionnaire consistency" 25 25 (show n +:+ " contradictions between the answers")
  else if n =? 1 then mkSignal "questionnaire consistency" 25 15 "one contradiction between the answers"
  else mkSignal "questionnaire consistency" 25 0 "answers are consistent".

Definition history_signal (in_ : RiskInput) : Signal :=
  let n := LostChargebacks in_ in
  if 2 <=? n then mkSignal "chargeback history" 25 25 (show n +:+ " earlier disputes on this account were lost at the network")
  else if n =? 1 then mkSignal "chargeback history" 25 15 "one earlier dispute on this account was lost at the network"
  else mkSignal "chargeback history" 25 0 "no earlier dispute on this account was lost at the network".

Definition transaction_signal (in_ : RiskInput) : Signal :=
  let d := TransactionAgeDays in_ in
  let detail := "disputed " +:+ show d +:+ " days after the transaction" in
  if 60 <? d then mkSignal "transaction age" 10 10 detail
  else if 30 <? d then mkSignal "transaction age" 10 5 detail
  else mkSignal "transaction age" 10 0 detail.

Definition merchant_signal (in_ : RiskInput) : Signal :=
  if HighRiskMerchant in_ then mkSignal "merchant category" 10 10 "merchant category is one where disputes concentrate"
  else mkSignal "merchant category" 10 0 "merchant category is not on the watch list".

Definition amount_signal (in_ : RiskInput) : Signal :=
  if GreaterThanOrEqual (RAmount in_) (NewFromInt 1000) then mkSignal "amount" 10 10 "amount is 1000 or more"
  else if GreaterThanOrEqual (RAmount in_) (NewFromInt 500) then mkSignal "amount" 10 5 "amount is 500 or more"
  else mkSignal "amount" 10 0 "amount is under 500".

Definition age_signal (in_ : RiskInput) : Signal :=
  let d := AccountAgeDays in_ in
  if d <? 90 then mkSignal "account age" 5 5 ("account is " +:+ show d +:+ " days old")
  else if d <? 365 then mkSignal "account age" 5 2 ("account is " +:+ show d +:+ " days old")
  else mkSignal "account age" 5 0 "account is more than a year old".

Definition tier_of (score : Z) : RiskTier :=
  if highFrom <=? score then RiskHigh else if mediumFrom <=? score then RiskMedium else RiskLow.

Definition Assess (in_ : RiskInput) : Assessment :=
  let signals := [frequency_signal in_; consistency_signal in_; history_signal in_; transaction_signal in_;
                  merchant_signal in_; amount_signal in_; age_signal in_] in
  let score := foldl (fun n s => n + SPoints s) 0 signals in
  mkAssessment score (tier_of score) signals.
End assess.

Definition ErrRiskHold : Error := sentinel Unprocessable "risk-hold"
  "this dispute is on hold for fraud review; a credit needs a recorded justification".

Definition CreditAllowed (a : option Assessment) (override : string) : M unit :=
  match a with
  | None => Ok tt
  | Some a =>
      if negb (bool_decide (ATier a = RiskHigh)) || negb (bool_decide (override = "")) then Ok tt
      else fail (WithFields ErrRiskHold [mkFieldError "body.payload.riskOverride"
             ("risk score " +:+ show (AScore a) +:+ " (HIGH): explain why the credit should go out anyway")])
  end.

(** ** Whole days between two instants, in [float64] as the code computes them *)
Definition float_of_Z (z : Z) : spec_float := binary_normalize 53 1024 z 0 false.
(** [int(f)]: truncation towards zero. *)
Definition int_of_float (f : spec_float) : Z :=
  match f with
  | S754_finite neg m e =>
      let a := if 0 <=? e then Zpos m * 2 ^ e else Zpos m / 2 ^ (- e) in
      if neg then - a else a
  | _ => 0
  end.
(** [b.Sub(a)]: saturating at the bounds of a 64-bit count of nanoseconds. *)
Definition Sub (b a : time) : Z := Z.max (- 2 ^ 63) (Z.min (2 ^ 63 - 1) (b - a)).
(** [d.Hours()]. *)
Definition Hours (d : Z) : spec_float :=
  SFadd 53 1024 (float_of_Z (Z.quot d Hour)) (SFdiv 53 1024 (float_of_Z (Z.rem d Hour)) (float_of_Z Hour)).

Definition DaysBetween (a b : time) : Z :=
  let d := int_of_float (SFdiv 53 1024 (Hours (Sub b a)) (float_of_Z 24)) in
  if 0 <? d then d else 0.

Example days_between_values :
  (DaysBetween 0 <$> [0; 1; 24 * Hour - 1; 24 * Hour; 25 * Hour; - Hour; 400 * 24 * Hour]) = [0; 0; 0; 1; 1; 0; 400].
Proof. vm_compute. reflexivity. Qed.

(** ** Facts *)
Section facts.
Context `{DC : Decimal} {DL : DecimalLaws DC}.

Ltac by_cases := repeat match goal with
  | |- context [if ?b then _ else _] => destruct b eqn:?
  end; cbn in *; to_prop; try lia.

Definition signal_ok (s : Signal) : Prop := 0 <= SPoints s <= SWeight s.

Lemma signals_ok in_ : Forall signal_ok (ASignals (Assess in_)).
Proof.
  unfold signal_ok. repeat constructor.
  all: unfold frequency_signal, consistency_signal, history_signal, transaction_signal, merchant_signal,
         amount_signal, age_signal; by_cases.
Qed.

(** One input is at least as risky as another. *)
Record riskier (a b : RiskInput) : Prop := {
  riskier_disputes : DisputesLast12Months a <= DisputesLast12Months b;
  riskier_lost : LostChargebacks a <= LostChargebacks b;
  riskier_txn : TransactionAgeDays a <= TransactionAgeDays b;
  riskier_merchant : HighRiskMerchant a = true -> HighRiskMerchant b = true;
  riskier_amount : (dval (RAmount a) <= dval (RAmount b))%Q;
  riskier_account : AccountAgeDays b <= AccountAgeDays a;
  riskier_flags : InconsistenciesN a <= InconsistenciesN b;
  riskier_known : QuestionnaireKnown a = true -> QuestionnaireKnown b = true
}.

Lemma amount_mono a b : (dval (RAmount a) <= dval (RAmount b))%Q ->
  SPoints (amount_signal a) <= SPoints (amount_signal b).
Proof.
  intros H. unfold amount_signal.
  destruct (GreaterThanOrEqual (RAmount a) _) eqn:A1;
    [|destruct (GreaterThanOrEqual (RAmount a) (NewFromInt 500)) eqn:A2];
  (destruct (GreaterThanOrEqual (RAmount b) (NewFromInt 1000)) eqn:B1;
    [|destruct (GreaterThanOrEqual (RAmount b) (NewFromInt 500)) eqn:B2]);
  cbn; try lia; exfalso; dec_prop; lra.
Qed.

Lemma points_mono a b : riskier a b ->
  SPoints (frequency_signal a) <= SPoints (frequency_signal b) /\
  SPoints (consistency_signal a) <= SPoints (consistency_signal b) /\
  SPoints (history_signal a) <= SPoints (history_signal b) /\
  SPoints (transaction_signal a) <= SPoints (transaction_signal b) /\
  SPoints (merchant_signal a) <= SPoints (merchant_signal b) /\
  SPoints (amount_signal a) <= SPoints (amount_signal b) /\
  SPoints (age_signal a) <= SPoints (age_signal b).
Proof.
  intros [Hd Hl Ht Hm Ha Hc Hf Hk]. repeat split; [..|by apply amount_mono|].
  - unfold frequency_signal. by_cases.
  - unfold consistency_signal. by_cases. all: intuition congruence.
  - unfold history_signal. by_cases.
  - unfold transaction_signal. by_cases.
  - unfold merchant_signal. by_cases. all: intuition congruence.
  - unfold age_signal. by_cases.
Qed.

Definition tier_rank (t : RiskTier) : Z := match t with RiskLow => 0 | RiskMedium => 1 | RiskHigh => 2 end.

Lemma some_fires l : 0 < sumZ SPoints l -> exists s, s ∈ l /\ 0 < SPoints s.
Proof.
  induction l as [|s l IH]; cbn; [lia|]. intros H. destruct (decide (0 < SPoints s)).
  - exists s. split; [by left|done].
  - destruct IH as (s' & Hin & Hs'); [unfold sumZ; lia|]. exists s'. split; [by right|done].
Qed.

(** Signals of distinct names, none above 25: a sum above 25 takes two of them. *)
Lemma two_fire l : Forall (fun s => 0 <= SPoints s <= 25) l -> NoDup (SName <$> l) -> 25 < sumZ SPoints l ->
  exists s1 s2, s1 ∈ l /\ s2 ∈ l /\ SName s1 <> SName s2 /\ 0 < SPoints s1 /\ 0 < SPoints s2.
Proof.
  induction l as [|s l IH]; [cbn; lia|]. intros [Hs Hl]%list.Forall_cons [Hn Hd]%list.NoDup_cons H.
  change (25 < SPoints s + sumZ SPoints l) in H. destruct (decide (0 < SPoints s)).
  - destruct (some_fires l) as (s' & Hin & Hs'); [lia|].
    exists s, s'. split_and!; [by left|by right| |done|done].
    intros Heq. apply Hn. rewrite Heq. by apply list_elem_of_fmap_2.
  - destruct (IH Hl Hd) as (s1 & s2 & H1 & H2 & ?); [lia|].
    exists s1, s2. split_and!; [by right|by right|naive_solver..].
Qed.

Lemma signals_shape in_ :
  Forall (fun s => 0 <= SPoints s <= 25) (ASignals (Assess in_)) /\ NoDup (SName <$> ASignals (Assess in_)) /\
  sumZ SWeight (ASignals (Assess in_)) = 110.
Proof.
  unfold Assess; cbn [ASignals fmap list_fmap sumZ foldr].
  assert (Hname : SName <$> ASignals (Assess in_) = ["dispute frequency"; "questionnaire consistency"; "chargeback history";
    "transaction age"; "merchant category"; "amount"; "account age"] /\
    SWeight <$> ASignals (Assess in_) = [25; 25; 25; 10; 10; 10; 5]) by
   (unfold Assess; cbn [ASignals fmap list_fmap]; split; repeat f_equal;
    unfold frequency_signal, consistency_signal, history_signal, transaction_signal, merchant_signal,
      amount_signal, age_signal; split_ifs; done).
  destruct Hname as [Hn Hw]. cbn [Assess ASignals fmap list_fmap] in Hn, Hw. rewrite Hn.
  injection Hw as H1 H2 H3 H4 H5 H6 H7. rewrite H1, H2, H3, H4, H5, H6, H7.
  split; [|split; [by_eval|done]].
  pose proof (signals_ok in_) as Hok. unfold Assess in Hok; cbn [ASignals] in Hok. unfold signal_ok in Hok.
  repeat (apply list.Forall_cons in Hok as [? Hok]; apply list.Forall_cons; split; [lia|]). done.
Qed.

Lemma sum_le_weights l : Forall signal_ok l -> 0 <= sumZ SPoints l <= sumZ SWeight l.
Proof.
  unfold signal_ok. induction 1 as [|s l H _ IH]; [done|].
  change (0 <= SPoints s + sumZ SPoints l <= SWeight s + sumZ SWeight l). lia.
Qed.

Lemma tier_of_mono a b : a <= b -> tier_rank (tier_of a) <= tier_rank (tier_of b).
Proof. unfold tier_of, highFrom, mediumFrom. by_cases. Qed.
End facts.

(** An assessment reports all seven signals, each between nothing and its weight; the score is their sum and
    so lies between 0 and 110; the tier is HIGH from 45 and MEDIUM from 20; and HIGH always rests on at least
    two signals, since no single one weighs enough. *)
Theorem Assess_bounds `{DC : Decimal} in_ :
  let a := Assess in_ in
  Forall signal_ok (ASignals a) /\ length (ASignals a) = 7%nat /\
  AScore a = sumZ SPoints (ASignals a) /\ 0 <= AScore a <= 110 /\
  (ATier a = RiskHigh <-> 45 <= AScore a) /\ (ATier a = RiskLow <-> AScore a < 20) /\
  (ATier a = RiskHigh -> exists s1 s2, s1 ∈ ASignals a /\ s2 ∈ ASignals a /\
     SName s1 <> SName s2 /\ 0 < SPoints s1 /\ 0 < SPoints s2).
Proof.
  intros a. pose proof (signals_ok in_) as Hok. destruct (signals_shape in_) as (H25 & Hd & Hw). fold a in Hok, H25, Hd, Hw.
  assert (Hsum : AScore a = sumZ SPoints (ASignals a)) by (subst a; cbn; lia).
  pose proof (sum_le_weights _ Hok) as Hb.
  assert (Ht : ATier a = tier_of (AScore a)) by done.
  unfold tier_of, highFrom, mediumFrom in Ht.
  split_and!; [done|done|done|lia|lia|..].
  - rewrite Ht. split_ifs; to_prop; split; first [done|lia].
  - rewrite Ht. split_ifs; to_prop; split; first [done|lia].
  - intros HH. apply two_fire; [done..|]. rewrite HH in Ht.
    destruct (45 <=? AScore a) eqn:E; to_prop; [lia|by destruct (20 <=? AScore a)].
Qed.

(** The score never goes down when any of the facts gets worse: more other disputes or lost chargebacks, an
    older transaction, a watched merchant, a larger amount, a younger account, more contradictions or a
    questionnaire that is now known; and neither does the tier. *)
Theorem Assess_monotone `{DC : Decimal} `{DL : !DecimalLaws DC} a b :
  riskier a b ->
  AScore (Assess a) <= AScore (Assess b) /\ tier_rank (ATier (Assess a)) <= tier_rank (ATier (Assess b)).
Proof.
  intros H. assert (AScore (Assess a) <= AScore (Assess b)) as Hs.
  { destruct (points_mono _ _ H) as (? & ? & ? & ? & ? & ? & ?). cbn [Assess AScore foldl]. lia. }
  split; [done|]. by apply tier_of_mono.
Qed.

Definition quiet_input : @RiskInput QDec.ops := mkRiskInput 0 0 3 false (NewFromInt 100) 1000 0 false.
Definition loud_input : @RiskInput QDec.ops := mkRiskInput 3 1 3 true (NewFromInt 1000) 1000 2 true.

Lemma Assess_monotone_witness :
  AScore (Assess quiet_input) <= AScore (Assess loud_input) /\ ATier (Assess quiet_input) = RiskLow /\
  ATier (Assess loud_input) = RiskHigh.
Proof.
  split; [|split; vm_compute; reflexivity].
  refine (proj1 (@Assess_monotone QDec.ops QDec.laws quiet_input loud_input _)). split; try done; vm_compute; intros [=].
Defined.

