(* ===== verification/Notice.v ===== *)
(** * Notice: what the bank writes to the customer ([notice/notice.go]). *)
From S2P Require Import Prelude Errs GoTime GoJson Ext Types Questionnaire.

(** [notice.Outcome]; the empty outcome of a notice that is not a resolution reads as DENIED's default branch. *)
Inductive Outcome : Type := OutcomeCredited | OutcomeDenied | OutcomeReversed | OutcomeRecovered.
#[export] Instance Outcome_eq_dec : EqDecision Outcome.
Proof. solve_decision. Defined.

Record Document : Type := mkDocument {
  DocBank : string;
  Subject : string;
  Greeting : string;
  Paragraphs : list string;
  Closing : string;
  Basis : string
}.
#[export] Instance Document_eq_dec : EqDecision Document.
Proof. solve_decision. Defined.

Definition lower (a : Ascii.ascii) : Ascii.ascii :=
  let n := Ascii.nat_of_ascii a in
  if (Nat.leb 65 n && Nat.leb n 90)%bool then Ascii.ascii_of_nat (n + 32) else a.
(** [strings.ToLower] of ASCII text. *)
Fixpoint ToLower (s : string) : string :=
  match s with EmptyString => EmptyString | String a s => String (lower a) (ToLower s) end.

(** [strings.Builder] and [+=] over a list. *)
Definition concat_map {A} (f : A -> string) (l : list A) : string :=
  foldr (fun a s => f a +:+ s) EmptyString l.

Lemma concat_map_cons {A} (f : A -> string) a l : concat_map f (a :: l) = f a +:+ concat_map f l.
Proof. done. Qed.

Definition reasonWords (r : Reason) : string :=
  match r with
  | ReasonNotReceived => "Undelivered"
  | ReasonDuplicate => "Duplicate"
  | ReasonAmountDiffers => "Incorrectly charged"
  | ReasonUnauthorised => "Unauthorised"
  end.

Definition basis (r : Regime) (kind : NoticeKind) : string :=
  match r with
  | RegimeUSRegE =>
      match kind with
      | NoticeProvisionalCredit => "This notice is given under 12 CFR 1005.11(c)(2)(iv)."
      | NoticeReversal => "This notice is given under 12 CFR 1005.11(d)(2)."
      | NoticeResolution => "This notice is given under 12 CFR 1005.11(d)(1)."
      | _ => ""
      end
  | RegimeUSRegZ =>
      match kind with
      | NoticeAcknowledgement => "This written acknowledgement is given under 12 CFR 1026.13(c)(1)."
      | NoticeResolution => "This notice is given under 12 CFR 1026.13(e) and (f)."
      | _ => ""
      end
  | RegimeEUPSD2Card =>
      if bool_decide (kind = NoticeRefund) then "Refund made under Article 73 of Directive (EU) 2015/2366." else ""
  | RegimeEUSEPADirectDebit =>
      if bool_decide (kind = NoticeRefund) then
        "Refund made under Article 77 of Directive (EU) 2015/2366 and the SEPA Core Direct Debit Scheme Rulebook."
      else ""
  | RegimeOther _ => ""
  end.

Section notice.
Context `{DC : Decimal}.
(** The zone the process runs in; every instant a notice prints is in it. *)
Context (Local : Location).

Record Facts : Type := mkFacts {
  FBank : string;
  FCustomer : string;
  FDisputeID : string;
  FReason : Reason;
  FRegime : Regime;
  FMerchant : string;
  FAmount : dec;
  FCurrency : string;
  FCredited : dec;
  FOccurredAt : time;
  FOpenedAt : time;
  FNow : time;
  FResolutionDue : option time;
  FQuestions : list Question;
  FOutcome : Outcome;
  FReversalAmount : dec
}.

(** The numbered lines of the questionnaire notice. *)
Definition question_lines (qs : list Question) : list string :=
  imap (fun i q => show (Z.of_nat i + 1) +:+ ". " +:+ Text q +:+ (if Required q then "" else " (optional)")) qs.

Definition Compose (kind : NoticeKind) (f : Facts) : Document :=
  let money d := StringFixed d 2 +:+ " " +:+ FCurrency f in
  let day t := format_long Local t in
  let ref := "Dispute reference " +:+ FDisputeID f +:+ "." in
  let doc subject paragraphs basis :=
    mkDocument (FBank f) subject ("Dear " +:+ FCustomer f +:+ ",") paragraphs
      ("Yours sincerely," +:+ newline +:+ FBank f +:+ " disputes team") basis in
  match kind with
  | NoticeAcknowledgement =>
      doc "We have received your dispute"
        (["We have received your dispute of the " +:+ ToLower (reasonWords (FReason f)) +:+ " payment of "
            +:+ money (FAmount f) +:+ " to " +:+ FMerchant f +:+ " made on " +:+ day (FOccurredAt f)
            +:+ ", and we have opened an investigation."]
         ++ (match FResolutionDue f with
             | Some due => ["We will let you know the outcome by " +:+ day due +:+ "."]
             | None => []
             end)
         ++ ["You do not need to do anything now. If we need more from you, we will ask."; ref])
        (basis (FRegime f) kind)
  | NoticeQuestionnaire =>
      doc "A few questions about your dispute"
        (["To investigate your dispute we need your answers to the following questions. Please reply as soon as you can."]
         ++ question_lines (FQuestions f) ++ [ref]) ""
  | NoticeProvisionalCredit =>
      doc "Provisional credit posted to your account"
        ["While we investigate, we have credited " +:+ money (FCredited f) +:+ " to your account on "
           +:+ day (FNow f) +:+ ". You may use these funds.";
         "This credit is provisional. If our investigation finds that no error occurred, we will reverse it and tell you the date and amount before we do.";
         ref]
        (basis (FRegime f) kind)
  | NoticeRefund =>
      doc "Your refund"
        (["We have refunded " +:+ money (FCredited f) +:+ " to your account on " +:+ day (FNow f) +:+ "."]
         ++ (if LessThan (FCredited f) (FAmount f) then
               ["This is " +:+ money (dec_sub (FAmount f) (FCredited f))
                +:+ " less than the disputed amount, which is the share the rules leave with you; we can explain how it was determined."]
             else [])
         ++ [ref])
        (basis (FRegime f) kind)
  | NoticeReversal =>
      doc "Reversal of your provisional credit"
        ["Our investigation has concluded that no error occurred. The provisional credit of "
           +:+ money (FReversalAmount f) +:+ " will be debited from your account on "
           +:+ day (AddDate Local (FNow f) 0 0 5) +:+ ".";
         "Until that date we will honour payments from your account up to that amount without charge, as the rules require.";
         "You may ask us for the documents we relied on."; ref]
        (basis (FRegime f) kind)
  | NoticeResolution =>
      let about := "We have completed our investigation of your dispute of " +:+ money (FAmount f) +:+ " to " +:+ FMerchant f in
      doc "The outcome of your dispute"
        ([match FOutcome f with
          | OutcomeCredited | OutcomeRecovered =>
              about +:+ " and found in your favour. The credit of " +:+ money (FCredited f) +:+ " to your account is final."
          | OutcomeReversed =>
              about +:+ " and found that no error occurred. The provisional credit has been reversed, as we told you separately."
          | OutcomeDenied =>
              about +:+ " and found that no error occurred. No credit has been made."
          end]
         ++ ["You may ask us for copies of the documents we relied on, and you may appeal this decision."; ref])
        (basis (FRegime f) kind)
  | _ => doc "" [] ""
  end.

Definition DocText (d : Document) : string :=
  Greeting d +:+ newline +:+ newline
  +:+ concat_map (fun p => p +:+ newline +:+ newline) (Paragraphs d)
  +:+ Closing d +:+ newline
  +:+ (if bool_decide (Basis d = "") then "" else newline +:+ Basis d +:+ newline).

(** [html.EscapeString]. *)
Fixpoint EscapeString (s : string) : string :=
  match s with
  | EmptyString => EmptyString
  | String a s =>
      (if bool_decide (a = "&"%char) then "&amp;"
       else if bool_decide (a = "'"%char) then "&#39;"
       else if bool_decide (a = "<"%char) then "&lt;"
       else if bool_decide (a = ">"%char) then "&gt;"
       else if bool_decide (a = Ascii.ascii_of_nat 34) then "&#34;"
       else String a EmptyString) +:+ EscapeString s
  end.
(** [strings.ReplaceAll(s, newline, br)]. *)
Fixpoint replace_newlines (br s : string) : string :=
  match s with
  | EmptyString => EmptyString
  | String a s =>
      (if bool_decide (a = Ascii.ascii_of_nat 10) then br else String a EmptyString) +:+ replace_newlines br s
  end.

(** An attribute and its quoted value. *)
Definition attr (name value : string) : string := " " +:+ name +:+ "=" +:+ dquote +:+ value +:+ dquote.

Definition HTML (d : Document) (date : time) : string :=
  let text := "font-family:Georgia,'Times New Roman',serif;font-size:16px;line-height:24px;color:#111111;" in
  let small := "font-family:Georgia,'Times New Roman',serif;font-size:13px;line-height:20px;color:#555555;" in
  let cell style inner :=
    "<tr><td" +:+ attr "style" (style +:+ "padding:0 0 16px 0;") +:+ ">" +:+ inner +:+ "</td></tr>" in
  "<!DOCTYPE html><html" +:+ attr "lang" "en" +:+ "><head><meta" +:+ attr "charset" "utf-8" +:+ "><meta"
  +:+ attr "name" "viewport" +:+ attr "content" "width=device-width" +:+ "><title>" +:+ EscapeString (Subject d)
  +:+ "</title></head>"
  +:+ "<body>"
  +:+ "<table" +:+ attr "role" "presentation" +:+ attr "width" "100%" +:+ attr "cellpadding" "0" +:+ attr "cellspacing" "0"
  +:+ "><tr><td" +:+ attr "align" "center" +:+ attr "style" "padding:24px 12px;" +:+ ">"
  +:+ "<table" +:+ attr "role" "presentation" +:+ attr "width" "600" +:+ attr "cellpadding" "0" +:+ attr "cellspacing" "0" +:+ ">"
  +:+ cell small (EscapeString (DocBank d) +:+ "<br>" +:+ EscapeString (format_long Local date))
  +:+ cell (text +:+ "font-size:20px;line-height:28px;") ("<b>" +:+ EscapeString (Subject d) +:+ "</b>")
  +:+ cell text (EscapeString (Greeting d))
  +:+ concat_map (fun p => cell text (replace_newlines "<br>" (EscapeString p))) (Paragraphs d)
  +:+ cell text (replace_newlines "<br>" (EscapeString (Closing d)))
  +:+ (if bool_decide (Basis d = "") then "" else cell small (EscapeString (Basis d)))
  +:+ "</table></td></tr></table></body></html>".
End notice.
Arguments Facts {DC}.

(** ** Facts *)

(** How often a character occurs. *)
Fixpoint count_char (c : Ascii.ascii) (s : string) : Z :=
  match s with
  | EmptyString => 0
  | String a s => (if bool_decide (a = c) then 1 else 0) + count_char c s
  end.

Lemma count_char_app c s t : count_char c (s +:+ t) = count_char c s + count_char c t.
Proof.
  induction s as [|a s IH]; [done|].
  change (count_char c (String a (s +:+ t)) = count_char c (String a s) + count_char c t). cbn [count_char].
  change (String.append s t) with (s +:+ t). lia.
Qed.

Definition lt_char : Ascii.ascii := "<"%char.
Definition nl_char : Ascii.ascii := Ascii.ascii_of_nat 10.

Lemma count_escape_lt s : count_char lt_char (EscapeString s) = 0.
Proof.
  induction s as [|a s IH]; [done|]. cbn [EscapeString]. rewrite count_char_app, IH.
  repeat case_bool_decide; subst; try (vm_compute; reflexivity).
  cbn [count_char]. rewrite bool_decide_false; [lia|done].
Qed.

Lemma count_escape_nl s : count_char nl_char (EscapeString s) = count_char nl_char s.
Proof.
  induction s as [|a s IH]; [done|]. cbn [EscapeString count_char]. rewrite count_char_app, IH.
  f_equal. repeat (case_bool_decide; subst; [vm_compute; reflexivity|]).
  cbn [count_char]. by rewrite bool_decide_false.
Qed.

Lemma count_replace s :
  count_char lt_char (replace_newlines "<br>" s) = count_char lt_char s + count_char nl_char s.
Proof.
  induction s as [|a s IH]; [done|]. cbn [replace_newlines]. rewrite count_char_app, IH. cbn [count_char].
  unfold lt_char, nl_char in *. case_bool_decide as H; subst.
  - rewrite bool_decide_false by done. vm_compute (count_char "<"%char "<br>"). lia.
  - cbn [count_char]. lia.
Qed.

(** The elements the layout itself opens and closes, for a document with a basis line or not. *)
Definition layout_tags (d : Document) : Z :=
  count_char lt_char (HTML UTC (mkDocument "" "" "" [] "" (if bool_decide (Basis d = "") then "" else "x")) 0)
  + 4 * Z.of_nat (length (Paragraphs d)).

(** C23: Nothing in a notice's words can open or close an element of the email: the number of [<] in the rendered
    HTML is fixed by the layout - the paragraphs, the line breaks they contain and the basis line - whatever
    the bank, the customer, the merchant or the analyst's text holds. *)
Theorem HTML_no_injection Local d date :
  count_char lt_char (HTML Local d date) =
    layout_tags d + sumZ (count_char nl_char) (Paragraphs d) + count_char nl_char (Closing d).
Proof.
  assert (Hp : forall style l,
    count_char lt_char (concat_map (fun p => "<tr><td" +:+ attr "style" (style +:+ "padding:0 0 16px 0;") +:+ ">"
      +:+ replace_newlines "<br>" (EscapeString p) +:+ "</td></tr>") l)
    = (4 + count_char lt_char style) * Z.of_nat (length l) + sumZ (count_char nl_char) l).
  { intros style l. induction l as [|p l IH]; [cbn; lia|].
    rewrite concat_map_cons, sumZ_cons, count_char_app, IH.
    change (Z.of_nat (length (p :: l))) with (Z.of_nat (S (length l))). rewrite Nat2Z.inj_succ. unfold attr in *.
    rewrite !count_char_app, count_replace, count_escape_lt, count_escape_nl.
    vm_compute (count_char lt_char "<tr><td"). vm_compute (count_char lt_char "</td></tr>").
    vm_compute (count_char lt_char dquote). vm_compute (count_char lt_char " ").
    vm_compute (count_char lt_char "style"). vm_compute (count_char lt_char "=").
    vm_compute (count_char lt_char "padding:0 0 16px 0;"). vm_compute (count_char lt_char ">"). lia. }
  unfold layout_tags. destruct d as [bank subject greeting paragraphs closing basis].
  unfold HTML. cbn [DocBank Subject Greeting Paragraphs Closing Basis].
  rewrite !count_char_app, !Hp, !count_replace, !count_escape_lt, !count_escape_nl.
  rewrite ?count_escape_lt.
  vm_compute (sumZ _ []). vm_compute (length []).
  case_bool_decide as Hb; [rewrite bool_decide_true by done|rewrite bool_decide_false by done];
    rewrite ?count_char_app, ?count_escape_lt.
  all: repeat match goal with |- context [count_char lt_char ?s] =>
    let v := eval vm_compute in (count_char lt_char s) in change (count_char lt_char s) with v end.
  all: cbn [count_char]; lia.
Qed.

(** ** The stored form

    [json.Marshal] and [json.Unmarshal] of a document: a struct without tags, an absent list as [null]. *)
Definition Document_json (d : Document) : json :=
  JObject [("Bank", JString (DocBank d)); ("Subject", JString (Subject d)); ("Greeting", JString (Greeting d));
           ("Paragraphs", match Paragraphs d with [] => JNull | ps => JArray (map JString ps) end);
           ("Closing", JString (Closing d)); ("Basis", JString (Basis d))].

Definition zero_Document : Document := mkDocument "" "" "" [] "" "".
Definition into_Document_with (paragraphs : decoder (list string)) : decoder Document := into_struct
  [("Bank", field DocBank (fun d s => mkDocument s (Subject d) (Greeting d) (Paragraphs d) (Closing d) (Basis d)) into_string);
   ("Subject", field Subject (fun d s => mkDocument (DocBank d) s (Greeting d) (Paragraphs d) (Closing d) (Basis d)) into_string);
   ("Greeting", field Greeting (fun d s => mkDocument (DocBank d) (Subject d) s (Paragraphs d) (Closing d) (Basis d)) into_string);
   ("Paragraphs", field Paragraphs (fun d l => mkDocument (DocBank d) (Subject d) (Greeting d) l (Closing d) (Basis d)) paragraphs);
   ("Closing", field Closing (fun d s => mkDocument (DocBank d) (Subject d) (Greeting d) (Paragraphs d) s (Basis d)) into_string);
   ("Basis", field Basis (fun d s => mkDocument (DocBank d) (Subject d) (Greeting d) (Paragraphs d) (Closing d) s) into_string)].

Definition into_Document : decoder Document := into_Document_with (into_slice "" into_string).

Lemma into_slice_strings (ps : list string) : into_slice "" into_string (JArray (map JString ps)) [] = (ps, true).
Proof.
  cbn [into_slice]. induction ps as [|p ps IH]; [done|]. cbn [map tail]. rewrite IH. done.
Qed.

Lemma decode_with paragraphs j ps b s g c ba : paragraphs j [] = (ps, true) ->
  into_Document_with paragraphs (JObject [("Bank", JString b); ("Subject", JString s); ("Greeting", JString g);
    ("Paragraphs", j); ("Closing", JString c); ("Basis", JString ba)]) zero_Document
  = (mkDocument b s g ps c ba, true).
Proof. intros H. vm_compute. rewrite H. reflexivity. Qed.

(** A stored notice reads back as the document that was composed. *)
Lemma Document_roundtrip d : Unmarshal into_Document (RawJSON (Document_json d)) zero_Document = Some d.
Proof.
  destruct d as [b s g ps c ba]. unfold Unmarshal, Document_json, into_Document.
  cbn [DocBank Subject Greeting Paragraphs Closing Basis].
  rewrite (decode_with _ _ ps); [done|]. destruct ps; [done|]. apply into_slice_strings.
Qed.
