(* ===== verification/Redact.v ===== *)
(** * Redact: what the log lets out ([platform/telemetry/redact.go]).

    The handler beneath the redactor is known by what a sink prints of it: the attributes of the record inside the
    groups and behind the attributes the logger was given before. A value is a text, a group, or a [slog.LogValuer],
    which the sink asks for its value when it prints. Keys are ASCII. *)
From S2P Require Import Prelude Errs GoTime GoJson Ext Types Regimes Lifecycle Deadlines Ledger Questionnaire Risk Notice.

Inductive LogValue : Type :=
| VText (text : string)
| VGroup (members : list (string * LogValue))
| VLogValuer (value : LogValue).
Abbreviation Attr := (string * LogValue)%type.

(** Induction with a hypothesis about every member of a group. *)
Section value_ind.
Context (P : LogValue -> Prop) (text : forall t, P (VText t)) (group : forall ms, Forall (fun a => P (snd a)) ms -> P (VGroup ms))
  (valuer : forall v, P v -> P (VLogValuer v)).
Fixpoint LogValue_members_ind (v : LogValue) : P v :=
  match v with
  | VText t => text t
  | VGroup ms => group ms ((fix go (ms : list Attr) : Forall (fun a => P (snd a)) ms :=
      match ms with [] => Forall_nil _ | (k, v) :: ms => Forall_cons _ (k, v) ms (LogValue_members_ind v) (go ms) end) ms)
  | VLogValuer v => valuer v (LogValue_members_ind v)
  end.
End value_ind.

(** ** The redactor *)
Definition sensitiveKeys : list string :=
  ["authorization"; "cookie"; "set-cookie"; "password"; "secret"; "token"; "access_token"; "refresh_token"; "api_key"; "pan";
   "card_number"; "cvv"; "body"].
Definition sensitive (key : string) : bool := slices_contains sensitiveKeys (ToLower key).
Definition redacted : string := "[REDACTED]".

Fixpoint redact_value (v : LogValue) : LogValue :=
  match v with
  | VGroup members => VGroup (map (fun a => match a with (k, m) => (k, if sensitive k then VText redacted else redact_value m) end) members)
  | _ => v
  end.
Definition redactAttr (a : Attr) : Attr := let '(k, v) := a in (k, if sensitive k then VText redacted else redact_value v).

(** ** Handlers *)
(** What was done to a logger before it logs. *)
Inductive Told : Type := WithAttrs (attrs : list Attr) | WithGroup (name : string).
Definition redact_told (t : Told) : Told :=
  match t with WithAttrs attrs => WithAttrs (map redactAttr attrs) | WithGroup name => WithGroup name end.
(** What a sink prints of a record with these attributes. *)
Fixpoint printed (told : list Told) (attrs : list Attr) : list Attr :=
  match told with
  | [] => attrs
  | WithAttrs before :: told => before ++ printed told attrs
  | WithGroup name :: told => if bool_decide (name = "") then printed told attrs else [(name, VGroup (printed told attrs))]
  end.
(** [redactor.Handle] on the logger that came of [told]. *)
Definition Redact_printed (told : list Told) (attrs : list Attr) : list Attr := printed (map redact_told told) (map redactAttr attrs).

(** ** Leaves: the texts that come out, each with the keys on its way *)
Fixpoint leaves (v : LogValue) : list (list string * string) :=
  match v with
  | VText t => [([], t)]
  | VGroup members => concat (map (fun a => match a with (k, m) => map (fun l => (k :: fst l, snd l)) (leaves m) end) members)
  | VLogValuer v => leaves v
  end.
Definition attr_leaves (attrs : list Attr) : list (list string * string) := leaves (VGroup attrs).

(** No value is computed only when it is printed. *)
Fixpoint settled (v : LogValue) : bool :=
  match v with VText _ => true | VGroup members => forallb (fun a => match a with (_, m) => settled m end) members | VLogValuer _ => false end.
Definition harmless (t : Told) : Prop :=
  match t with WithAttrs attrs => settled (VGroup attrs) = true | WithGroup name => sensitive name = false end.

Lemma attr_leaves_in path t attrs : (path, t) ∈ attr_leaves attrs <-> exists k v p, (k, v) ∈ attrs /\ path = k :: p /\ (p, t) ∈ leaves v.
Proof.
  unfold attr_leaves. cbn. rewrite list_elem_of_In, in_concat. split.
  - intros (l & Hl & H). apply in_map_iff in Hl as ((k & v) & <- & Hkv). apply in_map_iff in H as ((p & t') & [= <- <-] & Hp).
    exists k, v, p. by rewrite !list_elem_of_In.
  - intros (k & v & p & Hkv & -> & Hp). exists (map (fun l => (k :: fst l, snd l)) (leaves v)). rewrite list_elem_of_In in Hkv. rewrite list_elem_of_In in Hp. split.
    + apply in_map_iff. by exists (k, v).
    + apply in_map_iff. by exists (p, t).
Qed.

Lemma redact_attrs_in k v attrs : (k, v) ∈ map redactAttr attrs <-> exists v0, (k, v0) ∈ attrs /\ v = if sensitive k then VText redacted else redact_value v0.
Proof.
  rewrite list_elem_of_fmap. split; [intros ([k0 v0] & [= -> ->] & H); by exists v0|intros (v0 & H & ->); by exists (k, v0)].
Qed.

(** ** Values *)
Definition clean (path : list string) : Prop := Forall (fun k => sensitive k = false) path.
Lemma redact_hides v : settled v = true -> forall p t, (p, t) ∈ leaves (redact_value v) -> ¬ clean p -> t = redacted.
Proof.
  induction v as [t|ms IH|v IH] using LogValue_members_ind; intros Hs p t' H Hp; [| |done].
  - cbn in H. apply list_elem_of_singleton in H as [= -> ->]. destruct Hp. constructor.
  - change (leaves (redact_value (VGroup ms))) with (attr_leaves (map redactAttr ms)) in H.
    apply attr_leaves_in in H as (k & v & q & (v0 & Hv & ->)%redact_attrs_in & -> & Hq).
    destruct (sensitive k) eqn:Ek; [by apply list_elem_of_singleton in Hq as [= _ ->]|].
    rewrite list.Forall_forall in IH. apply (IH _ Hv) with q; [|done|intros Hc; apply Hp; by constructor].
    cbn [settled] in Hs. rewrite forallb_forall in Hs. by apply (Hs (k, v0)), list_elem_of_In.
Qed.
Lemma redact_keeps v : forall p t, clean p -> (p, t) ∈ leaves (redact_value v) <-> (p, t) ∈ leaves v.
Proof.
  induction v as [t|ms IH|v IH] using LogValue_members_ind; intros p t' Hp; [done| |done].
  change (leaves (redact_value (VGroup ms))) with (attr_leaves (map redactAttr ms)). change (leaves (VGroup ms)) with (attr_leaves ms).
  rewrite !attr_leaves_in. rewrite list.Forall_forall in IH. split.
  - intros (k & v & q & (v0 & Hv & ->)%redact_attrs_in & -> & Hq). apply list.Forall_cons in Hp as [Hk Hp]. rewrite Hk in Hq.
    exists k, v0, q. split_and!; [done|done|]. by apply (IH _ Hv).
  - intros (k & v & q & Hv & -> & Hq). apply list.Forall_cons in Hp as [Hk Hp]. exists k, (redact_value v), q. split_and!; [|done|by apply (IH _ Hv)].
    apply redact_attrs_in. exists v. by rewrite Hk.
Qed.

(** ** Records *)
Lemma attr_leaves_app a b l : l ∈ attr_leaves (a ++ b) <-> l ∈ attr_leaves a \/ l ∈ attr_leaves b.
Proof. destruct l as [p t]. rewrite !attr_leaves_in. setoid_rewrite elem_of_app. naive_solver. Qed.
Lemma attr_leaves_group name attrs p t : (p, t) ∈ attr_leaves [(name, VGroup attrs)] <-> exists q, p = name :: q /\ (q, t) ∈ attr_leaves attrs.
Proof.
  rewrite attr_leaves_in. split.
  - intros (k & v & q & [= -> ->]%list_elem_of_singleton & -> & H). by exists q.
  - intros (q & -> & H). exists name, (VGroup attrs), q. split_and!; [by apply list_elem_of_singleton|done|done].
Qed.

Lemma printed_hides told attrs : Forall harmless told -> settled (VGroup attrs) = true -> forall p t,
  (p, t) ∈ attr_leaves (Redact_printed told attrs) -> ¬ clean p -> t = redacted.
Proof.
  intros Ht Ha. unfold Redact_printed. induction Ht as [|x told Hx Ht IH]; intros p t H Hp; [by apply (redact_hides (VGroup attrs)) with p|].
  destruct x as [before|name]; cbn [map redact_told printed] in H.
  - apply attr_leaves_app in H as [H|H]; [by apply (redact_hides (VGroup before)) with p|by apply (IH p)].
  - case_bool_decide as Hn; [by apply (IH p)|]. apply attr_leaves_group in H as (q & -> & H). apply (IH q); [done|].
    intros Hc. apply Hp. by constructor.
Qed.
Lemma printed_keeps told attrs p t : clean p -> (p, t) ∈ attr_leaves (Redact_printed told attrs) <-> (p, t) ∈ attr_leaves (printed told attrs).
Proof.
  unfold Redact_printed. revert p. induction told as [|[before|name] told IH]; intros p Hp; cbn [map redact_told printed].
  - by apply (redact_keeps (VGroup attrs)).
  - rewrite !attr_leaves_app, (IH p Hp). apply or_iff_compat_r. by apply (redact_keeps (VGroup before)).
  - case_bool_decide as Hn; [by apply IH|]. rewrite !attr_leaves_group. split; intros (q & -> & H); exists q; (split; [done|]); apply IH; try done; by apply list.Forall_cons in Hp as [_ Hp].
Qed.

(** C39: Secrets stay out of the log: however a logger was built up - attributes given early, groups opened - and however
    deep in groups a value sits, no text below a sensitive key is printed, in any mixture of cases; and everything that
    has no sensitive key above it is printed just as it would have been. The groups opened must not have sensitive names
    and values must not be computed while printing: of neither does the redactor know. *)
Theorem secrets_never_logged told attrs p t :
  (clean p -> (p, t) ∈ attr_leaves (Redact_printed told attrs) <-> (p, t) ∈ attr_leaves (printed told attrs)) /\
  (Forall harmless told -> settled (VGroup attrs) = true -> ¬ clean p -> (p, t) ∈ attr_leaves (Redact_printed told attrs) -> t = redacted).
Proof. split; [apply printed_keeps|]. intros Ht Ha Hp H. by apply (printed_hides told attrs Ht Ha p). Qed.

(** ** Played out *)
Module RedactExamples.
Definition before : list Told := [WithAttrs [("service", VText "api"); ("Token", VText "tk_live")]; WithGroup "http"].
Definition attrs : list Attr :=
  [("path", VText "/disputes"); ("headers", VGroup [("Authorization", VText "Bearer tk_live"); ("accept", VText "json"); ("cookie", VGroup [("de_session", VText "s")])])].
Example redacted_record : attr_leaves (Redact_printed before attrs) =
  [(["service"], "api"); (["Token"], "[REDACTED]"); (["http"; "path"], "/disputes"); (["http"; "headers"; "Authorization"], "[REDACTED]");
   (["http"; "headers"; "accept"], "json"); (["http"; "headers"; "cookie"], "[REDACTED]")].
Proof. vm_compute. reflexivity. Qed.
(** What the redactor does not see: a group that was opened under a sensitive name, and a value that is computed. *)
Example opened_group_leaks : attr_leaves (Redact_printed [WithGroup "body"] [("iban", VText "HU42")]) = [(["body"; "iban"], "HU42")].
Proof. vm_compute. reflexivity. Qed.
Example computed_value_leaks :
  attr_leaves (Redact_printed [] [("user", VLogValuer (VGroup [("password", VText "hunter2")]))]) = [(["user"; "password"], "hunter2")].
Proof. vm_compute. reflexivity. Qed.

Lemma secrets_never_logged_witness :
  (["http"; "headers"; "Authorization"], "[REDACTED]") ∈ attr_leaves (Redact_printed before attrs) /\
  (["http"; "headers"; "Authorization"], "Bearer tk_live") ∉ attr_leaves (Redact_printed before attrs).
Proof.
  split; [by_eval|]. intros H. assert (E : "Bearer tk_live" = redacted); [|discriminate E].
  apply (proj2 (secrets_never_logged before attrs ["http"; "headers"; "Authorization"] "Bearer tk_live")); [|reflexivity| |exact H].
  - repeat apply list.Forall_cons_2; [reflexivity..|constructor].
  - intros Hc. apply list.Forall_cons in Hc as [_ Hc]. apply list.Forall_cons in Hc as [_ Hc]. apply list.Forall_cons in Hc as [Hc _]. discriminate Hc.
Defined.
End RedactExamples.
