(* ===== verification/Access.v ===== *)
(** * Access: who is calling, what a tenant grants, and where a new dispute goes
    ([platform/principal], [platform/tenant], [application/access.go], [default_access.go] and the routing of
    [routing.go]). *)
From Stdlib Require Import QArith Lqa.
From S2P Require Import Prelude Errs Ext Types.
Local Open Scope Z_scope.

(** ** Who is calling *)
Inductive PrincipalKind : Type := Analyst | Key.
#[export] Instance PrincipalKind_eq_dec : EqDecision PrincipalKind.
Proof. solve_decision. Defined.
Definition PrincipalKind_string (k : PrincipalKind) : string :=
  match k with Analyst => "analyst" | Key => "key" end.

Record Principal : Type := mkPrincipal { PrKind : PrincipalKind; PID : string; PDisplay : string; PTenantAdmin : bool }.

Definition ErrMissing : Error := sentinel Internal "internal" "no tenant in context".

(** What the code reads from a request's [context.Context]: the tenant, the caller and the trace id. *)
Record Ctx `{UUID} : Type := mkCtx {
  ctx_tenant : option uuid;
  ctx_principal : option Principal;
  ctx_trace : option string
}.
Arguments Ctx {_}.

(** [tenant.IDFrom]: the nil id is no tenant. *)
Definition IDFrom `{UUID} (c : Ctx) : option uuid :=
  match ctx_tenant c with
  | Some id => if decide (id = uuid_Nil) then None else Some id
  | None => None
  end.
(** [tenant.WithID] and [principal.With]. *)
Definition WithID `{UUID} (c : Ctx) (id : uuid) : Ctx := mkCtx _ (Some id) (ctx_principal c) (ctx_trace c).
Definition With `{UUID} (c : Ctx) (p : Principal) : Ctx := mkCtx _ (ctx_tenant c) (Some p) (ctx_trace c).
(** [principal.From]. *)
Definition From_ctx `{UUID} (c : Ctx) : option Principal := ctx_principal c.

(** ** Grants *)
Inductive Role : Type := RoleJunior | RoleSenior | RoleLead | RoleOther (raw : string).
#[export] Instance Role_eq_dec : EqDecision Role.
Proof. solve_decision. Defined.
Definition Role_string (r : Role) : string :=
  match r with RoleJunior => "junior" | RoleSenior => "senior" | RoleLead => "lead" | RoleOther raw => raw end.
Definition Roles : list Role := [RoleJunior; RoleSenior; RoleLead].

(** An action is its name: the operations below, or a dispute event's. *)
Abbreviation Action := string (only parsing).
Definition ActionCreate : Action := "create".
Definition ActionComposeEmail : Action := "compose-email".
Definition ActionUploadAttachment : Action := "upload-attachment".
Definition ActionResendNotice : Action := "resend-notice".
Definition ActionReassign : Action := "reassign".
Definition ActionManageKeys : Action := "manage-keys".
Definition ActionManageTemplates : Action := "manage-templates".
Definition ActionManageBranding : Action := "manage-branding".

Definition EventAction (e : Event) : Action := Event_string e.

Definition ErrForbidden : Error := sentinel Forbidden "forbidden" "your role does not allow this operation".

Definition DefaultTeam : string := "general".

Section access.
Context `{DC : Decimal} `{UU : UUID}.

Record Grant : Type := mkGrant { GTeam : string; GRole : Role; GAction : Action; GAmountLimit : option dec }.
Record Membership : Type := mkMembership { MTeam : string; MRole : Role }.
Record RoutingRule : Type := mkRoutingRule {
  RRail : option Rail;
  RReason : option string;
  RRiskTier : option string;
  RMinAmount : option dec;
  RTeam : string
}.
Record Access : Type := mkAccess {
  AVersion : Z;
  ADefaultTeam : string;
  ATeams : list string;
  AGrants : list Grant;
  ARouting : list RoutingRule;
  AMembers : list Membership
}.

Record DisputeFacts : Type := mkDisputeFacts {
  DFID : uuid;
  DFTeam : string;
  DFAmount : dec;
  DFCurrency : string;
  DFRail : Rail;
  DFState : State;
  DFInvestigationOpenedBy : string
}.
(** [&DisputeFacts{Team: team}]. *)
Definition team_facts (team : string) : DisputeFacts :=
  mkDisputeFacts uuid_Nil team dec_zero "" (RailOther "") StateEmpty "".

Record Decision : Type := mkDecision { Allowed_ : bool; Policies : list string }.

Definition DefaultAccess (p : Principal) : Access :=
  let grant role action := mkGrant DefaultTeam role action None in
  mkAccess 0 DefaultTeam [DefaultTeam]
    ([grant RoleJunior ActionCreate; grant RoleJunior ActionComposeEmail; grant RoleJunior ActionUploadAttachment;
      grant RoleJunior ActionResendNotice; grant RoleLead ActionReassign]
     ++ map (fun e => grant RoleJunior (EventAction e)) AllEvents)
    []
    (match PrKind p with Analyst => [mkMembership DefaultTeam RoleLead] | Key => [] end).

(** One routing rule's conditions, field by field as the loop of [Route] reads them. *)
Definition rule_skips (r : RoutingRule) (rail : Rail) (reason : Reason) (tier : string) (amount : dec) : bool :=
  match RRail r with Some x => negb (bool_decide (x = rail)) | None => false end
  || match RReason r with Some x => negb (bool_decide (x = Reason_string reason)) | None => false end
  || match RRiskTier r with Some x => negb (bool_decide (x = tier)) | None => false end
  || match RMinAmount r with Some m => LessThan amount m | None => false end.

Fixpoint Route_loop (rules : list RoutingRule) (default_team : string) rail reason tier amount : string :=
  match rules with
  | [] => default_team
  | r :: rules => if rule_skips r rail reason tier amount then Route_loop rules default_team rail reason tier amount
                  else RTeam r
  end.
Definition Route (a : Access) (rail : Rail) (reason : Reason) (tier : string) (amount : dec) : string :=
  Route_loop (ARouting a) (ADefaultTeam a) rail reason tier amount.

(** What the policy engine promises the use cases ([application.Authorizer]). *)
Class Authorizer : Type := {
  Decide : uuid -> Principal -> Access -> Action -> option DisputeFacts -> M Decision
}.
End access.
Arguments Access {DC}.
Arguments DisputeFacts {DC UU}.
Arguments Authorizer {DC UU}.

(** ** Facts *)
Section facts.
Context `{DC : Decimal} {DL : DecimalLaws DC}.

(** A rule's fields all match: the conditions it sets hold of the dispute. *)
Definition rule_matches (r : RoutingRule) (rail : Rail) (reason : Reason) (tier : string) (amount : dec) : Prop :=
  (forall x, RRail r = Some x -> x = rail) /\ (forall x, RReason r = Some x -> x = Reason_string reason) /\
  (forall x, RRiskTier r = Some x -> x = tier) /\ (forall m, RMinAmount r = Some m -> (dval m <= dval amount)%Q).

Lemma LessThan_false (a b : dec) : LessThan a b = false <-> (dval b <= dval a)%Q.
Proof. rewrite <- not_true_iff_false, LessThan_spec. split; intros; lra. Qed.

Lemma rule_skips_false r rail reason tier amount :
  rule_skips r rail reason tier amount = false <-> rule_matches r rail reason tier amount.
Proof.
  unfold rule_skips, rule_matches. rewrite !orb_false_iff. split.
  - intros (((H1 & H2) & H3) & H4). split_and!; intros x Hx; rewrite Hx in *; to_prop;
      try (by apply bool_decide_eq_true, negb_false_iff); try done. by apply LessThan_false.
  - intros (H1 & H2 & H3 & H4).
    split_and!.
    + destruct (RRail r); [|done]. by rewrite (H1 _ eq_refl), bool_decide_true.
    + destruct (RReason r); [|done]. by rewrite (H2 _ eq_refl), bool_decide_true.
    + destruct (RRiskTier r); [|done]. by rewrite (H3 _ eq_refl), bool_decide_true.
    + destruct (RMinAmount r); [|done]. apply LessThan_false. by apply H4.
Qed.
End facts.

(** A new dispute goes to the team of the first routing rule whose set conditions all hold - the minimum
    amount included - and to the tenant's default team when no rule matches. *)
Theorem Route_first_match `{DC : Decimal} `{DL : !DecimalLaws DC} a rail reason tier amount :
  (exists pre r post, ARouting a = pre ++ r :: post /\
     (forall r', r' ∈ pre -> ~ rule_matches r' rail reason tier amount) /\
     rule_matches r rail reason tier amount /\ Route a rail reason tier amount = RTeam r) \/
  ((forall r, r ∈ ARouting a -> ~ rule_matches r rail reason tier amount) /\
   Route a rail reason tier amount = ADefaultTeam a).
Proof.
  unfold Route. induction (ARouting a) as [|r rules IH].
  - right. split; [by intros r ?%not_elem_of_nil|done].
  - cbn [Route_loop]. destruct (rule_skips r rail reason tier amount) eqn:E.
    + assert (Hr : ~ rule_matches r rail reason tier amount) by (rewrite <- rule_skips_false; congruence).
      destruct IH as [(pre & r' & post & Heq & Hpre & Hm & HR)|[Hn HR]].
      * left. exists (r :: pre), r', post. cbn [app]. split; [by rewrite Heq|]. split; [|by split].
        intros x [->|Hx]%elem_of_cons; auto.
      * right. split; [|done]. intros x [->|Hx]%elem_of_cons; auto.
    + left. exists [], r, rules. split_and!; [done|by intros x ?%not_elem_of_nil|by apply rule_skips_false|done].
Qed.
