(* ===== verification/Text.v ===== *)
(** * Text: what the program uses of Go's [strings] and [strconv] packages, and of the placeholders its templates
    are written with ([regexp] in [notice/template.go]). *)
From S2P Require Import Prelude.

(** ** [strings] *)

(** [strings.Cut] at one character: the text before it and, when it occurs, the text after. *)
Fixpoint Cut (s : string) (sep : Ascii.ascii) : string * option string :=
  match s with
  | EmptyString => (EmptyString, None)
  | String a s' =>
      if bool_decide (a = sep) then (EmptyString, Some s')
      else let '(before, after) := Cut s' sep in (String a before, after)
  end.

(** [strings.Split] at one character: never empty. *)
Fixpoint Split (s : string) (sep : Ascii.ascii) : list string :=
  match s with
  | EmptyString => [EmptyString]
  | String a s' =>
      if bool_decide (a = sep) then EmptyString :: Split s' sep
      else match Split s' sep with
           | piece :: pieces => String a piece :: pieces
           | [] => [String a EmptyString]
           end
  end.

Fixpoint Join (l : list string) (sep : string) : string :=
  match l with
  | [] => EmptyString
  | [s] => s
  | s :: l => s +:+ sep +:+ Join l sep
  end.

Definition TrimPrefix (s prefix : string) : string := default s (cut_prefix prefix s).

Fixpoint contains_char (s : string) (c : Ascii.ascii) : bool :=
  match s with EmptyString => false | String a s => bool_decide (a = c) || contains_char s c end.

Definition comma : Ascii.ascii := ","%char.
Definition newline_char : Ascii.ascii := Ascii.ascii_of_nat 10.

(** ** [strconv.Atoi]: a decimal [int], with an optional sign. *)
Fixpoint decimal (s : string) (acc : Z) : option Z :=
  match s with
  | EmptyString => Some acc
  | String a s =>
      let n := Z.of_nat (Ascii.nat_of_ascii a) - 48 in
      if (0 <=? n) && (n <=? 9) then decimal s (acc * 10 + n) else None
  end.
Definition max_int : Z := 2 ^ 63 - 1.
Definition Atoi (s : string) : option Z :=
  let '(neg, digits) := match s with
    | String a s' => if bool_decide (a = "-"%char) then (true, s')
                     else if bool_decide (a = "+"%char) then (false, s') else (false, s)
    | EmptyString => (false, s)
    end in
  if bool_decide (digits = "") then None
  else
    n ← decimal digits 0;
    let n := if (neg : bool) then - n else n in
    if (- max_int - 1 <=? n) && (n <=? max_int) then Some n else None.

(** ** Placeholders

    A tag is [{{name}}], [{{#name}}] or [{{/name}}], its name a letter and then letters and digits. *)
Definition is_letter (a : Ascii.ascii) : bool :=
  let n := Ascii.nat_of_ascii a in
  (Nat.leb 65 n && Nat.leb n 90) || (Nat.leb 97 n && Nat.leb n 122).
Definition is_digit (a : Ascii.ascii) : bool :=
  let n := Ascii.nat_of_ascii a in Nat.leb 48 n && Nat.leb n 57.

Inductive mark : Type := Plain | Opens | Closes.
#[export] Instance mark_eq_dec : EqDecision mark.
Proof. solve_decision. Defined.
Definition mark_string (k : mark) : string := match k with Plain => "" | Opens => "#" | Closes => "/" end.

Record tag : Type := mkTag { tag_mark : mark; tag_name : string }.
Definition tag_text (t : tag) : string := "{{" +:+ mark_string (tag_mark t) +:+ tag_name t +:+ "}}".

Fixpoint take_alnum (s : string) : string * string :=
  match s with
  | String a s' =>
      if is_letter a || is_digit a then let '(n, rest) := take_alnum s' in (String a n, rest) else (EmptyString, s)
  | EmptyString => (EmptyString, s)
  end.
Definition match_name (s : string) : option (string * string) :=
  match s with
  | String a s' => if is_letter a then let '(n, rest) := take_alnum s' in Some (String a n, rest) else None
  | EmptyString => None
  end.

(** A tag at the very start of a text, and what follows it: [placeholder] anchored there. *)
Definition match_tag (s : string) : option (tag * string) :=
  s ← cut_prefix "{{" s;
  let '(k, s) := match s with
    | String a s' => if bool_decide (a = "#"%char) then (Opens, s')
                     else if bool_decide (a = "/"%char) then (Closes, s') else (Plain, s)
    | EmptyString => (Plain, s)
    end in
  '(name, s) ← match_name s;
  rest ← cut_prefix "}}" s;
  Some (mkTag k name, rest).

(** A run of steps from the left: where [at_] matches, its text is replaced; elsewhere a character is kept. The fuel
    is the length of the text, since every match consumes some of it. *)
Fixpoint replace_all (fuel : nat) (at_ : string -> option (string * string)) (s : string) : string :=
  match fuel, s with
  | S fuel, String a s' =>
      match at_ s with
      | Some (text, rest) => text +:+ replace_all fuel at_ rest
      | None => String a (replace_all fuel at_ s')
      end
  | _, _ => s
  end.
(** [placeholder.ReplaceAllStringFunc]. *)
Definition replace_tags (f : tag -> string) (s : string) : string :=
  replace_all (String.length s) (fun s => '(t, rest) ← match_tag s; Some (f t, rest)) s.

(** [placeholder.FindAllStringSubmatch]. *)
Fixpoint find_tags_with (fuel : nat) (s : string) : list tag :=
  match fuel, s with
  | S fuel, String _ s' =>
      match match_tag s with
      | Some (t, rest) => t :: find_tags_with fuel rest
      | None => find_tags_with fuel s'
      end
  | _, _ => []
  end.
Definition find_tags (s : string) : list tag := find_tags_with (String.length s) s.

(** The shortest text up to a closing tag, on one line, and what follows the tag. *)
Fixpoint up_to_close (s : string) : option (string * string) :=
  match match_tag s with
  | Some (mkTag Closes _, rest) => Some (EmptyString, rest)
  | _ =>
      match s with
      | String a s' =>
          if bool_decide (a = newline_char) then None
          else '(body, rest) ← up_to_close s'; Some (String a body, rest)
      | EmptyString => None
      end
  end.
(** [section] anchored at the start: the opening tag's name, the body, the rest. *)
Definition match_section (s : string) : option (string * string * string) :=
  match match_tag s with
  | Some (mkTag Opens name, rest) => '(body, rest) ← up_to_close rest; Some (name, body, rest)
  | _ => None
  end.
Definition replace_sections (f : string -> string -> string) (s : string) : string :=
  replace_all (String.length s) (fun s => '(name, body, rest) ← match_section s; Some (f name body, rest)) s.

(** ** Facts *)

Lemma cut_prefix_some p s rest : cut_prefix p s = Some rest <-> s = (p +:+ rest)%string.
Proof.
  revert s. induction p as [|a p IH]; intros s; cbn.
  - split; [intros [= <-]; reflexivity|intros H; rewrite H; reflexivity].
  - destruct s as [|b s]; [done|]. case_bool_decide as H.
    + subst. rewrite IH. split; intros E; [by rewrite E|by injection E].
    + split; intros E; [done|]. by injection E as ->.
Qed.

Lemma take_alnum_split s n rest : take_alnum s = (n, rest) -> s = (n +:+ rest)%string.
Proof.
  revert n. induction s as [|a s IH]; cbn; intros n H; [by injection H as <- <-|].
  destruct (is_letter a || is_digit a); [|by injection H as <- <-].
  destruct (take_alnum s) as [n' r] eqn:E. injection H as <- <-. by rewrite (IH n' eq_refl) at 1.
Qed.

(** A match is a prefix: the tag as written. *)
Lemma match_tag_prefix s t rest : match_tag s = Some (t, rest) -> s = (tag_text t +:+ rest)%string.
Proof.
  unfold match_tag. destruct (cut_prefix "{{" s) as [s1|] eqn:E1; cbn [mbind option_bind]; [|done].
  apply cut_prefix_some in E1 as ->.
  set (ks := match s1 with String a s' => _ | EmptyString => _ end).
  assert (Hk : s1 = (mark_string ks.1 +:+ ks.2)%string).
  { subst ks. destruct s1 as [|a s1]; [done|]. repeat case_bool_decide; subst; done. }
  destruct ks as [k s2]. cbn in Hk. subst s1.
  destruct (match_name s2) as [[name s3]|] eqn:E2; cbn [mbind option_bind]; [|done].
  destruct (cut_prefix "}}" s3) as [r|] eqn:E3; cbn [mbind option_bind]; [|done]. intros [= <- <-].
  apply cut_prefix_some in E3 as ->.
  destruct s2 as [|a s2]; [done|]. cbn in E2. destruct (is_letter a); [|done].
  destruct (take_alnum s2) as [n r'] eqn:E4. injection E2 as <- ->. apply take_alnum_split in E4 as ->.
  unfold tag_text. cbn [tag_mark tag_name]. rewrite !str_app_assoc. done.
Qed.
