(* ===== verification/Http.v ===== *)
(** * Http: errors as responses, and the middleware around every handler ([platform/httpserver]).

    A handler is given the values of the request's context, the request and the headers set so far, and writes one
    response; [S] is whatever state the handlers share. The request log, metrics and spans are left out. *)
From S2P Require Import Prelude Errs GoJson Ext Access Text.

Abbreviation Headers := (gmap string string).
(** A part of a multipart form: the reading of its content may fail at its end. *)
Record Part : Type := mkPart { FormName : string; FileName : string; PartType : string; PartContent : string; PartError : option error }.
(** The parts up to the end of the form or to the error of the next one. *)
Record Multipart : Type := mkMultipart { Parts : list Part; FormError : option string }.
(** The body of a request: the JSON value its text starts with, or a form. *)
Record ReqBody : Type := mkReqBody { BodyJSON : RawMessage; BodyForm : res string Multipart }.
Definition NoReqBody : ReqBody := mkReqBody RawEmpty (Err "request Content-Type isn't multipart/form-data").
Record Req : Type := mkReq {
  Method : string;
  Path : string;
  RemoteAddr : string;
  rq_Headers : gmap string (list string);
  rq_Query : gmap string (list string);
  rq_PathValues : gmap string string;
  rq_Body : ReqBody
}.
Definition bare_request (method path remote : string) (headers : Headers) : Req :=
  mkReq method path remote ((fun value => [value]) <$> headers) ∅ ∅ NoReqBody.
(** [Header.Get]: the first value. *)
Definition header_values (r : Req) (name : string) : list string := default [] (rq_Headers r !! name).
Definition header (r : Req) (name : string) : string := default "" (head (header_values r name)).

(** ** Problems *)
Definition statusByKind (k : Kind) : Z :=
  match k with
  | Invalid => 400 | NotFound => 404 | Conflict => 409 | Unprocessable => 422 | Unauthorized => 401 | Forbidden => 403
  | Unavailable => 503 | RateLimited => 429 | Internal => 500
  end.
Definition titleByKind (k : Kind) : string :=
  match k with
  | Invalid => "The request is not valid"
  | NotFound => "Not found"
  | Conflict => "The request conflicts with the current state"
  | Unprocessable => "The request cannot be processed"
  | Unauthorized => "Authentication required"
  | Forbidden => "Not allowed"
  | Unavailable => "Temporarily unavailable"
  | RateLimited => "Too many requests"
  | Internal => "Something went wrong on our side"
  end.

Record Problem : Type := mkProblem {
  PType : string;
  PTitle : string;
  PStatus : Z;
  PDetail : string;
  PInstance : string;
  PCode : string;
  PRetryable : bool;
  PRetryAfter : option Z;
  PRequestID : string;
  PErrors : list FieldError
}.
Definition WithRetryAfter (p : Problem) (seconds : Z) : Problem :=
  mkProblem (PType p) (PTitle p) (PStatus p) (PDetail p) (PInstance p) (PCode p) (PRetryable p) (Some seconds)
    (PRequestID p) (PErrors p).
Definition with_detail (p : Problem) (detail : string) : Problem :=
  mkProblem (PType p) (PTitle p) (PStatus p) detail (PInstance p) (PCode p) (PRetryable p) (PRetryAfter p) (PRequestID p) (PErrors p).

(** [ProblemFrom], given the request id of the context. *)
Definition ProblemFrom (requestID instance : string) (err : error) : Problem :=
  let kind := KindOf err in
  let p := mkProblem ("urn:dispute-engine:error:" +:+ CodeOf err) (titleByKind kind) (statusByKind kind) (UserMessage err)
             instance (CodeOf err) (Retryable err) None requestID (FieldsOf err) in
  match kind with
  | Internal => with_detail p ("Something went wrong on our side. Reference: " +:+ requestID)
  | Unavailable =>
      let p := WithRetryAfter p 5 in
      if bool_decide (PDetail p = "") then with_detail p ("A dependency is unavailable. Reference: " +:+ requestID) else p
  | _ => p
  end.

(** [itoa]: the digits of a count; nothing for a negative one. *)
Fixpoint itoa_loop (fuel : nat) (n : Z) (b : string) : string :=
  match fuel with
  | O => b
  | S fuel => if 0 <? n then itoa_loop fuel (n / 10) (String (Ascii.ascii_of_nat (48 + Z.to_nat (n mod 10))) b) else b
  end.
Definition itoa (n : Z) : string := if n =? 0 then "0" else itoa_loop 20 n "".

(** ** Responses *)
Inductive RespBody : Type := NoBody | TextBody (s : string) | JSONBody (j : json) | BytesBody (s : string).
Record Resp : Type := mkResp { Status : Z; rs_Headers : Headers; rs_Body : RespBody }.

(** [Problem.marshal]: the members that are set, by name, numbers as a [float64] prints them. *)
Definition FieldError_json (e : FieldError) : json := JObject [("field", JString (Field e)); ("message", JString (Message e))].
Definition Problem_marshal (p : Problem) : json :=
  let text k v := if bool_decide (v = "") then [] else [(k, JString v)] in
  JObject (sorted_members
    ([("type", JString (PType p)); ("title", JString (PTitle p)); ("status", JNumber (show (PStatus p)))]
     ++ text "detail" (PDetail p) ++ text "instance" (PInstance p)
     ++ [("code", JString (PCode p)); ("retryable", JBool (PRetryable p))]
     ++ match PRetryAfter p with Some n => [("retryAfterSeconds", JNumber (show n))] | None => [] end
     ++ [("requestId", JString (PRequestID p))]
     ++ match PErrors p with [] => [] | es => [("errors", JArray (map FieldError_json es))] end)).

Definition WriteProblem (h : Headers) (p : Problem) : Resp :=
  let h := match PRetryAfter p with Some n => <["Retry-After" := itoa n]> h | None => h end in
  mkResp (PStatus p) (<["Content-Type" := "application/problem+json"]> h) (JSONBody (Problem_marshal p)).
(** [http.Error] and [http.NotFound]. *)
Definition http_Error (h : Headers) (text : string) (code : Z) : Resp :=
  mkResp code (<["Content-Type" := "text/plain; charset=utf-8"]> (<["X-Content-Type-Options" := "nosniff"]> h)) (TextBody (text +:+ newline)).

(** ** Middleware *)
Section middleware.
Context {V S : Type}.

(** [V] are the values of a request's context. A handler can panic; the headers set until then stay. *)
Inductive served : Type := Wrote (r : Resp) | Panicked (msg : string) (h : Headers).
Definition Handler : Type := V -> Req -> Headers -> S -> served * S.
Definition Middleware : Type := Handler -> Handler.

(** The first listed is the outermost. *)
Definition Chain (h : Handler) (mws : list Middleware) : Handler := fold_right (fun mw h => mw h) h mws.

Definition Recover : Middleware := fun next v r h s =>
  match next v r h s with
  | (Panicked _ h, s) => (Wrote (http_Error h "Internal Server Error" 500), s)
  | served => served
  end.

Definition CORS (origins : list string) : Middleware := fun next v r h s =>
  let origin := header r "Origin" in
  if negb (bool_decide (origin = "")) && slices_contains origins origin then
    let h := <["Access-Control-Expose-Headers" := "X-Request-ID"]>
             (<["Vary" := "Origin"]> (<["Access-Control-Allow-Origin" := origin]> h)) in
    if bool_decide (Method r = "OPTIONS") then
      (Wrote (mkResp 204 (<["Access-Control-Max-Age" := "600"]>
         (<["Access-Control-Allow-Headers" := "Authorization, Content-Type, Idempotency-Key, X-Request-ID"]>
         (<["Access-Control-Allow-Methods" := "GET, POST, PUT, DELETE, OPTIONS"]> h))) NoBody), s)
    else next v r h s
  else next v r h s.
End middleware.
Arguments Handler V S : clear implicits.
Arguments Middleware V S : clear implicits.

Definition ParseOrigins (raw : string) : list string :=
  List.filter (fun o => negb (bool_decide (o = ""))) (map TrimSpace (Split raw comma)).

(** ** Facts *)

Lemma itoa_loop_app fuel n b : itoa_loop fuel n b = itoa_loop fuel n "" +:+ b.
Proof.
  revert n b. induction fuel as [|fuel IH]; intros n b; [done|]. cbn [itoa_loop]. destruct (0 <? n); [|done].
  rewrite (IH _ (String _ b)), (IH _ (String _ "")). by rewrite str_app_assoc.
Qed.

(** A digit string read back, as [strconv.Atoi] reads it. *)
Lemma decimal_app s d acc n : decimal s acc = Some n -> 0 <= d < 10 ->
  decimal (s +:+ String (Ascii.ascii_of_nat (48 + Z.to_nat d)) "") acc = Some (n * 10 + d).
Proof.
  revert acc. induction s as [|a s IH]; intros acc H Hd.
  - cbn in H. injection H as ->. change ("" +:+ ?x)%string with x. cbn [decimal].
    rewrite Ascii.nat_ascii_embedding by lia. replace (Z.of_nat (48 + Z.to_nat d) - 48) with d by lia.
    destruct ((0 <=? d) && (d <=? 9)) eqn:E; [done|]. apply andb_false_iff in E as [E|E]; to_prop; lia.
  - change (String a s +:+ ?x)%string with (String a (s +:+ x)%string). cbn [decimal] in H |- *.
    destruct (_ && _); [|done]. by apply IH.
Qed.
Lemma itoa_loop_decimal fuel n : 0 <= n < 10 ^ Z.of_nat fuel -> decimal (itoa_loop fuel n "") 0 = Some n.
Proof.
  revert n. induction fuel as [|fuel IH]; intros n Hn; [replace n with 0 by (cbn in Hn; lia); done|]. cbn [itoa_loop].
  destruct (0 <? n) eqn:E; to_prop; [|by replace n with 0 by lia]. rewrite itoa_loop_app.
  rewrite Nat2Z.inj_succ, Z.pow_succ_r in Hn by lia.
  rewrite (decimal_app _ _ _ (n / 10)); [f_equal; pose proof (Z.div_mod n 10); lia| |apply Z.mod_pos_bound; lia].
  apply IH. split; [apply Z.div_pos; lia|apply Z.div_lt_upper_bound; lia].
Qed.
(** A count written into a header is the number a client reads. *)
Lemma itoa_roundtrip n : 0 <= n < 2 ^ 63 -> decimal (itoa n) 0 = Some n.
Proof.
  intros Hn. unfold itoa. destruct (n =? 0) eqn:E; to_prop; [by subst|]. apply itoa_loop_decimal. split; [lia|].
  assert (2 ^ 63 < 10 ^ Z.of_nat 20) by (vm_compute; reflexivity). lia.
Qed.

(** What of an error reaches a client through a problem. *)
Definition view_of_error (err : error) : Kind * string * string * list FieldError :=
  match errors_as err with
  | Some e => (EKind e, ECode e, EMsg e, EFields e)
  | None => (Internal, internalCode, "", [])
  end.

(** A response tells a client what an error's author meant it to and nothing else: the status and title are
    those of its kind, never a success; two errors that carry the same classified error - whatever context was
    wrapped around it, and any two unclassified ones - give the very same problem; the detail of an internal error
    is only the request's reference; and a hint to retry is given exactly when the dependency is unavailable. *)
Theorem problems_are_user_safe requestID instance err :
  let p := ProblemFrom requestID instance err in
  PStatus p = statusByKind (KindOf err) /\ 400 <= PStatus p < 600 /\ PTitle p = titleByKind (KindOf err) /\
  (500 <= PStatus p <-> KindOf err = Internal \/ KindOf err = Unavailable) /\
  (forall err', view_of_error err' = view_of_error err -> ProblemFrom requestID instance err' = p) /\
  (KindOf err = Internal -> PDetail p = "Something went wrong on our side. Reference: " +:+ requestID) /\
  (KindOf err <> Internal -> KindOf err <> Unavailable -> PDetail p = UserMessage err) /\
  (PRetryAfter p = if bool_decide (KindOf err = Unavailable) then Some 5 else None) /\
  (PRetryable p = true -> PStatus p = 503 \/ PStatus p = 429 \/ PStatus p = 409).
Proof.
  cbv zeta. assert (Hst : PStatus (ProblemFrom requestID instance err) = statusByKind (KindOf err)).
  { unfold ProblemFrom. destruct (KindOf err); cbn; try done. by case_bool_decide. }
  split; [done|]. rewrite Hst. split; [by destruct (KindOf err)|]. split; [|split; [|split_and!]].
  - unfold ProblemFrom. destruct (KindOf err); cbn; try done. by case_bool_decide.
  - destruct (KindOf err); cbn; split; try lia; try (by intros [|]); intros _; auto.
  - intros err' H. unfold ProblemFrom, KindOf, CodeOf, UserMessage, Retryable, FieldsOf, KindOf, CodeOf. unfold view_of_error in H.
    destruct (errors_as err) as [e|], (errors_as err') as [e'|]; [..|done]; injection H; intros Hf Hm Hc Hk; cbn; rewrite ?Hf, ?Hm, ?Hc, ?Hk; try done; by rewrite <- ?Hf, <- ?Hm, <- ?Hc, <- ?Hk.
  - intros H. unfold ProblemFrom. by rewrite H.
  - intros H1 H2. unfold ProblemFrom. by destruct (KindOf err).
  - unfold ProblemFrom. destruct (KindOf err); cbn; try done. by case_bool_decide.
  - unfold ProblemFrom, Retryable. destruct (KindOf err); cbn; try done; intros _; try (case_bool_decide; cbn); lia.
Qed.
