(* ===== verification/Template.v ===== *)
(** * Template: the emails an analyst can send, their forms and their words ([notice/template.go]). *)
From S2P Require Import Prelude Errs GoTime GoJson Ext Types Regimes Text Notice.

Inductive FieldType : Type :=
| FieldText | FieldTextarea | FieldNumber | FieldDate | FieldSelect | FieldMultiselect | FieldOther (raw : string).
#[export] Instance FieldType_eq_dec : EqDecision FieldType.
Proof. solve_decision. Defined.
Definition FieldType_string (t : FieldType) : string :=
  match t with
  | FieldText => "TEXT" | FieldTextarea => "TEXTAREA" | FieldNumber => "NUMBER" | FieldDate => "DATE"
  | FieldSelect => "SELECT" | FieldMultiselect => "MULTISELECT" | FieldOther raw => raw
  end.
Definition FieldTypes : list FieldType := [FieldText; FieldTextarea; FieldNumber; FieldDate; FieldSelect; FieldMultiselect].
Definition FieldType_of (raw : string) : FieldType :=
  default (FieldOther raw) (List.find (fun t => bool_decide (FieldType_string t = raw)) FieldTypes).

Record Option_ : Type := mkOption { OptKey : string; OptLabel : string; OptText : string }.
#[export] Instance Option_eq_dec : EqDecision Option_.
Proof. solve_decision. Defined.

(** [notice.Field], an input on a form. *)
Record FormField : Type := mkFormField {
  FldID : string;
  FldLabel : string;
  FldType : FieldType;
  FldRequired : bool;
  FldOptions : list Option_;
  FldList : bool;
  FldDefault : string;
  FldMin : option Z;
  FldMax : option Z
}.
#[export] Instance FormField_eq_dec : EqDecision FormField.
Proof. solve_decision. Defined.

Record Template : Type := mkTemplate {
  TplKind : NoticeKind;
  TplLabel : string;
  TplDescription : string;
  TplLetter : bool;
  TplFields : list FormField;
  TplSubject : string;
  TplParagraphs : list string
}.

Definition factNames : list string := ["customer"; "bank"; "amount"; "merchant"; "dispute"; "today"; "dueDate"].

(** ** Reading templates *)
Definition NoticeKinds : list NoticeKind :=
  [NoticeAcknowledgement; NoticeQuestionnaire; NoticeProvisionalCredit; NoticeRefund; NoticeReversal; NoticeResolution]
  ++ ManualNoticeKinds.
Definition NoticeKind_of (raw : string) : NoticeKind :=
  default (NoticeOther raw) (List.find (fun k => bool_decide (NoticeKind_string k = raw)) NoticeKinds).

Definition into_int : decoder Z := fun j n =>
  match j with
  | JNull => (n, true)
  | JNumber lit => match Atoi lit with Some n' => (n', true) | None => (n, false) end
  | _ => (n, false)
  end.
Definition into_NoticeKind : decoder NoticeKind := fun j k =>
  let '(s, ok) := into_string j (NoticeKind_string k) in (NoticeKind_of s, ok).
Definition into_FieldType : decoder FieldType := fun j t =>
  let '(s, ok) := into_string j (FieldType_string t) in (FieldType_of s, ok).
Definition into_Option : decoder Option_ := into_struct
  [("key", field OptKey (fun o x => mkOption x (OptLabel o) (OptText o)) into_string);
   ("label", field OptLabel (fun o x => mkOption (OptKey o) x (OptText o)) into_string);
   ("text", field OptText (fun o x => mkOption (OptKey o) (OptLabel o) x) into_string)].
Definition with_options (f : FormField) (os : list Option_) : FormField :=
  mkFormField (FldID f) (FldLabel f) (FldType f) (FldRequired f) os (FldList f) (FldDefault f) (FldMin f) (FldMax f).
Definition into_FormField : decoder FormField := into_struct
  [("id", field FldID (fun f x => mkFormField x (FldLabel f) (FldType f) (FldRequired f) (FldOptions f) (FldList f) (FldDefault f) (FldMin f) (FldMax f)) into_string);
   ("label", field FldLabel (fun f x => mkFormField (FldID f) x (FldType f) (FldRequired f) (FldOptions f) (FldList f) (FldDefault f) (FldMin f) (FldMax f)) into_string);
   ("type", field FldType (fun f x => mkFormField (FldID f) (FldLabel f) x (FldRequired f) (FldOptions f) (FldList f) (FldDefault f) (FldMin f) (FldMax f)) into_FieldType);
   ("required", field FldRequired (fun f x => mkFormField (FldID f) (FldLabel f) (FldType f) x (FldOptions f) (FldList f) (FldDefault f) (FldMin f) (FldMax f)) into_bool);
   ("options", field FldOptions with_options (into_slice (mkOption "" "" "") into_Option));
   ("list", field FldList (fun f x => mkFormField (FldID f) (FldLabel f) (FldType f) (FldRequired f) (FldOptions f) x (FldDefault f) (FldMin f) (FldMax f)) into_bool);
   ("default", field FldDefault (fun f x => mkFormField (FldID f) (FldLabel f) (FldType f) (FldRequired f) (FldOptions f) (FldList f) x (FldMin f) (FldMax f)) into_string);
   ("min", field FldMin (fun f x => mkFormField (FldID f) (FldLabel f) (FldType f) (FldRequired f) (FldOptions f) (FldList f) (FldDefault f) x (FldMax f)) (into_pointer 0 into_int));
   ("max", field FldMax (fun f x => mkFormField (FldID f) (FldLabel f) (FldType f) (FldRequired f) (FldOptions f) (FldList f) (FldDefault f) (FldMin f) x) (into_pointer 0 into_int))].
Definition zero_FormField : FormField := mkFormField "" "" (FieldOther "") false [] false "" None None.
Definition with_fields (t : Template) (fs : list FormField) : Template :=
  mkTemplate (TplKind t) (TplLabel t) (TplDescription t) (TplLetter t) fs (TplSubject t) (TplParagraphs t).
Definition into_Template : decoder Template := into_struct
  [("kind", field TplKind (fun t x => mkTemplate x (TplLabel t) (TplDescription t) (TplLetter t) (TplFields t) (TplSubject t) (TplParagraphs t)) into_NoticeKind);
   ("label", field TplLabel (fun t x => mkTemplate (TplKind t) x (TplDescription t) (TplLetter t) (TplFields t) (TplSubject t) (TplParagraphs t)) into_string);
   ("description", field TplDescription (fun t x => mkTemplate (TplKind t) (TplLabel t) x (TplLetter t) (TplFields t) (TplSubject t) (TplParagraphs t)) into_string);
   ("letter", field TplLetter (fun t x => mkTemplate (TplKind t) (TplLabel t) (TplDescription t) x (TplFields t) (TplSubject t) (TplParagraphs t)) into_bool);
   ("fields", field TplFields with_fields (into_slice zero_FormField into_FormField));
   ("subject", field TplSubject (fun t x => mkTemplate (TplKind t) (TplLabel t) (TplDescription t) (TplLetter t) (TplFields t) x (TplParagraphs t)) into_string);
   ("paragraphs", field TplParagraphs (fun t x => mkTemplate (TplKind t) (TplLabel t) (TplDescription t) (TplLetter t) (TplFields t) (TplSubject t) x) (into_slice "" into_string))].
Definition zero_Template : Template := mkTemplate (NoticeOther "") "" "" false [] "" [].

(** ** Checking a template *)
Section checks.
(** Where the runtime put an integer, as [%+v] prints a pointer to it. *)
Context (address : Z -> string).

Definition show_bool (b : bool) : string := if b then "true" else "false".
(** [%+v]. *)
Definition show_Option (o : Option_) : string :=
  "{Key:" +:+ OptKey o +:+ " Label:" +:+ OptLabel o +:+ " Text:" +:+ OptText o +:+ "}".
Definition show_pointer (p : option Z) : string := match p with Some n => address n | None => "<nil>" end.
Definition show_FormField (f : FormField) : string :=
  "{ID:" +:+ FldID f +:+ " Label:" +:+ FldLabel f +:+ " Type:" +:+ FieldType_string (FldType f) +:+ " Required:"
  +:+ show_bool (FldRequired f) +:+ " Options:[" +:+ Join (map show_Option (FldOptions f)) " " +:+ "] List:"
  +:+ show_bool (FldList f) +:+ " Default:" +:+ FldDefault f +:+ " Min:" +:+ show_pointer (FldMin f) +:+ " Max:"
  +:+ show_pointer (FldMax f) +:+ "}".

Definition bad_option (o : Option_) : bool :=
  bool_decide (OptKey o = "") || bool_decide (OptLabel o = "") || bool_decide (OptText o = "") || contains_char (OptKey o) comma.

(** The loop of [checkTemplate] over the fields, with the ids seen so far. *)
Fixpoint check_fields (ids : gset string) (fs : list FormField) : M (gset string) :=
  match fs with
  | [] => Ok ids
  | f :: fs =>
      if bool_decide (FldID f = "") || bool_decide (FldLabel f = "") then
        Err (EPlain ("field " +:+ show_FormField f +:+ " needs an id and a label"))
      else if bool_decide (FldID f ∈ ids) || slices_contains factNames (FldID f) then
        Err (EPlain ("field id " +:+ quoted (FldID f) +:+ " repeated or shadows a fact"))
      else if negb (slices_contains FieldTypes (FldType f)) then
        Err (EPlain ("field " +:+ quoted (FldID f) +:+ ": unknown type " +:+ quoted (FieldType_string (FldType f))))
      else if (bool_decide (FldType f = FieldSelect) || bool_decide (FldType f = FieldMultiselect))
              && bool_decide (length (FldOptions f) = 0%nat) then
        Err (EPlain ("field " +:+ quoted (FldID f) +:+ ": a select needs options"))
      else match List.find bad_option (FldOptions f) with
           | Some o => Err (EPlain ("field " +:+ quoted (FldID f) +:+ ": option " +:+ show_Option o
                              +:+ " needs key, label and text, and no comma in the key"))
           | None => check_fields ({[FldID f]} ∪ ids) fs
           end
  end.

(** A placeholder that is neither a field nor a fact. *)
Definition unknown_tag (ids : gset string) (texts : list string) : option tag :=
  List.find (fun t => negb (bool_decide (tag_name t ∈ ids)) && negb (slices_contains factNames (tag_name t)))
    (concat (map find_tags texts)).

Definition checkTemplate (t : Template) : M unit :=
  if negb (slices_contains ManualNoticeKinds (TplKind t)) then
    Err (EPlain ("kind " +:+ quoted (NoticeKind_string (TplKind t)) +:+ " is not a manual notice kind"))
  else if bool_decide (TplLabel t = "") || bool_decide (TplSubject t = "") || bool_decide (length (TplParagraphs t) = 0%nat) then
    Err (EPlain "needs a label, a subject and paragraphs")
  else
    ids ← check_fields ∅ (TplFields t);
    match unknown_tag ids (TplSubject t :: TplParagraphs t) with
    | Some m => Err (EPlain ("placeholder " +:+ quoted (tag_name m) +:+ " is neither a field nor a fact"))
    | None => Ok tt
    end.

(** The loop of [LoadTemplates] over the files, in the order [fs.Glob] lists them. *)
Fixpoint load_template_files (out : gmap string Template) (files : list (string * RawMessage)) : M (gmap string Template) :=
  match files with
  | [] => Ok out
  | (name, raw) :: files =>
      match Unmarshal into_Template raw zero_Template with
      | None => Err (Wrap (EPlain json_error) ("template " +:+ name))
      | Some t =>
          match checkTemplate t with
          | Err e => Err (Wrap e ("template " +:+ name))
          | Ok _ =>
              match out !! NoticeKind_string (TplKind t) with
              | Some _ => Err (EPlain ("template " +:+ name +:+ ": kind " +:+ NoticeKind_string (TplKind t) +:+ " defined twice"))
              | None => load_template_files (<[NoticeKind_string (TplKind t) := t]> out) files
              end
          end
      end
  end.
Definition LoadTemplates (files : list (string * RawMessage)) : M (gmap string Template) := load_template_files ∅ files.
End checks.

(** The embedded files, as their JSON. *)
Definition templateFiles : list (string * RawMessage) :=
  [("templates/CUSTOM.json", RawJSON (JObject [("kind", JString "CUSTOM"); ("label", JString "Custom message"); ("description", JString "A message in your own words, on the bank's letterhead."); ("letter", JBool false); ("fields", JArray [
    JObject [("id", JString "subject"); ("label", JString "Subject"); ("type", JString "TEXT"); ("required", JBool true)];
    JObject [("id", JString "body"); ("label", JString "Message"); ("type", JString "TEXTAREA"); ("required", JBool true)]]); ("subject", JString "{{subject}}"); ("paragraphs", JArray [
    JString "{{body}}";
    JString "Dispute reference {{dispute}}."])]));
   ("templates/DOCUMENTS_RECEIVED.json", RawJSON (JObject [("kind", JString "DOCUMENTS_RECEIVED"); ("label", JString "Documents received"); ("description", JString "Confirm what the customer sent and whether anything is still missing."); ("letter", JBool false); ("fields", JArray [
    JObject [("id", JString "received"); ("label", JString "What we received (one item per line)"); ("type", JString "TEXTAREA"); ("required", JBool true); ("list", JBool true)];
    JObject [("id", JString "missing"); ("label", JString "Still missing (one item per line)"); ("type", JString "TEXTAREA"); ("required", JBool false); ("list", JBool true)]]); ("subject", JString "Thank you, we have your documents"); ("paragraphs", JArray [
    JString "Thank you for sending us the following about your dispute of the {{amount}} payment to {{merchant}}:";
    JString "{{received}}";
    JString "{{#missing}}We are still missing:{{/missing}}";
    JString "{{missing}}";
    JString "We will let you know as soon as our investigation is complete. Dispute reference {{dispute}}."])]));
   ("templates/REQUEST_FOR_INFORMATION.json", RawJSON (JObject [("kind", JString "REQUEST_FOR_INFORMATION"); ("label", JString "Request for information"); ("description", JString "Ask the customer for documents or details the investigation needs, with a date to reply by."); ("letter", JBool true); ("fields", JArray [
    JObject [("id", JString "items"); ("label", JString "What we need"); ("type", JString "MULTISELECT"); ("required", JBool true); ("options", JArray [JObject [("key", JString "receipt"); ("label", JString "Receipt or invoice"); ("text", JString "a copy of the receipt, invoice or order confirmation for the payment")]; JObject [("key", JString "merchant_contact"); ("label", JString "Proof of merchant contact"); ("text", JString "any correspondence with the merchant about this payment (emails, letters, chat transcripts) and their response")]; JObject [("key", JString "delivery"); ("label", JString "Delivery information"); ("text", JString "the expected delivery date, the delivery address and any tracking number")]; JObject [("key", JString "cancellation"); ("label", JString "Cancellation information"); ("text", JString "a copy of the cancellation and the date it was sent to the merchant")]; JObject [("key", JString "return"); ("label", JString "Return information"); ("text", JString "proof that the item was returned, how it was returned, and the shipping receipt")]; JObject [("key", JString "police_report"); ("label", JString "Police report"); ("text", JString "the police report or its reference number")]; JObject [("key", JString "statement"); ("label", JString "Other bank statement"); ("text", JString "a statement showing the same amount paid by another means")]])];
    JObject [("id", JString "other"); ("label", JString "Anything else (one item per line)"); ("type", JString "TEXTAREA"); ("required", JBool false); ("list", JBool true)];
    JObject [("id", JString "days"); ("label", JString "Days to respond"); ("type", JString "NUMBER"); ("required", JBool true); ("default", JString "10"); ("min", JNumber "1"); ("max", JNumber "60")]]); ("subject", JString "We need a little more information about your dispute"); ("paragraphs", JArray [
    JString "We are looking into your dispute of the {{amount}} payment to {{merchant}}. To continue, we need the following from you:";
    JString "{{items}}";
    JString "{{other}}";
    JString "Please reply by {{dueDate}} ({{days}} days from today). If we do not hear from you by then, we will decide the dispute on what we have.";
    JString "Dispute reference {{dispute}}."])]));
   ("templates/STATUS_UPDATE.json", RawJSON (JObject [("kind", JString "STATUS_UPDATE"); ("label", JString "Status update"); ("description", JString "Tell the customer where the investigation stands and what happens next."); ("letter", JBool false); ("fields", JArray [
    JObject [("id", JString "stage"); ("label", JString "Where we are"); ("type", JString "SELECT"); ("required", JBool true); ("options", JArray [JObject [("key", JString "reviewing"); ("label", JString "Reviewing your documents"); ("text", JString "We have received your documents and are reviewing them.")]; JObject [("key", JString "merchant"); ("label", JString "Waiting for the merchant"); ("text", JString "We have raised the case with the merchant's bank through the card network and are waiting for their response.")]; JObject [("key", JString "network"); ("label", JString "With the card network"); ("text", JString "The merchant contested the case and it is now being decided by the card network.")]; JObject [("key", JString "final"); ("label", JString "Nearly decided"); ("text", JString "Our investigation is nearly complete and we expect to write to you with the outcome shortly.")]])];
    JObject [("id", JString "note"); ("label", JString "Anything to add"); ("type", JString "TEXTAREA"); ("required", JBool false)];
    JObject [("id", JString "nextBy"); ("label", JString "You will hear from us by"); ("type", JString "DATE"); ("required", JBool false)]]); ("subject", JString "An update on your dispute"); ("paragraphs", JArray [
    JString "{{stage}}";
    JString "{{note}}";
    JString "{{#nextBy}}We will write to you again by {{nextBy}}.{{/nextBy}}";
    JString "There is nothing you need to do now. Dispute reference {{dispute}}."])]))].

(** [mustLoadTemplates]; that it does not panic is [templates_load]. *)
Definition templates : gmap string Template := Eval vm_compute in
  match LoadTemplates (fun _ => "") templateFiles with Ok ts => ts | Err _ => ∅ end.

Lemma templates_load address : LoadTemplates address templateFiles = Ok templates.
Proof. vm_compute. reflexivity. Qed.

Definition Templates : list Template :=
  sort_Slice (fun t => NoticeKind_string (TplKind t)) (map snd (map_to_list templates)).
Definition TemplateFor (kind : NoticeKind) : option Template := templates !! NoticeKind_string kind.

(** ** Filling in a form *)
Definition ErrInvalidFields : Error :=
  sentinel Unprocessable "invalid-fields" "the email form is incomplete or malformed".
Definition ErrUnknownTemplate : Error := sentinel Invalid "unknown-template" "unknown email template".
Definition ErrInvalidOverride : Error :=
  sentinel Unprocessable "invalid-template-override" "the template wording is not valid for its form".

Record FactValues : Type := mkFactValues {
  FvCustomer : string;
  FvBank : string;
  FvAmount : string;
  FvMerchant : string;
  FvDispute : string;
  FvToday : time
}.

Abbreviation Inputs := (gmap string string).
Definition value_of (m : Inputs) (id : string) : string := default "" (m !! id).

Definition missingField (f : FormField) : string :=
  match FldType f with
  | FieldSelect => "Please select one of the options"
  | FieldMultiselect => "Please select at least one option"
  | FieldDate => "Please select a date"
  | FieldNumber => "Please enter a number"
  | _ => "Please fill in " +:+ quoted (FldLabel f)
  end.

Definition option_by_key (os : list Option_) (key : string) : option Option_ :=
  List.find (fun o => bool_decide (OptKey o = key)) os.

(** The texts of a multiselect's keys, in the order the input lists them; [Err] is the key that is no option. *)
Fixpoint multi_texts (os : list Option_) (keys : list string) : res string (list string) :=
  match keys with
  | [] => Ok []
  | key :: keys =>
      let key := TrimSpace key in
      if bool_decide (key = "") then multi_texts os keys
      else match option_by_key os key with
           | None => Err key
           | Some o => texts ← multi_texts os keys; Ok (OptText o :: texts)
           end
  end.

(** The value the customer reads, or what is wrong with the input ([displayValue], whose empty message is no error). *)
Definition displayValue (f : FormField) (raw : string) : res string string :=
  match FldType f with
  | FieldText => if 200 <? Z.of_nat (String.length raw) then Err "Please keep this under 200 characters" else Ok raw
  | FieldTextarea => if 4000 <? Z.of_nat (String.length raw) then Err "Please keep this under 4000 characters" else Ok raw
  | FieldNumber =>
      match Atoi raw with
      | None => Err "Please enter a whole number"
      | Some n =>
          if match FldMin f with Some lo => n <? lo | None => false end
             || match FldMax f with Some hi => hi <? n | None => false end
          then Err ("Please enter a number between " +:+ show (default 0 (FldMin f)) +:+ " and " +:+ show (default n (FldMax f)))
          else Ok (show n)
      end
  | FieldDate =>
      match parse_ymd raw with
      | None => Err "Please enter a date as YYYY-MM-DD"
      | Some (y, m, d) => Ok (format_long UTC (Date y m d 0 0 0 0 UTC))
      end
  | FieldSelect =>
      match option_by_key (FldOptions f) raw with
      | Some o => Ok (OptText o)
      | None => Err "Please select one of the options"
      end
  | FieldMultiselect =>
      match multi_texts (FldOptions f) (Split raw comma) with
      | Err key => Err (quoted key +:+ " is not one of the options; please select only from the list")
      | Ok [] => Err "Please select at least one option"
      | Ok texts => Ok (Join texts newline)
      end
  | FieldOther _ => Ok raw
  end.

Definition refusal (id msg : string) : FieldError := mkFieldError ("body.fields." +:+ id) msg.

(** What the form makes of one field: nothing, a value, or a refusal. *)
Inductive field_answer : Type := Absent | Given (v : string) | Refused (msg : string).
Definition answer_of (inputs : Inputs) (f : FormField) : field_answer :=
  let raw := TrimSpace (value_of inputs (FldID f)) in
  let raw := if bool_decide (raw = "") then FldDefault f else raw in
  if bool_decide (raw = "") then (if FldRequired f then Refused (missingField f) else Absent)
  else match displayValue f raw with Ok v => Given v | Err msg => Refused msg end.

(** The loop of [Validate]: the values so far and the refusals so far. *)
Definition validate_field (inputs : Inputs) (acc : Inputs * list FieldError) (f : FormField) : Inputs * list FieldError :=
  match answer_of inputs f with
  | Absent => acc
  | Given v => (<[FldID f := v]> acc.1, acc.2)
  | Refused msg => (acc.1, acc.2 ++ [refusal (FldID f) msg])
  end.
Definition unknown_inputs (t : Template) (inputs : Inputs) : list FieldError :=
  omap (fun '(id, _) => if slices_contains (map FldID (TplFields t)) id then None
                        else Some (refusal id "this template has no such field")) (map_to_list inputs).

Definition Validate (t : Template) (inputs : Inputs) : M Inputs :=
  let '(values, fields) := foldl (validate_field inputs) (∅, []) (TplFields t) in
  let fields := fields ++ unknown_inputs t inputs in
  match fields with
  | [] => Ok values
  | _ => fail (WithFields ErrInvalidFields (sort_Slice Field fields))
  end.

(** ** Composing the words *)

(** [substitute]: sections, then the placeholders, in one pass each; a paragraph that is only the tag of a list
    becomes one bullet per line. *)
Definition bullets (v : string) : string :=
  Join (omap (fun line => let line := TrimSpace line in
                          if bool_decide (line = "") then None else Some ("- " +:+ TrimPrefix line "- "))
         (Split v newline_char)) newline.
Definition substitute (s : string) (values : Inputs) (listy : string -> bool) : string :=
  let s := replace_sections (fun name body => if bool_decide (value_of values name = "") then "" else body) s in
  match match_tag (TrimSpace s) with
  | Some (t, EmptyString) =>
      if listy (tag_name t) then bullets (value_of values (tag_name t))
      else replace_tags (fun t => value_of values (tag_name t)) s
  | _ => replace_tags (fun t => value_of values (tag_name t)) s
  end.

(** [substituteFacts]: facts but the due date, leaving sections and fields. *)
Definition substituteFacts (s : string) (facts : Inputs) : string :=
  replace_tags (fun t =>
    if negb (bool_decide (tag_mark t = Plain)) || bool_decide (tag_name t = "dueDate") then tag_text t
    else default (tag_text t) (facts !! tag_name t)) s.

Section words.
(** The zone the process runs in. *)
Context (Local : Location).

Definition factMap (f : FactValues) : Inputs :=
  list_to_map [("customer", FvCustomer f); ("bank", FvBank f); ("amount", FvAmount f); ("merchant", FvMerchant f);
               ("dispute", FvDispute f); ("today", format_long Local (FvToday f)); ("dueDate", "")].

(** The values a text is filled from: facts, then the form's values, then the date [days] from today. *)
Definition fill_values (facts : FactValues) (values : Inputs) : Inputs :=
  let all := values ∪ factMap facts in
  match Atoi (value_of values "days") with
  | Some days => <["dueDate" := format_long Local (AddDate Local (FvToday facts) 0 0 days)]> all
  | None => all
  end.

(** The last field with an id decides. *)
Definition is_listy (t : Template) (id : string) : bool :=
  foldl (fun b f => if bool_decide (FldID f = id)
                    then bool_decide (FldType f = FieldMultiselect) || (bool_decide (FldType f = FieldTextarea) && FldList f)
                    else b) false (TplFields t).

Definition Fill (t : Template) (facts : FactValues) (values : Inputs) : Document :=
  let all := fill_values facts values in
  mkDocument (FvBank facts) (substitute (TplSubject t) all (fun _ => false)) ("Dear " +:+ FvCustomer facts +:+ ",")
    (omap (fun p => let out := TrimSpace (substitute p all (is_listy t)) in
                    if bool_decide (out = "") then None else Some out) (TplParagraphs t))
    ("Yours sincerely," +:+ newline +:+ FvBank facts +:+ " disputes team") "".

(** [Placeholders], for the live preview. *)
Definition Preview (t : Template) (facts : FactValues) : Template :=
  let all := factMap facts in
  mkTemplate (TplKind t) (TplLabel t) (TplDescription t) (TplLetter t) (TplFields t) (substituteFacts (TplSubject t) all)
    (map (fun p => substituteFacts p all) (TplParagraphs t)).
End words.

(** ** A tenant's wording *)
Record Override : Type := mkOverride {
  OvLabel : string;
  OvDescription : string;
  OvSubject : string;
  OvParagraphs : list string;
  OvOptionTexts : gmap string string
}.
Definition zero_Override : Override := mkOverride "" "" "" [] ∅.
Definition into_Override : decoder Override := into_struct
  [("label", field OvLabel (fun o x => mkOverride x (OvDescription o) (OvSubject o) (OvParagraphs o) (OvOptionTexts o)) into_string);
   ("description", field OvDescription (fun o x => mkOverride (OvLabel o) x (OvSubject o) (OvParagraphs o) (OvOptionTexts o)) into_string);
   ("subject", field OvSubject (fun o x => mkOverride (OvLabel o) (OvDescription o) x (OvParagraphs o) (OvOptionTexts o)) into_string);
   ("paragraphs", field OvParagraphs (fun o x => mkOverride (OvLabel o) (OvDescription o) (OvSubject o) x (OvOptionTexts o)) (into_slice "" into_string));
   ("optionTexts", fun j o =>
      let '(m, ok) := into_map "" into_string j (Some (OvOptionTexts o)) in
      (mkOverride (OvLabel o) (OvDescription o) (OvSubject o) (OvParagraphs o) (default ∅ m), ok))].
(** [json.Marshal] of an override: empty members left out, a map's members in the order of their keys. *)
Definition Override_json (o : Override) : json :=
  let text k v := if bool_decide (v = "") then [] else [(k, JString v)] in
  JObject (text "label" (OvLabel o) ++ text "description" (OvDescription o) ++ text "subject" (OvSubject o)
           ++ (match OvParagraphs o with [] => [] | ps => [("paragraphs", JArray (map JString ps))] end)
           ++ (if bool_decide (OvOptionTexts o = ∅) then []
               else [("optionTexts", JObject (map (fun '(k, v) => (k, JString v)) (sort_Slice fst (map_to_list (OvOptionTexts o)))))])).

(** The first field of an id, and the first option of a key, with a text replaced. *)
Fixpoint set_option_text (os : list Option_) (key text : string) : option (list Option_) :=
  match os with
  | [] => None
  | o :: os => if bool_decide (OptKey o = key) then Some (mkOption (OptKey o) (OptLabel o) text :: os)
               else (cons o) <$> set_option_text os key text
  end.
Fixpoint first_field (fs : list FormField) (id : string) : option (list FormField * FormField * list FormField) :=
  match fs with
  | [] => None
  | f :: fs => if bool_decide (FldID f = id) then Some ([], f, fs)
               else '(pre, g, post) ← first_field fs id; Some (f :: pre, g, post)
  end.

(** One entry of [OptionTexts], over the fields so far and the problems so far. *)
Definition apply_option_text (acc : list FormField * list FieldError) (entry : string * string) : list FormField * list FieldError :=
  let '(fs, errs) := acc in
  let '(key, text) := entry in
  let refuse msg := (fs, errs ++ [mkFieldError ("body.optionTexts." +:+ key) msg]) in
  match Cut key "."%char with
  | (fieldID, Some optKey) =>
      match first_field fs fieldID with
      | Some (pre, f, post) =>
          match set_option_text (FldOptions f) optKey text with
          | None => refuse "no such option"
          | Some opts => if bool_decide (TrimSpace text = "") then refuse "text must not be empty"
                         else (pre ++ with_options f opts :: post, errs)
          end
      | None => refuse "no such field"
      end
  | (_, None) => refuse "no such field"
  end.

Definition ApplyOverride (address : Z -> string) (base : Template) (o : Override) : M Template :=
  let '(fs, errs) := foldl apply_option_text (TplFields base, []) (map_to_list (OvOptionTexts o)) in
  let t := mkTemplate (TplKind base)
    (if bool_decide (OvLabel o = "") then TplLabel base else OvLabel o)
    (if bool_decide (OvDescription o = "") then TplDescription base else OvDescription o)
    (TplLetter base) fs
    (if bool_decide (OvSubject o = "") then TplSubject base else OvSubject o)
    (match OvParagraphs o with [] => TplParagraphs base | ps => ps end) in
  let errs := errs ++ match checkTemplate address t with
                      | Ok _ => []
                      | Err e => [mkFieldError "body" (Error_string e)]
                      end in
  match errs with
  | [] => Ok t
  | _ => fail (WithFields ErrInvalidOverride (sort_Slice Field errs))
  end.
