(* ===== verification/TemplateFacts.v ===== *)
(** * TemplateFacts: what the forms and the words of an analyst's email guarantee. *)
From S2P Require Import Prelude Errs GoTime GoJson Ext Types Regimes Text Notice Template.

(** ** Accepting a form *)

(** What is wrong with a form: a field refused, or a value for a field the template does not have. *)
Inductive form_problem (t : Template) (inputs : Inputs) : FieldError -> Prop :=
| problem_refused f msg : f ∈ TplFields t -> answer_of inputs f = Refused msg ->
    form_problem t inputs (refusal (FldID f) msg)
| problem_unknown id v : inputs !! id = Some v -> id ∉ map FldID (TplFields t) ->
    form_problem t inputs (refusal id "this template has no such field").

Definition refused (inputs : Inputs) (f : FormField) : option FieldError :=
  match answer_of inputs f with Refused msg => Some (refusal (FldID f) msg) | _ => None end.

Lemma validate_fold_errors inputs fs acc :
  (foldl (validate_field inputs) acc fs).2 = acc.2 ++ omap (refused inputs) fs.
Proof.
  revert acc. induction fs as [|f fs IH]; intros acc; cbn; [by rewrite app_nil_r|].
  rewrite IH. unfold validate_field, refused. destruct (answer_of inputs f); cbn; [done|done|].
  by rewrite <- app_assoc.
Qed.

Lemma validate_fold_values inputs fs acc id : NoDup (map FldID fs) ->
  (foldl (validate_field inputs) acc fs).1 !! id =
  match List.find (fun f => bool_decide (FldID f = id)) fs with
  | Some f => match answer_of inputs f with Given v => Some v | _ => acc.1 !! id end
  | None => acc.1 !! id
  end.
Proof.
  revert acc. induction fs as [|f fs IH]; intros acc Hnd; cbn; [done|].
  apply list.NoDup_cons in Hnd as [Hni Hnd]. rewrite IH by done. case_bool_decide as Hid.
  - assert (Hf : List.find (fun g => bool_decide (FldID g = id)) fs = None).
    { destruct (List.find _ fs) as [g|] eqn:E; [|done]. apply List.find_some in E as [Hg Hb]. to_prop.
      exfalso. apply Hni. rewrite Hid, <- Hb. by apply list_elem_of_In, in_map. }
    rewrite Hf. unfold validate_field. destruct (answer_of inputs f); cbn; subst; [done|by rewrite lookup_insert_eq|done].
  - assert (Hacc : (validate_field inputs acc f).1 !! id = acc.1 !! id).
    { unfold validate_field. destruct (answer_of inputs f); cbn; [done|by rewrite lookup_insert_ne|done]. }
    by rewrite Hacc.
Qed.

Lemma refused_exact inputs (fs : list FormField) fe :
  fe ∈ omap (refused inputs) fs <-> exists f msg, f ∈ fs /\ answer_of inputs f = Refused msg /\ fe = refusal (FldID f) msg.
Proof.
  rewrite list_elem_of_omap. split.
  - intros (f & Hf & H). unfold refused in H. destruct (answer_of inputs f) eqn:E; [done|done|]. injection H as <-. eauto.
  - intros (f & msg & Hf & E & ->). exists f. split; [done|]. unfold refused. by rewrite E.
Qed.

Lemma unknown_exact t inputs fe :
  fe ∈ unknown_inputs t inputs <-> exists id v, inputs !! id = Some v /\ id ∉ map FldID (TplFields t) /\
    fe = refusal id "this template has no such field".
Proof.
  unfold unknown_inputs. rewrite list_elem_of_omap. split.
  - intros ([id v] & Hin & H). apply elem_of_map_to_list in Hin.
    destruct (slices_contains _ id) eqn:E; [done|]. injection H as <-. exists id, v. split_and!; [done| |done].
    rewrite <- slices_contains_spec. by rewrite E.
  - intros (id & v & Hin & Hn & ->). exists (id, v). split; [by apply elem_of_map_to_list|].
    destruct (slices_contains _ id) eqn:E; [|done]. by apply slices_contains_spec in E.
Qed.

Lemma problems_exact t inputs fe :
  fe ∈ omap (refused inputs) (TplFields t) ++ unknown_inputs t inputs <-> form_problem t inputs fe.
Proof.
  rewrite elem_of_app, refused_exact, unknown_exact. split.
  - intros [(f & msg & Hf & E & ->)|(id & v & Hi & Hn & ->)]; [by apply problem_refused|by eapply problem_unknown].
  - intros [f msg Hf E|id v Hi Hn]; [left; eauto|right; eauto 10].
Qed.

(** A form is accepted exactly when nothing is wrong with it, and then the values are those of the answered
    fields and no others; otherwise it is refused as [invalid-fields] with every problem at once, sorted by field:
    each field whose input does not fit it, each required field left out, and each input the template has no field
    for. *)
Theorem Validate_exact t inputs : NoDup (map FldID (TplFields t)) ->
  (exists values, Validate t inputs = Ok values /\ (forall fe, ~ form_problem t inputs fe) /\
     forall id v, values !! id = Some v <-> exists f, f ∈ TplFields t /\ FldID f = id /\ answer_of inputs f = Given v) \/
  (exists fields, Validate t inputs = fail (WithFields ErrInvalidFields fields) /\
     fields <> [] /\ Sorted (key_le Field) fields /\ forall fe, fe ∈ fields <-> form_problem t inputs fe).
Proof.
  intros Hnd. unfold Validate.
  destruct (foldl (validate_field inputs) (∅, []) (TplFields t)) as [values errs] eqn:E.
  assert (Herrs : errs = omap (refused inputs) (TplFields t)).
  { pose proof (validate_fold_errors inputs (TplFields t) (∅, [])) as H. by rewrite E in H. }
  pose proof (fun id => validate_fold_values inputs (TplFields t) (∅, []) id Hnd) as Hv. rewrite E in Hv. cbn in Hv.
  pose proof (problems_exact t inputs) as Hex. rewrite <- Herrs in Hex.
  destruct (errs ++ unknown_inputs t inputs) as [|fe0 fes].
  - left. exists values. split; [done|]. split; [by intros fe H%Hex%not_elem_of_nil|]. intros id v. rewrite Hv. split.
    + destruct (List.find _ _) as [f|] eqn:Ef; [|by intros ?%lookup_empty_Some].
      apply List.find_some in Ef as [Hin Hb]. to_prop. destruct (answer_of inputs f) eqn:Ea; try by intros ?%lookup_empty_Some.
      intros [= ->]. exists f. split; [by apply list_elem_of_In|]. done.
    + intros (f & Hf & Hid & Ha). destruct (List.find _ _) as [g|] eqn:Ef.
      * apply List.find_some in Ef as [Hin Hb]. to_prop.
        assert (g = f) as ->; [|by rewrite Ha].
        apply list_elem_of_In in Hin. apply list_elem_of_lookup in Hin as [i Hi]. apply list_elem_of_lookup in Hf as [j Hj].
        assert (i = j) as ->; [|congruence].
        eapply (NoDup_lookup (FldID <$> TplFields t) i j id);
          [done|rewrite list_lookup_fmap, Hi; cbn; by rewrite Hb|rewrite list_lookup_fmap, Hj; cbn; by rewrite Hid].
      * exfalso. apply list_elem_of_In in Hf. apply (List.find_none _ _ Ef) in Hf. by to_prop.
  - right. exists (sort_Slice Field (fe0 :: fes)). split; [done|]. split; [by rewrite sort_Slice_nil|].
    split; [apply sort_Slice_sorted|]. intros fe. rewrite elem_of_sort_Slice. apply Hex.
Qed.

(** ** Checked templates *)

Lemma check_fields_ok address ids fs ids' : check_fields address ids fs = Ok ids' ->
  ids' = list_to_set (map FldID fs) ∪ ids /\ NoDup (map FldID fs) /\
  forall f, f ∈ fs -> FldID f <> "" /\ FldLabel f <> "" /\ FldID f ∉ ids /\ FldID f ∉ factNames /\ FldType f ∈ FieldTypes.
Proof.
  revert ids. induction fs as [|f fs IH]; intros ids H; cbn in H.
  - injection H as <-. cbn. split; [set_solver|]. split; [constructor|]. by intros f ?%not_elem_of_nil.
  - destruct (bool_decide (FldID f = "") || _) eqn:E1; [done|].
    destruct (bool_decide (FldID f ∈ ids) || _) eqn:E2; [done|].
    destruct (negb (slices_contains FieldTypes _)) eqn:E3; [done|].
    destruct ((_ || _) && _); [done|]. destruct (List.find bad_option _); [done|].
    to_prop. apply slices_contains_spec in E3.
    match goal with H : slices_contains factNames _ = false |- _ => rename H into Hfact end.
    destruct (IH _ H) as (-> & Hnd & Hall). cbn [map list_to_set].
    split; [set_solver|]. split.
    + apply list.NoDup_cons. split; [|done]. intros Hin.
      apply list_elem_of_fmap in Hin as (g & Hg & Hgin). destruct (Hall g Hgin) as (_ & _ & Hn & _). set_solver.
    + intros g [->|Hg]%elem_of_cons.
      * split_and!; [done..| |done]. rewrite <- slices_contains_spec. by rewrite Hfact.
      * destruct (Hall g Hg) as (? & ? & ? & ? & ?). split_and!; [done|done|set_solver|done|done].
Qed.

Lemma checkTemplate_ok address t : checkTemplate address t = Ok tt ->
  TplKind t ∈ ManualNoticeKinds /\ TplSubject t <> "" /\ TplParagraphs t <> [] /\ NoDup (map FldID (TplFields t)) /\
  (forall f, f ∈ TplFields t -> FldID f <> "" /\ FldID f ∉ factNames) /\
  (forall p tg, p ∈ TplSubject t :: TplParagraphs t -> tg ∈ find_tags p ->
     tag_name tg ∈ map FldID (TplFields t) \/ tag_name tg ∈ factNames).
Proof.
  unfold checkTemplate. destruct (negb _) eqn:E1; [done|]. destruct (_ || _ || _) eqn:E2; [done|].
  intros H. apply bind_ok in H as (ids & Hf & H). apply check_fields_ok in Hf as (-> & Hnd & Hall).
  destruct (unknown_tag _ _) eqn:E; [done|]. to_prop. apply slices_contains_spec in E1.
  split_and!; try done.
  - by destruct (TplParagraphs t).
  - intros f Hin. destruct (Hall f Hin) as (? & _ & _ & ? & _). done.
  - intros p tg Hp Htg. unfold unknown_tag in E.
    assert (Hin : In tg (concat (map find_tags (TplSubject t :: TplParagraphs t)))).
    { apply in_concat. exists (find_tags p). split; [apply in_map; by apply list_elem_of_In|by apply list_elem_of_In]. }
    apply (List.find_none _ _ E) in Hin. apply andb_false_iff in Hin as [Hin|Hin]; to_prop.
    + left. set_solver.
    + right. by apply slices_contains_spec.
Qed.

(** ** A tenant's wording *)

Definition same_option (o o' : Option_) : Prop := OptKey o' = OptKey o /\ OptLabel o' = OptLabel o.
(** The same input, asked for in other words at most. *)
Definition same_field (f f' : FormField) : Prop :=
  exists os, f' = with_options f os /\ Forall2 same_option (FldOptions f) os.

Lemma same_field_refl f : same_field f f.
Proof.
  exists (FldOptions f). split; [by destruct f|]. induction (FldOptions f); by constructor.
Qed.
Lemma same_field_trans f g h : same_field f g -> same_field g h -> same_field f h.
Proof.
  intros (os & -> & H1) (os' & -> & H2). exists os'. split; [done|]. cbn in H2. clear -H1 H2.
  revert os' H2. induction H1 as [|o o' l l' [Hk Hl] H IH]; intros os' H2; inversion H2 as [|? ? ? ? [Hk2 Hl2]]; subst; constructor; [|by apply IH].
  split; congruence.
Qed.
#[export] Instance same_field_preorder : PreOrder same_field.
Proof. split; [exact same_field_refl|exact same_field_trans]. Qed.

Lemma set_option_text_same os key text os' : set_option_text os key text = Some os' -> Forall2 same_option os os'.
Proof.
  revert os'. induction os as [|o os IH]; cbn; intros os' H; [done|]. case_bool_decide.
  - injection H as <-. constructor; [done|]. clear IH. induction os; by constructor.
  - destruct (set_option_text os key text) as [l|]; [|done]. injection H as <-. constructor; [done|]. by apply IH.
Qed.

Lemma first_field_split fs id pre f post : first_field fs id = Some (pre, f, post) -> fs = pre ++ f :: post.
Proof.
  revert pre. induction fs as [|g fs IH]; cbn; intros pre H; [done|]. case_bool_decide; [by injection H as <- <- <-|].
  destruct (first_field fs id) as [[[pre' g'] post']|]; cbn in H; [|done]. injection H as <- -> ->.
  cbn. by rewrite <- (IH pre').
Qed.

Lemma apply_option_texts_same entries acc :
  Forall2 same_field acc.1 (foldl apply_option_text acc entries).1.
Proof.
  revert acc. induction entries as [|[key text] entries IH]; intros acc; cbn [foldl]; [done|].
  etransitivity; [|apply IH]. clear IH. destruct acc as [fs errs]. cbn.
  destruct (Cut key _) as [id [k|]]; [|done].
  destruct (first_field fs id) as [[[pre f] post]|] eqn:E; [|done]. apply first_field_split in E as ->.
  destruct (set_option_text (FldOptions f) k text) as [opts|] eqn:Eo; [|done]. case_bool_decide; [done|]. cbn.
  apply Forall2_app; [done|]. constructor; [|done]. exists opts. split; [done|]. by eapply set_option_text_same.
Qed.

Lemma option_by_key_same os os' key : Forall2 same_option os os' ->
  match option_by_key os key, option_by_key os' key with Some _, Some _ | None, None => True | _, _ => False end.
Proof.
  unfold option_by_key. induction 1 as [|o o' os os' [Hk _] H IH]; cbn; [done|]. rewrite Hk. by case_bool_decide.
Qed.

Lemma multi_texts_same os os' keys : Forall2 same_option os os' ->
  match multi_texts os keys, multi_texts os' keys with
  | Ok ts, Ok ts' => length ts = length ts'
  | Err k, Err k' => k = k'
  | _, _ => False
  end.
Proof.
  intros Hs. induction keys as [|key keys IH]; cbn; [done|]. case_bool_decide; [done|].
  pose proof (option_by_key_same os os' (TrimSpace key) Hs) as Ho.
  destruct (option_by_key os _), (option_by_key os' _); [|done|done|done].
  destruct (multi_texts os keys), (multi_texts os' keys); cbn in *; try done. by rewrite IH.
Qed.

Definition same_answer (a a' : field_answer) : Prop :=
  match a, a' with Absent, Absent | Given _, Given _ => True | Refused m, Refused m' => m = m' | _, _ => False end.

Lemma answer_of_same inputs f f' : same_field f f' -> same_answer (answer_of inputs f) (answer_of inputs f').
Proof.
  intros (os & -> & Hs). unfold answer_of. cbn. case_bool_decide as He; [by destruct (FldRequired f)|].
  unfold displayValue. cbn [FldType FldOptions FldMin FldMax with_options]. destruct (FldType f).
  - by destruct (_ <? _).
  - by destruct (_ <? _).
  - destruct (Atoi _); [|done]. by destruct (_ || _).
  - destruct (parse_ymd _) as [[[? ?] ?]|]; done.
  - match goal with |- context [option_by_key os ?key] => pose proof (option_by_key_same _ _ key Hs) as Ho end.
    by destruct (option_by_key (FldOptions f) _), (option_by_key os _).
  - match goal with |- context [multi_texts os ?keys] => pose proof (multi_texts_same _ _ keys Hs) as Hm end.
    destruct (multi_texts (FldOptions f) _) as [[|]|], (multi_texts os _) as [[|]|]; cbn in *; try done. by rewrite Hm.
  - done.
Qed.

Lemma same_fields_ids fs fs' : Forall2 same_field fs fs' -> map FldID fs' = map FldID fs.
Proof. induction 1 as [|f f' fs fs' (os & -> & _) H IH]; cbn; [done|by rewrite IH]. Qed.

Lemma refused_same inputs fs fs' : Forall2 same_field fs fs' -> omap (refused inputs) fs' = omap (refused inputs) fs.
Proof.
  induction 1 as [|f f' fs fs' Hf H IH]; [done|].
  assert (He : refused inputs f' = refused inputs f).
  { pose proof (answer_of_same inputs f f' Hf) as Ha. destruct Hf as (os & -> & _). unfold refused.
    destruct (answer_of inputs f), (answer_of inputs (with_options f os)); cbn in *; try done. by rewrite Ha. }
  cbn. by rewrite He, IH.
Qed.

(** C25: A tenant can change what an email says and nothing else: an accepted wording leaves the kind, whether it is
    also a letter, and every field with its type, limits, option keys and labels as they were; the result passes the
    same check as the templates shipped with the program; and it accepts and refuses exactly the same forms, with
    the same complaints. *)
Theorem override_changes_words_only address base o t inputs : ApplyOverride address base o = Ok t ->
  TplKind t = TplKind base /\ TplLetter t = TplLetter base /\ Forall2 same_field (TplFields base) (TplFields t) /\
  checkTemplate address t = Ok tt /\
  match Validate base inputs, Validate t inputs with
  | Ok values, Ok values' => dom values' = dom values
  | Err e, Err e' => e' = e
  | _, _ => False
  end.
Proof.
  unfold ApplyOverride. pose proof (apply_option_texts_same (map_to_list (OvOptionTexts o)) (TplFields base, [])) as Hs.
  destruct (foldl apply_option_text _ _) as [fs errs]. cbn in Hs.
  set (t' := mkTemplate _ _ _ _ _ _ _).
  destruct (checkTemplate address t') as [[]|e] eqn:Ec; rewrite ?app_nil_r.
  2:{ destruct (errs ++ _) eqn:E; [by apply app_nil in E as [_ ?]|done]. }
  destruct errs; [|done]. intros [= <-]. split_and!; [done|done|done|done|].
  pose proof (same_fields_ids _ _ Hs) as Hids.
  assert (Hnd : NoDup (map FldID fs)) by (apply checkTemplate_ok in Ec as (_ & _ & _ & H & _); exact H).
  unfold Validate. cbn [TplFields t'].
  destruct (foldl _ _ (TplFields base)) as [v1 e1] eqn:E1. destruct (foldl _ _ fs) as [v2 e2] eqn:E2.
  pose proof (validate_fold_errors inputs (TplFields base) (∅, [])) as H1. rewrite E1 in H1.
  pose proof (validate_fold_errors inputs fs (∅, [])) as H2. rewrite E2 in H2. cbn in H1, H2.
  rewrite (refused_same _ _ _ Hs) in H2. subst e1 e2.
  assert (Hu : unknown_inputs t' inputs = unknown_inputs base inputs) by (unfold unknown_inputs; cbn; by rewrite Hids).
  rewrite Hu. destruct (_ ++ unknown_inputs base inputs); [|done].
  apply set_eq. intros id. rewrite !elem_of_dom.
  pose proof (validate_fold_values inputs (TplFields base) (∅, []) id) as V1. rewrite E1 in V1. cbn in V1.
  pose proof (validate_fold_values inputs fs (∅, []) id) as V2. rewrite E2 in V2. cbn in V2.
  rewrite V1, V2 by (rewrite <- ?Hids; done). clear -Hs.
  induction Hs as [|f f' fs fs' Hf H IH]; cbn; [done|].
  pose proof (answer_of_same inputs f f' Hf) as Ha. destruct Hf as (os & -> & _). cbn. case_bool_decide; [|done].
  destruct (answer_of inputs f), (answer_of inputs (with_options f os)); cbn in *; done.
Qed.

(** ** Composing *)

(** A text as its author reads it: words without a brace, and tags. *)
Inductive piece : Type := Words (s : string) | Tag (t : tag).
Definition tag_ok (t : tag) : Prop := match_name (tag_name t) = Some (tag_name t, "").
Definition piece_ok (p : piece) : Prop :=
  match p with Words s => contains_char s "{"%char = false | Tag t => tag_ok t end.
Definition piece_text (p : piece) : string := match p with Words s => s | Tag t => tag_text t end.
Definition written (ps : list piece) : string := concat_map piece_text ps.

Lemma take_alnum_app n s : take_alnum n = (n, "") -> take_alnum (n +:+ "}}" +:+ s)%string = (n, ("}}" +:+ s)%string).
Proof.
  induction n as [|a n IH]; [done|].
  change (take_alnum (String a n) = (String a n, "") ->
    take_alnum (String a (n +:+ "}}" +:+ s)) = (String a n, ("}}" +:+ s)%string)).
  cbn [take_alnum]. destruct (is_letter a || is_digit a) eqn:E; [|done].
  destruct (take_alnum n) as [n' r] eqn:En. intros H. injection H as -> ->. by rewrite (IH eq_refl).
Qed.

Lemma match_tag_written t s : tag_ok t -> match_tag (tag_text t +:+ s)%string = Some (t, s).
Proof.
  unfold tag_ok. intros H. destruct t as [k name]. cbn in H.
  assert (Hname : match_name (name +:+ "}}" +:+ s)%string = Some (name, ("}}" +:+ s)%string)).
  { destruct name as [|a name]; [done|].
    change (match_name (String a (name +:+ "}}" +:+ s)) = Some (String a name, ("}}" +:+ s)%string)).
    cbn [match_name] in *. destruct (is_letter a); [|done].
    destruct (take_alnum name) as [n r] eqn:E. injection H as -> ->. by rewrite (take_alnum_app name s E). }
  unfold tag_text. cbn [tag_mark tag_name]. rewrite !str_app_assoc. unfold match_tag.
  assert (Hc : forall p u, cut_prefix p (p +:+ u)%string = Some u) by (intros p u; by apply cut_prefix_some).
  rewrite Hc. cbn [mbind option_bind].
  assert (Hfirst : exists a n, name = String a n /\ is_letter a = true).
  { destruct name as [|a n]; [done|]. cbn in H. exists a, n. split; [done|]. by destruct (is_letter a). }
  destruct Hfirst as (a & n & Hn & Ha).
  destruct k; cbn [mark_string].
  - assert (Hplain : (match (name +:+ "}}" +:+ s)%string with
      | String a s' => if bool_decide (a = "#"%char) then (Opens, s')
                     else if bool_decide (a = "/"%char) then (Closes, s') else (Plain, (name +:+ "}}" +:+ s)%string)
      | EmptyString => (Plain, (name +:+ "}}" +:+ s)%string) end) = (Plain, (name +:+ "}}" +:+ s)%string)).
    { subst name. change (String a n +:+ "}}" +:+ s)%string with (String a (n +:+ "}}" +:+ s)%string). cbv iota.
      rewrite !bool_decide_false; [done|by intros ->..]. }
    change ("" +:+ (name +:+ "}}" +:+ s))%string with (name +:+ "}}" +:+ s)%string. rewrite Hplain, Hname. cbn [mbind option_bind].
    by rewrite Hc.
  - change ("#" +:+ (name +:+ "}}" +:+ s))%string with (String "#"%char (name +:+ "}}" +:+ s)%string). cbv iota.
    rewrite bool_decide_true by done. rewrite Hname. cbn [mbind option_bind]. by rewrite Hc.
  - change ("/" +:+ (name +:+ "}}" +:+ s))%string with (String "/"%char (name +:+ "}}" +:+ s)%string). cbv iota.
    rewrite bool_decide_false, bool_decide_true by done. rewrite Hname. cbn [mbind option_bind]. by rewrite Hc.
Qed.

(** Anything a step function matches is consumed, so the length of the text is fuel enough. *)
Lemma replace_all_fuel at_ n m s :
  (forall s text rest, at_ s = Some (text, rest) -> (String.length rest < String.length s)%nat) ->
  (String.length s <= n)%nat -> (String.length s <= m)%nat -> replace_all n at_ s = replace_all m at_ s.
Proof.
  intros Hat. revert m s. induction n as [|n IH]; intros m s Hn Hm.
  - destruct s; [|cbn in Hn; lia]. by destruct m.
  - destruct s as [|a s]; [by destruct m|]. destruct m as [|m]; [cbn in Hm; lia|]. cbn [replace_all].
    destruct (at_ (String a s)) as [[text rest]|] eqn:E.
    + apply Hat in E. cbn in *. f_equal. apply IH; lia.
    + f_equal. cbn in *. apply IH; lia.
Qed.

Lemma tag_text_length t : (4 <= String.length (tag_text t))%nat.
Proof. unfold tag_text. rewrite !str_length_app. cbn. lia. Qed.

Section replacing.
Context (f : tag -> string).
Let at_ (s : string) : option (string * string) := '(t, rest) ← match_tag s; Some (f t, rest).

Lemma at_consumes s text rest : at_ s = Some (text, rest) -> (String.length rest < String.length s)%nat.
Proof.
  unfold at_. destruct (match_tag s) as [[t r]|] eqn:E; cbn; [|done]. intros [= <- <-].
  apply match_tag_prefix in E as ->. rewrite str_length_app. pose proof (tag_text_length t). lia.
Qed.

Lemma replace_tags_tag t s : tag_ok t -> replace_tags f (tag_text t +:+ s)%string = (f t +:+ replace_tags f s)%string.
Proof.
  intros Ht. unfold replace_tags. fold at_.
  destruct (tag_text t +:+ s)%string as [|a u] eqn:E; [by destruct (tag_mark t)|].
  change (String.length (String a u)) with (S (String.length u)). cbn [replace_all].
  assert (Hm : at_ (String a u) = Some (f t, s)) by (unfold at_; by rewrite <- E, match_tag_written).
  rewrite Hm. f_equal. apply replace_all_fuel; [exact at_consumes| |done].
  apply (f_equal String.length) in E. rewrite str_length_app in E. cbn in E. pose proof (tag_text_length t). lia.
Qed.

Lemma match_tag_brace a s : a <> "{"%char -> match_tag (String a s) = None.
Proof. intros H. unfold match_tag. cbn. by rewrite bool_decide_false. Qed.

Lemma replace_tags_words s u : contains_char s "{"%char = false -> replace_tags f (s +:+ u)%string = (s +:+ replace_tags f u)%string.
Proof.
  induction s as [|a s IH]; [done|]. cbn [contains_char]. intros H. apply orb_false_iff in H as [Ha Hs]. to_prop.
  change (String a s +:+ u)%string with (String a (s +:+ u)%string).
  change (String a s +:+ replace_tags f u)%string with (String a (s +:+ replace_tags f u)%string).
  rewrite <- (IH Hs). unfold replace_tags. cbn [String.length replace_all]. rewrite match_tag_brace by done. done.
Qed.
End replacing.

(** What an analyst or a customer typed is never read as a template: in a text written as words and tags, every
    tag is replaced by its value as it stands - tags in the value stay the text they are - and every word is kept. *)
Theorem replace_tags_exact f ps : Forall piece_ok ps ->
  replace_tags f (written ps) =
  concat_map (fun p => match p with Words s => s | Tag t => f t end) ps.
Proof.
  induction 1 as [|p ps Hp H IH]; [done|]. unfold written in *. rewrite !concat_map_cons, <- IH. destruct p as [s|t].
  - by apply replace_tags_words.
  - by apply replace_tags_tag.
Qed.

(** ** Witnesses *)
Module TemplateExamples.
Definition request : Template := default zero_Template (TemplateFor NoticeRequestForInformation).
Definition form : Inputs := {["items" := "receipt, delivery"; "days" := "15"]}.

Lemma request_checked : checkTemplate (fun _ => "") request = Ok tt.
Proof. vm_compute. reflexivity. Qed.

Lemma Validate_exact_witness :
  (exists values, Validate request form = Ok values /\ (forall fe, ~ form_problem request form fe) /\
     forall id v, values !! id = Some v <-> exists f, f ∈ TplFields request /\ FldID f = id /\ answer_of form f = Given v) \/
  (exists fields, Validate request form = fail (WithFields ErrInvalidFields fields) /\
     fields <> [] /\ Sorted (key_le Field) fields /\ forall fe, fe ∈ fields <-> form_problem request form fe).
Proof. apply (Validate_exact request form), (checkTemplate_ok (fun _ => "")), request_checked. Defined.

Definition reworded : Override := mkOverride "" "" "" [] {["items.receipt" := "your receipt"]}.
Definition reworded_request : Template :=
  match ApplyOverride (fun _ => "") request reworded with Ok t => t | Err _ => zero_Template end.
Lemma override_changes_words_only_witness :
  is_ok (ApplyOverride (fun _ => "") request reworded) = true /\ Forall2 same_field (TplFields request) (TplFields reworded_request).
Proof.
  split; [vm_compute; reflexivity|].
  refine (proj1 (proj2 (proj2 (override_changes_words_only (fun _ => "") request reworded reworded_request form _)))).
  vm_compute. reflexivity.
Defined.

Lemma replace_tags_exact_witness :
  let ps := [Words "Dear "; Tag (mkTag Plain "customer"); Words ", about "; Tag (mkTag Plain "dispute")] in
  replace_tags (fun _ => "{{bank}}") (written ps) = "Dear {{bank}}, about {{bank}}".
Proof.
  cbv zeta. rewrite (replace_tags_exact (fun _ => "{{bank}}") [Words "Dear "; Tag (mkTag Plain "customer"); Words ", about "; Tag (mkTag Plain "dispute")]).
  - vm_compute. reflexivity.
  - repeat constructor.
Defined.

(** A number below a minimum without a maximum is told a range that ends with the number itself. *)
Lemma range_without_maximum :
  displayValue (mkFormField "n" "N" FieldNumber true [] false "" (Some 5) None) "3" =
  Err "Please enter a number between 5 and 3".
Proof. vm_compute. reflexivity. Qed.

(** The limit of a text is counted in bytes: 101 two-byte letters are refused as over 200 characters. *)
Lemma limit_counts_bytes :
  displayValue (mkFormField "t" "T" FieldText true [] false "" None None) (concat_map (fun _ => bytes [195; 169]%nat) (seq 0 101)) =
  Err "Please keep this under 200 characters".
Proof. vm_compute. reflexivity. Qed.
End TemplateExamples.
