(* ===== verification/Store.v ===== *)
(** * Store: the storage port and its in-memory implementation
    ([application/ports.go], [application/core.go] and [application/apptest/memstore.go]).

    The records are the port's; [MemStore] is the implementation the repository's tests run the use cases on,
    which mirrors the row-level security of the real one. Storage methods are functions of the store that
    return a result and the store afterwards. Loops over Go maps visit keys in an order the language leaves
    open; they are folded here in the order of the map's keys, and every result that could depend on the order
    is a count or is sorted, except among attachments uploaded at the same instant. *)
From S2P Require Import Prelude Errs GoTime GoJson Ext Types Regimes Lifecycle Deadlines Ledger Questionnaire Risk Notice Access.

(** ** [ports.go]: errors *)
Definition ErrNotFound : Error := sentinel NotFound "not-found" "the requested resource does not exist".
Definition ErrConflict : Error := sentinel Conflict "concurrent-update"
  "the dispute changed while this request was in flight; reload and try again".
Definition ErrIdempotencyReuse : Error := sentinel Unprocessable "idempotency-key-reuse"
  "this Idempotency-Key was already used with a different request".
Definition ErrUnavailable : Error := sentinel Unavailable "unavailable" "a dependency is temporarily unavailable".

(** ** [core.go] and [identity.go]: data *)
Record CoreConfig : Type := mkCoreConfig { cc_Kind : string; cc_Settings : RawMessage }.
Record CoreReceipt : Type := mkCoreReceipt {
  rc_RRN : string;
  rc_ResponseCode : string;
  rc_ResponseText : string;
  rc_Approved : bool;
  rc_Duplicate : bool;
  rc_AuthCode : string;
  rc_ProcessedAt : time;
  rc_Latency : Z
}.
Record Image : Type := mkImage { im_Content : string; im_ContentType : string }.

(** ** [ports.go]: records *)
Section ports.
Context `{DC : Decimal} `{UU : UUID}.

Record DisputeRecord : Type := mkDisputeRecord {
  dr_ID : uuid;
  dr_TenantID : uuid;
  dr_Team : string;
  dr_Regime : Regime;
  dr_State : State;
  dr_Appeals : Z;
  dr_Version : Z;
  dr_TransactionID : uuid;
  dr_AccountID : uuid;
  dr_DisputedAmount : dec;
  dr_Currency : string;
  dr_OpenedAt : time;
  dr_UpdatedAt : time;
  dr_Reason : Reason
}.
Definition Lifecycle_of (r : DisputeRecord) : Dispute := mkDispute (dr_Regime r) (dr_State r) (dr_Appeals r).

Record EventRecord : Type := mkEventRecord {
  ev_Seq : Z;
  ev_Event : Event;
  ev_FromState : State;
  ev_ToState : State;
  ev_Actor : string;
  ev_ActorID : string;
  ev_Payload : RawMessage;
  ev_IdempotencyKey : option string;
  ev_TraceID : option string;
  ev_OccurredAt : time
}.

Record TransactionRecord : Type := mkTransactionRecord {
  tr_ID : uuid;
  tr_TenantID : uuid;
  tr_AccountID : uuid;
  tr_Rail : Rail;
  tr_Amount : dec;
  tr_Currency : string;
  tr_AccountCurrency : string;
  tr_AccountOpenedAt : time;
  tr_Merchant : string;
  tr_MCC : string;
  tr_OccurredAt : time
}.

Record AccountRecord : Type := mkAccountRecord {
  ac_ID : uuid;
  ac_Holder : string;
  ac_Currency : string;
  ac_Email : string;
  ac_PostalAddress : string;
  ac_OpenedAt : time
}.

Record Attachment : Type := mkAttachment {
  at_ID : uuid;
  at_DisputeID : uuid;
  at_NoticeID : option Z;
  at_Filename : string;
  at_ContentType : string;
  at_Size : Z;
  at_Content : string;
  at_UploadedBy : string;
  at_UploadedAt : time
}.

Record TenantTemplate : Type := mkTenantTemplate {
  tt_Kind : NoticeKind;
  tt_Override : RawMessage;
  tt_UpdatedBy : string;
  tt_UpdatedAt : time
}.

Record RiskRecord : Type := mkRiskRecord { rr_Seq : Z; rr_Assessment : Assessment; rr_AssessedAt : time }.

Record NoticeRecord : Type := mkNoticeRecord {
  nr_ID : Z;
  nr_TenantID : uuid;
  nr_DisputeID : uuid;
  nr_Seq : Z;
  nr_Kind : NoticeKind;
  nr_Channel : Channel;
  nr_Recipient : string;
  nr_Subject : string;
  nr_Document : RawMessage;
  nr_CreatedAt : time;
  nr_SentAt : option time;
  nr_Attempts : Z;
  nr_LastError : option string;
  nr_Actor : string;
  nr_ResendOf : option Z;
  nr_TraceContext : string
}.

Record TenantMetadata : Type := mkTenantMetadata { tm_HasLogo : bool; tm_LogoUpdatedAt : option time }.

Record Questionnaire : Type := mkQuestionnaire {
  qr_Reason : Reason;
  qr_Questions : list Question;
  qr_Answers : Answers;  (* empty until received *)
  qr_SentAt : time;
  qr_ReceivedAt : option time
}.

Record LedgerEntry : Type := mkLedgerEntry {
  le_Seq : Z;
  le_Posting : Posting;
  le_Reference : string;
  le_PostedAt : time;
  le_Core : option CoreReceipt
}.

Record SuspenseBalanceRow : Type := mkSuspenseBalanceRow {
  sb_TenantID : uuid;
  sb_Regime : Regime;
  sb_Currency : string;
  sb_Balance : dec
}.

Record Cursor : Type := mkCursor { cu_OpenedAt : time; cu_ID : uuid }.

Record ListQuery : Type := mkListQuery {
  lq_State : option State;
  lq_Reason : option Reason;
  lq_After : option Cursor;
  lq_Limit : Z;
  lq_Overdue : bool;
  lq_Now : time
}.

Record StateCount : Type := mkStateCount { sc_TenantID : uuid; sc_Regime : Regime; sc_State : State; sc_N : Z }.
Record OverdueCount : Type := mkOverdueCount { oc_TenantID : uuid; oc_Regime : Regime; oc_Kind : DeadlineKind; oc_N : Z }.

Record CoreInstruction : Type := mkCoreInstruction {
  ci_Reference : string;
  ci_DisputeID : uuid;
  ci_AccountID : uuid;
  ci_TransactionID : uuid;
  ci_Kind : PostingKind;
  ci_CreditAccount : bool;
  ci_Amount : dec;
  ci_Currency : string;
  ci_RequestedAt : time
}.

Record MemAccess : Type := mkMemAccess {
  ma_Version : Z;
  ma_Teams : list string;
  ma_Default : string;
  ma_Grants : list Grant;
  ma_Routing : list RoutingRule;
  ma_Members : gmap string (list Membership)
}.
End ports.
Arguments DisputeRecord {DC UU}.
Arguments TransactionRecord {DC UU}.
Arguments AccountRecord {UU}.
Arguments Attachment {UU}.
Arguments NoticeRecord {UU}.
Arguments LedgerEntry {DC}.
Arguments ListQuery {UU}.
Arguments CoreInstruction {DC UU}.
Arguments MemAccess {DC}.

(** ** [memstore.go] *)
Section memstore.
Context `{DC : Decimal} `{UU : UUID}.
(** A stored response body: the JSON of a dispute view, whose members of third-party types write themselves. *)
Context {Body : Type}.

Record StoredResponse : Type := mkStoredResponse {
  sr_RequestHash : string;
  sr_StatusCode : Z;
  sr_Body : Body;
  sr_CreatedAt : time
}.

(** The sub-records with a member changed. *)
Definition dr_with_state (r : DisputeRecord) (state : State) (appeals version : Z) (at_ : time) : DisputeRecord :=
  mkDisputeRecord (dr_ID r) (dr_TenantID r) (dr_Team r) (dr_Regime r) state appeals version (dr_TransactionID r)
    (dr_AccountID r) (dr_DisputedAmount r) (dr_Currency r) (dr_OpenedAt r) at_ (dr_Reason r).
Definition dr_with_team (r : DisputeRecord) (team : string) (version : Z) (at_ : time) : DisputeRecord :=
  mkDisputeRecord (dr_ID r) (dr_TenantID r) team (dr_Regime r) (dr_State r) (dr_Appeals r) version (dr_TransactionID r)
    (dr_AccountID r) (dr_DisputedAmount r) (dr_Currency r) (dr_OpenedAt r) at_ (dr_Reason r).
Definition dr_with_tenant (r : DisputeRecord) (tenant : uuid) : DisputeRecord :=
  mkDisputeRecord (dr_ID r) tenant (dr_Team r) (dr_Regime r) (dr_State r) (dr_Appeals r) (dr_Version r)
    (dr_TransactionID r) (dr_AccountID r) (dr_DisputedAmount r) (dr_Currency r) (dr_OpenedAt r) (dr_UpdatedAt r) (dr_Reason r).
Definition at_with_notice (a : Attachment) (id : Z) : Attachment :=
  mkAttachment (at_ID a) (at_DisputeID a) (Some id) (at_Filename a) (at_ContentType a) (at_Size a) (at_Content a)
    (at_UploadedBy a) (at_UploadedAt a).
Definition at_with_dispute (a : Attachment) (id : uuid) : Attachment :=
  mkAttachment (at_ID a) id (at_NoticeID a) (at_Filename a) (at_ContentType a) (at_Size a) (at_Content a)
    (at_UploadedBy a) (at_UploadedAt a).
Definition at_without_content (a : Attachment) : Attachment :=
  mkAttachment (at_ID a) (at_DisputeID a) (at_NoticeID a) (at_Filename a) (at_ContentType a) (at_Size a) ""
    (at_UploadedBy a) (at_UploadedAt a).
Definition nr_with_id (n : NoticeRecord) (id : Z) (tenant : uuid) : NoticeRecord :=
  mkNoticeRecord id tenant (nr_DisputeID n) (nr_Seq n) (nr_Kind n) (nr_Channel n) (nr_Recipient n) (nr_Subject n)
    (nr_Document n) (nr_CreatedAt n) (nr_SentAt n) (nr_Attempts n) (nr_LastError n) (nr_Actor n) (nr_ResendOf n) (nr_TraceContext n).
Definition nr_with_delivery (n : NoticeRecord) (sent : option time) (attempts : Z) (err : option string) : NoticeRecord :=
  mkNoticeRecord (nr_ID n) (nr_TenantID n) (nr_DisputeID n) (nr_Seq n) (nr_Kind n) (nr_Channel n) (nr_Recipient n) (nr_Subject n)
    (nr_Document n) (nr_CreatedAt n) sent attempts err (nr_Actor n) (nr_ResendOf n) (nr_TraceContext n).
Definition q_with_answers (q : Questionnaire) (answers : Answers) (received : option time) : Questionnaire :=
  mkQuestionnaire (qr_Reason q) (qr_Questions q) answers (qr_SentAt q) received.
Definition d_with_settled (d : Deadline) (met voided : option time) : Deadline :=
  mkDeadline (DlKind d) (DlCycle d) (DlStartedAt d) (DlDueAt d) met voided (DlBasis d).

Record MemStore : Type := mkMemStore {
  mTransactions : gmap uuid TransactionRecord;
  mDisputes : gmap uuid DisputeRecord;
  mEvents : gmap uuid (list EventRecord);
  mIdempotent : gmap string StoredResponse;
  mDeadlines : gmap uuid (list Deadline);
  mLedger : gmap uuid (list LedgerEntry);
  mQuestions : gmap uuid Questionnaire;
  mNotices : list NoticeRecord;
  mRisk : gmap uuid (list RiskRecord);
  mAttachments : gmap uuid Attachment;
  mTemplates : gmap uuid (gmap string TenantTemplate);
  mAccounts : gmap uuid AccountRecord;
  mNames : gmap uuid string;
  mTenantLogos : gmap uuid Image;
  mTenantLogoAt : gmap uuid time;
  mAvatars : gmap (uuid * string) Image;
  mnextNotice : Z;
  mCalendars : gmap uuid Calendar;
  mCores : gmap uuid CoreConfig;
  mAccessData : gmap uuid MemAccess
}.
Definition NewMemStore : MemStore :=
  mkMemStore ∅ ∅ ∅ ∅ ∅ ∅ ∅ [] ∅ ∅ ∅ ∅ ∅ ∅ ∅ ∅ 0 ∅ ∅ ∅.

Definition set_Disputes (v : gmap uuid DisputeRecord) (m : MemStore) : MemStore :=
  mkMemStore (mTransactions m) v (mEvents m) (mIdempotent m) (mDeadlines m) (mLedger m) (mQuestions m) (mNotices m) (mRisk m) (mAttachments m) (mTemplates m) (mAccounts m) (mNames m) (mTenantLogos m) (mTenantLogoAt m) (mAvatars m) (mnextNotice m) (mCalendars m) (mCores m) (mAccessData m).
Definition set_Events (v : gmap uuid (list EventRecord)) (m : MemStore) : MemStore :=
  mkMemStore (mTransactions m) (mDisputes m) v (mIdempotent m) (mDeadlines m) (mLedger m) (mQuestions m) (mNotices m) (mRisk m) (mAttachments m) (mTemplates m) (mAccounts m) (mNames m) (mTenantLogos m) (mTenantLogoAt m) (mAvatars m) (mnextNotice m) (mCalendars m) (mCores m) (mAccessData m).
Definition set_Idempotent (v : gmap string StoredResponse) (m : MemStore) : MemStore :=
  mkMemStore (mTransactions m) (mDisputes m) (mEvents m) v (mDeadlines m) (mLedger m) (mQuestions m) (mNotices m) (mRisk m) (mAttachments m) (mTemplates m) (mAccounts m) (mNames m) (mTenantLogos m) (mTenantLogoAt m) (mAvatars m) (mnextNotice m) (mCalendars m) (mCores m) (mAccessData m).
Definition set_Deadlines (v : gmap uuid (list Deadline)) (m : MemStore) : MemStore :=
  mkMemStore (mTransactions m) (mDisputes m) (mEvents m) (mIdempotent m) v (mLedger m) (mQuestions m) (mNotices m) (mRisk m) (mAttachments m) (mTemplates m) (mAccounts m) (mNames m) (mTenantLogos m) (mTenantLogoAt m) (mAvatars m) (mnextNotice m) (mCalendars m) (mCores m) (mAccessData m).
Definition set_Ledger (v : gmap uuid (list LedgerEntry)) (m : MemStore) : MemStore :=
  mkMemStore (mTransactions m) (mDisputes m) (mEvents m) (mIdempotent m) (mDeadlines m) v (mQuestions m) (mNotices m) (mRisk m) (mAttachments m) (mTemplates m) (mAccounts m) (mNames m) (mTenantLogos m) (mTenantLogoAt m) (mAvatars m) (mnextNotice m) (mCalendars m) (mCores m) (mAccessData m).
Definition set_Questions (v : gmap uuid Questionnaire) (m : MemStore) : MemStore :=
  mkMemStore (mTransactions m) (mDisputes m) (mEvents m) (mIdempotent m) (mDeadlines m) (mLedger m) v (mNotices m) (mRisk m) (mAttachments m) (mTemplates m) (mAccounts m) (mNames m) (mTenantLogos m) (mTenantLogoAt m) (mAvatars m) (mnextNotice m) (mCalendars m) (mCores m) (mAccessData m).
Definition set_Notices (v : list NoticeRecord) (m : MemStore) : MemStore :=
  mkMemStore (mTransactions m) (mDisputes m) (mEvents m) (mIdempotent m) (mDeadlines m) (mLedger m) (mQuestions m) v (mRisk m) (mAttachments m) (mTemplates m) (mAccounts m) (mNames m) (mTenantLogos m) (mTenantLogoAt m) (mAvatars m) (mnextNotice m) (mCalendars m) (mCores m) (mAccessData m).
Definition set_Risk (v : gmap uuid (list RiskRecord)) (m : MemStore) : MemStore :=
  mkMemStore (mTransactions m) (mDisputes m) (mEvents m) (mIdempotent m) (mDeadlines m) (mLedger m) (mQuestions m) (mNotices m) v (mAttachments m) (mTemplates m) (mAccounts m) (mNames m) (mTenantLogos m) (mTenantLogoAt m) (mAvatars m) (mnextNotice m) (mCalendars m) (mCores m) (mAccessData m).
Definition set_Attachments (v : gmap uuid Attachment) (m : MemStore) : MemStore :=
  mkMemStore (mTransactions m) (mDisputes m) (mEvents m) (mIdempotent m) (mDeadlines m) (mLedger m) (mQuestions m) (mNotices m) (mRisk m) v (mTemplates m) (mAccounts m) (mNames m) (mTenantLogos m) (mTenantLogoAt m) (mAvatars m) (mnextNotice m) (mCalendars m) (mCores m) (mAccessData m).
Definition set_Templates (v : gmap uuid (gmap string TenantTemplate)) (m : MemStore) : MemStore :=
  mkMemStore (mTransactions m) (mDisputes m) (mEvents m) (mIdempotent m) (mDeadlines m) (mLedger m) (mQuestions m) (mNotices m) (mRisk m) (mAttachments m) v (mAccounts m) (mNames m) (mTenantLogos m) (mTenantLogoAt m) (mAvatars m) (mnextNotice m) (mCalendars m) (mCores m) (mAccessData m).
Definition set_TenantLogos (v : gmap uuid Image) (m : MemStore) : MemStore :=
  mkMemStore (mTransactions m) (mDisputes m) (mEvents m) (mIdempotent m) (mDeadlines m) (mLedger m) (mQuestions m) (mNotices m) (mRisk m) (mAttachments m) (mTemplates m) (mAccounts m) (mNames m) v (mTenantLogoAt m) (mAvatars m) (mnextNotice m) (mCalendars m) (mCores m) (mAccessData m).
Definition set_TenantLogoAt (v : gmap uuid time) (m : MemStore) : MemStore :=
  mkMemStore (mTransactions m) (mDisputes m) (mEvents m) (mIdempotent m) (mDeadlines m) (mLedger m) (mQuestions m) (mNotices m) (mRisk m) (mAttachments m) (mTemplates m) (mAccounts m) (mNames m) (mTenantLogos m) v (mAvatars m) (mnextNotice m) (mCalendars m) (mCores m) (mAccessData m).
Definition set_Avatars (v : gmap (uuid * string) Image) (m : MemStore) : MemStore :=
  mkMemStore (mTransactions m) (mDisputes m) (mEvents m) (mIdempotent m) (mDeadlines m) (mLedger m) (mQuestions m) (mNotices m) (mRisk m) (mAttachments m) (mTemplates m) (mAccounts m) (mNames m) (mTenantLogos m) (mTenantLogoAt m) v (mnextNotice m) (mCalendars m) (mCores m) (mAccessData m).
Definition set_nextNotice (v : Z) (m : MemStore) : MemStore :=
  mkMemStore (mTransactions m) (mDisputes m) (mEvents m) (mIdempotent m) (mDeadlines m) (mLedger m) (mQuestions m) (mNotices m) (mRisk m) (mAttachments m) (mTemplates m) (mAccounts m) (mNames m) (mTenantLogos m) (mTenantLogoAt m) (mAvatars m) v (mCalendars m) (mCores m) (mAccessData m).

(** What [snapshot] copies, and [restore] puts back: nine of the fields. *)
Record snapshotT : Type := mkSnapshot {
  s_disputes : gmap uuid DisputeRecord;
  s_events : gmap uuid (list EventRecord);
  s_idempotent : gmap string StoredResponse;
  s_deadlines : gmap uuid (list Deadline);
  s_ledger : gmap uuid (list LedgerEntry);
  s_questions : gmap uuid Questionnaire;
  s_notices : list NoticeRecord;
  s_risk : gmap uuid (list RiskRecord);
  s_files : gmap uuid Attachment
}.
Definition snapshot (m : MemStore) : snapshotT :=
  mkSnapshot (mDisputes m) (mEvents m) (mIdempotent m) (mDeadlines m) (mLedger m) (mQuestions m) (mNotices m) (mRisk m)
    (mAttachments m).
Definition restore (s : snapshotT) (m : MemStore) : MemStore :=
  mkMemStore (mTransactions m) (s_disputes s) (s_events s) (s_idempotent s) (s_deadlines s) (s_ledger s) (s_questions s)
    (s_notices s) (s_risk s) (s_files s) (mTemplates m) (mAccounts m) (mNames m) (mTenantLogos m) (mTenantLogoAt m)
    (mAvatars m) (mnextNotice m) (mCalendars m) (mCores m) (mAccessData m).

(** The transaction handle [memTx]: the store is passed along; these are its other fields. The principal is Go's
    zero value when the context has none. *)
Record memTx : Type := mkMemTx { t_tenant : uuid; t_principal : option Principal }.

Abbreviation Op A := (MemStore -> M A * MemStore).
Definition ok_store (m : MemStore) : M unit * MemStore := (Ok tt, m).
Definition failing {A} (e : Error) (m : MemStore) : M A * MemStore := (Err (EClass e), m).

Section tx.
Context (t : memTx).

Definition GetTransaction (id : uuid) (m : MemStore) : M TransactionRecord :=
  match mTransactions m !! id with
  | Some r => if decide (tr_TenantID r = t_tenant t) then Ok r else fail ErrNotFound
  | None => fail ErrNotFound
  end.

Definition InsertDispute (d : DisputeRecord) : Op unit := fun m =>
  ok_store (set_Disputes (<[dr_ID d := dr_with_tenant d (t_tenant t)]> (mDisputes m)) m).

Definition GetAccess (p : Principal) (m : MemStore) : M Access :=
  match mAccessData m !! t_tenant t with
  | None => Ok (DefaultAccess p)
  | Some ma =>
      Ok (mkAccess (ma_Version ma) (ma_Default ma) (ma_Teams ma) (ma_Grants ma) (ma_Routing ma)
            (match PrKind p with Analyst => default [] (ma_Members ma !! PID p) | Key => [] end))
  end.

(** The memberships a caller is seen with; Go's zero principal is neither an analyst nor a key. *)
Definition tx_members (m : MemStore) : list Membership :=
  match t_principal t with
  | Some p => match GetAccess p m with Ok a => AMembers a | Err _ => [] end
  | None => []
  end.
Definition visible (m : MemStore) (rec : DisputeRecord) : bool :=
  match t_principal t with
  | Some (mkPrincipal Key _ _ _) => true
  | _ => existsb (fun mem => bool_decide (MTeam mem = dr_Team rec)) (tx_members m)
  end.

Definition GetDispute (id : uuid) (m : MemStore) : M DisputeRecord :=
  match mDisputes m !! id with
  | Some r => if bool_decide (dr_TenantID r = t_tenant t) && visible m r then Ok r else fail ErrNotFound
  | None => fail ErrNotFound
  end.

Definition UpdateDisputeState (id : uuid) (expected : Z) (state : State) (appeals : Z) (at_ : time) : Op unit := fun m =>
  match mDisputes m !! id with
  | Some r =>
      if bool_decide (dr_TenantID r = t_tenant t) && (dr_Version r =? expected) then
        ok_store (set_Disputes (<[id := dr_with_state r state appeals (expected + 1) at_]> (mDisputes m)) m)
      else failing ErrConflict m
  | None => failing ErrConflict m
  end.

Definition UpdateDisputeTeam (id : uuid) (expected : Z) (team : string) (at_ : time) : Op unit := fun m =>
  match mDisputes m !! id with
  | Some r =>
      if bool_decide (dr_TenantID r = t_tenant t) && (dr_Version r =? expected) then
        ok_store (set_Disputes (<[id := dr_with_team r team (expected + 1) at_]> (mDisputes m)) m)
      else failing ErrConflict m
  | None => failing ErrConflict m
  end.

Definition at_key {A} (f : gmap uuid (list A)) (id : uuid) : list A := default [] (f !! id).

Definition AppendEvent (id : uuid) (e : EventRecord) : Op unit := fun m =>
  let have := at_key (mEvents m) id in
  if existsb (fun x => ev_Seq x =? ev_Seq e) have then failing ErrConflict m
  else ok_store (set_Events (<[id := have ++ [e]]> (mEvents m)) m).

Definition ListEvents (id : uuid) (m : MemStore) : M (list EventRecord) := Ok (at_key (mEvents m) id).

Definition nul : string := String Ascii.zero EmptyString.
Definition idempotent_key (scope key : string) : string :=
  uuid_String (t_tenant t) +:+ nul +:+ scope +:+ nul +:+ key.
Definition GetIdempotent (scope key : string) (m : MemStore) : M StoredResponse :=
  match mIdempotent m !! idempotent_key scope key with
  | Some r => Ok r
  | None => fail ErrNotFound
  end.
(** [now] is the reading of the clock the method takes when the record has no time. *)
Definition PutIdempotent (now : time) (scope key : string) (r : StoredResponse) : Op unit := fun m =>
  let r := if IsZero (sr_CreatedAt r)
           then mkStoredResponse (sr_RequestHash r) (sr_StatusCode r) (sr_Body r) now else r in
  ok_store (set_Idempotent (<[idempotent_key scope key := r]> (mIdempotent m)) m).

Definition overdue (m : MemStore) (id : uuid) (now : time) : bool :=
  existsb (fun d => Open d && (DlDueAt d <? now)) (at_key (mDeadlines m) id).

(** The conditions under which the loop of [ListDisputes] keeps a record. *)
Definition list_keeps (m : MemStore) (q : ListQuery) (d : DisputeRecord) : bool :=
  negb (negb (bool_decide (dr_TenantID d = t_tenant t)) || negb (visible m d)
        || match lq_State q with Some s => negb (bool_decide (dr_State d = s)) | None => false end)
  && negb (match lq_Reason q with Some r => negb (bool_decide (dr_Reason d = r)) | None => false end)
  && negb (lq_Overdue q && negb (overdue m (dr_ID d) (lq_Now q)))
  && negb (match lq_After q with Some c => cu_OpenedAt c <? dr_OpenedAt d | None => false end)
  && negb (match lq_After q with
           | Some c => (dr_OpenedAt d =? cu_OpenedAt c)
                       && negb (bool_decide (String.compare (uuid_String (dr_ID d)) (uuid_String (cu_ID c)) = Lt))
           | None => false
           end).
(** The order of a page: newest first, then by the text of the id, descending. *)
Definition list_before (a b : DisputeRecord) : bool :=
  if negb (dr_OpenedAt a =? dr_OpenedAt b) then dr_OpenedAt b <? dr_OpenedAt a
  else bool_decide (String.compare (uuid_String (dr_ID a)) (uuid_String (dr_ID b)) = Gt).
Fixpoint list_insert (a : DisputeRecord) (l : list DisputeRecord) : list DisputeRecord :=
  match l with
  | [] => [a]
  | b :: l' => if list_before a b then a :: l else b :: list_insert a l'
  end.
Definition ListDisputes (q : ListQuery) (m : MemStore) : M (list DisputeRecord) :=
  let all := List.filter (list_keeps m q) (map snd (map_to_list (mDisputes m))) in
  let sorted := foldl (fun l d => list_insert d l) [] all in
  Ok (if lq_Limit q <? Z.of_nat (length sorted) then take (Z.to_nat (lq_Limit q)) sorted else sorted).

Definition TenantCalendar (m : MemStore) : M Calendar :=
  Ok (default DefaultCalendar (mCalendars m !! t_tenant t)).

(** The methods that first read the dispute, for its visibility. *)
Definition seeing {A} (id : uuid) (f : Op A) : Op A := fun m =>
  match GetDispute id m with
  | Ok _ => f m
  | Err e => (Err e, m)
  end.
Definition seeing_read {A} (id : uuid) (f : MemStore -> M A) (m : MemStore) : M A :=
  match GetDispute id m with
  | Ok _ => f m
  | Err e => Err e
  end.

Definition InsertDeadlines (id : uuid) (ds : list Deadline) : Op unit := seeing id (fun m =>
  ok_store (set_Deadlines (<[id := at_key (mDeadlines m) id ++ ds]> (mDeadlines m)) m)).

Definition ListDeadlines (id : uuid) : MemStore -> M (list Deadline) := seeing_read id (fun m =>
  Ok (at_key (mDeadlines m) id)).

Definition settle_deadline (kind : DeadlineKind) (cycle : Z) (met : bool) (at_ : time) (d : Deadline) : Deadline :=
  if bool_decide (DlKind d = kind) && (DlCycle d =? cycle) && Open d then
    (if met then d_with_settled d (Some at_) (DlVoidedAt d) else d_with_settled d (DlMetAt d) (Some at_))
  else d.
Definition SettleDeadline (id : uuid) (kind : DeadlineKind) (cycle : Z) (met : bool) (at_ : time) : Op unit :=
  seeing id (fun m =>
    match mDeadlines m !! id with
    | Some ds => ok_store (set_Deadlines (<[id := map (settle_deadline kind cycle met at_) ds]> (mDeadlines m)) m)
    | None => ok_store m
    end).

(** The earliest open clock of a list, the first of equals. *)
Definition next_deadline (ds : list Deadline) : option Deadline :=
  foldl (fun cur d =>
    if negb (Open d) then cur
    else match cur with
         | Some c => if DlDueAt d <? DlDueAt c then Some d else cur
         | None => Some d
         end) None ds.
Definition NextDeadlines (ids : list uuid) (m : MemStore) : M (gmap uuid Deadline) :=
  Ok (foldl (fun out id =>
        match mDisputes m !! id with
        | Some d =>
            if bool_decide (dr_TenantID d = t_tenant t) then
              match next_deadline (at_key (mDeadlines m) id) with Some dl => <[id := dl]> out | None => out end
            else out
        | None => out
        end) ∅ ids).

Fixpoint append_ledger (id : uuid) (entries : list LedgerEntry) (m : MemStore) : M unit * MemStore :=
  match entries with
  | [] => ok_store m
  | e :: entries =>
      let have := at_key (mLedger m) id in
      if existsb (fun h => bool_decide (le_Reference h = le_Reference e)) have then failing ErrConflict m
      else append_ledger id entries (set_Ledger (<[id := have ++ [e]]> (mLedger m)) m)
  end.
Definition AppendLedger (id : uuid) (entries : list LedgerEntry) : Op unit := seeing id (append_ledger id entries).

Definition ListLedger (id : uuid) : MemStore -> M (list LedgerEntry) := seeing_read id (fun m =>
  Ok (at_key (mLedger m) id)).

Definition TenantCore (m : MemStore) : M CoreConfig :=
  Ok (default (mkCoreConfig "" RawEmpty) (mCores m !! t_tenant t)).

Definition SendQuestionnaire (id : uuid) (q : Questionnaire) : Op unit := seeing id (fun m =>
  ok_store (set_Questions (<[id := q_with_answers q ∅ None]> (mQuestions m)) m)).

Definition GetQuestionnaire (id : uuid) : MemStore -> M Questionnaire := seeing_read id (fun m =>
  match mQuestions m !! id with Some q => Ok q | None => fail ErrNotFound end).

Definition AnswerQuestionnaire (id : uuid) (answers : Answers) (at_ : time) : Op unit := fun m =>
  match GetQuestionnaire id m with
  | Err e => (Err e, m)
  | Ok q =>
      match qr_ReceivedAt q with
      | Some _ => failing ErrNotFound m
      | None => ok_store (set_Questions (<[id := q_with_answers q answers (Some at_)]> (mQuestions m)) m)
      end
  end.

Definition GetAccount (id : uuid) (m : MemStore) : M AccountRecord :=
  match mAccounts m !! id with Some a => Ok a | None => fail ErrNotFound end.

Definition TenantName (m : MemStore) : M string := Ok (default "Test Bank" (mNames m !! t_tenant t)).

Definition InsertNotice (n : NoticeRecord) : Op Z := seeing (nr_DisputeID n) (fun m =>
  let id := mnextNotice m + 1 in
  (Ok id, set_Notices (mNotices m ++ [nr_with_id n id (t_tenant t)]) (set_nextNotice id m))).

Definition ListNotices (id : uuid) : MemStore -> M (list NoticeRecord) := seeing_read id (fun m =>
  Ok (List.filter (fun n => bool_decide (nr_DisputeID n = id)) (mNotices m))).

Definition GetNotice (disputeID : uuid) (id : Z) (m : MemStore) : M NoticeRecord :=
  list ← ListNotices disputeID m;
  match List.find (fun n => nr_ID n =? id) list with
  | Some n => Ok n
  | None => fail ErrNotFound
  end.

Definition AccountHistory (accountID exclude : uuid) (since : time) (m : MemStore) : M (Z * Z) :=
  Ok (foldr (fun '(id, d) '(disputes, lost) =>
        if negb (bool_decide (dr_TenantID d = t_tenant t)) || negb (bool_decide (dr_AccountID d = accountID))
           || bool_decide (id = exclude) then (disputes, lost)
        else (disputes + (if negb (dr_OpenedAt d <? since) then 1 else 0),
              lost + (if existsb (fun e => bool_decide (ev_ToState e = StateChargebackLost)) (at_key (mEvents m) id)
                      then 1 else 0)))
      (0, 0) (map_to_list (mDisputes m))).

Definition InsertRisk (id : uuid) (r : RiskRecord) : Op unit := seeing id (fun m =>
  ok_store (set_Risk (<[id := at_key (mRisk m) id ++ [r]]> (mRisk m)) m)).

Definition ListRisk (id : uuid) : MemStore -> M (list RiskRecord) := seeing_read id (fun m =>
  Ok (at_key (mRisk m) id)).

Definition LatestRisk (ids : list uuid) (m : MemStore) : M (gmap uuid Assessment) :=
  Ok (foldl (fun out id =>
        match mDisputes m !! id with
        | Some d =>
            if bool_decide (dr_TenantID d = t_tenant t) then
              match list.last (at_key (mRisk m) id) with Some r => <[id := rr_Assessment r]> out | None => out end
            else out
        | None => out
        end) ∅ ids).

Definition InsertAttachment (disputeID : uuid) (a : Attachment) : Op unit := seeing disputeID (fun m =>
  ok_store (set_Attachments (<[at_ID a := at_with_dispute a disputeID]> (mAttachments m)) m)).

Fixpoint claim_attachments (disputeID : uuid) (noticeID : Z) (ids : list uuid) (n : Z) (m : MemStore) : Z * MemStore :=
  match ids with
  | [] => (n, m)
  | id :: ids =>
      match mAttachments m !! id with
      | Some a =>
          if negb (bool_decide (at_NoticeID a = None)) || negb (bool_decide (at_DisputeID a = disputeID))
          then claim_attachments disputeID noticeID ids n m
          else claim_attachments disputeID noticeID ids (n + 1)
                 (set_Attachments (<[id := at_with_notice a noticeID]> (mAttachments m)) m)
      | None => claim_attachments disputeID noticeID ids n m
      end
  end.
Definition ClaimAttachments (disputeID : uuid) (noticeID : Z) (ids : list uuid) : Op Z := fun m =>
  let '(n, m) := claim_attachments disputeID noticeID ids 0 m in (Ok n, m).

(** [sort.Slice] by upload time. *)
Fixpoint insert_by_upload (a : Attachment) (l : list Attachment) : list Attachment :=
  match l with
  | [] => [a]
  | b :: l' => if at_UploadedAt a <? at_UploadedAt b then a :: l else b :: insert_by_upload a l'
  end.
Definition sort_by_upload (l : list Attachment) : list Attachment := foldl (fun l a => insert_by_upload a l) [] l.

Definition ListAttachmentMeta (disputeID : uuid) (noticeIDs : list Z) (m : MemStore) : M (list Attachment) :=
  Ok (sort_by_upload (map at_without_content (List.filter (fun a =>
        bool_decide (at_DisputeID a = disputeID)
        && match at_NoticeID a with None => true | Some n => slices_contains noticeIDs n end)
      (map snd (map_to_list (mAttachments m)))))).

Definition GetAttachment (disputeID id : uuid) (m : MemStore) : M Attachment :=
  match mAttachments m !! id with
  | Some a => if decide (at_DisputeID a = disputeID) then Ok a else fail ErrNotFound
  | None => fail ErrNotFound
  end.

Definition tenant_templates (m : MemStore) : gmap string TenantTemplate := default ∅ (mTemplates m !! t_tenant t).
Definition TenantTemplates (m : MemStore) : M (list TenantTemplate) :=
  Ok (sort_Slice (fun tt => NoticeKind_string (tt_Kind tt)) (map snd (map_to_list (tenant_templates m)))).
Definition PutTenantTemplate (tt_ : TenantTemplate) : Op unit := fun m =>
  ok_store (set_Templates (<[t_tenant t := <[NoticeKind_string (tt_Kind tt_) := tt_]> (tenant_templates m)]> (mTemplates m)) m).
Definition DeleteTenantTemplate (kind : NoticeKind) : Op bool := fun m =>
  match mTemplates m !! t_tenant t with
  | Some ts => (Ok (bool_decide (ts !! NoticeKind_string kind <> None)),
                set_Templates (<[t_tenant t := delete (NoticeKind_string kind) ts]> (mTemplates m)) m)
  | None => (Ok false, m)
  end.

Definition GetTenantMetadata (m : MemStore) : M TenantMetadata :=
  match mTenantLogos m !! t_tenant t with
  | Some img =>
      if bool_decide (im_Content img = "") then Ok (mkTenantMetadata false None)
      else Ok (mkTenantMetadata true (Some (default zero_time (mTenantLogoAt m !! t_tenant t))))
  | None => Ok (mkTenantMetadata false None)
  end.
Definition GetTenantLogo (m : MemStore) : M Image :=
  match mTenantLogos m !! t_tenant t with Some img => Ok img | None => fail ErrNotFound end.
Definition PutTenantLogo (img : Image) (at_ : time) : Op unit := fun m =>
  ok_store (set_TenantLogoAt (<[t_tenant t := at_]> (mTenantLogoAt m))
          (set_TenantLogos (<[t_tenant t := img]> (mTenantLogos m)) m)).
Definition GetAnalystAvatar (subject : string) (m : MemStore) : M Image :=
  match mAvatars m !! (t_tenant t, subject) with Some img => Ok img | None => fail ErrNotFound end.
Definition PutAnalystAvatar (subject : string) (img : Image) : Op unit := fun m =>
  ok_store (set_Avatars (<[(t_tenant t, subject) := img]> (mAvatars m)) m).
End tx.

(** ** The methods outside a transaction *)
Definition PurgeIdempotencyKeys (before : time) (m : MemStore) : Z * MemStore :=
  let kept := filter (fun kr => ~ sr_CreatedAt kr.2 < before) (mIdempotent m) in
  (Z.of_nat (size (mIdempotent m)) - Z.of_nat (size kept), set_Idempotent kept m).

Definition PurgeDraftAttachments (before : time) (m : MemStore) : Z * MemStore :=
  let kept := filter (fun ia => ~ (at_NoticeID ia.2 = None /\ at_UploadedAt ia.2 < before)) (mAttachments m) in
  (Z.of_nat (size (mAttachments m)) - Z.of_nat (size kept), set_Attachments kept m).

Definition NoticeAttachments (noticeID : Z) (m : MemStore) : list Attachment :=
  sort_by_upload (List.filter (fun a => bool_decide (at_NoticeID a = Some noticeID)) (map snd (map_to_list (mAttachments m)))).

Definition queued (n : NoticeRecord) : bool :=
  bool_decide (nr_SentAt n = None) && bool_decide (nr_Channel n = ChannelEmail).
Fixpoint claim_notices (batch : nat) (ns : list NoticeRecord) : list NoticeRecord * list NoticeRecord :=
  match ns with
  | [] => ([], [])
  | n :: ns =>
      if queued n then
        match batch with
        | S batch =>
            let n := nr_with_delivery n (nr_SentAt n) (nr_Attempts n + 1) (nr_LastError n) in
            let '(out, rest) := claim_notices batch ns in (n :: out, n :: rest)
        | O => let '(out, rest) := claim_notices O ns in (out, n :: rest)
        end
      else let '(out, rest) := claim_notices batch ns in (out, n :: rest)
  end.
Definition ClaimNotices (batch : Z) (m : MemStore) : list NoticeRecord * MemStore :=
  let '(out, ns) := claim_notices (Z.to_nat batch) (mNotices m) in (out, set_Notices ns m).

Definition OutboxBacklog (m : MemStore) : Z := Z.of_nat (length (List.filter queued (mNotices m))).

Definition FinishNotice (now : time) (id : Z) (failure : string) (m : MemStore) : MemStore :=
  set_Notices (map (fun n =>
    if nr_ID n =? id then
      if bool_decide (failure = "") then nr_with_delivery n (Some now) (nr_Attempts n) None
      else nr_with_delivery n (nr_SentAt n) (nr_Attempts n) (Some failure)
    else n) (mNotices m)) m.
End memstore.
Arguments StoredResponse Body : clear implicits.
Arguments MemStore {DC UU} Body.
Arguments memTx {UU}.
