(* ===== verification/Wire.v ===== *)
(** * Wire: the text forms the API puts on the wire: page cursors, instants and amounts.

    [encodeCursor] and [decodeCursor] of [ports/http/handler.go] over the library's [base64.RawURLEncoding] and
    [time.RFC3339Nano], and [money.Format] of [platform/money]. A UUID's text is another package's to parse. *)
From S2P Require Import Prelude Errs GoTime Ext Text Store.

(** ** Bytes *)
Definition byte_of (a : Ascii.ascii) : Z := Z.of_N (Ascii.N_of_ascii a).
Definition of_byte (n : Z) : Ascii.ascii := Ascii.ascii_of_N (Z.to_N n).
Fixpoint to_bytes (s : string) : list Z := match s with EmptyString => [] | String a s => byte_of a :: to_bytes s end.
Fixpoint of_bytes (l : list Z) : string := match l with [] => EmptyString | n :: l => String (of_byte n) (of_bytes l) end.

Lemma of_byte_of a : of_byte (byte_of a) = a.
Proof. unfold of_byte, byte_of. by rewrite N2Z.id, Ascii.ascii_N_embedding. Qed.
Lemma byte_of_range a : 0 <= byte_of a < 256.
Proof. unfold byte_of. pose proof (Ascii.N_ascii_bounded a). lia. Qed.
Lemma byte_of_of n : 0 <= n < 256 -> byte_of (of_byte n) = n.
Proof. intros H. unfold byte_of, of_byte. rewrite Ascii.N_ascii_embedding by lia. by rewrite Z2N.id by lia. Qed.
Lemma of_to_bytes s : of_bytes (to_bytes s) = s.
Proof. induction s as [|a s IH]; [done|]. cbn. by rewrite of_byte_of, IH. Qed.
Lemma to_bytes_range s : Forall (fun n => 0 <= n < 256) (to_bytes s).
Proof. induction s; constructor; [apply byte_of_range|done]. Qed.

(** ** [base64.RawURLEncoding]: six bits a character, no padding *)
Definition sextet_char (n : Z) : Ascii.ascii :=
  of_byte (if n <? 26 then 65 + n else if n <? 52 then 97 + (n - 26) else if n <? 62 then 48 + (n - 52) else if n =? 62 then 45 else 95).
Definition char_sextet (a : Ascii.ascii) : option Z :=
  let n := byte_of a in
  if (65 <=? n) && (n <=? 90) then Some (n - 65)
  else if (97 <=? n) && (n <=? 122) then Some (n - 97 + 26)
  else if (48 <=? n) && (n <=? 57) then Some (n - 48 + 52)
  else if n =? 45 then Some 62
  else if n =? 95 then Some 63
  else None.
Fixpoint sextets (l : list Z) : list Z :=
  match l with
  | a :: b :: c :: l => a / 4 :: (a mod 4) * 16 + b / 16 :: (b mod 16) * 4 + c / 64 :: c mod 64 :: sextets l
  | [a; b] => [a / 4; (a mod 4) * 16 + b / 16; (b mod 16) * 4]
  | [a] => [a / 4; (a mod 4) * 16]
  | [] => []
  end.
(** Without [Strict] the bits left over of a last, partial group are not looked at. *)
Fixpoint quanta (l : list Z) : option (list Z) :=
  match l with
  | a :: b :: c :: d :: l => rest ← quanta l; Some (a * 4 + b / 16 :: (b mod 16) * 16 + c / 4 :: (c mod 4) * 64 + d :: rest)
  | [a; b; c] => Some [a * 4 + b / 16; (b mod 16) * 16 + c / 4]
  | [a; b] => Some [a * 4 + b / 16]
  | [] => Some []
  | [_] => None
  end.
Definition EncodeToString (s : string) : string := of_bytes (map (fun n => byte_of (sextet_char n)) (sextets (to_bytes s))).
(** Line breaks in the text are skipped. *)
Definition line_break (n : Z) : bool := (n =? 10) || (n =? 13).
Definition DecodeString (s : string) : option string :=
  l ← mapM (fun n => char_sextet (of_byte n)) (List.filter (fun n => negb (line_break n)) (to_bytes s));
  of_bytes <$> quanta l.

Lemma list_triple_ind {A} (P : list A -> Prop) : P [] -> (forall a, P [a]) -> (forall a b, P [a; b]) ->
  (forall a b c l, P l -> P (a :: b :: c :: l)) -> forall l, P l.
Proof.
  intros H0 H1 H2 H3. fix IH 1. intros [|a [|b [|c l]]]; [done|done|done|]. apply H3, IH.
Qed.
Lemma quanta_sextets l : Forall (fun n => 0 <= n < 256) l -> quanta (sextets l) = Some l /\ Forall (fun n => 0 <= n < 64) (sextets l).
Proof.
  induction l as [|a|a b|a b c l IH] using list_triple_ind; intros H; [done| | |]; repeat (apply list.Forall_cons in H as [? H]).
  - cbn [sextets quanta]. split; [|repeat constructor]; [do 2 f_equal|..]; Z.to_euclidean_division_equations; lia.
  - cbn [sextets quanta]. split; [|repeat constructor]; [do 2 f_equal; [|f_equal]|..]; Z.to_euclidean_division_equations; lia.
  - cbn [sextets quanta]. destruct (IH H) as [-> Hs]. cbn. split; [|repeat constructor; try done]; [do 2 f_equal; [|f_equal; [|f_equal]]|..]; Z.to_euclidean_division_equations; lia.
Qed.
Lemma sextet_round n : 0 <= n < 64 -> char_sextet (sextet_char n) = Some n /\ line_break (byte_of (sextet_char n)) = false.
Proof.
  intros H. assert (Hall : forallb (fun k => bool_decide (char_sextet (sextet_char (Z.of_nat k)) = Some (Z.of_nat k)) && negb (line_break (byte_of (sextet_char (Z.of_nat k))))) (seq 0 64) = true)
    by (vm_compute; reflexivity).
  rewrite forallb_forall in Hall. specialize (Hall (Z.to_nat n)). rewrite Z2Nat.id in Hall by lia.
  destruct (proj1 (andb_true_iff _ _) (Hall ltac:(apply in_seq; lia))) as [H1 H2]. split; [by apply bool_decide_eq_true in H1|by apply negb_true_iff in H2].
Qed.
Lemma to_of_bytes l : Forall (fun n => 0 <= n < 256) l -> to_bytes (of_bytes l) = l.
Proof. induction 1 as [|n l Hn _ IH]; [done|]. cbn. by rewrite byte_of_of, IH. Qed.
(** What is encoded is decoded, whatever the bytes. *)
Lemma base64_round s : DecodeString (EncodeToString s) = Some s.
Proof.
  unfold DecodeString, EncodeToString. destruct (quanta_sextets _ (to_bytes_range s)) as [Hq Hr].
  rewrite to_of_bytes by (apply List.Forall_map; eapply list.Forall_impl; [exact Hr|intros n _; apply byte_of_range]).
  assert (H : forall l, Forall (fun n => 0 <= n < 64) l ->
    mapM (fun n => char_sextet (of_byte n)) (List.filter (fun n => negb (line_break n)) (map (fun n => byte_of (sextet_char n)) l)) = Some l).
  { induction 1 as [|n l Hn _ IH]; [done|]. destruct (sextet_round n Hn) as [H1 H2]. cbn [map List.filter]. rewrite H2. cbn [negb mapM]. rewrite of_byte_of, H1. cbn. by rewrite IH. }
  rewrite H by done. cbn [mbind option_bind]. rewrite Hq. cbn. by rewrite of_to_bytes.
Qed.

(** ** [time.RFC3339Nano], in UTC *)
(** The fraction of a second without its trailing zeros. *)
Fixpoint frac (places : nat) (n : Z) : string :=
  match places with
  | S p => if n =? 0 then "" else digit (n / 10 ^ Z.of_nat p) +:+ frac p (n mod 10 ^ Z.of_nat p)
  | O => ""
  end.
Definition format_nano (t : time) : string :=
  let '(y, m, d) := date_of UTC t in
  let c := local_clock UTC t in
  let ns := nanos t in
  pad4 y +:+ ("-" +:+ (pad2 m +:+ ("-" +:+ (pad2 d +:+ ("T" +:+ (pad2 (c / 3600) +:+ (":" +:+ (pad2 (c / 60 mod 60) +:+ (":" +:+ (pad2 (c mod 60) +:+
    ((if ns =? 0 then "" else "." +:+ frac 9 ns) +:+ "Z"))))))))))).

Definition lit (c : Ascii.ascii) (s : string) : option string :=
  match s with String a s => if bool_decide (a = c) then Some s else None | EmptyString => None end.
(** Two digits; one will do where the layout does not fix the width. *)
Definition getnum (fixed : bool) (s : string) : option (Z * string) :=
  match s with
  | String a s' =>
      x ← digit_value a;
      match s' with
      | String b s'' => match digit_value b with Some y => Some (x * 10 + y, s'') | None => if fixed then None else Some (x, s') end
      | EmptyString => if fixed then None else Some (x, s')
      end
  | EmptyString => None
  end.
Definition year4 (s : string) : option (Z * string) :=
  match s with
  | String a (String b (String c (String d s))) =>
      w ← digit_value a; x ← digit_value b; y ← digit_value c; z ← digit_value d; Some (w * 1000 + x * 100 + y * 10 + z, s)
  | _ => None
  end.
Definition in_range (lo hi n : Z) : option unit := if (lo <=? n) && (n <=? hi) then Some tt else None.
Fixpoint take_digits (s : string) : list Z * string :=
  match s with
  | String a s' => match digit_value a with Some n => let '(l, rest) := take_digits s' in (n :: l, rest) | None => ([], s) end
  | EmptyString => ([], s)
  end.
(** The first nine digits count. *)
Fixpoint ns_of (places : nat) (l : list Z) : Z :=
  match places, l with S p, d :: l => d * 10 ^ Z.of_nat p + ns_of p l | _, _ => 0 end.
(** A point or a comma not followed by a digit is left for the zone to refuse. *)
Definition parse_frac (s : string) : Z * string :=
  match s with
  | String a s' =>
      if bool_decide (a = "."%char) || bool_decide (a = ","%char) then
        let '(l, rest) := take_digits s' in match l with [] => (0, s) | _ => (ns_of 9 l, rest) end
      else (0, s)
  | EmptyString => (0, s)
  end.
(** The seconds east of UTC. Offsets of 24 hours and of 60 minutes are let pass. *)
Definition parse_zone (s : string) : option (Z * string) :=
  match s with
  | String a s' =>
      if bool_decide (a = "Z"%char) then Some (0, s')
      else
        '(hr, s') ← getnum true s'; s' ← lit ":" s'; '(mm, s') ← getnum true s';
        _ ← in_range 0 24 hr; _ ← in_range 0 60 mm;
        let off := (hr * 60 + mm) * 60 in
        if bool_decide (a = "+"%char) then Some (off, s') else if bool_decide (a = "-"%char) then Some (- off, s') else None
  | EmptyString => None
  end.
Definition parse_nano (s : string) : option time :=
  '(y, s) ← year4 s; s ← lit "-" s;
  '(m, s) ← getnum true s; _ ← in_range 1 12 m; s ← lit "-" s;
  '(d, s) ← getnum true s; s ← lit "T" s;
  '(h, s) ← getnum false s; _ ← in_range 0 23 h; s ← lit ":" s;
  '(mi, s) ← getnum true s; _ ← in_range 0 59 mi; s ← lit ":" s;
  '(sec, s) ← getnum true s; _ ← in_range 0 59 sec;
  let '(ns, s) := parse_frac s in
  '(off, s) ← parse_zone s;
  _ ← in_range 1 (days_in m y) d;
  if bool_decide (s = "") then Some (Date y m d h mi sec ns UTC - off * Second) else None.

(** *** Reading back what was printed *)
Lemma digit_char n : exists a, digit n = String a EmptyString /\ digit_value a = Some (n mod 10).
Proof.
  eexists. split; [reflexivity|]. pose proof (Z.mod_pos_bound n 10). unfold digit_value. rewrite Ascii.nat_ascii_embedding by lia.
  replace ((48 <=? Z.of_nat (48 + Z.to_nat (n mod 10))) && (Z.of_nat (48 + Z.to_nat (n mod 10)) <=? 57)) with true by (symmetry; apply andb_true_iff; split; apply Z.leb_le; lia).
  f_equal. lia.
Qed.
Lemma getnum_pad2 fixed n s : 0 <= n < 100 -> getnum fixed (pad2 n +:+ s)%string = Some (n, s).
Proof.
  intros H. unfold pad2. destruct (digit_char (n / 10)) as (a & -> & Ha), (digit_char n) as (b & -> & Hb). change ((String a "" +:+ String b "") +:+ s)%string with (String a (String b s)). unfold getnum. rewrite Ha. cbn [mbind option_bind]. rewrite Hb. do 2 f_equal.
  Z.to_euclidean_division_equations. lia.
Qed.
Lemma year4_pad4 n s : 0 <= n < 10000 -> year4 (pad4 n +:+ s)%string = Some (n, s).
Proof.
  intros H. unfold pad4. replace ((0 <=? n) && (n <? 10000)) with true by (symmetry; apply andb_true_iff; split; [apply Z.leb_le|apply Z.ltb_lt]; lia).
  destruct (digit_char (n / 1000)) as (a & -> & Ha), (digit_char (n / 100)) as (b & -> & Hb), (digit_char (n / 10)) as (c & -> & Hc), (digit_char n) as (d & -> & Hd).
  change ((String a "" +:+ (String b "" +:+ (String c "" +:+ String d ""))) +:+ s)%string with (String a (String b (String c (String d s)))).
  unfold year4. rewrite Ha, Hb, Hc, Hd. cbn [mbind option_bind]. do 2 f_equal. Z.to_euclidean_division_equations. lia.
Qed.
Lemma lit_same c c' s : c = c' -> lit c (String c' s) = Some s.
Proof. intros <-. cbn. by rewrite bool_decide_true. Qed.
Lemma take_digits_frac places n s : 0 <= n < 10 ^ Z.of_nat places -> take_digits s = ([], s) ->
  exists l, take_digits (frac places n +:+ s)%string = (l, s) /\ ns_of places l = n /\ (0 < n -> l <> []).
Proof.
  intros Hn Hs. revert n Hn. induction places as [|p IH]; intros n Hn.
  - exists []. cbn in *. split_and!; [done|lia|lia].
  - cbn [frac]. destruct (n =? 0) eqn:E; to_prop; [exists []; cbn; split_and!; [done|lia|lia]|].
    assert (Hp : 10 ^ Z.of_nat (S p) = 10 * 10 ^ Z.of_nat p) by (rewrite Nat2Z.inj_succ, Z.pow_succ_r; lia).
    assert (Hpos : 0 < 10 ^ Z.of_nat p) by (apply Z.pow_pos_nonneg; lia).
    destruct (IH (n mod 10 ^ Z.of_nat p)) as (l & Hl & Hv & _); [by apply Z.mod_pos_bound|].
    exists (n / 10 ^ Z.of_nat p :: l). destruct (digit_char (n / 10 ^ Z.of_nat p)) as (a & -> & Ha). change ((String a "" +:+ frac p (n mod 10 ^ Z.of_nat p)) +:+ s)%string with (String a (frac p (n mod 10 ^ Z.of_nat p) +:+ s)). cbn [take_digits]. rewrite Ha, Hl. assert (Hd : 0 <= n / 10 ^ Z.of_nat p < 10) by (split; [apply Z.div_pos; lia|apply Z.div_lt_upper_bound; lia]).
    rewrite (Z.mod_small _ 10) by done. split_and!; [done| |done]. cbn [ns_of]. rewrite Hv. rewrite (Z.div_mod n (10 ^ Z.of_nat p)) at 3 by lia. lia.
Qed.
Lemma in_range_ok lo hi n : lo <= n <= hi -> in_range lo hi n = Some tt.
Proof. intros H. unfold in_range. replace ((lo <=? n) && (n <=? hi)) with true; [done|]. symmetry. apply andb_true_iff. split; apply Z.leb_le; lia. Qed.

(** The 366th day of a year counted from March is in a leap year: 400 cases. *)
Lemma leap_day yoe doe : 0 <= doe < 146097 -> yoe = (doe - doe / 1460 + doe / 36524 - doe / 146096) / 365 ->
  doe = 365 * yoe + yoe / 4 - yoe / 100 + 365 -> is_leap (yoe + 1) = true.
Proof.
  intros Hd Hy H. assert (Hr : 0 <= yoe <= 399) by (subst yoe; apply (yoe_range doe Hd)).
  assert (Hall : forallb (fun k => let y := Z.of_nat k in let e := 365 * y + y / 4 - y / 100 + 365 in
    is_leap (y + 1) || (146096 <? e) || negb ((e - e / 1460 + e / 36524 - e / 146096) / 365 =? y)) (seq 0 400) = true) by (vm_compute; reflexivity).
  rewrite forallb_forall in Hall. specialize (Hall (Z.to_nat yoe) ltac:(apply in_seq; lia)). cbv beta zeta in Hall. rewrite Z2Nat.id in Hall by lia. rewrite <- H, <- Hy in Hall.
  destruct (is_leap (yoe + 1)); [done|]. cbn [orb] in Hall. apply orb_true_iff in Hall as [Hall|Hall]; [apply Z.ltb_lt in Hall; lia|].
  by rewrite Z.eqb_refl in Hall.
Qed.
Lemma leap_shift y k : is_leap (y + k * 400) = is_leap y.
Proof.
  unfold is_leap. replace ((y + k * 400) mod 4) with (y mod 4) by (Z.to_euclidean_division_equations; lia).
  replace ((y + k * 400) mod 100) with (y mod 100) by (Z.to_euclidean_division_equations; lia).
  by rewrite Z_mod_plus_full.
Qed.
Lemma days_in_long m y : m <> 2 -> 30 <= days_in m y.
Proof. intros H. unfold days_in. rewrite (proj2 (Z.eqb_neq m 2)) by done. destruct (_ || _ || _ || _); lia. Qed.
Lemma days_in_31 m y : m = 1 \/ m = 3 \/ m = 5 \/ m = 7 \/ m = 8 \/ m = 10 \/ m = 12 -> days_in m y = 31.
Proof. intros H. unfold days_in. by destruct H as [->|[->|[->|[->|[->|[->| ->]]]]]]. Qed.
(** The day a date shows is a day of its month. *)
Lemma civil_day_in_month n y m d : civil_from_days n = (y, m, d) -> 1 <= d <= days_in m y.
Proof.
  intros H. pose proof (civil_from_days_range n y m d H) as [Hm Hd]. split; [lia|]. unfold civil_from_days in H.
  set (doe := (n + 719468) mod 146097) in H. assert (Hdoe : 0 <= doe < 146097) by (apply Z.mod_pos_bound; lia).
  set (era := (n + 719468) / 146097) in H. clearbody era doe. pose proof (yoe_range doe Hdoe) as [Hy Hdoy]. cbv zeta in Hy, Hdoy.
  set (yoe := (doe - doe / 1460 + doe / 36524 - doe / 146096) / 365) in *. assert (Hyoe : yoe = (doe - doe / 1460 + doe / 36524 - doe / 146096) / 365) by done. clearbody yoe.
  set (doy := doe - (365 * yoe + yoe / 4 - yoe / 100)) in *. assert (Hdoy' : doe = 365 * yoe + yoe / 4 - yoe / 100 + doy) by (subst doy; lia). clearbody doy.
  assert (Hmp : 0 <= (5 * doy + 2) / 153 <= 11) by (by apply month_range).
  set (mp := (5 * doy + 2) / 153) in *. assert (Hlo : 153 * mp <= 5 * doy + 2 < 153 * mp + 153) by (subst mp; pose proof (Z.div_mod (5 * doy + 2) 153); pose proof (Z.mod_pos_bound (5 * doy + 2) 153); lia). clearbody mp.
  destruct (decide (mp = 11)) as [->|Hne].
  - cbn in H. injection H as <- <- <-. change ((153 * 11 + 2) / 5) with 337. change (11 - 9) with 2. unfold days_in. cbn [Z.eqb Pos.eqb].
    destruct (decide (doy = 365)) as [->|Hn]; [|destruct (is_leap _); lia].
    assert (Hl : is_leap (yoe + 1) = true) by (by eapply leap_day).
    replace (yoe + era * 400 + 1) with (yoe + 1 + era * 400) by lia. rewrite leap_shift, Hl. lia.
  - assert (mp = 0 \/ mp = 1 \/ mp = 2 \/ mp = 3 \/ mp = 4 \/ mp = 5 \/ mp = 6 \/ mp = 7 \/ mp = 8 \/ mp = 9 \/ mp = 10) as Hc by lia.
    repeat (destruct Hc as [->|Hc]); [..|subst mp]; cbn in H; injection H as <- <- <-;
      first [rewrite days_in_31 by lia; Z.to_euclidean_division_equations; lia | etransitivity; [|apply days_in_long; lia]; Z.to_euclidean_division_equations; lia].
Qed.

Lemma Date_of t : let '(y, m, d) := date_of UTC t in let c := local_clock UTC t in Date y m d (c / 3600) (c / 60 mod 60) (c mod 60) (nanos t) UTC = t.
Proof.
  unfold date_of. pose proof (days_from_civil_from_days (local_day UTC t)) as Hn. destruct (civil_from_days _) as [[y m] d] eqn:E.
  pose proof (civil_from_days_range _ y m d E) as [Hm Hd]. cbv zeta. unfold Date.
  replace ((m - 1) / 12) with 0 by (symmetry; apply Z.div_small; lia). replace ((m - 1) mod 12) with (m - 1) by (symmetry; apply Z.mod_small; lia).
  replace (m - 1 + 1) with m by lia. replace (d - 1) with (d - 1 + 0) by lia. rewrite Z.add_0_r at 1. rewrite days_from_civil_add, Hn.
  assert (Hns : 0 <= nanos t < Second) by (apply Z.mod_pos_bound; done). rewrite (Z.div_small (nanos t)), (Z.mod_small (nanos t)) by done.
  unfold resolve_offset. cbn [loc_lookup UTC]. cbn [Z.eqb]. rewrite Z.sub_0_r, !Z.add_0_r.
  assert (Hc : local_day UTC t * Day_seconds + local_clock UTC t / 3600 * 3600 + (local_clock UTC t / 60) mod 60 * 60 + local_clock UTC t mod 60 = secs t).
  { unfold local_day, local_clock, local_secs, loc_offset. cbn [loc_lookup UTC fst]. rewrite Z.add_0_r. unfold Day_seconds. Z.to_euclidean_division_equations. lia. }
  rewrite Hc. unfold secs, nanos. rewrite Z.mul_comm. symmetry. by apply Z.div_mod.
Qed.
Ltac take_lit := match goal with |- context [lit ?a (String.append (String ?b EmptyString) ?c)] =>
  change (String.append (String b EmptyString) c) with (String b c); rewrite (lit_same a b c eq_refl); cbn [mbind option_bind] end.
(** An instant in a year of four digits is read back from its text. *)
Lemma parse_format_nano t : four_digit_year (local_day UTC t) -> parse_nano (format_nano t) = Some t.
Proof.
  intros Hy. unfold four_digit_year in Hy. pose proof (Date_of t) as HD. unfold parse_nano, format_nano. unfold date_of in *.
  pose proof (civil_from_days_range (local_day UTC t)) as Hr. pose proof (civil_day_in_month (local_day UTC t)) as Hdm.
  destruct (civil_from_days (local_day UTC t)) as [[y m] d]. specialize (Hr y m d eq_refl) as [Hm Hd]. specialize (Hdm y m d eq_refl). cbn [fst] in Hy. cbv zeta in HD |- *.
  assert (Hc : 0 <= local_clock UTC t < 86400) by (apply Z.mod_pos_bound; done). set (c := local_clock UTC t) in *. clearbody c.
  rewrite year4_pad4 by done. cbn [mbind option_bind]. take_lit.
  rewrite getnum_pad2 by lia. cbn [mbind option_bind]. rewrite in_range_ok by lia. cbn [mbind option_bind]. take_lit.
  rewrite getnum_pad2 by lia. cbn [mbind option_bind]. take_lit.
  assert (Hh : 0 <= c / 3600 <= 23) by (Z.to_euclidean_division_equations; lia). assert (Hmi : 0 <= (c / 60) mod 60 <= 59) by (pose proof (Z.mod_pos_bound (c / 60) 60); lia).
  assert (Hs : 0 <= c mod 60 <= 59) by (pose proof (Z.mod_pos_bound c 60); lia).
  rewrite getnum_pad2 by lia. cbn [mbind option_bind]. rewrite in_range_ok by lia. cbn [mbind option_bind]. take_lit.
  rewrite getnum_pad2 by lia. cbn [mbind option_bind]. rewrite in_range_ok by lia. cbn [mbind option_bind]. take_lit.
  rewrite getnum_pad2 by lia. cbn [mbind option_bind]. rewrite in_range_ok by lia. cbn [mbind option_bind].
  assert (Hns : 0 <= nanos t < Second) by (apply Z.mod_pos_bound; done).
  assert (Hf : parse_frac ((if (nanos t =? 0)%Z then "" else "." +:+ frac 9 (nanos t)) +:+ "Z")%string = (nanos t, "Z")).
  { destruct (nanos t =? 0) eqn:E0; to_prop; [by rewrite E0|]. destruct (take_digits_frac 9 (nanos t) "Z") as (l & Hl & Hv & Hne); [done|done|].
    change (("." +:+ frac 9 (nanos t)) +:+ "Z")%string with (String "." (frac 9 (nanos t) +:+ "Z")). unfold parse_frac. rewrite bool_decide_true by done. cbn [orb].
    rewrite Hl. destruct l; [by specialize (Hne ltac:(lia))|]. by rewrite Hv. }
  rewrite Hf. cbn [parse_zone mbind option_bind]. rewrite bool_decide_true by done. cbn [mbind option_bind]. rewrite in_range_ok by lia. cbn [mbind option_bind]. rewrite bool_decide_true by done.
  f_equal. rewrite HD. lia.
Qed.

(** ** Cursors *)
Section cursors.
Context `{UU : UUID} (uuid_Parse : string -> option uuid).
Definition bar : Ascii.ascii := "|"%char.
Definition encodeCursor (c : Cursor) : string :=
  EncodeToString (format_nano (cu_OpenedAt c) +:+ String bar (uuid_String (cu_ID c))).
Definition decodeCursor (raw : string) : option Cursor :=
  b ← DecodeString raw;
  match Cut b bar with
  | (_, None) => None
  | (at_, Some id) => t ← parse_nano at_; u ← uuid_Parse id; Some (mkCursor t u)
  end.

Definition no_bar (s : string) : Prop := contains_char s bar = false.
Lemma no_bar_app a b : no_bar a -> no_bar b -> no_bar (a +:+ b).
Proof. unfold no_bar. intros Ha Hb. induction a as [|x a IH]; [exact Hb|]. change (String x a +:+ b) with (String x (a +:+ b)). cbn [contains_char] in Ha |- *. destruct (bool_decide (x = bar)); [discriminate Ha|]. exact (IH Ha). Qed.
Lemma no_bar_digit n : no_bar (digit n).
Proof.
  unfold no_bar. destruct (digit_char n) as (a & -> & Ha). cbn. destruct (decide (a = bar)) as [->|H]; [discriminate Ha|]. by rewrite bool_decide_false.
Qed.
Lemma no_bar_pad2 n : no_bar (pad2 n).
Proof. apply no_bar_app; apply no_bar_digit. Qed.
Lemma no_bar_frac p n : no_bar (frac p n).
Proof. revert n. induction p as [|p IH]; intros n; [done|]. cbn [frac]. destruct (_ =? _); [done|]. apply no_bar_app; [apply no_bar_digit|apply IH]. Qed.
Lemma no_bar_format t : four_digit_year (local_day UTC t) -> no_bar (format_nano t).
Proof.
  unfold four_digit_year, format_nano, date_of. destruct (civil_from_days _) as [[y m] d]. cbn [fst]. intros Hy. cbv zeta.
  assert (Hp : no_bar (pad4 y)).
  { unfold pad4. replace ((0 <=? y) && (y <? 10000)) with true by (symmetry; apply andb_true_iff; split; [apply Z.leb_le|apply Z.ltb_lt]; lia).
    repeat (apply no_bar_app; [apply no_bar_digit|]). apply no_bar_digit. }
  repeat (apply no_bar_app; [first [exact Hp | apply no_bar_pad2 | done]|]). apply no_bar_app; [|done]. destruct (_ =? _); [done|]. apply no_bar_app; [done|apply no_bar_frac].
Qed.
Lemma Cut_no_bar a b : no_bar a -> Cut (a +:+ String bar b) bar = (a, Some b).
Proof.
  unfold no_bar. induction a as [|x a IH]; intros H; [by change (Cut (String bar b) bar = (""%string, Some b)); cbn [Cut]; rewrite bool_decide_true|]. change (String x a +:+ String bar b) with (String x (a +:+ String bar b)). cbn [contains_char Cut] in H |- *. destruct (bool_decide (x = bar)); [done|]. by rewrite IH.
Qed.
(** A cursor is read back as it was, when its instant is in a year of four digits. *)
Lemma cursor_round c : (forall u, uuid_Parse (uuid_String u) = Some u) -> four_digit_year (local_day UTC (cu_OpenedAt c)) ->
  decodeCursor (encodeCursor c) = Some c.
Proof.
  intros Hu Hy. unfold decodeCursor, encodeCursor. rewrite base64_round. cbn [mbind option_bind]. rewrite Cut_no_bar by (by apply no_bar_format).
  rewrite parse_format_nano by done. cbn [mbind option_bind]. rewrite Hu. by destruct c.
Qed.
End cursors.

(** ** Money *)
Section money.
Context `{DC : Decimal}.
Definition minorUnits : list (string * Z) :=
  [("HUF", 0); ("JPY", 0); ("KRW", 0); ("ISK", 0); ("CLP", 0); ("BHD", 3); ("KWD", 3); ("JOD", 3); ("OMR", 3); ("TND", 3)].
Definition Minor (currency : string) : Z :=
  match List.find (fun u => bool_decide (u.1 = currency)) minorUnits with Some u => u.2 | None => 2 end.
Definition Format (d : dec) (currency : string) : string := StringFixed d (Minor currency).
End money.

(** ** Concrete forms *)
Example cursor_text : format_nano (Date 2026 3 2 9 5 7 120000000 UTC) = "2026-03-02T09:05:07.12Z".
Proof. vm_compute. reflexivity. Qed.
Example cursor_base64 : EncodeToString "2026|ab" = "MjAyNnxhYg".
Proof. vm_compute. reflexivity. Qed.
Example lenient_time : parse_nano "2026-03-02T9:05:07,5+01:00" = Some (Date 2026 3 2 8 5 7 500000000 UTC).
Proof. vm_compute. reflexivity. Qed.
Example no_such_day : parse_nano "2026-02-29T09:05:07Z" = None.
Proof. vm_compute. reflexivity. Qed.
(** A year of five digits is printed and not read. *)
Example far_year : parse_nano (format_nano (Date 12026 3 2 9 0 0 0 UTC)) = None.
Proof. vm_compute. reflexivity. Qed.
