(* ===== verification/Authz.v ===== *)
(** * Authz: who may do what, by the tenant's grants and the guardrails no tenant can change ([internal/dispute/authz]).

    Policies are written in Cedar, whose parser, decimals and authorizer are a library's: a class. What the class says
    of the authorizer is the documented meaning of the constructs the repository's policies use, stated over a syntax
    of policies; [guardrails] is [policy/guardrails.cedar] in that syntax. The rows a compilation skips are only logged:
    the rows themselves stand for their text. The mutex makes a call of the engine one step. *)
From Stdlib Require Import QArith.
From S2P Require Import Prelude Errs Ext Types Text Wire Access.
Local Open Scope Z_scope.

(** ** Cedar: policies *)
(** An entity: its type and its id. *)
Abbreviation UID := (string * string)%type.
Definition uid (typ id : string) : UID := (typ, id).
Inductive Effect : Type := Permit | Forbid.
#[export] Instance Effect_eq_dec : EqDecision Effect.
Proof. solve_decision. Defined.
Inductive Scope : Type := AnyOf | Is (type : string) | In (u : UID).
Inductive ActionScope : Type := AnyAction | ActionIn (names : list string).
Inductive Expr : Type :=
| EPrincipal | EResource
| EString (s : string) | EDecimal (text : string)
| EGet (e : Expr) (attribute : string)
| EEqual (a b : Expr) | EAnd (a b : Expr) | EIs (e : Expr) (type : string)
| EContains (set e : Expr) | ELessThanOrEqual (a b : Expr).
Inductive Condition : Type := When (e : Expr) | Unless (e : Expr).
Record Policy : Type := mkPolicy {
  po_ID : option string;   (* the annotation *)
  po_Effect : Effect;
  po_Principal : Scope;
  po_Action : ActionScope;
  po_Resource : Scope;
  po_Conditions : list Condition
}.
Inductive Value : Type := VString (s : string) | VBool (b : bool) | VDecimal (z : Z) | VEntity (u : UID) | VSet (l : list UID).
#[export] Instance Value_eq_dec : EqDecision Value.
Proof. solve_decision. Defined.
Record Entity : Type := mkEntity { en_Parents : list UID; en_Attributes : list (string * Value) }.
Abbreviation EntityMap := (gmap UID Entity).
Record CedarRequest : Type := mkCedarRequest { cr_Principal : UID; cr_Action : string; cr_Resource : UID }.
Abbreviation PolicySet := (gmap string Policy).

(** *** What the language means, as documented *)
Section semantics.
(** [decimal("...")]: the text in ten-thousandths, or an error. *)
Context (decimal_of : string -> option Z) (ents : EntityMap) (req : CedarRequest).

Definition attribute (u : UID) (name : string) : option Value :=
  e ← ents !! u; snd <$> List.find (fun kv => bool_decide (kv.1 = name)) (en_Attributes e).
(** [in]: the entity itself or one above it. *)
Fixpoint in_within (n : nat) (u v : UID) : bool :=
  bool_decide (u = v) ||
  match n with
  | O => false
  | S n => match ents !! u with Some e => existsb (fun p => in_within n p v) (en_Parents e) | None => false end
  end.
(** No chain is longer than the number of entities. *)
Definition entity_in (u v : UID) : bool := in_within (3 + size ents) u v.

(** [None]: an error of evaluation. *)
Fixpoint eval (e : Expr) : option Value :=
  match e with
  | EPrincipal => Some (VEntity (cr_Principal req))
  | EResource => Some (VEntity (cr_Resource req))
  | EString s => Some (VString s)
  | EDecimal text => VDecimal <$> decimal_of text
  | EGet e name => match eval e with Some (VEntity u) => attribute u name | _ => None end
  | EEqual a b => match eval a, eval b with Some x, Some y => Some (VBool (bool_decide (x = y))) | _, _ => None end
  | EAnd a b =>
      match eval a with
      | Some (VBool false) => Some (VBool false)
      | Some (VBool true) => match eval b with Some (VBool y) => Some (VBool y) | _ => None end
      | _ => None
      end
  | EIs e type => match eval e with Some (VEntity u) => Some (VBool (bool_decide (u.1 = type))) | _ => None end
  | EContains set e => match eval set, eval e with Some (VSet l), Some (VEntity u) => Some (VBool (bool_decide (u ∈ l))) | Some (VSet l), Some _ => Some (VBool false) | _, _ => None end
  | ELessThanOrEqual a b => match eval a, eval b with Some (VDecimal x), Some (VDecimal y) => Some (VBool (x <=? y)) | _, _ => None end
  end.
Definition scope_holds (s : Scope) (u : UID) : bool :=
  match s with AnyOf => true | Is type => bool_decide (u.1 = type) | In v => entity_in u v end.
Definition action_holds (s : ActionScope) : bool :=
  match s with AnyAction => true | ActionIn names => bool_decide (cr_Action req ∈ names) end.
Fixpoint conditions_hold (cs : list Condition) : option bool :=
  match cs with
  | [] => Some true
  | c :: cs =>
      match c, eval match c with When e | Unless e => e end with
      | When _, Some (VBool true) | Unless _, Some (VBool false) => conditions_hold cs
      | When _, Some (VBool false) | Unless _, Some (VBool true) => Some false
      | _, _ => None
      end
  end.
(** A policy applies, does not, or cannot be evaluated. *)
Definition satisfied (p : Policy) : option bool :=
  if scope_holds (po_Principal p) (cr_Principal req) && action_holds (po_Action p) && scope_holds (po_Resource p) (cr_Resource req)
  then conditions_hold (po_Conditions p) else Some false.
Definition deciding (eff : Effect) (ps : PolicySet) : list string :=
  omap (fun kv => if bool_decide (po_Effect kv.2 = eff) && bool_decide (satisfied kv.2 = Some true) then Some kv.1 else None) (map_to_list ps).
Definition failed (ps : PolicySet) : list string :=
  omap (fun kv => if bool_decide (satisfied kv.2 = None) then Some kv.1 else None) (map_to_list ps).
End semantics.

Class Cedar : Type := {
  NewPolicyListFromBytes : string -> option (list Policy);
  ParseDecimal : string -> option Z;
  (* allowed, the ids of the policies that decided, and those of the policies that failed *)
  cedar_Authorize : PolicySet -> EntityMap -> CedarRequest -> bool * list string * list string
}.
(** Any forbid that applies overrides every permit; without either a request is denied; a policy that fails to
    evaluate is not applied, and is reported. *)
Class CedarLaws (CE : Cedar) : Prop := cedar_documented : forall ps ents req,
  let forbids := deciding ParseDecimal ents req Forbid ps in
  let permits := deciding ParseDecimal ents req Permit ps in
  let '(allowed, reasons, errors) := cedar_Authorize ps ents req in
  allowed = bool_decide (forbids = []) && negb (bool_decide (permits = [])) /\
  reasons ≡ₚ (if bool_decide (forbids = []) then permits else forbids) /\
  errors ≡ₚ failed ParseDecimal ents req ps.

(** ** The guardrails *)
Definition guardrails : list Policy :=
  let opened_by := EGet EResource "investigationOpenedBy" in
  [mkPolicy (Some "sod-final-credit") Forbid (Is "Analyst") (ActionIn ["ISSUE_FINAL_CREDIT"]) (Is "Dispute")
     [When (EEqual opened_by (EGet EPrincipal "id"))];
   mkPolicy (Some "sod-unrecorded-investigator") Forbid (Is "Analyst") (ActionIn ["ISSUE_FINAL_CREDIT"]) (Is "Dispute")
     [When (EEqual opened_by (EString "?unrecorded"))];
   mkPolicy (Some "reassign-leads-only") Forbid AnyOf (ActionIn ["reassign"]) (Is "Dispute")
     [Unless (EAnd (EIs EPrincipal "Analyst") (EContains (EGet EPrincipal "leadOf") (EGet EResource "team")))];
   mkPolicy (Some "tenant-admin") Permit (Is "Analyst") (ActionIn ["manage-keys"; "manage-templates"; "manage-branding"]) (Is "Tenant")
     [When (EGet EPrincipal "tenantAdmin")];
   mkPolicy (Some "keys-disputes") Permit (Is "TenantKey") AnyAction (Is "Dispute") [];
   mkPolicy (Some "keys-create") Permit (Is "TenantKey") (ActionIn ["create"]) (Is "Team") [];
   mkPolicy (Some "keys-not-people") Forbid (Is "TenantKey")
     (ActionIn ["compose-email"; "upload-attachment"; "resend-notice"; "reassign"]) AnyOf []].

(** ** Grants *)
Definition team_char (a : Ascii.ascii) : bool :=
  let n := byte_of a in
  ((48 <=? n) && (n <=? 57)) || ((65 <=? n) && (n <=? 90)) || ((97 <=? n) && (n <=? 122)) || (n =? 95) || (n =? 45).
Fixpoint every_char (p : Ascii.ascii -> bool) (s : string) : bool :=
  match s with EmptyString => true | String a s => p a && every_char p s end.
Definition one_to_64 (s : string) : bool := negb (bool_decide (s = "")) && (String.length s <=? 64)%nat.
Definition safeTeam (s : string) : bool := one_to_64 s && every_char team_char s.
Definition safeAction (s : string) : bool := one_to_64 s && every_char (fun a => team_char a || (byte_of a =? 58)) s.

Section authz.
Context `{DC : Decimal} `{UU : UUID} {CE : Cedar}.

(** [RequireFromString] of a constant. *)
Definition cedarMax : dec := default dec_zero (NewFromString "922337203685477.5807").
Definition expressible (g : Grant) : bool :=
  slices_contains Roles (GRole g) && safeTeam (GTeam g) && safeAction (GAction g) &&
  match GAmountLimit g with Some limit => negb (IsNegative limit || GreaterThan limit cedarMax) | None => true end.
Definition grant_id (g : Grant) : string := "grant:" +:+ GTeam g +:+ "/" +:+ Role_string (GRole g) +:+ "/" +:+ GAction g.
Definition grant_text (g : Grant) : string :=
  "@id(" +:+ quoted (grant_id g) +:+ ")" +:+ newline +:+
  "permit (principal in TeamRole::" +:+ quoted (GTeam g +:+ "/" +:+ Role_string (GRole g)) +:+ ", action == Action::" +:+ quoted (GAction g)
  +:+ ", resource in Team::" +:+ quoted (GTeam g) +:+ ")" +:+
  match GAmountLimit g with
  | Some limit => newline +:+ "when { resource.amount.lessThanOrEqual(decimal(" +:+ quoted (StringFixed limit 4) +:+ ")) }"
  | None => ""
  end +:+ ";" +:+ newline +:+ newline.
(** The text of a tenant's grants and the rows that were skipped. *)
Definition Compile (a : Access) : string * list Grant :=
  (String.concat "" (map grant_text (List.filter expressible (AGrants a))), List.filter (fun g => negb (expressible g)) (AGrants a)).

(** ** Entities *)
Definition teamRole (team : string) (r : Role) : UID := (uid "TeamRole" (team +:+ "/" +:+ Role_string r)).
Definition principalUID (p : Principal) : UID := match PrKind p with Key => uid "TenantKey" (PID p) | Analyst => uid "Analyst" (PID p) end.
Definition ladder (t : string) : list (UID * Entity) :=
  [(teamRole t RoleLead, mkEntity [teamRole t RoleSenior] []); (teamRole t RoleSenior, mkEntity [teamRole t RoleJunior] []);
   (teamRole t RoleJunior, mkEntity [] []); ((uid "Team" (t)), mkEntity [] [])].
Definition caller_entity (p : Principal) (a : Access) : Entity :=
  match PrKind p with
  | Analyst =>
      mkEntity (map (fun m => teamRole (MTeam m) (MRole m)) (AMembers a))
        [("id", VString (PID p));
         ("leadOf", VSet (map (fun m => (uid "Team" (MTeam m))) (List.filter (fun m => bool_decide (MRole m = RoleLead)) (AMembers a))));
         ("tenantAdmin", VBool (PTenantAdmin p))]
  | Key => mkEntity [] [("profile", VString "")]
  end.
Definition insert_all (es : list (UID * Entity)) : EntityMap := foldl (fun m e => <[e.1 := e.2]> m) ∅ es.
Definition dec_min (a b : dec) : dec := if LessThan b a then b else a.
Definition dispute_entity (d : DisputeFacts) (amount : Z) : Entity :=
  mkEntity [(uid "Team" (DFTeam d))]
    [("team", VEntity (uid "Team" (DFTeam d))); ("amount", VDecimal amount); ("currency", VString (DFCurrency d));
     ("rail", VString (Rail_string (DFRail d))); ("state", VString (State_string (DFState d)));
     ("investigationOpenedBy", VString (DFInvestigationOpenedBy d))].
(** The ladder of every team, the caller and the tenant, in the order they are put in. *)
Definition base_entities (p : Principal) (a : Access) (tenant : UID) : list (UID * Entity) :=
  concat (map ladder (ATeams a)) ++ [(principalUID p, caller_entity p a); (tenant, mkEntity [] [])].
Definition entities (p : Principal) (a : Access) (d : option DisputeFacts) (tenant : UID) : M (EntityMap * UID) :=
  let m := base_entities p a tenant in
  match d with
  | None => Ok (insert_all m, tenant)
  | Some d =>
      if bool_decide (DFID d = uuid_Nil) then Ok (insert_all m, (uid "Team" (DFTeam d)))
      else match ParseDecimal (StringFixed (dec_min (DFAmount d) cedarMax) 4) with
           | None => Err (EPlain "cedar: the amount cannot be read")
           | Some amount => let res := (uid "Dispute" (uuid_String (DFID d))) in Ok (insert_all (m ++ [(res, dispute_entity d amount)]), res)
           end
  end.

(** ** The engine *)
Record Engine : Type := mkEngine { eg_guardrails : list Policy; eg_sets : gmap uuid (Z * PolicySet) }.
(** [New], given the embedded file. *)
Definition New_engine (file : string) : M Engine :=
  match NewPolicyListFromBytes file with
  | None => Err (EPlain "authz: guardrails")
  | Some list =>
      if existsb (fun p => bool_decide (po_ID p = None)) list then Err (EPlain "authz: a guardrail has no @id")
      else Ok (mkEngine list ∅)
  end.
Definition policy_set (list : list Policy) : PolicySet := foldl (fun m p => <[default "" (po_ID p) := p]> m) ∅ list.
(** [Engine.set]. *)
Definition engine_set (tenantID : uuid) (a : Access) (e : Engine) : M PolicySet * Engine :=
  let build :=
    match NewPolicyListFromBytes (Compile a).1 with
    | None => (Err (EPlain "authz: compiled grants"), e)
    | Some grants =>
        let ps := policy_set (eg_guardrails e ++ grants) in
        (Ok ps, mkEngine (eg_guardrails e) (<[tenantID := (AVersion a, ps)]> (eg_sets e)))
    end in
  match eg_sets e !! tenantID with
  | Some (version, ps) => if version =? AVersion a then (Ok ps, e) else build
  | None => build
  end.
Definition decide_with (ps : PolicySet) (tenantID : uuid) (p : Principal) (a : Access) (action : Action) (d : option DisputeFacts) : M Decision :=
  '(ents, resource) ← entities p a d (uid "Tenant" (uuid_String tenantID));
  let '(allowed, reasons, errors) := cedar_Authorize ps ents (mkCedarRequest (principalUID p) action resource) in
  match errors with
  | [] => Ok (mkDecision allowed (sort_Slice (fun s => s) reasons))
  | _ => Err (EPlain "authz: evaluation")
  end.
(** [Engine.Decide]. *)
Definition engine_Decide (tenantID : uuid) (p : Principal) (a : Access) (action : Action) (d : option DisputeFacts) (e : Engine)
    : M Decision * Engine :=
  match engine_set tenantID a e with
  | (Err err, e) => (Err err, e)
  | (Ok ps, e) => (decide_with ps tenantID p a action d, e)
  end.
End authz.
