(* ===== verification/AuthzFacts.v ===== *)
(** * AuthzFacts: what the policy engine decides.

    [verdict] is what a tenant's rows and the guardrails mean, said without policies, entities or decimals; the engine,
    its cache included, answers it. *)
From Stdlib Require Import QArith Lqa.
From S2P Require Import Prelude Errs Ext Types Text Wire Access Authz.
Local Open Scope Z_scope.

(** ** Names *)
Lemma safe_prefix_inj (ok : Ascii.ascii -> bool) c (s1 s2 r1 r2 : string) : ok c = false ->
  every_char ok s1 = true -> every_char ok s2 = true ->
  (s1 +:+ String c r1 = s2 +:+ String c r2)%string -> s1 = s2 /\ r1 = r2.
Proof.
  intros Hc. revert s2. induction s1 as [|a s1 IH]; intros [|b s2] H1 H2 H; cbn in *.
  - injection H as ->. done.
  - injection H as <- H. by rewrite Hc in H2.
  - injection H as -> H. by rewrite Hc in H1.
  - apply andb_true_iff in H1 as [_ H1], H2 as [_ H2]. injection H as -> H.
    destruct (IH s2 H1 H2 H) as [-> ->]. done.
Qed.

(** A role on the ladder, as a number. *)
Definition rung (r : Role) : Z := match r with RoleJunior => 1 | RoleSenior => 2 | RoleLead => 3 | RoleOther _ => 0 end.
Lemma on_ladder r : r ∈ Roles <-> r = RoleJunior \/ r = RoleSenior \/ r = RoleLead.
Proof. unfold Roles. rewrite !elem_of_cons, elem_of_nil. naive_solver. Qed.

Fixpoint last_char (d : Ascii.ascii) (s : string) : Ascii.ascii :=
  match s with EmptyString => d | String a s => last_char a s end.
Lemma last_char_slash d s r : last_char d (s +:+ "/" +:+ r) = last_char "/" r.
Proof. revert d. by induction s as [|b s IH]; intros d; [|apply IH]. Qed.

Lemma str_suffix_inj (s1 s2 r1 r2 : string) : String.length r1 = String.length r2 ->
  (s1 +:+ r1 = s2 +:+ r2)%string -> s1 = s2 /\ r1 = r2.
Proof.
  intros Hl H. apply str_app_inj_length; [|done].
  apply (f_equal String.length) in H. rewrite !str_length_app in H. lia.
Qed.

Lemma teamRole_inj t1 t2 r1 r2 : r1 ∈ Roles -> r2 ∈ Roles -> teamRole t1 r1 = teamRole t2 r2 -> t1 = t2 /\ r1 = r2.
Proof.
  intros H1 H2 H. unfold teamRole, uid in H. assert (H' : (t1 +:+ "/" +:+ Role_string r1)%string = (t2 +:+ "/" +:+ Role_string r2)%string) by congruence.
  clear H. apply on_ladder in H1, H2.
  assert (Hc : last_char Ascii.zero (t1 +:+ "/" +:+ Role_string r1)%string = last_char Ascii.zero (t2 +:+ "/" +:+ Role_string r2)%string) by congruence.
  rewrite !last_char_slash in Hc.
  destruct H1 as [->|[->| ->]], H2 as [->|[->| ->]]; try discriminate Hc;
    apply str_suffix_inj in H' as [-> H']; solve [reflexivity|discriminate H'|done].
Qed.

(** ** The entities of a request *)
Section entities.
Context `{DC : Decimal} `{UU : UUID} {CE : Cedar}.

Lemma insert_all_app es es' : insert_all (es ++ es') = foldl (fun m e => <[e.1 := e.2]> m) (insert_all es) es'.
Proof. apply foldl_app. Qed.
Lemma insert_all_snoc es e : insert_all (es ++ [e]) = <[e.1 := e.2]> (insert_all es).
Proof. by rewrite insert_all_app. Qed.

(** What a store made of a list of entities holds: a key with one value in the list has that value. *)
Lemma insert_all_some es u x : (u, x) ∈ es -> (forall y, (u, y) ∈ es -> y = x) -> insert_all es !! u = Some x.
Proof.
  induction es as [|[v y] es IH] using rev_ind; intros Hin Huniq; [by apply elem_of_nil in Hin|].
  rewrite insert_all_snoc. cbn. destruct (decide (v = u)) as [->|Hne].
  - rewrite lookup_insert_eq. f_equal. apply Huniq. apply elem_of_app. right. by apply list_elem_of_singleton.
  - rewrite lookup_insert_ne by done. apply IH.
    + apply elem_of_app in Hin as [?|Hin]; [done|]. apply list_elem_of_singleton in Hin. congruence.
    + intros z Hz. apply Huniq. apply elem_of_app. by left.
Qed.
Lemma insert_all_none es u : (forall y, (u, y) ∉ es) -> insert_all es !! u = None.
Proof.
  induction es as [|[v y] es IH] using rev_ind; intros Hno; [apply lookup_empty|].
  rewrite insert_all_snoc. cbn. destruct (decide (v = u)) as [->|Hne].
  - exfalso. apply (Hno y). apply elem_of_app. right. by apply list_elem_of_singleton.
  - rewrite lookup_insert_ne by done. apply IH. intros z Hz. apply (Hno z). apply elem_of_app. by left.
Qed.

(** Access data as the database's keys and checks leave it: a caller's teams are the tenant's, roles are on the ladder,
    and a grant is there once. *)
Record well_formed (a : Access) : Prop := {
  wf_teams : Forall (fun m => MTeam m ∈ ATeams a) (AMembers a);
  wf_roles : Forall (fun m => MRole m ∈ Roles) (AMembers a);
  wf_grants : NoDup (map (fun g => (GTeam g, GRole g, GAction g)) (AGrants a))
}.
(** The caller has role [r] in team [t], or one above it. *)
Definition holds (a : Access) (t : string) (r : Role) : bool :=
  existsb (fun m => bool_decide (MTeam m = t) && (rung r <=? rung (MRole m))) (AMembers a).
Definition leads (a : Access) (t : string) : bool :=
  existsb (fun m => bool_decide (MTeam m = t) && bool_decide (MRole m = RoleLead)) (AMembers a).

(** ** Lookups in the store of a request *)
Section lookups.
Context (p : Principal) (a : Access) (tenant : UID) (extra : list (UID * Entity)).
Hypothesis tenant_typed : tenant.1 = "Tenant".
Hypothesis extra_typed : Forall (fun e => e.1.1 = "Dispute") extra.
Let es : list (UID * Entity) := base_entities p a tenant ++ extra.
Let ents : EntityMap := insert_all es.

Lemma in_store u y : (u, y) ∈ es ->
  (exists t, t ∈ ATeams a /\ (u, y) ∈ ladder t) \/ (u, y) = (principalUID p, caller_entity p a) \/
  (u, y) = (tenant, mkEntity [] []) \/ (u.1 = "Dispute" /\ (u, y) ∈ extra).
Proof.
  unfold es, base_entities. rewrite !elem_of_app, !elem_of_cons, elem_of_nil. intros [[H|[H|[H|[]]]]|H]; [left|by right; left|by right; right; left|].
  - apply list_elem_of_In, in_concat in H as (l & Hl & H). apply in_map_iff in Hl as (t & <- & Ht).
    exists t. by rewrite !list_elem_of_In.
  - right; right; right. rewrite list.Forall_forall in extra_typed. split; [exact (extra_typed _ H)|done].
Qed.
Lemma principal_typed : (principalUID p).1 = "Analyst" \/ (principalUID p).1 = "TenantKey".
Proof. unfold principalUID. destruct (PrKind p); [by left|by right]. Qed.
Lemma ladder_typed t u y : (u, y) ∈ ladder t -> (exists r, r ∈ Roles /\ u = teamRole t r) \/ (u = uid "Team" t /\ y = mkEntity [] []).
Proof.
  unfold ladder. rewrite !elem_of_cons, elem_of_nil. intros [H|[H|[H|[H|[]]]]]; injection H as -> ->;
    [left; eexists; (split; [|reflexivity]); by_eval..|by right].
Qed.
(** What is in the store under a type's name. *)
Lemma in_store_typed u y : (u, y) ∈ es ->
  (u.1 = "TeamRole" /\ exists t, t ∈ ATeams a /\ (u, y) ∈ ladder t) \/ (u.1 = "Team" /\ y = mkEntity [] []) \/
  ((u.1 = "Analyst" \/ u.1 = "TenantKey") /\ (u, y) = (principalUID p, caller_entity p a)) \/
  (u.1 = "Tenant" /\ y = mkEntity [] []) \/ (u.1 = "Dispute" /\ (u, y) ∈ extra).
Proof.
  intros [(t & Ht & H)|[H|[H|[H1 H2]]]]%in_store.
  - destruct (ladder_typed _ _ _ H) as [(r & _ & ->)|[-> ->]]; [left; split; [done|by exists t]|by right; left].
  - right; right; left. pose proof principal_typed. split; [|done]. injection H as -> _. done.
  - injection H as -> ->. by right; right; right; left.
  - by right; right; right; right.
Qed.

Lemma lookup_who : ents !! principalUID p = Some (caller_entity p a).
Proof.
  apply insert_all_some.
  - unfold es, base_entities. apply elem_of_app. left. apply elem_of_app. right. left.
  - intros y H. pose proof principal_typed as Hp. apply in_store_typed in H as [[E _]|[[E _]|[[_ H]|[[E _]|[E _]]]]];
      [rewrite E in Hp; by destruct Hp|rewrite E in Hp; by destruct Hp|by injection H|rewrite E in Hp; by destruct Hp|rewrite E in Hp; by destruct Hp].
Qed.
Lemma lookup_typed u e : ents !! u = Some e -> (u, e) ∈ es.
Proof.
  unfold ents, insert_all. assert (Hg : forall l (m : EntityMap), foldl (fun m e => <[e.1 := e.2]> m) m l !! u = Some e ->
    m !! u = Some e \/ (u, e) ∈ l).
  { induction l as [|[v y] l IH]; intros m H; cbn in H; [by left|]. apply IH in H as [H|H]; [|by right; right].
    apply lookup_insert_Some in H as [[-> ->]|[_ H]]; [right; left|by left]. }
  intros [H|H]%Hg; [by rewrite lookup_empty in H|done].
Qed.
Lemma lookup_plain u e : u.1 = "Team" \/ u.1 = "Tenant" -> ents !! u = Some e -> e = mkEntity [] [].
Proof.
  intros Hu H%lookup_typed%in_store_typed.
  destruct H as [[E _]|[[E H]|[[[E|E] _]|[[E H]|[E _]]]]]; try done; rewrite E in Hu; by destruct Hu.
Qed.
Lemma lookup_rung t r : t ∈ ATeams a -> r ∈ Roles ->
  ents !! teamRole t r = Some (mkEntity (match r with RoleLead => [teamRole t RoleSenior] | RoleSenior => [teamRole t RoleJunior] | _ => [] end) []).
Proof.
  intros Ht Hr. apply insert_all_some.
  - unfold es, base_entities. apply elem_of_app. left. apply elem_of_app. left. apply list_elem_of_In, in_concat.
    exists (ladder t). split; [apply in_map; by apply list_elem_of_In|].
    apply on_ladder in Hr as [->|[->| ->]]; cbn; auto.
  - intros y H%in_store_typed. destruct H as [[_ (t' & _ & H)]|[[E _]|[[[E|E] _]|[[E _]|[E _]]]]]; try discriminate E.
    unfold ladder in H. rewrite !elem_of_cons, elem_of_nil in H.
    destruct H as [H|[H|[H|[H|[]]]]]; pose proof (f_equal fst H) as Hu; pose proof (f_equal snd H) as Hy; cbn [fst snd] in Hu, Hy; subst y;
      try discriminate Hu; apply teamRole_inj in Hu as [-> ->]; try done; by_eval.
Qed.
Lemma lookup_dispute u y : (u, y) ∈ extra -> (forall z, (u, z) ∈ extra -> z = y) -> ents !! u = Some y.
Proof.
  intros Hin Huniq. apply insert_all_some; [unfold es; apply elem_of_app; by right|].
  pose proof extra_typed as Ht. rewrite list.Forall_forall in Ht. specialize (Ht _ Hin). cbn in Ht.
  intros z H%in_store_typed. destruct H as [[E _]|[[E _]|[[[E|E] _]|[[E _]|[_ H]]]]]; try (rewrite Ht in E; discriminate E). by apply Huniq.
Qed.

(** *** Who is in what *)
Lemma same_rung t1 t2 r1 r2 : r1 ∈ Roles -> r2 ∈ Roles ->
  bool_decide (teamRole t1 r1 = teamRole t2 r2) = bool_decide (t1 = t2) && bool_decide (r1 = r2).
Proof.
  intros H1 H2. destruct (decide (teamRole t1 r1 = teamRole t2 r2)) as [E|E].
  - rewrite (bool_decide_true _ E). apply teamRole_inj in E as [-> ->]; [|done..]. by rewrite !bool_decide_true.
  - rewrite (bool_decide_false _ E). case_bool_decide as E1; [|done]. case_bool_decide as E2; [|done]. by subst.
Qed.
Lemma in_within_step n u v e : ents !! u = Some e ->
  in_within ents (S n) u v = bool_decide (u = v) || existsb (fun q => in_within ents n q v) (en_Parents e).
Proof. intros H. cbn. by rewrite H. Qed.
Lemma in_within_plain n u v : u.1 = "Team" \/ u.1 = "Tenant" -> in_within ents n u v = bool_decide (u = v).
Proof.
  intros Hu. destruct n as [|n]; cbn; [by rewrite orb_false_r|]. destruct (ents !! u) as [e|] eqn:E; [|by rewrite orb_false_r].
  rewrite (lookup_plain _ _ Hu E). by rewrite orb_false_r.
Qed.
Lemma rung_within n t1 r1 t2 r2 : t1 ∈ ATeams a -> r1 ∈ Roles -> r2 ∈ Roles ->
  in_within ents (S (S n)) (teamRole t1 r1) (teamRole t2 r2) = bool_decide (t1 = t2) && (rung r2 <=? rung r1).
Proof.
  intros Ht H1 H2. rewrite (in_within_step _ _ _ _ (lookup_rung _ _ Ht H1)), same_rung by done.
  assert (Hj : RoleJunior ∈ Roles) by by_eval. assert (Hs : RoleSenior ∈ Roles) by by_eval.
  assert (Hjun : forall k, in_within ents k (teamRole t1 RoleJunior) (teamRole t2 r2) = bool_decide (t1 = t2) && bool_decide (RoleJunior = r2))
    by (intros [|k]; [cbn [in_within]|rewrite (in_within_step _ _ _ _ (lookup_rung _ _ Ht Hj)); cbn [existsb en_Parents]];
      by rewrite same_rung, orb_false_r).
  assert (Hsen : forall k, in_within ents (S k) (teamRole t1 RoleSenior) (teamRole t2 r2) = bool_decide (t1 = t2) && (rung r2 <=? 2)).
  { intros k. rewrite (in_within_step _ _ _ _ (lookup_rung _ _ Ht Hs)), same_rung by done. cbn [existsb en_Parents]. rewrite Hjun.
    apply on_ladder in H2 as [->|[->| ->]]; case_bool_decide; done. }
  apply on_ladder in H1 as [->|[->| ->]]; cbn [existsb en_Parents]; rewrite ?Hjun, ?Hsen;
    apply on_ladder in H2 as [->|[->| ->]]; case_bool_decide; done.
Qed.

Lemma who_holds t r : well_formed a -> r ∈ Roles ->
  entity_in ents (principalUID p) (teamRole t r) = match PrKind p with Analyst => holds a t r | Key => false end.
Proof.
  intros [Ht Hr _] H. unfold entity_in. cbn [Nat.add]. rewrite (in_within_step _ _ _ _ lookup_who).
  rewrite bool_decide_false by (intros E; pose proof principal_typed as Hp; rewrite E in Hp; by destruct Hp).
  unfold caller_entity. destruct (PrKind p); [|done]. cbn [orb en_Parents]. unfold holds.
  rewrite list.Forall_forall in Ht, Hr. induction (AMembers a) as [|m ms IH]; [done|]. cbn [map existsb].
  rewrite rung_within; [|apply Ht; left|apply Hr; left|done]. f_equal.
  apply IH; intros m' Hm; [apply Ht|apply Hr]; by right.
Qed.
Lemma dispute_in u d amount t : extra = [(u, dispute_entity d amount)] ->
  entity_in ents u (uid "Team" t) = bool_decide (DFTeam d = t).
Proof.
  intros Hx. assert (Hu : u.1 = "Dispute").
  { pose proof extra_typed as H. rewrite list.Forall_forall in H. apply (H (u, dispute_entity d amount)). rewrite Hx. left. }
  unfold entity_in. cbn [Nat.add]. rewrite (in_within_step _ _ _ (dispute_entity d amount)).
  - rewrite bool_decide_false by (intros ->; discriminate Hu). cbn [orb en_Parents dispute_entity existsb].
    rewrite in_within_plain by by left. rewrite orb_false_r. unfold uid. apply bool_decide_ext. split; congruence.
  - apply lookup_dispute; rewrite Hx; [left|]. intros z Hz. apply list_elem_of_singleton in Hz. congruence.
Qed.
End lookups.
End entities.

(** ** What is decided *)
Section verdict.
Context `{DC : Decimal} {DL : DecimalLaws DC} `{UU : UUID}.

(** What a request is about: the tenant, a team a dispute would go to, or a dispute. *)
Inductive Target : Type := ToTenant | ToTeam (t : string) | ToDispute (d : DisputeFacts).
Definition resource_of (d : option DisputeFacts) : Target :=
  match d with
  | None => ToTenant
  | Some d => if bool_decide (DFID d = uuid_Nil) then ToTeam (DFTeam d) else ToDispute d
  end.

Definition people_only : list Action := [ActionComposeEmail; ActionUploadAttachment; ActionResendNotice; ActionReassign].
Definition administration : list Action := [ActionManageKeys; ActionManageTemplates; ActionManageBranding].

(** An amount in ten-thousandths, halves away from zero. *)
Definition units (d : dec) : Z := Qround.Qfloor (dval d * 10000 + (1 # 2)).
Definition within_limit (g : Grant) (amount : dec) : bool :=
  match GAmountLimit g with Some l => units (dec_min amount cedarMax) <=? units (dec_min l cedarMax) | None => true end.
(** A grant that can be compiled and that the caller's roles give on this team. *)
Definition covers (a : Access) (action : Action) (t : string) (g : Grant) : bool :=
  expressible g && (holds a (GTeam g) (GRole g) && bool_decide (action = GAction g) && bool_decide (t = GTeam g)).
Definition limited (g : Grant) : bool := bool_decide (is_Some (GAmountLimit g)).

(** Whether the caller may, and [None] where that cannot be evaluated. *)
Definition verdict (p : Principal) (a : Access) (action : Action) (d : option DisputeFacts) : option bool :=
  match PrKind p, resource_of d with
  | Key, ToTenant => Some false
  | Key, ToTeam _ => Some (bool_decide (action = ActionCreate))
  | Key, ToDispute _ => Some (negb (bool_decide (action ∈ people_only)))
  | Analyst, ToTenant => Some (PTenantAdmin p && bool_decide (action ∈ administration))
  | Analyst, ToTeam t =>
      (* a limit asks for the amount of a team *)
      if existsb (fun g => covers a action t g && limited g) (AGrants a) then None
      else Some (existsb (covers a action t) (AGrants a))
  | Analyst, ToDispute d =>
      let final_credit := bool_decide (action = EventAction EventIssueFinalCredit) in
      let opener := DFInvestigationOpenedBy d in
      Some (negb (final_credit && (bool_decide (opener = PID p) || bool_decide (opener = "?unrecorded")))
            && negb (bool_decide (action = ActionReassign) && negb (leads a (DFTeam d)))
            && existsb (fun g => covers a action (DFTeam d) g && within_limit g (DFAmount d)) (AGrants a))
  end.
End verdict.

(** ** Sets of policies *)
Section policies.
Context `{DC : Decimal} `{UU : UUID} {CE : Cedar} {CL : CedarLaws CE}.

Definition policy_id (q : Policy) : string := default "" (po_ID q).
Lemma policy_set_lookup l : NoDup (map policy_id l) -> forall id q, policy_set l !! id = Some q <-> q ∈ l /\ policy_id q = id.
Proof.
  induction l as [|x l IH] using rev_ind; intros Hnd id q; [cbn; rewrite lookup_empty, elem_of_nil; naive_solver|].
  unfold policy_set. rewrite foldl_app. change (foldl _ ∅ l) with (policy_set l). cbn [foldl].
  rewrite map_app in Hnd. apply list.NoDup_app in Hnd as (Hnd & Hx & _). specialize (IH Hnd).
  change (default "" (po_ID x)) with (policy_id x). rewrite lookup_insert_Some, IH, elem_of_app, list_elem_of_singleton. split.
  - intros [[<- ->]|[Hne [Hq Hid]]]; [by split; [right|]|by split; [left|]].
  - intros [[Hq| ->] Hid]; [|by left]. right. split; [|done]. intros Hxq.
    apply (Hx (policy_id q)); [by apply list_elem_of_fmap_2|]. cbn. rewrite Hid, Hxq. left.
Qed.

Definition applies (ents : EntityMap) (req : CedarRequest) (eff : Effect) (q : Policy) : bool :=
  bool_decide (po_Effect q = eff) && bool_decide (satisfied ParseDecimal ents req q = Some true).
Definition fails (ents : EntityMap) (req : CedarRequest) (q : Policy) : bool :=
  bool_decide (satisfied ParseDecimal ents req q = None).

Lemma selected_nil (f : Policy -> bool) l : NoDup (map policy_id l) ->
  omap (fun kv : string * Policy => if f kv.2 then Some kv.1 else None) (map_to_list (policy_set l)) = [] <-> existsb f l = false.
Proof.
  intros Hnd. rewrite <- not_true_iff_false, existsb_exists. split.
  - intros H (q & Hq & Hf). apply list_elem_of_In in Hq.
    assert (Hin : policy_id q ∈ omap (fun kv : string * Policy => if f kv.2 then Some kv.1 else None) (map_to_list (policy_set l))).
    { apply list_elem_of_omap. exists (policy_id q, q). cbn. rewrite Hf. split; [|done].
      by apply elem_of_map_to_list, policy_set_lookup. }
    rewrite H in Hin. by apply elem_of_nil in Hin.
  - intros H. destruct (omap _ _) as [|id ids] eqn:E; [done|exfalso]. apply H.
    assert (Hin : id ∈ omap (fun kv : string * Policy => if f kv.2 then Some kv.1 else None) (map_to_list (policy_set l))) by (rewrite E; left).
    apply list_elem_of_omap in Hin as ([i q] & Hq & Hs). cbn in Hs. destruct (f q) eqn:Ef; [|done].
    apply elem_of_map_to_list, policy_set_lookup in Hq as [Hq _]; [|done]. exists q. by rewrite <- list_elem_of_In.
Qed.

(** The authorizer's answer over a list of policies with distinct ids. *)
Lemma authorize_list l ents req : NoDup (map policy_id l) ->
  let '(allowed, _, errors) := cedar_Authorize (policy_set l) ents req in
  allowed = negb (existsb (applies ents req Forbid) l) && existsb (applies ents req Permit) l /\
  (errors = [] <-> existsb (fails ents req) l = false).
Proof.
  intros Hnd. pose proof (cedar_documented (policy_set l) ents req) as H. cbn zeta in H.
  destruct (cedar_Authorize (policy_set l) ents req) as [[allowed reasons] errors]. destruct H as (-> & _ & He).
  pose proof (selected_nil (applies ents req Forbid) l Hnd) as Hf. pose proof (selected_nil (applies ents req Permit) l Hnd) as Hp.
  pose proof (selected_nil (fails ents req) l Hnd) as Hx. split.
  - assert (Hb : forall (ids : list string) b, (ids = [] <-> b = false) -> bool_decide (ids = []) = negb b).
    { intros ids [] H; [apply bool_decide_eq_false|apply bool_decide_eq_true; by apply H]. intros E. by apply H in E. }
    rewrite <- (negb_involutive (existsb (applies ents req Permit) l)). f_equal; [|f_equal]; by apply Hb.
  - rewrite <- Hx. change (omap _ _) with (failed ParseDecimal ents req (policy_set l)). split; intros E; rewrite E in He.
    + by apply Permutation_nil_l in He.
    + by apply Permutation_nil_r in He.
Qed.
End policies.

(** ** The rules, applied *)
Section decides.
Context `{DC : Decimal} {DL : DecimalLaws DC} `{UU : UUID} {CE : Cedar} {CL : CedarLaws CE}.

(** A grant as the policy its text is. *)
Definition grant_policy (g : Grant) : Policy :=
  mkPolicy (Some (grant_id g)) Permit (In (teamRole (GTeam g) (GRole g))) (ActionIn [GAction g]) (In (uid "Team" (GTeam g)))
    match GAmountLimit g with
    | Some l => [When (ELessThanOrEqual (EGet EResource "amount") (EDecimal (StringFixed l 4)))]
    | None => []
    end.
Definition kept (a : Access) : list Policy := map grant_policy (List.filter expressible (AGrants a)).

(** The library reads an amount as it is written. *)
Definition amount_reads (d : dec) : Prop := ParseDecimal (StringFixed (dec_min d cedarMax) 4) = Some (units (dec_min d cedarMax)).
#[export] Instance amount_reads_dec d : base.Decision (amount_reads d) := decide (_ = _).
Definition limits_read (a : Access) : Prop :=
  Forall (fun g => forall l, GAmountLimit g = Some l -> amount_reads l) (AGrants a).

Lemma team_char_slash : team_char "/" = false. Proof. reflexivity. Qed.
Lemma role_safe r : r ∈ Roles -> every_char team_char (Role_string r) = true.
Proof. by intros [->|[->| ->]]%on_ladder. Qed.
Lemma expressible_spec g : expressible g = true ->
  GRole g ∈ Roles /\ every_char team_char (GTeam g) = true /\ forall l, GAmountLimit g = Some l -> dec_min l cedarMax = l.
Proof.
  unfold expressible. intros [[[H1 H2]%andb_true_iff H3]%andb_true_iff H4]%andb_true_iff. split_and!.
  - by apply slices_contains_spec.
  - by apply andb_true_iff in H2 as [_ H2].
  - intros l E. rewrite E in H4. apply negb_true_iff, orb_false_iff in H4 as [_ H4]. unfold dec_min.
    destruct (LessThan cedarMax l) eqn:El; [|done]. dec_prop. apply LessThan_spec in El. lra.
Qed.

Lemma grant_id_inj g g' : expressible g = true -> expressible g' = true -> grant_id g = grant_id g' ->
  (GTeam g, GRole g, GAction g) = (GTeam g', GRole g', GAction g').
Proof.
  intros (Hr & Ht & _)%expressible_spec (Hr' & Ht' & _)%expressible_spec H. apply str_app_inj_l in H.
  apply (safe_prefix_inj team_char "/") in H as [Et H]; [|done..].
  apply (safe_prefix_inj team_char "/") in H as [Er ->]; [|done|by apply role_safe..].
  rewrite Et. enough (GRole g = GRole g') as -> by done.
  apply on_ladder in Hr as [Hr|[Hr|Hr]], Hr' as [Hr'|[Hr'|Hr']]; rewrite Hr, Hr' in *; solve [done|discriminate Er].
Qed.

Lemma NoDup_map_filter {A B C} (f : A -> B) (k : A -> C) (keep : A -> bool) l :
  (forall x y, keep x = true -> keep y = true -> f x = f y -> k x = k y) ->
  NoDup (map k l) -> NoDup (map f (List.filter keep l)).
Proof.
  intros Hinj. induction l as [|x l IH]; cbn; intros H; [constructor|]. apply list.NoDup_cons in H as [Hx H].
  destruct (keep x) eqn:Ex; [|by apply IH]. cbn. apply list.NoDup_cons. split; [|by apply IH].
  intros (y & Hy & (Hin & Ey)%list_elem_of_In%filter_In)%list_elem_of_fmap. apply Hx. apply list_elem_of_fmap. exists y.
  rewrite list_elem_of_In. split; [|done]. by apply Hinj.
Qed.

Lemma ids_distinct a : well_formed a -> NoDup (map policy_id (guardrails ++ kept a)).
Proof.
  intros [_ _ H]. rewrite map_app. apply list.NoDup_app. split_and!.
  - by_eval.
  - intros id Hg Hk. unfold kept in Hk. rewrite map_map in Hk. apply list_elem_of_fmap in Hk as (g & -> & _).
    revert Hg. change (policy_id (grant_policy g)) with ("grant:" +:+ (GTeam g +:+ "/" +:+ Role_string (GRole g) +:+ "/" +:+ GAction g)).
    generalize (GTeam g +:+ "/" +:+ Role_string (GRole g) +:+ "/" +:+ GAction g). intros s Hg.
    unfold guardrails in Hg. cbn [map] in Hg. rewrite !elem_of_cons, elem_of_nil in Hg.
    repeat destruct Hg as [Hg|Hg]; try discriminate Hg. done.
  - unfold kept. rewrite map_map. apply (NoDup_map_filter _ (fun g => (GTeam g, GRole g, GAction g))); [|done].
    intros x y. apply grant_id_inj.
Qed.

Lemma existsb_kept f a : existsb f (kept a) = existsb (fun g => expressible g && f (grant_policy g)) (AGrants a).
Proof.
  unfold kept. induction (AGrants a) as [|g l IH]; [done|]. cbn. destruct (expressible g); cbn; by rewrite IH.
Qed.

(** An answer as the caller reads it. *)
Definition decision_of (m : M Decision) : option bool := match m with Ok dec => Some (Allowed_ dec) | Err _ => None end.

(** *** The guardrails, one by one *)
Section rules.
Context (p : Principal) (a : Access) (action : Action) (ents : EntityMap) (res : UID).
Hypothesis who_there : ents !! principalUID p = Some (caller_entity p a).
Abbreviation req := (mkCedarRequest (principalUID p) action res).
Abbreviation sat := (satisfied ParseDecimal ents req).

Lemma when_holds (r : CedarRequest) (b v : bool) e : eval ParseDecimal ents r e = Some (VBool v) ->
  (if b then conditions_hold ParseDecimal ents r [When e] else Some false) = Some (b && v).
Proof. intros H. destruct b; [|done]. cbn [conditions_hold]. rewrite H. by destruct v. Qed.
Lemma unless_holds (r : CedarRequest) (b v : bool) e : eval ParseDecimal ents r e = Some (VBool v) ->
  (if b then conditions_hold ParseDecimal ents r [Unless e] else Some false) = Some (b && negb v).
Proof. intros H. destruct b; [|done]. cbn [conditions_hold]. rewrite H. by destruct v. Qed.
Lemma always_holds (r : CedarRequest) (b : bool) : (if b then conditions_hold ParseDecimal ents r [] else Some false) = Some b.
Proof. by destruct b. Qed.
Lemma same_text (x y : string) : bool_decide (VString x = VString y) = bool_decide (x = y).
Proof. apply bool_decide_ext. split; congruence. Qed.
Lemma one_action (x : Action) : bool_decide (action ∈ [x]) = bool_decide (action = x).
Proof. apply bool_decide_ext. apply list_elem_of_singleton. Qed.

Lemma leads_set t : bool_decide (uid "Team" t ∈ map (fun m => uid "Team" (MTeam m)) (List.filter (fun m => bool_decide (MRole m = RoleLead)) (AMembers a))) = leads a t.
Proof.
  unfold leads. induction (AMembers a) as [|m ms IH]; [done|]. cbn [List.filter existsb]. rewrite <- IH.
  destruct (bool_decide (MRole m = RoleLead)); cbn [map]; [|by rewrite andb_false_r].
  rewrite andb_true_r, <- bool_decide_or. apply bool_decide_ext. rewrite elem_of_cons. unfold uid.
  split; intros [H|H]; [left; congruence|by right|left; congruence|by right].
Qed.

(** Decides the comparisons of constants. *)
Ltac constants :=
  repeat match goal with
  | |- context [bool_decide (?x = ?y)] =>
      first [change (bool_decide (x = y)) with true | change (bool_decide (x = y)) with false]
  end; cbn [andb orb negb].
Ltac rule Hk :=
  unfold satisfied, action_holds, principalUID; rewrite ?Hk;
  cbn [scope_holds po_Principal po_Action po_Resource po_Conditions cr_Principal cr_Action cr_Resource uid fst];
  constants; rewrite ?andb_false_r, ?andb_true_r, ?one_action.

(** What each guardrail comes to, in the order of the file. *)
Definition outcomes (t : Target) : list bool :=
  let final_credit := bool_decide (action = EventAction EventIssueFinalCredit) in
  let reassign := bool_decide (action = ActionReassign) in
  match PrKind p, t with
  | Analyst, ToDispute d =>
      [final_credit && bool_decide (DFInvestigationOpenedBy d = PID p); final_credit && bool_decide (DFInvestigationOpenedBy d = "?unrecorded");
       reassign && negb (leads a (DFTeam d)); false; false; false; false]
  | Analyst, ToTenant => [false; false; false; bool_decide (action ∈ administration) && PTenantAdmin p; false; false; false]
  | Analyst, ToTeam _ => [false; false; false; false; false; false; false]
  | Key, ToDispute _ => [false; false; reassign; false; true; false; bool_decide (action ∈ people_only)]
  | Key, ToTeam _ => [false; false; false; false; false; bool_decide (action = ActionCreate); bool_decide (action ∈ people_only)]
  | Key, ToTenant => [false; false; false; false; false; false; bool_decide (action ∈ people_only)]
  end.

Lemma outcomes_tenant id : res = uid "Tenant" id -> map sat guardrails = map Some (outcomes ToTenant).
Proof.
  intros Hr. rewrite Hr. unfold outcomes, guardrails. destruct (PrKind p) eqn:Hk; cbn [map]; repeat f_equal; rule Hk;
    try done; try apply always_holds.
  apply when_holds. cbn [eval cr_Principal]. unfold attribute. unfold principalUID in who_there. rewrite Hk in who_there.
  rewrite who_there. unfold caller_entity. by rewrite Hk.
Qed.
Lemma outcomes_team t : res = uid "Team" t -> map sat guardrails = map Some (outcomes (ToTeam t)).
Proof.
  intros Hr. rewrite Hr. unfold outcomes, guardrails. destruct (PrKind p) eqn:Hk; cbn [map]; repeat f_equal; rule Hk;
    try done; apply always_holds.
Qed.
Lemma outcomes_dispute d amount id : res = uid "Dispute" id -> ents !! res = Some (dispute_entity d amount) ->
  map sat guardrails = map Some (outcomes (ToDispute d)).
Proof.
  intros Hr Hres. rewrite Hr in *. unfold outcomes, guardrails. unfold principalUID in who_there.
  destruct (PrKind p) eqn:Hk; cbn [map]; repeat f_equal; rule Hk; try done; try apply always_holds.
  - apply when_holds. cbn [eval cr_Principal cr_Resource]. unfold attribute. rewrite who_there, Hres. unfold caller_entity. rewrite Hk.
    by rewrite <- same_text.
  - apply when_holds. cbn [eval cr_Principal cr_Resource]. unfold attribute. rewrite Hres. by rewrite <- same_text.
  - apply unless_holds. cbn [eval cr_Principal cr_Resource]. unfold attribute. rewrite who_there, Hres. unfold caller_entity. rewrite Hk.
    cbn. constants. by rewrite <- leads_set.
  - rewrite (unless_holds _ _ false) by reflexivity. by rewrite andb_true_r.
Qed.

(** Lists of policies that evaluate. *)
Lemma outcomes_applies eff l bs : map sat l = map Some bs ->
  existsb (applies ents req eff) l = existsb (fun qb => bool_decide (po_Effect qb.1 = eff) && qb.2) (zip l bs) /\
  existsb (fails ents req) l = false.
Proof.
  revert bs. induction l as [|q l IH]; intros [|b bs] H; try done. cbn [map] in H. injection H as Hq H.
  destruct (IH bs H) as [E1 E2]. cbn [existsb zip zip_with fst snd]. unfold applies at 1, fails at 1. rewrite Hq, E1, E2. split; [|done].
  f_equal. f_equal. by destruct b.
Qed.
End rules.

(** *** The grants, one by one *)
Section grants.
Context (p : Principal) (a : Access) (action : Action) (ents : EntityMap) (res : UID) (team : option string).
Abbreviation req := (mkCedarRequest (principalUID p) action res).
Hypothesis who_in : forall t r, r ∈ Roles ->
  entity_in ents (principalUID p) (teamRole t r) = match PrKind p with Analyst => holds a t r | Key => false end.
Hypothesis res_in : forall t, entity_in ents res (uid "Team" t) = bool_decide (team = Some t).

Definition reaches (g : Grant) : bool :=
  match PrKind p with Analyst => holds a (GTeam g) (GRole g) | Key => false end &&
  bool_decide (action = GAction g) && bool_decide (team = Some (GTeam g)).
Definition limit_condition (g : Grant) : option bool :=
  match GAmountLimit g with
  | None => Some true
  | Some l => conditions_hold ParseDecimal ents req [When (ELessThanOrEqual (EGet EResource "amount") (EDecimal (StringFixed l 4)))]
  end.
Lemma grant_satisfied g : expressible g = true ->
  satisfied ParseDecimal ents req (grant_policy g) = if reaches g then limit_condition g else Some false.
Proof.
  intros (Hr & _ & _)%expressible_spec. unfold satisfied, grant_policy.
  cbn [scope_holds po_Principal po_Action po_Resource po_Conditions action_holds cr_Principal cr_Action cr_Resource].
  rewrite who_in, res_in by done. rewrite one_action. unfold reaches, limit_condition. by destruct (GAmountLimit g).
Qed.

(** Where nothing is asked of an amount, or the amount is there. *)
Lemma grants_apply (f : Grant -> bool) :
  (forall g, g ∈ AGrants a -> expressible g = true -> reaches g = true -> limit_condition g = Some (f g)) ->
  existsb (applies ents req Permit) (kept a) = existsb (fun g => expressible g && reaches g && f g) (AGrants a) /\
  existsb (fails ents req) (kept a) = false.
Proof.
  intros Hf. rewrite !existsb_kept. induction (AGrants a) as [|g l IH]; [done|].
  destruct IH as [E1 E2]; [intros g' Hg; apply Hf; by right|]. cbn [existsb]. rewrite E1, E2, orb_false_r.
  destruct (expressible g) eqn:Ee; [|done]. cbn [andb]. unfold applies, fails. rewrite grant_satisfied by done.
  destruct (reaches g) eqn:Er; [|done]. rewrite (Hf g (list_elem_of_here _ _) Ee Er). split; [|done]. f_equal. by destruct (f g).
Qed.
Lemma grants_forbid_nothing : existsb (applies ents req Forbid) (kept a) = false.
Proof.
  unfold kept. induction (List.filter expressible (AGrants a)) as [|g l IH]; [done|]. cbn [map existsb]. by rewrite IH.
Qed.
(** Where there is no amount to read. *)
Lemma grants_without_amount : attribute ents res "amount" = None ->
  existsb (fails ents req) (kept a) = existsb (fun g => expressible g && reaches g && limited g) (AGrants a) /\
  (existsb (fails ents req) (kept a) = false ->
   existsb (applies ents req Permit) (kept a) = existsb (fun g => expressible g && reaches g) (AGrants a)).
Proof.
  intros Hno. rewrite !existsb_kept. induction (AGrants a) as [|g l IH]; [done|]. destruct IH as [E1 E2].
  cbn [existsb]. rewrite E1. rewrite E1 in E2. destruct (expressible g) eqn:Ee; cbn [andb orb]; [|split; [done|exact E2]].
  unfold applies, fails. rewrite grant_satisfied by done. destruct (reaches g) eqn:Er; cbn [andb orb]; [|split; [done|exact E2]].
  unfold limit_condition, limited. destruct (GAmountLimit g) as [l'|].
  - cbn [conditions_hold eval cr_Resource]. rewrite Hno. by cbn.
  - by cbn.
Qed.
End grants.

(** *** Altogether *)
Lemma decide_with_list l tid p a action d ents res : NoDup (map policy_id l) ->
  entities p a d (uid "Tenant" (uuid_String tid)) = Ok (ents, res) ->
  let req := mkCedarRequest (principalUID p) action res in
  decision_of (decide_with (policy_set l) tid p a action d) =
  if existsb (fails ents req) l then None else Some (negb (existsb (applies ents req Forbid) l) && existsb (applies ents req Permit) l).
Proof.
  intros Hnd He req. unfold decide_with. rewrite He. cbn [mbind res_bind].
  pose proof (authorize_list l ents req Hnd) as H. subst req.
  destruct (cedar_Authorize _ _ _) as [[allowed reasons] errors]. destruct H as [-> H].
  destruct errors as [|x xs]; cbn [decision_of Allowed_].
  - rewrite (proj1 H) by done. reflexivity.
  - destruct (existsb (fails _ _) l); [done|]. by discriminate (proj2 H eq_refl).
Qed.

Lemma guardrails_forbid b1 b2 b3 b4 b5 b6 b7 :
  existsb (fun qb => bool_decide (po_Effect qb.1 = Forbid) && qb.2) (zip guardrails [b1; b2; b3; b4; b5; b6; b7]) = b1 || b2 || b3 || b7.
Proof. by destruct b1, b2, b3, b7. Qed.
Lemma guardrails_permit b1 b2 b3 b4 b5 b6 b7 :
  existsb (fun qb => bool_decide (po_Effect qb.1 = Permit) && qb.2) (zip guardrails [b1; b2; b3; b4; b5; b6; b7]) = b4 || b5 || b6.
Proof. by destruct b4, b5, b6. Qed.

Lemma same_some (x y : string) : bool_decide (Some x = Some y) = bool_decide (x = y).
Proof. apply bool_decide_ext. split; congruence. Qed.

Lemma reaches_covers p a action t g : PrKind p = Analyst -> expressible g && reaches p a action (Some t) g = covers a action t g.
Proof. intros Hk. unfold reaches, covers. by rewrite Hk, same_some. Qed.

(** The amounts in play can be read. *)
Definition amounts_read (a : Access) (d : option DisputeFacts) : Prop :=
  limits_read a /\ forall f, d = Some f -> DFID f <> uuid_Nil -> amount_reads (DFAmount f).

Lemma target_dispute f : DFID f <> uuid_Nil -> resource_of (Some f) = ToDispute f.
Proof. intros H. unfold resource_of. by rewrite bool_decide_false. Qed.

Lemma decided_tenant tid p a action : well_formed a -> limits_read a ->
  decision_of (decide_with (policy_set (guardrails ++ kept a)) tid p a action None) = verdict p a action None.
Proof.
  intros Hwf Hl. set (tenant := uid "Tenant" (uuid_String tid)).
  set (ents := insert_all (base_entities p a tenant ++ [])).
  rewrite (decide_with_list _ _ _ _ _ _ ents tenant); [|by apply ids_distinct|unfold ents; by rewrite app_nil_r].
  assert (Hx : Forall (fun e : UID * Entity => e.1.1 = "Dispute") []) by constructor.
  pose proof (lookup_who p a tenant [] eq_refl Hx) as Hwho. fold ents in Hwho.
  pose proof (outcomes_tenant p a action ents tenant Hwho _ eq_refl) as Hout.
  assert (Hin : forall t, entity_in ents tenant (uid "Team" t) = bool_decide (None = Some t)).
  { intros t. unfold entity_in. unfold ents. rewrite in_within_plain by (done || by right). by rewrite !bool_decide_false. }
  destruct (grants_apply p a action ents tenant None (fun t r => who_holds p a tenant [] eq_refl Hx t r Hwf) Hin (fun _ => true)) as [G1 G2].
  { intros g _ _ Hr. unfold reaches in Hr. by rewrite andb_false_r in Hr. }
  destruct (outcomes_applies p action ents tenant Forbid _ _ Hout) as [O1 O3].
  destruct (outcomes_applies p action ents tenant Permit _ _ Hout) as [O2 _].
  rewrite !existsb_app, O1, O2, O3, G1, G2, grants_forbid_nothing.
  assert (Hnone : existsb (fun g => expressible g && reaches p a action None g && true) (AGrants a) = false).
  { apply not_true_iff_false. intros (g & _ & Hg)%existsb_exists. unfold reaches in Hg. rewrite !andb_false_r in Hg. done. }
  rewrite Hnone. unfold verdict, resource_of, outcomes. destruct (PrKind p); rewrite guardrails_forbid, guardrails_permit; cbn [orb negb andb].
  - by rewrite !orb_false_r, andb_comm.
  - by rewrite andb_false_r.
Qed.

Lemma existsb_weaken {A} (f g : A -> bool) l : (forall x, f x = g x) -> existsb f l = existsb g l.
Proof. intros H. induction l as [|x l IH]; cbn; [done|]. by rewrite H, IH. Qed.

Lemma decided_team tid p a action f : well_formed a -> DFID f = uuid_Nil ->
  decision_of (decide_with (policy_set (guardrails ++ kept a)) tid p a action (Some f)) = verdict p a action (Some f).
Proof.
  intros Hwf Hid. set (tenant := uid "Tenant" (uuid_String tid)). set (res := uid "Team" (DFTeam f)).
  set (ents := insert_all (base_entities p a tenant ++ [])).
  rewrite (decide_with_list _ _ _ _ _ _ ents res);
    [|by apply ids_distinct|unfold entities, ents; rewrite app_nil_r; by rewrite bool_decide_true].
  assert (Hx : Forall (fun e : UID * Entity => e.1.1 = "Dispute") []) by constructor.
  pose proof (lookup_who p a tenant [] eq_refl Hx) as Hwho. fold ents in Hwho.
  pose proof (outcomes_team p a action ents res _ eq_refl) as Hout.
  assert (Hin : forall t, entity_in ents res (uid "Team" t) = bool_decide (Some (DFTeam f) = Some t)).
  { intros t. unfold entity_in, ents. rewrite in_within_plain by (done || by left). apply bool_decide_ext. unfold res, uid. split; congruence. }
  assert (Hno : attribute ents res "amount" = None).
  { unfold attribute. destruct (ents !! res) as [e|] eqn:E; [|done].
    by rewrite (lookup_plain p a tenant [] eq_refl Hx res e (or_introl eq_refl) E). }
  destruct (grants_without_amount p a action ents res (Some (DFTeam f)) (fun t r => who_holds p a tenant [] eq_refl Hx t r Hwf) Hin Hno) as [G1 G2].
  destruct (outcomes_applies p action ents res Forbid _ _ Hout) as [O1 O3].
  destruct (outcomes_applies p action ents res Permit _ _ Hout) as [O2 _].
  rewrite !existsb_app, O1, O2, O3, grants_forbid_nothing, orb_false_l.
  unfold verdict, resource_of, outcomes. rewrite (bool_decide_true (DFID f = uuid_Nil)) by done.
  destruct (PrKind p) eqn:Hk; rewrite guardrails_forbid, guardrails_permit; cbn [orb negb andb].
  - rewrite (existsb_weaken _ _ _ (fun g => f_equal (fun b => b && limited g) (reaches_covers p a action _ g Hk))) in G1.
    rewrite (existsb_weaken _ _ _ (fun g => reaches_covers p a action _ g Hk)) in G2.
    rewrite G1 in *. destruct (existsb _ (AGrants a)); [done|]. by rewrite G2.
  - assert (Hf : forall g, reaches p a action (Some (DFTeam f)) g = false) by (intros g; unfold reaches; by rewrite Hk).
    assert (Hnone : forall h : Grant -> bool, existsb (fun g => expressible g && reaches p a action (Some (DFTeam f)) g && h g) (AGrants a) = false).
    { clear G1 G2. intros h. induction (AGrants a) as [|g l IH]; [done|]. cbn [existsb]. rewrite Hf, IH. by destruct (expressible g). }
    assert (Hnone' : existsb (fun g => expressible g && reaches p a action (Some (DFTeam f)) g) (AGrants a) = false).
    { clear G1 G2 Hnone. induction (AGrants a) as [|g l IH]; [done|]. cbn [existsb]. rewrite Hf, IH. by destruct (expressible g). }
    rewrite Hnone in G1. rewrite G1, (G2 G1), Hnone', !orb_false_r.
    f_equal. destruct (decide (action = ActionCreate)) as [->|Hne]; [done|]. rewrite (bool_decide_false _ Hne). by rewrite andb_false_r.
Qed.

Lemma decided_dispute tid p a action f : well_formed a -> limits_read a -> DFID f <> uuid_Nil -> amount_reads (DFAmount f) ->
  decision_of (decide_with (policy_set (guardrails ++ kept a)) tid p a action (Some f)) = verdict p a action (Some f).
Proof.
  intros Hwf Hl Hid Hread. set (tenant := uid "Tenant" (uuid_String tid)). set (res := uid "Dispute" (uuid_String (DFID f))).
  set (amount := units (dec_min (DFAmount f) cedarMax)). set (extra := [(res, dispute_entity f amount)]).
  set (ents := insert_all (base_entities p a tenant ++ extra)).
  rewrite (decide_with_list _ _ _ _ _ _ ents res);
    [|by apply ids_distinct|unfold entities, ents, extra; by rewrite bool_decide_false, Hread].
  assert (Hx : Forall (fun e : UID * Entity => e.1.1 = "Dispute") extra) by (by repeat constructor).
  pose proof (lookup_who p a tenant extra eq_refl Hx) as Hwho. fold ents in Hwho.
  assert (Hres : ents !! res = Some (dispute_entity f amount)).
  { apply (lookup_dispute p a tenant extra eq_refl Hx); [left|]. intros z Hz. apply list_elem_of_singleton in Hz. congruence. }
  pose proof (outcomes_dispute p a action ents res Hwho _ _ _ eq_refl Hres) as Hout.
  assert (Hin : forall t, entity_in ents res (uid "Team" t) = bool_decide (Some (DFTeam f) = Some t)).
  { intros t. unfold ents. rewrite (dispute_in p a tenant extra eq_refl Hx res f amount) by done. by rewrite same_some. }
  destruct (grants_apply p a action ents res (Some (DFTeam f)) (fun t r => who_holds p a tenant extra eq_refl Hx t r Hwf) Hin
    (fun g => within_limit g (DFAmount f))) as [G1 G2].
  { intros g Hg He _. unfold limit_condition, within_limit. destruct (GAmountLimit g) as [l|] eqn:El; [|done].
    unfold limits_read in Hl. rewrite list.Forall_forall in Hl. pose proof (Hl g Hg l El) as Hr. unfold amount_reads in Hr.
    destruct (expressible_spec g He) as (_ & _ & Hmin). rewrite (Hmin l El) in *.
    rewrite (when_holds _ _ true (amount <=? units l)); [done|]. cbn [eval cr_Resource]. unfold attribute. rewrite Hres.
    rewrite Hr. reflexivity. }
  destruct (outcomes_applies p action ents res Forbid _ _ Hout) as [O1 O3].
  destruct (outcomes_applies p action ents res Permit _ _ Hout) as [O2 _].
  rewrite !existsb_app, O1, O2, O3, G1, G2, grants_forbid_nothing, orb_false_l.
  unfold verdict, outcomes. rewrite (target_dispute _ Hid).
  destruct (PrKind p) eqn:Hk; rewrite guardrails_forbid, guardrails_permit; cbn [orb negb andb].
  - rewrite (existsb_weaken _ _ _ (fun g => f_equal (fun b => b && within_limit g (DFAmount f)) (reaches_covers p a action _ g Hk))).
    by rewrite !orb_false_r, negb_orb, <- andb_orb_distrib_r.
  - rewrite !orb_false_r, andb_true_r. f_equal. f_equal.
    destruct (decide (action = ActionReassign)) as [->|Hne]; [done|]. by rewrite (bool_decide_false _ Hne).
Qed.
End decides.

(** ** The engine, call after call *)
Section engine.
Context `{DC : Decimal} {DL : DecimalLaws DC} `{UU : UUID} {CE : Cedar} {CL : CedarLaws CE}.

Record AuthzCall : Type := mkAuthzCall {
  ca_Tenant : uuid; ca_Principal : Principal; ca_Access : Access; ca_Action : Action; ca_Dispute : option DisputeFacts
}.
Definition Decide_call (c : AuthzCall) : Engine -> M Decision * Engine :=
  engine_Decide (ca_Tenant c) (ca_Principal c) (ca_Access c) (ca_Action c) (ca_Dispute c).
Fixpoint Decide_all (cs : list AuthzCall) (e : Engine) : list (M Decision) :=
  match cs with
  | [] => []
  | c :: cs => let '(m, e) := Decide_call c e in m :: Decide_all cs e
  end.
Definition verdict_of (c : AuthzCall) : option bool := verdict (ca_Principal c) (ca_Access c) (ca_Action c) (ca_Dispute c).

(** Access data in order, whose text the library reads as what it says, and amounts it reads. *)
Definition well_posed (a : Access) (d : option DisputeFacts) : Prop :=
  well_formed a /\ amounts_read a d /\ NewPolicyListFromBytes (Compile a).1 = Some (kept a).
(** A tenant's version changes with its grants. *)
Definition versioned (cs : list AuthzCall) : Prop := forall c c', c ∈ cs -> c' ∈ cs ->
  ca_Tenant c = ca_Tenant c' -> AVersion (ca_Access c) = AVersion (ca_Access c') -> AGrants (ca_Access c) = AGrants (ca_Access c').

Lemma decided tid p a action d : well_posed a d ->
  decision_of (decide_with (policy_set (guardrails ++ kept a)) tid p a action d) = verdict p a action d.
Proof.
  intros (Hwf & [Hl Hr] & _). destruct d as [f|]; [|by apply decided_tenant].
  destruct (decide (DFID f = uuid_Nil)) as [Hid|Hid]; [by apply decided_team|apply decided_dispute; [done..|]]. by apply Hr.
Qed.

(** What the cache holds is what compiling again would give. *)
Record coherent (cs : list AuthzCall) (e : Engine) : Prop := {
  co_guardrails : eg_guardrails e = guardrails;
  co_sets : forall tid version ps, eg_sets e !! tid = Some (version, ps) ->
    forall c, c ∈ cs -> ca_Tenant c = tid -> AVersion (ca_Access c) = version -> ps = policy_set (guardrails ++ kept (ca_Access c))
}.
Lemma coherent_set cs e c : versioned cs -> coherent cs e -> c ∈ cs -> well_posed (ca_Access c) (ca_Dispute c) ->
  exists e', engine_set (ca_Tenant c) (ca_Access c) e = (Ok (policy_set (guardrails ++ kept (ca_Access c))), e') /\ coherent cs e'.
Proof.
  intros Hv [Hg Hs] Hc (_ & _ & Hparse). unfold engine_set. rewrite Hparse, Hg.
  set (built := (Ok _, mkEngine guardrails (<[ca_Tenant c := (AVersion (ca_Access c), policy_set (guardrails ++ kept (ca_Access c)))]> (eg_sets e)))).
  assert (Hb : exists e', built = (Ok (policy_set (guardrails ++ kept (ca_Access c))), e') /\ coherent cs e').
  { eexists. split; [reflexivity|]. split; [done|]. cbn. intros tid version ps H c' Hc' Ht Hver.
    apply lookup_insert_Some in H as [[<- [= <- <-]]|[_ H]]; [|by apply (Hs _ _ _ H)].
    unfold kept. by rewrite (Hv c c') by done. }
  destruct (eg_sets e !! ca_Tenant c) as [[version ps]|] eqn:E; [|exact Hb].
  destruct (version =? AVersion (ca_Access c)) eqn:Ev; [|exact Hb].
  to_prop. subst version. rewrite (Hs _ _ _ E c) by done. exists e. split; [done|]. by split.
Qed.

Lemma coherent_new cs : coherent cs (mkEngine guardrails ∅).
Proof. split; [done|]. intros tid version ps H. cbn in H. by rewrite lookup_empty in H. Qed.
Lemma new_engine file : NewPolicyListFromBytes file = Some guardrails -> New_engine file = Ok (mkEngine guardrails ∅).
Proof. intros H. unfold New_engine. by rewrite H. Qed.

Lemma engine_decides l cs e : coherent cs e -> versioned cs -> (forall c, c ∈ l -> c ∈ cs) ->
  Forall (fun c => well_posed (ca_Access c) (ca_Dispute c)) l -> map decision_of (Decide_all l e) = map verdict_of l.
Proof.
  intros Hc Hv. revert e Hc. induction l as [|c l IH]; intros e Hc Hsub Hw; [done|]. apply list.Forall_cons in Hw as [Hw Hws].
  destruct (coherent_set cs e c Hv Hc) as (e' & He & Hc'); [apply Hsub; left|done|].
  cbn [Decide_all]. unfold Decide_call, engine_Decide. rewrite He. cbn [map]. f_equal; [by apply decided|].
  apply IH; [done| |done]. intros c' Hc''. apply Hsub. by right.
Qed.

End engine.
