(* ===== verification/AuthzScenario.v ===== *)
(** * AuthzScenario: a tenant's grants decided, call after call, on concrete data. *)
From Stdlib Require Import QArith.
From S2P Require Import Prelude Errs Ext Types Text Wire Access Authz AuthzFacts.
Local Open Scope Z_scope.

(** ** Played out *)
Module AuthzExamples.
  Import QDec NUuid.

Definition cap : dec := 500%Q.
Definition grants : list Grant :=
  [mkGrant "cb" RoleJunior (EventAction EventIssueFinalCredit) (Some cap);
   mkGrant "cb" RoleSenior (EventAction EventIssueFinalCredit) None;
   mkGrant "cb" RoleJunior ActionCreate None; mkGrant "cb" RoleLead ActionReassign None;
   mkGrant "fraud" RoleJunior ActionCreate (Some cap)].
Definition access (members : list Membership) : Access := mkAccess 1 "cb" ["cb"; "fraud"] grants [] members.

(** The authorizer as documented, a reader of decimals, and a parser that knows some texts. *)
Definition read_decimal (s : string) : option Z := q ← of_string s; Some (Qround.Qfloor (q * 10000)).
Definition documented (parse : string -> option (list Policy)) : Cedar := {|
  NewPolicyListFromBytes := parse;
  ParseDecimal := read_decimal;
  cedar_Authorize ps ents req :=
    let forbids := deciding read_decimal ents req Forbid ps in
    let permits := deciding read_decimal ents req Permit ps in
    (bool_decide (forbids = []) && negb (bool_decide (permits = [])), if bool_decide (forbids = []) then permits else forbids,
     failed read_decimal ents req ps)
|}.
Lemma documented_laws parse : CedarLaws (documented parse).
Proof. intros ps ents req. cbn. done. Qed.
Definition known (a : Access) (s : string) : option (list Policy) :=
  if bool_decide (s = "guardrails") then Some guardrails else if bool_decide (s = (Compile a).1) then Some (kept a) else None.
#[export] Instance cedar : Cedar := documented (known (access [])).
#[export] Instance cedar_laws : CedarLaws cedar := documented_laws _.

Definition junior : list Membership := [mkMembership "cb" RoleJunior].
Definition lead : list Membership := [mkMembership "cb" RoleLead].
Definition someone (id : string) : Principal := mkPrincipal Analyst id id false.
Definition tenant : @uuid NUuid.ops := 1%N.
Definition about (amount : Q) (opener : string) : DisputeFacts := mkDisputeFacts (7%N : @uuid NUuid.ops) "cb" (amount : dec) "EUR" RailCard StateInvestigating opener.
Definition credit (who : string) (ms : list Membership) (amount : Q) (opener : string) : AuthzCall :=
  mkAuthzCall tenant (someone who) (access ms) (EventAction EventIssueFinalCredit) (Some (about amount opener)).
Definition asked : list AuthzCall :=
  [credit "j" junior 100 "other"; credit "j" junior 900 "other"; credit "l" lead 900 "other"; credit "l" lead 100 "l";
   credit "l" lead 100 "?unrecorded";
   mkAuthzCall tenant (someone "j") (access junior) ActionReassign (Some (about 1 ""));
   mkAuthzCall tenant (someone "l") (access lead) ActionReassign (Some (about 1 ""));
   mkAuthzCall tenant (someone "j") (access junior) ActionCreate (Some (team_facts "cb"));
   mkAuthzCall tenant (someone "j") (access junior) ActionCreate (Some (team_facts "fraud"));
   mkAuthzCall tenant (someone "f") (access [mkMembership "fraud" RoleJunior]) ActionCreate (Some (team_facts "fraud"));
   mkAuthzCall tenant (mkPrincipal Key "k" "k" false) (access []) ActionComposeEmail (Some (about 1 ""));
   mkAuthzCall tenant (mkPrincipal Analyst "a" "a" true) (access []) ActionManageKeys None].

(** A limit is rounded to the ten-thousandth like the amount, so a little more than the limit passes, and an amount
    past the range of decimals passes a limit at its very end. *)
Example slightly_over : verdict (someone "j") (access junior) (EventAction EventIssueFinalCredit) (Some (about (50000004 # 100000) "other")) = Some true.
Proof. vm_compute. reflexivity. Qed.
Example capped_at_the_limit :
  within_limit (mkGrant "cb" RoleJunior ActionCreate (Some cedarMax)) (1000000000000000%Q : dec) = true /\
  expressible (mkGrant "cb" RoleJunior ActionCreate (Some cedarMax)) = true.
Proof. vm_compute. done. Qed.

Definition member_ok (m : Membership) : bool := slices_contains ["cb"; "fraud"] (MTeam m) && slices_contains Roles (MRole m).
Definition amount_ok (d : option DisputeFacts) : bool := match d with Some f => bool_decide (amount_reads (DFAmount f)) | None => true end.
Lemma posed c : existsb (fun m => negb (member_ok m)) (AMembers (ca_Access c)) = false -> amount_ok (ca_Dispute c) = true ->
  ca_Access c = access (AMembers (ca_Access c)) -> well_posed (ca_Access c) (ca_Dispute c).
Proof.
  intros Hm Hd ->. generalize dependent (AMembers (ca_Access c)). intros ms Hm.
  assert (Hok : forall m, m ∈ ms -> member_ok m = true).
  { intros m Hin. apply not_false_iff_true. intros E. apply not_true_iff_false in Hm. apply Hm, existsb_exists.
    exists m. rewrite <- list_elem_of_In, E. done. }
  assert (Hread : amount_reads cap) by by_eval.
  split; [split|split; [split|]].
  - apply list.Forall_forall. intros m [H _]%Hok%andb_true_iff. by apply slices_contains_spec.
  - apply list.Forall_forall. intros m [_ H]%Hok%andb_true_iff. by apply slices_contains_spec.
  - by_eval.
  - unfold limits_read. cbn [access AGrants grants]. repeat apply list.Forall_cons_2; [..|constructor]; intros l [= <-]; exact Hread.
  - intros f E _. rewrite E in Hd. by apply bool_decide_eq_true in Hd.
  - unfold kept. cbn [access AGrants]. vm_compute. reflexivity.
Qed.

Definition call_ok (c : AuthzCall) : bool := negb (existsb (fun m => negb (member_ok m)) (AMembers (ca_Access c))) && amount_ok (ca_Dispute c).
Lemma calls_posed : Forall (fun c => well_posed (ca_Access c) (ca_Dispute c)) asked.
Proof.
  assert (Hok : forallb call_ok asked = true) by (vm_compute; reflexivity). rewrite forallb_forall in Hok.
  assert (Hacc : Forall (fun c => ca_Access c = access (AMembers (ca_Access c))) asked)
    by (unfold asked; repeat apply list.Forall_cons_2; [reflexivity..|constructor]).
  rewrite list.Forall_forall in Hacc. apply list.Forall_forall. intros c Hc.
  pose proof (Hok c (proj1 (list_elem_of_In _ _) Hc)) as H. unfold call_ok in H. apply andb_true_iff in H as [H1 H2].
  apply posed; [by apply negb_true_iff|done|by apply Hacc].
Qed.

End AuthzExamples.
