(* ===== verification/Fixture.v ===== *)
(** * Fixture: a tenant's teams, memberships, grants and routing as a document ([authz/fixture.go]).

    The reader of YAML is a library's: a class whose answer is the document's fields, or nothing for a text that is not
    such a document or has a field it does not know. *)
From S2P Require Import Prelude Errs Ext Types Access.

(** ** The document *)
Record teamDoc : Type := mkTeamDoc { td_Slug : string; td_Name : string; td_Default : bool }.
Record memberDoc : Type := mkMemberDoc { md_Subject : string; md_Team : string; md_Role : string }.
Record grantDoc : Type := mkGrantDoc { gd_Team : string; gd_Role : string; gd_Actions : list string; gd_AmountLimit : string }.
Record routingDoc : Type := mkRoutingDoc {
  rd_Rail : string; rd_Reason : string; rd_RiskTier : string; rd_MinAmount : string; rd_Team : string
}.
Record fixtureDoc : Type := mkFixtureDoc {
  fd_Teams : list teamDoc; fd_Members : list memberDoc; fd_Grants : list grantDoc; fd_Routing : list routingDoc
}.
Class Yaml : Type := yaml_Decode : string -> option fixtureDoc.

(** Conversions between string types. *)
Definition Role_of (s : string) : Role :=
  if bool_decide (s = "junior") then RoleJunior else if bool_decide (s = "senior") then RoleSenior
  else if bool_decide (s = "lead") then RoleLead else RoleOther s.
Definition Rail_of (s : string) : Rail :=
  if bool_decide (s = "CARD") then RailCard else if bool_decide (s = "CREDIT_CARD") then RailCreditCard
  else if bool_decide (s = "SEPA_DD") then RailSEPADD else RailOther s.
Lemma Role_of_string s : Role_string (Role_of s) = s.
Proof. unfold Role_of. repeat case_bool_decide; by subst. Qed.

(** ** What is read of it *)
Record FixtureTeam : Type := mkFixtureTeam { FTSlug : string; FTName : string; FTDefault : bool }.
Record FixtureMember : Type := mkFixtureMember { FMSubject : string; FMTeam : string; FMRole : Role }.

Section fixture.
Context `{DC : Decimal}.
Record Fixture : Type := mkFixture {
  FTeams : list FixtureTeam;
  FMembers : list FixtureMember;
  FGrants : list Grant;
  FRouting : list RoutingRule
}.

Definition refused {A} (msg : string) : M A := Err (EPlain ("authz: fixture: " +:+ msg)).
Definition known_team (teams : list string) (team : string) : M unit :=
  if slices_contains teams team then Ok tt else refused ("team " +:+ quoted team +:+ " is not declared").
Definition fixture_role (r : string) : M Role :=
  if slices_contains Roles (Role_of r) then Ok (Role_of r) else refused ("role " +:+ quoted r +:+ " is not on the ladder").
Definition fixture_amount (s : string) : M (option dec) :=
  if bool_decide (s = "") then Ok None
  else match NewFromString s with Some d => Ok (Some d) | None => refused ("amount " +:+ quoted s) end.

Definition fixture_member (teams : list string) (m : memberDoc) : M FixtureMember :=
  r ← fixture_role (md_Role m);
  _ ← known_team teams (md_Team m);
  Ok (mkFixtureMember (md_Subject m) (md_Team m) r).
(** One row of the document grants several actions. *)
Definition fixture_grant (teams : list string) (g : grantDoc) : M (list Grant) :=
  r ← fixture_role (gd_Role g);
  _ ← known_team teams (gd_Team g);
  limit ← fixture_amount (gd_AmountLimit g);
  Ok (map (fun a => mkGrant (gd_Team g) r a limit) (gd_Actions g)).
Definition fixture_rule (teams : list string) (r : routingDoc) : M RoutingRule :=
  _ ← known_team teams (rd_Team r);
  min ← fixture_amount (rd_MinAmount r);
  let rule := mkRoutingRule (if bool_decide (rd_Rail r = "") then None else Some (Rail_of (rd_Rail r)))
    (if bool_decide (rd_Reason r = "") then None else Some (rd_Reason r)) None min (rd_Team r) in
  if bool_decide (rd_RiskTier r <> "") then refused "routing on risk_tier is not possible, disputes are routed before they are assessed"
  else Ok rule.
Fixpoint each {A B} (f : A -> M B) (l : list A) : M (list B) :=
  match l with [] => Ok [] | a :: l => b ← f a; bs ← each f l; Ok (b :: bs) end.

Definition ParseFixture `{Yaml} (b : string) : M Fixture :=
  match yaml_Decode b with
  | None => refused "decode"
  | Some doc =>
      let teams := map td_Slug (fd_Teams doc) in
      if bool_decide (length (List.filter td_Default (fd_Teams doc)) <> 1%nat) then refused "exactly one team must be the default"
      else
        members ← each (fixture_member teams) (fd_Members doc);
        grants ← each (fixture_grant teams) (fd_Grants doc);
        routing ← each (fixture_rule teams) (fd_Routing doc);
        Ok (mkFixture (map (fun t => mkFixtureTeam (td_Slug t) (td_Name t) (td_Default t)) (fd_Teams doc)) members (concat grants) routing)
  end.

(** What [ParseFixture] vouches for. *)
Record fixture_ok (f : Fixture) : Prop := {
  fx_default : length (List.filter FTDefault (FTeams f)) = 1%nat;
  fx_members : Forall (fun m => FMTeam m ∈ map FTSlug (FTeams f) /\ FMRole m ∈ Roles) (FMembers f);
  fx_grants : Forall (fun g => GTeam g ∈ map FTSlug (FTeams f) /\ GRole g ∈ Roles) (FGrants f);
  fx_routing : Forall (fun r => RTeam r ∈ map FTSlug (FTeams f) /\ RRiskTier r = None) (FRouting f)
}.

(** [Fixture.Access]: what the engine sees, without anyone's memberships. *)
Definition Fixture_Access (f : Fixture) : Access :=
  mkAccess 0 (foldl (fun d t => if FTDefault t then FTSlug t else d) "" (FTeams f)) (map FTSlug (FTeams f)) (FGrants f) (FRouting f) [].

Lemma each_ok {A B} (f : A -> M B) (P : B -> Prop) l bs : (forall a b, f a = Ok b -> P b) -> each f l = Ok bs -> Forall P bs.
Proof.
  intros Hf. revert bs. induction l as [|a l IH]; intros bs H; cbn in H; [injection H as <-; constructor|].
  apply bind_ok in H as (b & Hb & H). apply bind_ok in H as (bs' & Hbs & H). injection H as <-. constructor; eauto.
Qed.
Lemma known_team_ok teams team u : known_team teams team = Ok u -> team ∈ teams.
Proof. unfold known_team. destruct (slices_contains teams team) eqn:E; [|done]. intros _. by apply slices_contains_spec. Qed.
Lemma fixture_role_ok r x : fixture_role r = Ok x -> x ∈ Roles.
Proof. unfold fixture_role. destruct (slices_contains _ _) eqn:E; [|done]. intros [= <-]. by apply slices_contains_spec. Qed.

Lemma ParseFixture_ok `{Yaml} b f : ParseFixture b = Ok f -> fixture_ok f.
Proof.
  unfold ParseFixture. destruct (yaml_Decode b) as [doc|]; [|done]. case_bool_decide as Hd; [done|].
  intros (members & Hm & H0)%bind_ok. apply bind_ok in H0 as (grants & Hg & H0). apply bind_ok in H0 as (routing & Hr & H0).
  injection H0 as <-. split; cbn [FTeams FMembers FGrants FRouting]; rewrite ?map_map; cbn [FTSlug].
  - rewrite <- Hd. clear Hd Hm Hg Hr. induction (fd_Teams doc) as [|t l IH]; [done|]. cbn.
    destruct (td_Default t); cbn; by rewrite IH.
  - revert Hm. apply each_ok. intros m x. unfold fixture_member. intros (r & Hr' & H1)%bind_ok. apply bind_ok in H1 as (u & Hk & H1).
    injection H1 as <-. split; [by eapply known_team_ok|by eapply fixture_role_ok].
  - assert (Hall : Forall (Forall (fun g => GTeam g ∈ map td_Slug (fd_Teams doc) /\ GRole g ∈ Roles)) grants).
    { revert Hg. apply each_ok. intros g gs. unfold fixture_grant. intros (r & Hr' & H1)%bind_ok. apply bind_ok in H1 as (u & Hk & H1).
      apply bind_ok in H1 as (limit & _ & H1). injection H1 as <-. apply list.Forall_forall. intros x (a & -> & _)%list_elem_of_fmap.
      split; [by eapply known_team_ok|by eapply fixture_role_ok]. }
    by apply Forall_concat.
  - revert Hr. apply each_ok. intros r x. unfold fixture_rule. intros (u & Hk & H1)%bind_ok. apply bind_ok in H1 as (mn & _ & H1).
    case_bool_decide; [done|]. injection H1 as <-. split; [by eapply known_team_ok|done].
Qed.
End fixture.
