(* ===== verification/Tx.v ===== *)
(** * Tx: the world a use case runs in, and transactions.

    A use case is a computation over the world: the store, the banking core on the other side of the wire (its
    state is outside any transaction), the readings of the clock and the fresh ids handed out so far, and the
    nudges given to the notice dispatcher. It ends with a value, with an error, or with a panic. [WithTx] is the
    transaction of [memstore.go]: an error puts the snapshotted fields of the store back. *)
From S2P Require Import Prelude Errs GoTime GoJson Ext Types Regimes Lifecycle Deadlines Ledger Questionnaire Risk Notice Access Store.

(** What the process gets from outside: the clock's [n]-th reading, the [n]-th fresh id, its time zone, the
    SHA-256 digest, and how [fmt] prints a pointer to an integer. *)
Class Runtime `{UU : UUID} : Type := {
  now_at : nat -> time;
  NewV7 : nat -> M uuid;
  Local : Location;
  sha256 : string -> string;
  address : Z -> string
}.

(** [application.BankingCore], with the state the core keeps between calls. *)
Class BankingCore `{DC : Decimal} `{UU : UUID} : Type := {
  core_state : Type;
  Post : core_state -> CoreConfig -> CoreInstruction -> M CoreReceipt * core_state
}.

Inductive outcome (A : Type) : Type :=
| Done (a : A)
| Fails (e : error)
| Panics (msg : string).
Arguments Done {A} a.
Arguments Fails {A} e.
Arguments Panics {A} msg.

Section world.
Context `{DC : Decimal} `{UU : UUID} {Body : Type} {BC : BankingCore} {RT : Runtime}.

Record World : Type := mkWorld {
  w_store : MemStore Body;
  w_core : core_state;
  w_ticks : nat;
  w_ids : nat;
  w_kicks : nat
}.
Definition with_store (w : World) (m : MemStore Body) : World :=
  mkWorld m (w_core w) (w_ticks w) (w_ids w) (w_kicks w).

Definition P (A : Type) : Type := World -> outcome A * World.

#[export] Instance P_ret : MRet P := fun A a w => (Done a, w).
#[export] Instance P_bind : MBind P := fun A B f p w =>
  match p w with
  | (Done a, w') => f a w'
  | (Fails e, w') => (Fails e, w')
  | (Panics msg, w') => (Panics msg, w')
  end.

Definition of_M {A} (r : M A) : outcome A := match r with Ok a => Done a | Err e => Fails e end.
(** A value or error that does not depend on the world; a read of the store; a store operation. *)
Definition lift {A} (r : M A) : P A := fun w => (of_M r, w).
Definition rd {A} (f : MemStore Body -> M A) : P A := fun w => (of_M (f (w_store w)), w).
Definition op {A} (f : MemStore Body -> M A * MemStore Body) : P A := fun w =>
  let '(r, m) := f (w_store w) in (of_M r, with_store w m).
Definition throw {A} (e : Error) : P A := lift (fail e).
Definition throwE {A} (e : error) : P A := lift (Err e).
Definition panic {A} (msg : string) : P A := fun w => (Panics msg, w).

(** [s.now()]. *)
Definition now : P time := fun w =>
  (Done (now_at (w_ticks w)), mkWorld (w_store w) (w_core w) (S (w_ticks w)) (w_ids w) (w_kicks w)).
(** [uuid.NewV7()]. *)
Definition new_id : P uuid := fun w =>
  (of_M (NewV7 (w_ids w)), mkWorld (w_store w) (w_core w) (w_ticks w) (S (w_ids w)) (w_kicks w)).
(** [s.afterCommit()]. *)
Definition kick : P unit := fun w =>
  (Done tt, mkWorld (w_store w) (w_core w) (w_ticks w) (w_ids w) (S (w_kicks w))).
(** [s.core.Post]. *)
Definition core_post (cfg : CoreConfig) (ins : CoreInstruction) : P (M CoreReceipt) := fun w =>
  let '(r, c) := Post (w_core w) cfg ins in
  (Done r, mkWorld (w_store w) c (w_ticks w) (w_ids w) (w_kicks w)).

(** Looking at an error instead of returning it. *)
Definition try_ {A} (p : P A) : P (M A) := fun w =>
  match p w with
  | (Done a, w') => (Done (Ok a), w')
  | (Fails e, w') => (Done (Err e), w')
  | (Panics msg, w') => (Panics msg, w')
  end.
Definition when (b : bool) (p : P unit) : P unit := if b then p else mret tt.
Fixpoint for_each {A} (f : A -> P unit) (l : list A) : P unit :=
  match l with [] => mret tt | a :: l => _ ← f a; for_each f l end.

(** [MemStore.WithTx]. *)
Definition WithTx {A} (c : Ctx) (fn : memTx -> P A) : P A :=
  match IDFrom c with
  | None => throw ErrMissing
  | Some id => fun w =>
      let snap := snapshot (w_store w) in
      match fn (mkMemTx id (From_ctx c)) w with
      | (Fails e, w') => (Fails e, with_store w' (restore snap (w_store w')))
      | r => r
      end
  end.

(** ** Facts *)

Lemma P_bind_done {A B} (f : A -> P B) (p : P A) w b w' :
  mbind f p w = (Done b, w') <-> exists a w1, p w = (Done a, w1) /\ f a w1 = (Done b, w').
Proof.
  unfold mbind, P_bind. destruct (p w) as [[a|e|msg] w1]; split; naive_solver.
Qed.

Lemma lift_done {A} (r : M A) w a w' : lift r w = (Done a, w') <-> r = Ok a /\ w' = w.
Proof. unfold lift. destruct r; cbn; split; intros H; destruct_and?; simplify_eq; done. Qed.
Lemma rd_done {A} (f : MemStore Body -> M A) w a w' :
  rd f w = (Done a, w') <-> f (w_store w) = Ok a /\ w' = w.
Proof. unfold rd. destruct (f (w_store w)); cbn; split; intros H; destruct_and?; simplify_eq; done. Qed.
Lemma op_done {A} (f : MemStore Body -> M A * MemStore Body) w a w' :
  op f w = (Done a, w') <-> exists m, f (w_store w) = (Ok a, m) /\ w' = with_store w m.
Proof. unfold op. destruct (f (w_store w)) as [[a'|e] m]; cbn; naive_solver. Qed.
Lemma try_done {A} (p : P A) w r w' :
  try_ p w = (Done r, w') <->
  (exists a, r = Ok a /\ p w = (Done a, w')) \/ (exists e, r = Err e /\ p w = (Fails e, w')).
Proof. unfold try_. destruct (p w) as [[a|e|msg] w1]; naive_solver. Qed.
Lemma ret_done {A} (a : A) w b w' : mret (M := P) a w = (Done b, w') <-> a = b /\ w' = w.
Proof. unfold mret, P_ret. naive_solver. Qed.
Lemma throw_done {A} e w (a : A) w' : throw e w = (Done a, w') <-> False.
Proof. unfold throw, lift, fail; cbn. naive_solver. Qed.
Lemma throwE_done {A} e w (a : A) w' : throwE e w = (Done a, w') <-> False.
Proof. unfold throwE, lift; cbn. naive_solver. Qed.

Lemma WithTx_done {A} c (fn : memTx -> P A) w a w' :
  WithTx c fn w = (Done a, w') <->
  exists id, IDFrom c = Some id /\ fn (mkMemTx id (From_ctx c)) w = (Done a, w').
Proof.
  unfold WithTx. destruct (IDFrom c) as [id|].
  - split.
    + intros H. exists id. split; [done|]. by destruct (fn _ w) as [[]].
    + intros (id' & [= <-] & H). by rewrite H.
  - rewrite throw_done. split; [done|]. by intros (id & [=] & _).
Qed.
End world.
Arguments World {DC UU} Body {BC}.
Arguments P {DC UU} Body {BC}.

(** Takes a computation that ended with a value apart, step by step. *)
Ltac inv_P_step :=
  match goal with
  | H : mbind _ _ _ = (Done _, _) |- _ =>
      let a := fresh "a" in let w := fresh "w" in let H1 := fresh H in
      apply P_bind_done in H as (a & w & H1 & H)
  | H : lift _ _ = (Done _, _) |- _ => apply lift_done in H as [H ->]
  | H : rd _ _ = (Done _, _) |- _ => apply rd_done in H as [H ->]
  | H : op _ _ = (Done _, _) |- _ => apply op_done in H as (? & H & ->)
  | H : mret _ _ = (Done _, _) |- _ => unfold mret, P_ret in H
  | H : throw _ _ = (Done _, _) |- _ => apply throw_done in H as []
  | H : throwE _ _ = (Done _, _) |- _ => apply throwE_done in H as []
  | H : now _ = (Done _, _) |- _ => injection H as <- <-
  | H : (Done _, _) = (Done _, _) |- _ => injection H; clear H; intros; subst
  | H : (Fails _, _) = (Done _, _) |- _ => discriminate H
  | H : (Panics _, _) = (Done _, _) |- _ => discriminate H
  end.
Ltac inv_P := repeat inv_P_step.
