(* ===== verification/Oapi.v ===== *)
(** * Oapi: the contract's data as the generated server declares it ([ports/http/oapi/oapi.gen.go]).

    One record per struct, its fields under their Go names after the struct's; an enumeration is a string and the
    list of its constants. [X_json] is what [json.Marshal] writes of an [X]: the fields in order, under the names of
    their tags, an absent optional one left out. A Go slice or map is nil ([None]) or holds something, perhaps
    nothing: the difference is written. A [float64] that does not fit JSON and an instant outside the years 0 to 9999
    make the whole value fail. Instants are written in the process's zone, which is what the database driver and the
    clock give them. The bodies of requests have decoders. *)
From Stdlib Require Import SpecFloat.
From S2P Require Import Prelude Errs GoTime GoJson Ext Text Store Wire Tx.

Definition slice (A : Type) : Type := option (list A).
Definition made {A} (l : list A) : slice A := Some l.
(** A slice built by appending to the nil one. *)
Definition appended {A} (l : list A) : slice A := match l with [] => None | _ => Some l end.

(** ** [json.Marshal] *)
Definition marshal_error : error := EPlain "json: the value cannot be written".
Definition required {A} (name : string) (enc : A -> M json) (a : A) : option (string * M json) := Some (name, enc a).
Definition optional {A} (name : string) (enc : A -> M json) (a : option A) : option (string * M json) :=
  match a with Some a => Some (name, enc a) | None => None end.
Definition write_member (m : string * M json) : M (string * json) := (pair m.1) <$> m.2.
Definition struct_json (members : list (option (string * M json))) : M json :=
  JObject <$> mapM write_member (omap (fun m => m) members).

Lemma struct_none ms : struct_json (None :: ms) = struct_json ms.
Proof. done. Qed.
Lemma struct_some k j ms l : struct_json ms = Ok (JObject l) -> struct_json (Some (k, Ok j) :: ms) = Ok (JObject ((k, j) :: l)).
Proof.
  unfold struct_json. cbn. destruct (mapM write_member _) as [l'|e]; [|done]. cbn. by intros [= <-].
Qed.
Lemma struct_inv m ms j : struct_json (m :: ms) = Ok j -> match m with
  | None => struct_json ms = Ok j
  | Some (k, r) => exists v l, r = Ok v /\ struct_json ms = Ok (JObject l) /\ j = JObject ((k, v) :: l)
  end.
Proof.
  destruct m as [[k r]|]; [|done]. unfold struct_json. cbn. destruct r as [v|e]; [|done]. cbn.
  destruct (mapM write_member _) as [l|e]; [|done]. cbn. intros [= <-]. by exists v, l.
Qed.

Definition string_json (s : string) : M json := Ok (JString s).
Definition int_json (n : Z) : M json := Ok (JNumber (show n)).
Definition bool_json (b : bool) : M json := Ok (JBool b).
Definition float_json (f : spec_float) : M json :=
  match f with S754_nan | S754_infinity _ => Err marshal_error | _ => Ok (JNumber (FormatFloat f)) end.
Definition slice_json {A} (enc : A -> M json) (s : slice A) : M json :=
  match s with None => Ok JNull | Some l => JArray <$> mapM enc l end.
Definition map_json {A} (enc : A -> M json) (m : option (gmap string A)) : M json :=
  match m with
  | None => Ok JNull
  | Some m => JObject <$> mapM (fun kv => write_member (kv.1, enc kv.2)) (sort_Slice fst (map_to_list m))
  end.
(** A [map[string]any]: its members by name, each decoded before. *)
Definition any_map_json (m : option (list (string * json))) : M json :=
  Ok match m with None => JNull | Some ms => JObject (sorted_members ms) end.

(** *** The text of a value: what is hashed for idempotency *)
(** A string as [json.Marshal] quotes it: control characters, the characters of HTML and the two line separators
    are escaped. A string that was decoded is UTF-8. *)
Definition hex_digit (n : Z) : Ascii.ascii := of_byte (if n <? 10 then 48 + n else 87 + n).
Definition backslash : Ascii.ascii := of_byte 92.
Definition escape_byte (a : Ascii.ascii) : string :=
  let n := byte_of a in
  let short c := String backslash (String c EmptyString) in
  if (n =? 34) || (n =? 92) then short a
  else if n =? 8 then short "b"%char else if n =? 12 then short "f"%char else if n =? 10 then short "n"%char
  else if n =? 13 then short "r"%char else if n =? 9 then short "t"%char
  else if (n <? 32) || (n =? 60) || (n =? 62) || (n =? 38) then
    String backslash ("u00" +:+ String (hex_digit (n / 16)) (String (hex_digit (n mod 16)) EmptyString))
  else String a EmptyString.
Fixpoint escape_text (s : string) : string :=
  match s with
  | EmptyString => EmptyString
  | String a s' =>
      match s' with
      | String b (String c s'') =>
          if (byte_of a =? 226) && (byte_of b =? 128) && ((byte_of c =? 168) || (byte_of c =? 169))
          then String backslash ("u202" +:+ String (hex_digit (byte_of c - 160)) (escape_text s''))
          else escape_byte a +:+ escape_text s'
      | _ => escape_byte a +:+ escape_text s'
      end
  end.
Definition quote_json (s : string) : string := dquote +:+ escape_text s +:+ dquote.
Definition joined (open close : string) (l : list string) : string := open +:+ String.concat "," l +:+ close.
Fixpoint json_text (j : json) : string :=
  match j with
  | JNull => "null"
  | JBool b => if b then "true" else "false"
  | JNumber lit => lit
  | JString s => quote_json s
  | JArray l => joined "[" "]" (map json_text l)
  | JObject ms => joined "{" "}" (map (fun '(k, j) => quote_json k +:+ ":" +:+ json_text j) ms)
  end.
(** [body, _ := json.Marshal(v)]. *)
Definition body_text (r : M json) : string := match r with Ok j => json_text j | Err _ => "" end.

(** *** Instants: [time.Time.MarshalJSON] and [UnmarshalJSON] *)
Definition zone_text (offset : Z) : string :=
  if offset =? 0 then "Z"
  else let minutes := Z.quot offset 60 in
    (if minutes <? 0 then "-" else "+") +:+ pad2 (Z.abs minutes / 60) +:+ ":" +:+ pad2 (Z.abs minutes mod 60).
Definition time_text (loc : Location) (t : time) : M string :=
  let '(y, m, d) := date_of loc t in
  let c := local_clock loc t in
  let offset := loc_offset loc (secs t) in
  if negb ((0 <=? y) && (y <=? 9999)) || (24 <=? Z.abs (Z.quot offset 60) / 60) then Err marshal_error
  else Ok (pad4 y +:+ "-" +:+ pad2 m +:+ "-" +:+ pad2 d +:+ "T" +:+ pad2 (c / 3600) +:+ ":" +:+ pad2 (c / 60 mod 60) +:+ ":" +:+ pad2 (c mod 60)
           +:+ (if nanos t =? 0 then "" else "." +:+ frac 9 (nanos t)) +:+ zone_text offset).
Definition char_at (i : nat) (s : string) : option Ascii.ascii := String.get i s.
(** What the layout lets pass and the strict reading refuses: an hour of one digit, a comma before the fraction, an
    offset of 24 hours or 60 minutes. *)
Definition strict_zone (s : string) : bool :=
  let n := String.length s in
  let num2 i := match char_at i s, char_at (S i) s with
                | Some a, Some b => match digit_value a, digit_value b with Some x, Some y => x * 10 + y | _, _ => 0 end
                | _, _ => 0 end in
  bool_decide (char_at (n - 1) s = Some "Z"%char) || ((num2 (n - 5)%nat <? 24) && (num2 (n - 2)%nat <? 60)).
Definition parse_strict (s : string) : option time :=
  match parse_nano s with
  | Some t =>
      if bool_decide (char_at 12 s = Some ":"%char) || bool_decide (char_at 19 s = Some ","%char) || negb (strict_zone s) then None
      else Some t
  | None => None
  end.

(** *** Bytes: [base64.StdEncoding] *)
Definition std_char (a : Ascii.ascii) : Ascii.ascii := if Ascii.eqb a "-" then "+"%char else if Ascii.eqb a "_" then "/"%char else a.
Fixpoint string_map (f : Ascii.ascii -> Ascii.ascii) (s : string) : string :=
  match s with EmptyString => EmptyString | String a s => String (f a) (string_map f s) end.
Definition std_padding (n : nat) : string := match (n mod 3)%nat with 1%nat => "==" | 2%nat => "=" | _ => "" end.
Definition StdEncode (s : string) : string := string_map std_char (EncodeToString s) +:+ std_padding (String.length s).
(** The characters of the alphabet, as those of the other one; its two odd ones are no characters of this. *)
Definition url_char (a : Ascii.ascii) : Ascii.ascii :=
  if Ascii.eqb a "+" then "-"%char else if Ascii.eqb a "/" then "_"%char
  else if Ascii.eqb a "-" || Ascii.eqb a "_" then "!"%char else a.
Definition StdDecode (s : string) : option string :=
  let s := of_bytes (List.filter (fun n => negb (line_break n)) (to_bytes s)) in
  let n := String.length s in
  if negb (Nat.eqb (n mod 4) 0) then None
  else
    let bare := if bool_decide (String.substring (n - 2) 2 s = "==") then String.substring 0 (n - 2) s
                else if bool_decide (String.substring (n - 1) 1 s = "=") then String.substring 0 (n - 1) s else s in
    DecodeString (string_map url_char bare).

Definition bytes_json (s : string) : M json := Ok (JString (StdEncode s)).
Definition into_bytes : decoder string := fun j s =>
  match j with
  | JNull => ("", true)
  | JString t => match StdDecode t with Some b => (b, true) | None => (s, false) end
  | _ => (s, false)
  end.
Definition into_time : decoder time := fun j t =>
  match j with
  | JNull => (t, true)
  | JString s => match parse_strict s with Some t' => (t', true) | None => (t, false) end
  | _ => (t, false)
  end.
Definition into_float64 : decoder spec_float := fun j f =>
  match j with
  | JNull => (f, true)
  | JNumber lit => match ParseFloat lit with Some f' => (f', true) | None => (f, false) end
  | _ => (f, false)
  end.
(** A slice that can be nil. *)
Definition into_made {A} (zero : A) (d : decoder A) : decoder (slice A) := fun j s =>
  match j with JNull => (None, true) | _ => let '(l, ok) := into_slice zero d j (default [] s) in (if (ok : bool) then Some l else s, ok) end.

(** ** Enumerations: the constants, and [Valid] *)
Definition AnswerType_values : list string :=
  ["AMOUNT"; "DATE"; "TEXT"; "YES_NO"].
Definition AnswerType_Valid (e : string) : bool := slices_contains AnswerType_values e.
Definition Channel_values : list string :=
  ["EMAIL"; "LETTER"].
Definition Channel_Valid (e : string) : bool := slices_contains Channel_values e.
Definition DeadlineKind_values : list string :=
  ["ACKNOWLEDGE"; "REFUND"; "RESOLUTION"].
Definition DeadlineKind_Valid (e : string) : bool := slices_contains DeadlineKind_values e.
Definition DeadlineStatus_values : list string :=
  ["BREACHED"; "LATE"; "MET"; "RUNNING"; "VOID"].
Definition DeadlineStatus_Valid (e : string) : bool := slices_contains DeadlineStatus_values e.
Definition DisputeEvent_values : list string :=
  ["ACKNOWLEDGE_CHARGEBACK"; "APPEAL"; "CLOSE"; "FILE_CHARGEBACK"; "ISSUE_FINAL_CREDIT"; "ISSUE_REFUND";
   "LOSE_CHARGEBACK"; "OPEN_INVESTIGATION"; "RECEIVE_QUESTIONNAIRE"; "REVERSE_PROVISIONAL_CREDIT";
   "SEND_QUESTIONNAIRE"; "SUBMIT_EVIDENCE"; "WIN_CHARGEBACK"].
Definition DisputeEvent_Valid (e : string) : bool := slices_contains DisputeEvent_values e.
Definition DisputeReason_values : list string :=
  ["AMOUNT_DIFFERS"; "DUPLICATE"; "NOT_RECEIVED"; "UNAUTHORISED"].
Definition DisputeReason_Valid (e : string) : bool := slices_contains DisputeReason_values e.
Definition DisputeState_values : list string :=
  ["CHARGEBACK_ACKNOWLEDGED"; "CHARGEBACK_FILED"; "CHARGEBACK_LOST"; "CHARGEBACK_WON"; "CLOSED";
   "EVIDENCE_SUBMITTED"; "FAST_REFUND_ISSUED"; "FINAL_CREDIT_ISSUED"; "INITIATED"; "INVESTIGATING";
   "PROVISIONAL_CREDIT_ISSUED"; "PROVISIONAL_CREDIT_REVERSED"; "QUESTIONNAIRE_RECEIVED"; "QUESTIONNAIRE_SENT";
   "SEPA_NQA_REFUND_ISSUED"].
Definition DisputeState_Valid (e : string) : bool := slices_contains DisputeState_values e.
Definition ErrorCode_values : list string :=
  ["appeals-exhausted"; "attachment-refused"; "attachment-unknown"; "concurrent-update"; "contract-violation";
   "core-declined"; "forbidden"; "idempotency-key-reuse"; "image-refused"; "internal"; "invalid-answers";
   "invalid-fields"; "invalid-liability"; "invalid-settlement"; "invalid-template-override";
   "invalid-transition"; "malformed-request"; "no-regime"; "not-found"; "not-resendable"; "rate-limited";
   "risk-hold"; "unauthenticated"; "unavailable"; "unknown-reason"; "unknown-regime"; "unknown-team";
   "unknown-template"].
Definition ErrorCode_Valid (e : string) : bool := slices_contains ErrorCode_values e.
Definition FieldType_values : list string :=
  ["DATE"; "MULTISELECT"; "NUMBER"; "SELECT"; "TEXT"; "TEXTAREA"].
Definition FieldType_Valid (e : string) : bool := slices_contains FieldType_values e.
Definition HealthStatus_values : list string :=
  ["ok"; "unavailable"].
Definition HealthStatus_Valid (e : string) : bool := slices_contains HealthStatus_values e.
Definition IssuedTenantKeyStatus_values : list string :=
  ["expired"; "live"; "revoked"].
Definition IssuedTenantKeyStatus_Valid (e : string) : bool := slices_contains IssuedTenantKeyStatus_values e.
Definition LedgerAccount_values : list string :=
  ["CUSTOMER"; "LOSS"; "RECOVERY"; "SUSPENSE"].
Definition LedgerAccount_Valid (e : string) : bool := slices_contains LedgerAccount_values e.
Definition NoticeKind_values : list string :=
  ["ACKNOWLEDGEMENT"; "CUSTOM"; "DOCUMENTS_RECEIVED"; "PROVISIONAL_CREDIT"; "QUESTIONNAIRE"; "REFUND";
   "REQUEST_FOR_INFORMATION"; "RESOLUTION"; "REVERSAL"; "STATUS_UPDATE"].
Definition NoticeKind_Valid (e : string) : bool := slices_contains NoticeKind_values e.
Definition PostingKind_values : list string :=
  ["FAST_REFUND"; "NQA_REFUND"; "PROVISIONAL_CREDIT"; "PROVISIONAL_CREDIT_REVERSAL"; "RECOVERY"; "WRITE_OFF"].
Definition PostingKind_Valid (e : string) : bool := slices_contains PostingKind_values e.
Definition QuestionnaireSuggestionAnswersValue_values : list string :=
  ["no"; "yes"].
Definition QuestionnaireSuggestionAnswersValue_Valid (e : string) : bool := slices_contains QuestionnaireSuggestionAnswersValue_values e.
Definition Regime_values : list string :=
  ["EU_PSD2_CARD"; "EU_SEPA_DIRECT_DEBIT"; "US_REG_E"; "US_REG_Z"].
Definition Regime_Valid (e : string) : bool := slices_contains Regime_values e.
Definition RiskTier_values : list string :=
  ["HIGH"; "LOW"; "MEDIUM"].
Definition RiskTier_Valid (e : string) : bool := slices_contains RiskTier_values e.
Definition SuspenseSettlement_values : list string :=
  ["RECOVERED"; "WRITTEN_OFF"].
Definition SuspenseSettlement_Valid (e : string) : bool := slices_contains SuspenseSettlement_values e.
Definition TenantKeyStatus_values : list string :=
  ["expired"; "live"; "revoked"].
Definition TenantKeyStatus_Valid (e : string) : bool := slices_contains TenantKeyStatus_values e.

(** ** Structs *)
Section structs.
Context `{UU : UUID} {RT : Runtime}.

Definition uuid_json (u : uuid) : M json := Ok (JString (uuid_String u)).
Definition time_json (t : time) : M json := JString <$> time_text Local t.
(** [openapi_types.Date]: the day alone. *)
Definition date_json (t : time) : M json := Ok (JString (format_day (local_day Local t))).

Record AcceptedSuggestion : Type := mkAcceptedSuggestion {
  AcceptedSuggestion_Probability : spec_float; AcceptedSuggestion_Reason : string
}.
Definition AcceptedSuggestion_json (v : AcceptedSuggestion) : M json := struct_json
  [required "probability" float_json (AcceptedSuggestion_Probability v);
   required "reason" string_json (AcceptedSuggestion_Reason v)].
(** The payload of an event keeps the members it has no field for. *)
Record ApplyEventRequestPayload : Type := mkApplyEventRequestPayload {
  Payload_Answers : option (option (gmap string string));
  Payload_Liability : option string;
  Payload_RiskOverride : option string;
  Payload_Settlement : option string;
  Payload_AdditionalProperties : list (string * json)
}.
(** [MarshalJSON]: a map of what is set and what was kept, written by name; a kept member of a field's name wins. *)
Definition ApplyEventRequestPayload_json (v : ApplyEventRequestPayload) : M json :=
  named ← mapM write_member (omap (fun m => m)
    [optional "answers" (map_json string_json) (Payload_Answers v);
     optional "liability" string_json (Payload_Liability v);
     optional "riskOverride" string_json (Payload_RiskOverride v);
     optional "settlement" string_json (Payload_Settlement v)]);
  Ok (JObject (sorted_members (named ++ Payload_AdditionalProperties v))).
(** [UnmarshalJSON]: names match exactly, the last of a name counts, and [null] leaves a field unset. *)
Definition last_member (ms : list (string * json)) (k : string) : option json :=
  snd <$> list.last (List.filter (fun m => bool_decide (m.1 = k)) ms).
Definition payload_field {A} (zero : A) (d : decoder A) (ms : list (string * json)) (k : string) : option (option A) :=
  match last_member ms k with
  | None => Some None
  | Some j => let '(a, ok) := into_pointer zero d j None in if (ok : bool) then Some a else None
  end.
Definition payload_names : list string := ["answers"; "liability"; "riskOverride"; "settlement"].
Definition kept_member (m : string * json) : option (string * json) := pair m.1 <$> through_any m.2.
Definition Payload_UnmarshalJSON (ms : list (string * json)) : option ApplyEventRequestPayload :=
  answers ← payload_field None (into_map "" into_string) ms "answers";
  liability ← payload_field "" into_string ms "liability";
  riskOverride ← payload_field "" into_string ms "riskOverride";
  settlement ← payload_field "" into_string ms "settlement";
  rest ← mapM kept_member (sorted_members (List.filter (fun m => negb (slices_contains payload_names m.1)) ms));
  Some (mkApplyEventRequestPayload answers liability riskOverride settlement rest).
Definition into_payload : decoder ApplyEventRequestPayload := fun j p =>
  match j with
  | JObject ms => match Payload_UnmarshalJSON ms with Some p' => (p', true) | None => (p, false) end
  | _ => (p, false)
  end.
Record ApplyEventRequest : Type := mkApplyEventRequest {
  ApplyEventRequest_Event : string; ApplyEventRequest_Payload : option ApplyEventRequestPayload
}.
Definition ApplyEventRequest_json (v : ApplyEventRequest) : M json := struct_json
  [required "event" string_json (ApplyEventRequest_Event v);
   optional "payload" ApplyEventRequestPayload_json (ApplyEventRequest_Payload v)].
Record Attachment : Type := mkAttachment {
  Attachment_ContentType : string; Attachment_Filename : string; Attachment_Id : uuid; Attachment_Size : Z
}.
Definition Attachment_json (v : Attachment) : M json := struct_json
  [required "contentType" string_json (Attachment_ContentType v);
   required "filename" string_json (Attachment_Filename v);
   required "id" uuid_json (Attachment_Id v);
   required "size" int_json (Attachment_Size v)].
Record Balances : Type := mkBalances {
  Balances_Customer : string; Balances_Loss : string; Balances_Recovery : string; Balances_Suspense : string
}.
Definition Balances_json (v : Balances) : M json := struct_json
  [required "customer" string_json (Balances_Customer v);
   required "loss" string_json (Balances_Loss v);
   required "recovery" string_json (Balances_Recovery v);
   required "suspense" string_json (Balances_Suspense v)].
Record ComposeEmailRequest : Type := mkComposeEmailRequest {
  ComposeEmailRequest_Attachments : option (slice uuid); ComposeEmailRequest_Fields : option (gmap string string);
  ComposeEmailRequest_Template : string
}.
Definition ComposeEmailRequest_json (v : ComposeEmailRequest) : M json := struct_json
  [optional "attachments" (slice_json uuid_json) (ComposeEmailRequest_Attachments v);
   required "fields" (map_json string_json) (ComposeEmailRequest_Fields v);
   required "template" string_json (ComposeEmailRequest_Template v)].
Record CoreReceipt : Type := mkCoreReceipt {
  CoreReceipt_LatencyMs : Z; CoreReceipt_ResponseCode : string; CoreReceipt_Rrn : string
}.
Definition CoreReceipt_json (v : CoreReceipt) : M json := struct_json
  [required "latencyMs" int_json (CoreReceipt_LatencyMs v);
   required "responseCode" string_json (CoreReceipt_ResponseCode v);
   required "rrn" string_json (CoreReceipt_Rrn v)].
Record CreateDisputeRequest : Type := mkCreateDisputeRequest {
  CreateDisputeRequest_Reason : option string; CreateDisputeRequest_Suggestion : option AcceptedSuggestion;
  CreateDisputeRequest_TransactionId : uuid
}.
Definition CreateDisputeRequest_json (v : CreateDisputeRequest) : M json := struct_json
  [optional "reason" string_json (CreateDisputeRequest_Reason v);
   optional "suggestion" AcceptedSuggestion_json (CreateDisputeRequest_Suggestion v);
   required "transactionId" uuid_json (CreateDisputeRequest_TransactionId v)].
Record CreateTenantKeyRequest : Type := mkCreateTenantKeyRequest {
  CreateTenantKeyRequest_ExpiresAt : option time; CreateTenantKeyRequest_Label : string
}.
Definition CreateTenantKeyRequest_json (v : CreateTenantKeyRequest) : M json := struct_json
  [optional "expiresAt" time_json (CreateTenantKeyRequest_ExpiresAt v);
   required "label" string_json (CreateTenantKeyRequest_Label v)].
Record Deadline : Type := mkDeadline {
  Deadline_Basis : string; Deadline_Cycle : Z; Deadline_DueAt : time; Deadline_Kind : string;
  Deadline_MetAt : option time; Deadline_StartedAt : time; Deadline_Status : string
}.
Definition Deadline_json (v : Deadline) : M json := struct_json
  [required "basis" string_json (Deadline_Basis v);
   required "cycle" int_json (Deadline_Cycle v);
   required "dueAt" time_json (Deadline_DueAt v);
   required "kind" string_json (Deadline_Kind v);
   optional "metAt" time_json (Deadline_MetAt v);
   required "startedAt" time_json (Deadline_StartedAt v);
   required "status" string_json (Deadline_Status v)].
Record LoggedEvent : Type := mkLoggedEvent {
  LoggedEvent_Actor : string; LoggedEvent_Event : string; LoggedEvent_FromState : string;
  LoggedEvent_OccurredAt : time; LoggedEvent_Payload : option (list (string * json)); LoggedEvent_Seq : Z;
  LoggedEvent_ToState : string; LoggedEvent_TraceId : option string
}.
Definition LoggedEvent_json (v : LoggedEvent) : M json := struct_json
  [required "actor" string_json (LoggedEvent_Actor v);
   required "event" string_json (LoggedEvent_Event v);
   required "fromState" string_json (LoggedEvent_FromState v);
   required "occurredAt" time_json (LoggedEvent_OccurredAt v);
   required "payload" any_map_json (LoggedEvent_Payload v);
   required "seq" int_json (LoggedEvent_Seq v);
   required "toState" string_json (LoggedEvent_ToState v);
   optional "traceId" string_json (LoggedEvent_TraceId v)].
Record LedgerEntry : Type := mkLedgerEntry {
  LedgerEntry_Amount : string; LedgerEntry_Core : option CoreReceipt; LedgerEntry_Credit : string;
  LedgerEntry_Currency : string; LedgerEntry_Debit : string; LedgerEntry_Kind : string;
  LedgerEntry_PostedAt : time; LedgerEntry_Reference : string; LedgerEntry_Seq : Z
}.
Definition LedgerEntry_json (v : LedgerEntry) : M json := struct_json
  [required "amount" string_json (LedgerEntry_Amount v);
   optional "core" CoreReceipt_json (LedgerEntry_Core v);
   required "credit" string_json (LedgerEntry_Credit v);
   required "currency" string_json (LedgerEntry_Currency v);
   required "debit" string_json (LedgerEntry_Debit v);
   required "kind" string_json (LedgerEntry_Kind v);
   required "postedAt" time_json (LedgerEntry_PostedAt v);
   required "reference" string_json (LedgerEntry_Reference v);
   required "seq" int_json (LedgerEntry_Seq v)].
Record Notice : Type := mkNotice {
  Notice_Actor : option string; Notice_Attachments : slice Attachment; Notice_Channel : string;
  Notice_CreatedAt : time; Notice_Error : option string; Notice_Id : Z; Notice_Kind : string;
  Notice_Recipient : string; Notice_ResendOf : option Z; Notice_SentAt : option time; Notice_Seq : Z;
  Notice_Subject : string
}.
Definition Notice_json (v : Notice) : M json := struct_json
  [optional "actor" string_json (Notice_Actor v);
   required "attachments" (slice_json Attachment_json) (Notice_Attachments v);
   required "channel" string_json (Notice_Channel v);
   required "createdAt" time_json (Notice_CreatedAt v);
   optional "error" string_json (Notice_Error v);
   required "id" int_json (Notice_Id v);
   required "kind" string_json (Notice_Kind v);
   required "recipient" string_json (Notice_Recipient v);
   optional "resendOf" int_json (Notice_ResendOf v);
   optional "sentAt" time_json (Notice_SentAt v);
   required "seq" int_json (Notice_Seq v);
   required "subject" string_json (Notice_Subject v)].
Record Question : Type := mkQuestion {
  Question_Id : string; Question_Required : bool; Question_Text : string; Question_Type : string
}.
Definition Question_json (v : Question) : M json := struct_json
  [required "id" string_json (Question_Id v);
   required "required" bool_json (Question_Required v);
   required "text" string_json (Question_Text v);
   required "type" string_json (Question_Type v)].
Record Questionnaire : Type := mkQuestionnaire {
  Questionnaire_Answers : option (option (gmap string string)); Questionnaire_Inconsistencies : slice string;
  Questionnaire_Questions : slice Question; Questionnaire_Reason : string; Questionnaire_ReceivedAt : option time;
  Questionnaire_SentAt : time
}.
Definition Questionnaire_json (v : Questionnaire) : M json := struct_json
  [optional "answers" (map_json string_json) (Questionnaire_Answers v);
   required "inconsistencies" (slice_json string_json) (Questionnaire_Inconsistencies v);
   required "questions" (slice_json Question_json) (Questionnaire_Questions v);
   required "reason" string_json (Questionnaire_Reason v);
   optional "receivedAt" time_json (Questionnaire_ReceivedAt v);
   required "sentAt" time_json (Questionnaire_SentAt v)].
Record RiskHistory : Type := mkRiskHistory {
  RiskHistory_AssessedAt : time; RiskHistory_Score : Z; RiskHistory_Seq : Z; RiskHistory_Tier : string
}.
Definition RiskHistory_json (v : RiskHistory) : M json := struct_json
  [required "assessedAt" time_json (RiskHistory_AssessedAt v);
   required "score" int_json (RiskHistory_Score v);
   required "seq" int_json (RiskHistory_Seq v);
   required "tier" string_json (RiskHistory_Tier v)].
Record RiskSignal : Type := mkRiskSignal {
  RiskSignal_Detail : string; RiskSignal_Name : string; RiskSignal_Points : Z; RiskSignal_Weight : Z
}.
Definition RiskSignal_json (v : RiskSignal) : M json := struct_json
  [required "detail" string_json (RiskSignal_Detail v);
   required "name" string_json (RiskSignal_Name v);
   required "points" int_json (RiskSignal_Points v);
   required "weight" int_json (RiskSignal_Weight v)].
Record Risk : Type := mkRisk {
  Risk_AssessedAt : time; Risk_History : slice RiskHistory; Risk_Score : Z; Risk_Signals : slice RiskSignal;
  Risk_Tier : string
}.
Definition Risk_json (v : Risk) : M json := struct_json
  [required "assessedAt" time_json (Risk_AssessedAt v);
   required "history" (slice_json RiskHistory_json) (Risk_History v);
   required "score" int_json (Risk_Score v);
   required "signals" (slice_json RiskSignal_json) (Risk_Signals v);
   required "tier" string_json (Risk_Tier v)].
Record Dispute : Type := mkDispute {
  Dispute_AccountId : uuid; Dispute_AllowedEvents : slice string; Dispute_Appeals : Z; Dispute_Balances : Balances;
  Dispute_Currency : string; Dispute_Deadlines : slice Deadline; Dispute_DisputedAmount : string;
  Dispute_Events : slice LoggedEvent; Dispute_Id : uuid; Dispute_Ledger : slice LedgerEntry;
  Dispute_Notices : slice Notice; Dispute_OpenedAt : time; Dispute_Questionnaire : option Questionnaire;
  Dispute_Reason : string; Dispute_Regime : string; Dispute_Risk : option Risk; Dispute_State : string;
  Dispute_TransactionId : uuid; Dispute_UpdatedAt : time; Dispute_Version : Z
}.
Definition Dispute_json (v : Dispute) : M json := struct_json
  [required "accountId" uuid_json (Dispute_AccountId v);
   required "allowedEvents" (slice_json string_json) (Dispute_AllowedEvents v);
   required "appeals" int_json (Dispute_Appeals v);
   required "balances" Balances_json (Dispute_Balances v);
   required "currency" string_json (Dispute_Currency v);
   required "deadlines" (slice_json Deadline_json) (Dispute_Deadlines v);
   required "disputedAmount" string_json (Dispute_DisputedAmount v);
   required "events" (slice_json LoggedEvent_json) (Dispute_Events v);
   required "id" uuid_json (Dispute_Id v);
   required "ledger" (slice_json LedgerEntry_json) (Dispute_Ledger v);
   required "notices" (slice_json Notice_json) (Dispute_Notices v);
   required "openedAt" time_json (Dispute_OpenedAt v);
   optional "questionnaire" Questionnaire_json (Dispute_Questionnaire v);
   required "reason" string_json (Dispute_Reason v);
   required "regime" string_json (Dispute_Regime v);
   optional "risk" Risk_json (Dispute_Risk v);
   required "state" string_json (Dispute_State v);
   required "transactionId" uuid_json (Dispute_TransactionId v);
   required "updatedAt" time_json (Dispute_UpdatedAt v);
   required "version" int_json (Dispute_Version v)].
Record DisputeSummary : Type := mkDisputeSummary {
  DisputeSummary_Currency : string; DisputeSummary_DisputedAmount : string; DisputeSummary_Id : uuid;
  DisputeSummary_NextDeadline : option Deadline; DisputeSummary_OpenedAt : time; DisputeSummary_Reason : string;
  DisputeSummary_Regime : string; DisputeSummary_RiskScore : option Z; DisputeSummary_RiskTier : option string;
  DisputeSummary_State : string; DisputeSummary_TransactionId : uuid; DisputeSummary_UpdatedAt : time
}.
Definition DisputeSummary_json (v : DisputeSummary) : M json := struct_json
  [required "currency" string_json (DisputeSummary_Currency v);
   required "disputedAmount" string_json (DisputeSummary_DisputedAmount v);
   required "id" uuid_json (DisputeSummary_Id v);
   optional "nextDeadline" Deadline_json (DisputeSummary_NextDeadline v);
   required "openedAt" time_json (DisputeSummary_OpenedAt v);
   required "reason" string_json (DisputeSummary_Reason v);
   required "regime" string_json (DisputeSummary_Regime v);
   optional "riskScore" int_json (DisputeSummary_RiskScore v);
   optional "riskTier" string_json (DisputeSummary_RiskTier v);
   required "state" string_json (DisputeSummary_State v);
   required "transactionId" uuid_json (DisputeSummary_TransactionId v);
   required "updatedAt" time_json (DisputeSummary_UpdatedAt v)].
Record DisputePage : Type := mkDisputePage {
  DisputePage_Items : slice DisputeSummary; DisputePage_NextCursor : option string
}.
Definition DisputePage_json (v : DisputePage) : M json := struct_json
  [required "items" (slice_json DisputeSummary_json) (DisputePage_Items v);
   optional "nextCursor" string_json (DisputePage_NextCursor v)].
Record DisputeReasonSuggestion : Type := mkDisputeReasonSuggestion {
  DisputeReasonSuggestion_Probability : option spec_float; DisputeReasonSuggestion_Reason : option string
}.
Definition DisputeReasonSuggestion_json (v : DisputeReasonSuggestion) : M json := struct_json
  [optional "probability" float_json (DisputeReasonSuggestion_Probability v);
   optional "reason" string_json (DisputeReasonSuggestion_Reason v)].
Record DisputeReasonSuggestionRequest : Type := mkDisputeReasonSuggestionRequest {
  DisputeReasonSuggestionRequest_Description : string
}.
Definition DisputeReasonSuggestionRequest_json (v : DisputeReasonSuggestionRequest) : M json := struct_json
  [required "description" string_json (DisputeReasonSuggestionRequest_Description v)].
Record TemplateOption : Type := mkTemplateOption {
  TemplateOption_Key : string; TemplateOption_Label : string; TemplateOption_Text : string
}.
Definition TemplateOption_json (v : TemplateOption) : M json := struct_json
  [required "key" string_json (TemplateOption_Key v);
   required "label" string_json (TemplateOption_Label v);
   required "text" string_json (TemplateOption_Text v)].
Record TemplateField : Type := mkTemplateField {
  TemplateField_Default : option string; TemplateField_Id : string; TemplateField_Label : string;
  TemplateField_List : option bool; TemplateField_Max : option Z; TemplateField_Min : option Z;
  TemplateField_Options : option (slice TemplateOption); TemplateField_Required : bool;
  TemplateField_Type : string
}.
Definition TemplateField_json (v : TemplateField) : M json := struct_json
  [optional "default" string_json (TemplateField_Default v);
   required "id" string_json (TemplateField_Id v);
   required "label" string_json (TemplateField_Label v);
   optional "list" bool_json (TemplateField_List v);
   optional "max" int_json (TemplateField_Max v);
   optional "min" int_json (TemplateField_Min v);
   optional "options" (slice_json TemplateOption_json) (TemplateField_Options v);
   required "required" bool_json (TemplateField_Required v);
   required "type" string_json (TemplateField_Type v)].
Record EmailTemplate : Type := mkEmailTemplate {
  EmailTemplate_Description : string; EmailTemplate_Fields : slice TemplateField; EmailTemplate_Kind : string;
  EmailTemplate_Label : string; EmailTemplate_Letter : bool; EmailTemplate_Paragraphs : slice string;
  EmailTemplate_Subject : string
}.
Definition EmailTemplate_json (v : EmailTemplate) : M json := struct_json
  [required "description" string_json (EmailTemplate_Description v);
   required "fields" (slice_json TemplateField_json) (EmailTemplate_Fields v);
   required "kind" string_json (EmailTemplate_Kind v);
   required "label" string_json (EmailTemplate_Label v);
   required "letter" bool_json (EmailTemplate_Letter v);
   required "paragraphs" (slice_json string_json) (EmailTemplate_Paragraphs v);
   required "subject" string_json (EmailTemplate_Subject v)].
Record TemplateFacts : Type := mkTemplateFacts {
  TemplateFacts_Amount : string; TemplateFacts_Bank : string; TemplateFacts_Customer : string;
  TemplateFacts_Dispute : string; TemplateFacts_Merchant : string; TemplateFacts_Today : time
}.
Definition TemplateFacts_json (v : TemplateFacts) : M json := struct_json
  [required "amount" string_json (TemplateFacts_Amount v);
   required "bank" string_json (TemplateFacts_Bank v);
   required "customer" string_json (TemplateFacts_Customer v);
   required "dispute" string_json (TemplateFacts_Dispute v);
   required "merchant" string_json (TemplateFacts_Merchant v);
   required "today" date_json (TemplateFacts_Today v)].
Record EmailTemplates : Type := mkEmailTemplates {
  EmailTemplates_Facts : TemplateFacts; EmailTemplates_Templates : slice EmailTemplate
}.
Definition EmailTemplates_json (v : EmailTemplates) : M json := struct_json
  [required "facts" TemplateFacts_json (EmailTemplates_Facts v);
   required "templates" (slice_json EmailTemplate_json) (EmailTemplates_Templates v)].
Record FieldError : Type := mkFieldError {
  FieldError_Field : string; FieldError_Message : string
}.
Definition FieldError_json (v : FieldError) : M json := struct_json
  [required "field" string_json (FieldError_Field v);
   required "message" string_json (FieldError_Message v)].
Record Health : Type := mkHealth {
  Health_Checks : option (option (gmap string string)); Health_Status : string
}.
Definition Health_json (v : Health) : M json := struct_json
  [optional "checks" (map_json string_json) (Health_Checks v);
   required "status" string_json (Health_Status v)].
Record IssuedTenantKey : Type := mkIssuedTenantKey {
  IssuedTenantKey_CreatedAt : time; IssuedTenantKey_ExpiresAt : option time; IssuedTenantKey_Id : uuid;
  IssuedTenantKey_Label : string; IssuedTenantKey_LastUsedAt : option time; IssuedTenantKey_Prefix : string;
  IssuedTenantKey_RevokedAt : option time; IssuedTenantKey_Secret : string; IssuedTenantKey_Status : string
}.
Definition IssuedTenantKey_json (v : IssuedTenantKey) : M json := struct_json
  [required "createdAt" time_json (IssuedTenantKey_CreatedAt v);
   optional "expiresAt" time_json (IssuedTenantKey_ExpiresAt v);
   required "id" uuid_json (IssuedTenantKey_Id v);
   required "label" string_json (IssuedTenantKey_Label v);
   optional "lastUsedAt" time_json (IssuedTenantKey_LastUsedAt v);
   required "prefix" string_json (IssuedTenantKey_Prefix v);
   optional "revokedAt" time_json (IssuedTenantKey_RevokedAt v);
   required "secret" string_json (IssuedTenantKey_Secret v);
   required "status" string_json (IssuedTenantKey_Status v)].
Record NoticeDocument : Type := mkNoticeDocument {
  NoticeDocument_Bank : string; NoticeDocument_Basis : option string; NoticeDocument_Channel : string;
  NoticeDocument_Closing : string; NoticeDocument_Date : time; NoticeDocument_Greeting : string;
  NoticeDocument_Id : Z; NoticeDocument_Kind : string; NoticeDocument_Paragraphs : slice string;
  NoticeDocument_Recipient : string; NoticeDocument_SentAt : option time; NoticeDocument_Subject : string
}.
Definition NoticeDocument_json (v : NoticeDocument) : M json := struct_json
  [required "bank" string_json (NoticeDocument_Bank v);
   optional "basis" string_json (NoticeDocument_Basis v);
   required "channel" string_json (NoticeDocument_Channel v);
   required "closing" string_json (NoticeDocument_Closing v);
   required "date" time_json (NoticeDocument_Date v);
   required "greeting" string_json (NoticeDocument_Greeting v);
   required "id" int_json (NoticeDocument_Id v);
   required "kind" string_json (NoticeDocument_Kind v);
   required "paragraphs" (slice_json string_json) (NoticeDocument_Paragraphs v);
   required "recipient" string_json (NoticeDocument_Recipient v);
   optional "sentAt" time_json (NoticeDocument_SentAt v);
   required "subject" string_json (NoticeDocument_Subject v)].
Record Problem : Type := mkProblem {
  Problem_AllowedEvents : option (slice string); Problem_Code : string; Problem_Detail : option string;
  Problem_Errors : option (slice FieldError); Problem_Instance : option string; Problem_RequestId : string;
  Problem_RetryAfterSeconds : option Z; Problem_Retryable : bool; Problem_Status : Z; Problem_Title : string;
  Problem_Type : string
}.
Definition Problem_json (v : Problem) : M json := struct_json
  [optional "allowedEvents" (slice_json string_json) (Problem_AllowedEvents v);
   required "code" string_json (Problem_Code v);
   optional "detail" string_json (Problem_Detail v);
   optional "errors" (slice_json FieldError_json) (Problem_Errors v);
   optional "instance" string_json (Problem_Instance v);
   required "requestId" string_json (Problem_RequestId v);
   optional "retryAfterSeconds" int_json (Problem_RetryAfterSeconds v);
   required "retryable" bool_json (Problem_Retryable v);
   required "status" int_json (Problem_Status v);
   required "title" string_json (Problem_Title v);
   required "type" string_json (Problem_Type v)].
Record SuggestedAnswer : Type := mkSuggestedAnswer {
  SuggestedAnswer_Probability : spec_float; SuggestedAnswer_Value : string
}.
Definition SuggestedAnswer_json (v : SuggestedAnswer) : M json := struct_json
  [required "probability" float_json (SuggestedAnswer_Probability v);
   required "value" string_json (SuggestedAnswer_Value v)].
Record QuestionnaireSuggestion : Type := mkQuestionnaireSuggestion {
  QuestionnaireSuggestion_Answers : option (gmap string SuggestedAnswer)
}.
Definition QuestionnaireSuggestion_json (v : QuestionnaireSuggestion) : M json := struct_json
  [required "answers" (map_json SuggestedAnswer_json) (QuestionnaireSuggestion_Answers v)].
Record QuestionnaireSuggestionRequest : Type := mkQuestionnaireSuggestionRequest {
  QuestionnaireSuggestionRequest_Reply : string
}.
Definition QuestionnaireSuggestionRequest_json (v : QuestionnaireSuggestionRequest) : M json := struct_json
  [required "reply" string_json (QuestionnaireSuggestionRequest_Reply v)].
Record SearchFilterSuggestion : Type := mkSearchFilterSuggestion {
  SearchFilterSuggestion_Overdue : option bool; SearchFilterSuggestion_Reason : option string;
  SearchFilterSuggestion_State : option string
}.
Definition SearchFilterSuggestion_json (v : SearchFilterSuggestion) : M json := struct_json
  [optional "overdue" bool_json (SearchFilterSuggestion_Overdue v);
   optional "reason" string_json (SearchFilterSuggestion_Reason v);
   optional "state" string_json (SearchFilterSuggestion_State v)].
Record SearchFilterSuggestionRequest : Type := mkSearchFilterSuggestionRequest {
  SearchFilterSuggestionRequest_Query : string
}.
Definition SearchFilterSuggestionRequest_json (v : SearchFilterSuggestionRequest) : M json := struct_json
  [required "query" string_json (SearchFilterSuggestionRequest_Query v)].
Record SessionBlob : Type := mkSessionBlob {
  SessionBlob_Ciphertext : string; SessionBlob_ExpiresAt : time; SessionBlob_Sid : option string;
  SessionBlob_Subject : option string; SessionBlob_TenantId : option uuid
}.
Definition SessionBlob_json (v : SessionBlob) : M json := struct_json
  [required "ciphertext" bytes_json (SessionBlob_Ciphertext v);
   required "expiresAt" time_json (SessionBlob_ExpiresAt v);
   optional "sid" string_json (SessionBlob_Sid v);
   optional "subject" string_json (SessionBlob_Subject v);
   optional "tenantId" uuid_json (SessionBlob_TenantId v)].
Record TemplateOverride : Type := mkTemplateOverride {
  TemplateOverride_Description : option string; TemplateOverride_Label : option string;
  TemplateOverride_OptionTexts : option (option (gmap string string));
  TemplateOverride_Paragraphs : option (slice string); TemplateOverride_Subject : option string
}.
Definition TemplateOverride_json (v : TemplateOverride) : M json := struct_json
  [optional "description" string_json (TemplateOverride_Description v);
   optional "label" string_json (TemplateOverride_Label v);
   optional "optionTexts" (map_json string_json) (TemplateOverride_OptionTexts v);
   optional "paragraphs" (slice_json string_json) (TemplateOverride_Paragraphs v);
   optional "subject" string_json (TemplateOverride_Subject v)].
Record TemplateSetting : Type := mkTemplateSetting {
  TemplateSetting_Base : EmailTemplate; TemplateSetting_Effective : EmailTemplate;
  TemplateSetting_Override : option TemplateOverride; TemplateSetting_UpdatedAt : option time;
  TemplateSetting_UpdatedBy : option string
}.
Definition TemplateSetting_json (v : TemplateSetting) : M json := struct_json
  [required "base" EmailTemplate_json (TemplateSetting_Base v);
   required "effective" EmailTemplate_json (TemplateSetting_Effective v);
   optional "override" TemplateOverride_json (TemplateSetting_Override v);
   optional "updatedAt" time_json (TemplateSetting_UpdatedAt v);
   optional "updatedBy" string_json (TemplateSetting_UpdatedBy v)].
Record Tenant : Type := mkTenant {
  Tenant_HasLogo : bool; Tenant_LogoUpdatedAt : option time; Tenant_Name : string
}.
Definition Tenant_json (v : Tenant) : M json := struct_json
  [required "hasLogo" bool_json (Tenant_HasLogo v);
   optional "logoUpdatedAt" time_json (Tenant_LogoUpdatedAt v);
   required "name" string_json (Tenant_Name v)].
Record TenantKey : Type := mkTenantKey {
  TenantKey_CreatedAt : time; TenantKey_ExpiresAt : option time; TenantKey_Id : uuid; TenantKey_Label : string;
  TenantKey_LastUsedAt : option time; TenantKey_Prefix : string; TenantKey_RevokedAt : option time;
  TenantKey_Status : string
}.
Definition TenantKey_json (v : TenantKey) : M json := struct_json
  [required "createdAt" time_json (TenantKey_CreatedAt v);
   optional "expiresAt" time_json (TenantKey_ExpiresAt v);
   required "id" uuid_json (TenantKey_Id v);
   required "label" string_json (TenantKey_Label v);
   optional "lastUsedAt" time_json (TenantKey_LastUsedAt v);
   required "prefix" string_json (TenantKey_Prefix v);
   optional "revokedAt" time_json (TenantKey_RevokedAt v);
   required "status" string_json (TenantKey_Status v)].
Record TenantSummary : Type := mkTenantSummary {
  TenantSummary_EmailDomains : slice string; TenantSummary_Id : uuid; TenantSummary_Issuer : option string;
  TenantSummary_Name : string; TenantSummary_Slug : string
}.
Definition TenantSummary_json (v : TenantSummary) : M json := struct_json
  [required "emailDomains" (slice_json string_json) (TenantSummary_EmailDomains v);
   required "id" uuid_json (TenantSummary_Id v);
   optional "issuer" string_json (TenantSummary_Issuer v);
   required "name" string_json (TenantSummary_Name v);
   required "slug" string_json (TenantSummary_Slug v)].

(** ** Bodies of requests: [json.Unmarshal] *)
Definition into_uuid (parse : string -> option uuid) : decoder uuid := fun j u =>
  match j with
  | JNull => (u, true)
  | JString s => match parse s with Some u' => (u', true) | None => (u, false) end
  | _ => (u, false)
  end.
Section bodies.
Context (uuid_Parse : string -> option uuid).

Definition zero_AcceptedSuggestion : AcceptedSuggestion := mkAcceptedSuggestion (S754_zero false) "".
Definition into_AcceptedSuggestion : decoder AcceptedSuggestion := into_struct
  [("probability", field AcceptedSuggestion_Probability (fun v x => mkAcceptedSuggestion x (AcceptedSuggestion_Reason v)) into_float64);
   ("reason", field AcceptedSuggestion_Reason (fun v x => mkAcceptedSuggestion (AcceptedSuggestion_Probability v) x) into_string)].
Definition zero_CreateDisputeRequest : CreateDisputeRequest := mkCreateDisputeRequest None None uuid_Nil.
Definition into_CreateDisputeRequest : decoder CreateDisputeRequest := into_struct
  [("reason", field CreateDisputeRequest_Reason
      (fun v x => mkCreateDisputeRequest x (CreateDisputeRequest_Suggestion v) (CreateDisputeRequest_TransactionId v)) (into_pointer "" into_string));
   ("suggestion", field CreateDisputeRequest_Suggestion
      (fun v x => mkCreateDisputeRequest (CreateDisputeRequest_Reason v) x (CreateDisputeRequest_TransactionId v))
      (into_pointer zero_AcceptedSuggestion into_AcceptedSuggestion));
   ("transactionId", field CreateDisputeRequest_TransactionId
      (fun v x => mkCreateDisputeRequest (CreateDisputeRequest_Reason v) (CreateDisputeRequest_Suggestion v) x) (into_uuid uuid_Parse))].
Definition zero_payload : ApplyEventRequestPayload := mkApplyEventRequestPayload None None None None [].
Definition zero_ApplyEventRequest : ApplyEventRequest := mkApplyEventRequest "" None.
Definition into_ApplyEventRequest : decoder ApplyEventRequest := into_struct
  [("event", field ApplyEventRequest_Event (fun v x => mkApplyEventRequest x (ApplyEventRequest_Payload v)) into_string);
   ("payload", field ApplyEventRequest_Payload (fun v x => mkApplyEventRequest (ApplyEventRequest_Event v) x) (into_pointer zero_payload into_payload))].
Definition zero_ComposeEmailRequest : ComposeEmailRequest := mkComposeEmailRequest None None "".
Definition into_ComposeEmailRequest : decoder ComposeEmailRequest := into_struct
  [("attachments", field ComposeEmailRequest_Attachments
      (fun v x => mkComposeEmailRequest x (ComposeEmailRequest_Fields v) (ComposeEmailRequest_Template v))
      (into_pointer None (into_made uuid_Nil (into_uuid uuid_Parse))));
   ("fields", field ComposeEmailRequest_Fields
      (fun v x => mkComposeEmailRequest (ComposeEmailRequest_Attachments v) x (ComposeEmailRequest_Template v)) (into_map "" into_string));
   ("template", field ComposeEmailRequest_Template
      (fun v x => mkComposeEmailRequest (ComposeEmailRequest_Attachments v) (ComposeEmailRequest_Fields v) x) into_string)].
Definition zero_SessionBlob : SessionBlob := mkSessionBlob "" zero_time None None None.
Definition into_SessionBlob : decoder SessionBlob := into_struct
  [("ciphertext", field SessionBlob_Ciphertext
      (fun v x => mkSessionBlob x (SessionBlob_ExpiresAt v) (SessionBlob_Sid v) (SessionBlob_Subject v) (SessionBlob_TenantId v)) into_bytes);
   ("expiresAt", field SessionBlob_ExpiresAt
      (fun v x => mkSessionBlob (SessionBlob_Ciphertext v) x (SessionBlob_Sid v) (SessionBlob_Subject v) (SessionBlob_TenantId v)) into_time);
   ("sid", field SessionBlob_Sid
      (fun v x => mkSessionBlob (SessionBlob_Ciphertext v) (SessionBlob_ExpiresAt v) x (SessionBlob_Subject v) (SessionBlob_TenantId v))
      (into_pointer "" into_string));
   ("subject", field SessionBlob_Subject
      (fun v x => mkSessionBlob (SessionBlob_Ciphertext v) (SessionBlob_ExpiresAt v) (SessionBlob_Sid v) x (SessionBlob_TenantId v))
      (into_pointer "" into_string));
   ("tenantId", field SessionBlob_TenantId
      (fun v x => mkSessionBlob (SessionBlob_Ciphertext v) (SessionBlob_ExpiresAt v) (SessionBlob_Sid v) (SessionBlob_Subject v) x)
      (into_pointer uuid_Nil (into_uuid uuid_Parse)))].
End bodies.

Definition zero_CreateTenantKeyRequest : CreateTenantKeyRequest := mkCreateTenantKeyRequest None "".
Definition into_CreateTenantKeyRequest : decoder CreateTenantKeyRequest := into_struct
  [("expiresAt", field CreateTenantKeyRequest_ExpiresAt (fun v x => mkCreateTenantKeyRequest x (CreateTenantKeyRequest_Label v)) (into_pointer zero_time into_time));
   ("label", field CreateTenantKeyRequest_Label (fun v x => mkCreateTenantKeyRequest (CreateTenantKeyRequest_ExpiresAt v) x) into_string)].
Definition zero_TemplateOverride : TemplateOverride := mkTemplateOverride None None None None None.
Definition into_TemplateOverride : decoder TemplateOverride := into_struct
  [("description", field TemplateOverride_Description
      (fun v x => mkTemplateOverride x (TemplateOverride_Label v) (TemplateOverride_OptionTexts v) (TemplateOverride_Paragraphs v) (TemplateOverride_Subject v))
      (into_pointer "" into_string));
   ("label", field TemplateOverride_Label
      (fun v x => mkTemplateOverride (TemplateOverride_Description v) x (TemplateOverride_OptionTexts v) (TemplateOverride_Paragraphs v) (TemplateOverride_Subject v))
      (into_pointer "" into_string));
   ("optionTexts", field TemplateOverride_OptionTexts
      (fun v x => mkTemplateOverride (TemplateOverride_Description v) (TemplateOverride_Label v) x (TemplateOverride_Paragraphs v) (TemplateOverride_Subject v))
      (into_pointer None (into_map "" into_string)));
   ("paragraphs", field TemplateOverride_Paragraphs
      (fun v x => mkTemplateOverride (TemplateOverride_Description v) (TemplateOverride_Label v) (TemplateOverride_OptionTexts v) x (TemplateOverride_Subject v))
      (into_pointer None (into_made "" into_string)));
   ("subject", field TemplateOverride_Subject
      (fun v x => mkTemplateOverride (TemplateOverride_Description v) (TemplateOverride_Label v) (TemplateOverride_OptionTexts v) (TemplateOverride_Paragraphs v) x)
      (into_pointer "" into_string))].
(** The bodies of one text each. *)
Definition into_SearchFilterSuggestionRequest : decoder SearchFilterSuggestionRequest := into_struct
  [("query", field SearchFilterSuggestionRequest_Query (fun _ x => mkSearchFilterSuggestionRequest x) into_string)].
Definition into_DisputeReasonSuggestionRequest : decoder DisputeReasonSuggestionRequest := into_struct
  [("description", field DisputeReasonSuggestionRequest_Description (fun _ x => mkDisputeReasonSuggestionRequest x) into_string)].
Definition into_QuestionnaireSuggestionRequest : decoder QuestionnaireSuggestionRequest := into_struct
  [("reply", field QuestionnaireSuggestionRequest_Reply (fun _ x => mkQuestionnaireSuggestionRequest x) into_string)].
Record ReassignDisputeJSONBody : Type := mkReassignDisputeJSONBody { ReassignDisputeJSONBody_Team : string }.
Definition into_ReassignDisputeJSONBody : decoder ReassignDisputeJSONBody := into_struct
  [("team", field ReassignDisputeJSONBody_Team (fun _ x => mkReassignDisputeJSONBody x) into_string)].
End structs.
