(* ===== verification/Answers.v ===== *)
(** * Answers: what each operation of the contract may answer, and how it is written ([ports/http/oapi/oapi.gen.go]).

    One type per operation, one constructor per declared response; [VisitX] writes it. The value is encoded before
    anything of the response is sent, so an encoding that fails leaves the error to whoever answers instead. Two
    handlers answer with types of their own ([fileResponse], [imageResponse]): the [Other] constructors. *)
From S2P Require Import Prelude Errs GoTime GoJson Ext Text Http Wire Tx Oapi.

Definition visitor : Type := Headers -> M Resp.
Definition with_type (contentType : string) (h : Headers) : Headers := <["Content-Type" := contentType]> h.
Definition write_json (status : Z) (body : M json) : visitor := fun h =>
  (fun j => mkResp status (with_type "application/json" h) (JSONBody j)) <$> body.
Definition write_status (status : Z) : visitor := fun h => Ok (mkResp status h NoBody).
Definition write_stream (contentType : string) (status : Z) (content : string) (length : Z) : visitor := fun h =>
  let h := with_type contentType h in
  Ok (mkResp status (if length =? 0 then h else <["Content-Length" := show length]> h) (BytesBody content)).

Section answers.
Context `{UU : UUID} {RT : Runtime}.

Definition write_problem (status : Z) (v : Problem) : visitor := fun h =>
  (fun j => mkResp status (with_type "application/problem+json" h) (JSONBody j)) <$> Problem_json v.
Definition write_limited (status : Z) (v : Problem) (retryAfter : option Z) : visitor := fun h =>
  (fun j => let h := with_type "application/problem+json" h in
            mkResp status (match retryAfter with Some n => <["Retry-After" := show n]> h | None => h end) (JSONBody j))
    <$> Problem_json v.

Inductive ListDisputesResponseObject : Type :=
| ListDisputes200JSONResponse (v : DisputePage)
| ListDisputes400ApplicationProblemPlusJSONResponse (v : Problem)
| ListDisputes401ApplicationProblemPlusJSONResponse (v : Problem)
| ListDisputes429ApplicationProblemPlusJSONResponse (v : Problem) (retryAfter : option Z).
Definition VisitListDisputesResponse (response : ListDisputesResponseObject) : visitor :=
  match response with
  | ListDisputes200JSONResponse v => write_json 200 (DisputePage_json v)
  | ListDisputes400ApplicationProblemPlusJSONResponse v => write_problem 400 v
  | ListDisputes401ApplicationProblemPlusJSONResponse v => write_problem 401 v
  | ListDisputes429ApplicationProblemPlusJSONResponse v n => write_limited 429 v n
  end.
Inductive CreateDisputeResponseObject : Type :=
| CreateDispute201JSONResponse (v : Dispute)
| CreateDispute400ApplicationProblemPlusJSONResponse (v : Problem)
| CreateDispute401ApplicationProblemPlusJSONResponse (v : Problem)
| CreateDispute404ApplicationProblemPlusJSONResponse (v : Problem)
| CreateDispute422ApplicationProblemPlusJSONResponse (v : Problem)
| CreateDispute429ApplicationProblemPlusJSONResponse (v : Problem) (retryAfter : option Z).
Definition VisitCreateDisputeResponse (response : CreateDisputeResponseObject) : visitor :=
  match response with
  | CreateDispute201JSONResponse v => write_json 201 (Dispute_json v)
  | CreateDispute400ApplicationProblemPlusJSONResponse v => write_problem 400 v
  | CreateDispute401ApplicationProblemPlusJSONResponse v => write_problem 401 v
  | CreateDispute404ApplicationProblemPlusJSONResponse v => write_problem 404 v
  | CreateDispute422ApplicationProblemPlusJSONResponse v => write_problem 422 v
  | CreateDispute429ApplicationProblemPlusJSONResponse v n => write_limited 429 v n
  end.
Inductive GetDisputeResponseObject : Type :=
| GetDispute200JSONResponse (v : Dispute)
| GetDispute401ApplicationProblemPlusJSONResponse (v : Problem)
| GetDispute404ApplicationProblemPlusJSONResponse (v : Problem)
| GetDispute429ApplicationProblemPlusJSONResponse (v : Problem) (retryAfter : option Z).
Definition VisitGetDisputeResponse (response : GetDisputeResponseObject) : visitor :=
  match response with
  | GetDispute200JSONResponse v => write_json 200 (Dispute_json v)
  | GetDispute401ApplicationProblemPlusJSONResponse v => write_problem 401 v
  | GetDispute404ApplicationProblemPlusJSONResponse v => write_problem 404 v
  | GetDispute429ApplicationProblemPlusJSONResponse v n => write_limited 429 v n
  end.
Inductive UploadAttachmentResponseObject : Type :=
| UploadAttachment201JSONResponse (v : Attachment)
| UploadAttachment400ApplicationProblemPlusJSONResponse (v : Problem)
| UploadAttachment401ApplicationProblemPlusJSONResponse (v : Problem)
| UploadAttachment403ApplicationProblemPlusJSONResponse (v : Problem)
| UploadAttachment404ApplicationProblemPlusJSONResponse (v : Problem)
| UploadAttachment422ApplicationProblemPlusJSONResponse (v : Problem)
| UploadAttachment429ApplicationProblemPlusJSONResponse (v : Problem) (retryAfter : option Z).
Definition VisitUploadAttachmentResponse (response : UploadAttachmentResponseObject) : visitor :=
  match response with
  | UploadAttachment201JSONResponse v => write_json 201 (Attachment_json v)
  | UploadAttachment400ApplicationProblemPlusJSONResponse v => write_problem 400 v
  | UploadAttachment401ApplicationProblemPlusJSONResponse v => write_problem 401 v
  | UploadAttachment403ApplicationProblemPlusJSONResponse v => write_problem 403 v
  | UploadAttachment404ApplicationProblemPlusJSONResponse v => write_problem 404 v
  | UploadAttachment422ApplicationProblemPlusJSONResponse v => write_problem 422 v
  | UploadAttachment429ApplicationProblemPlusJSONResponse v n => write_limited 429 v n
  end.
Inductive GetAttachmentResponseObject : Type :=
| GetAttachment200ApplicationoctetStreamResponse (content : string) (contentLength : Z)
| GetAttachment401ApplicationProblemPlusJSONResponse (v : Problem)
| GetAttachment404ApplicationProblemPlusJSONResponse (v : Problem)
| GetAttachment429ApplicationProblemPlusJSONResponse (v : Problem) (retryAfter : option Z)
| GetAttachmentOther (visit : visitor).
Definition VisitGetAttachmentResponse (response : GetAttachmentResponseObject) : visitor :=
  match response with
  | GetAttachment200ApplicationoctetStreamResponse content n => write_stream "application/octet-stream" 200 content n
  | GetAttachment401ApplicationProblemPlusJSONResponse v => write_problem 401 v
  | GetAttachment404ApplicationProblemPlusJSONResponse v => write_problem 404 v
  | GetAttachment429ApplicationProblemPlusJSONResponse v n => write_limited 429 v n
  | GetAttachmentOther visit => visit
  end.
Inductive ListEmailTemplatesResponseObject : Type :=
| ListEmailTemplates200JSONResponse (v : EmailTemplates)
| ListEmailTemplates401ApplicationProblemPlusJSONResponse (v : Problem)
| ListEmailTemplates404ApplicationProblemPlusJSONResponse (v : Problem)
| ListEmailTemplates429ApplicationProblemPlusJSONResponse (v : Problem) (retryAfter : option Z).
Definition VisitListEmailTemplatesResponse (response : ListEmailTemplatesResponseObject) : visitor :=
  match response with
  | ListEmailTemplates200JSONResponse v => write_json 200 (EmailTemplates_json v)
  | ListEmailTemplates401ApplicationProblemPlusJSONResponse v => write_problem 401 v
  | ListEmailTemplates404ApplicationProblemPlusJSONResponse v => write_problem 404 v
  | ListEmailTemplates429ApplicationProblemPlusJSONResponse v n => write_limited 429 v n
  end.
Inductive ApplyDisputeEventResponseObject : Type :=
| ApplyDisputeEvent200JSONResponse (v : Dispute)
| ApplyDisputeEvent400ApplicationProblemPlusJSONResponse (v : Problem)
| ApplyDisputeEvent401ApplicationProblemPlusJSONResponse (v : Problem)
| ApplyDisputeEvent404ApplicationProblemPlusJSONResponse (v : Problem)
| ApplyDisputeEvent409ApplicationProblemPlusJSONResponse (v : Problem)
| ApplyDisputeEvent422ApplicationProblemPlusJSONResponse (v : Problem)
| ApplyDisputeEvent429ApplicationProblemPlusJSONResponse (v : Problem) (retryAfter : option Z)
| ApplyDisputeEvent503ApplicationProblemPlusJSONResponse (v : Problem).
Definition VisitApplyDisputeEventResponse (response : ApplyDisputeEventResponseObject) : visitor :=
  match response with
  | ApplyDisputeEvent200JSONResponse v => write_json 200 (Dispute_json v)
  | ApplyDisputeEvent400ApplicationProblemPlusJSONResponse v => write_problem 400 v
  | ApplyDisputeEvent401ApplicationProblemPlusJSONResponse v => write_problem 401 v
  | ApplyDisputeEvent404ApplicationProblemPlusJSONResponse v => write_problem 404 v
  | ApplyDisputeEvent409ApplicationProblemPlusJSONResponse v => write_problem 409 v
  | ApplyDisputeEvent422ApplicationProblemPlusJSONResponse v => write_problem 422 v
  | ApplyDisputeEvent429ApplicationProblemPlusJSONResponse v n => write_limited 429 v n
  | ApplyDisputeEvent503ApplicationProblemPlusJSONResponse v => write_problem 503 v
  end.
Inductive ComposeEmailResponseObject : Type :=
| ComposeEmail201JSONResponse (v : Dispute)
| ComposeEmail400ApplicationProblemPlusJSONResponse (v : Problem)
| ComposeEmail401ApplicationProblemPlusJSONResponse (v : Problem)
| ComposeEmail403ApplicationProblemPlusJSONResponse (v : Problem)
| ComposeEmail404ApplicationProblemPlusJSONResponse (v : Problem)
| ComposeEmail422ApplicationProblemPlusJSONResponse (v : Problem)
| ComposeEmail429ApplicationProblemPlusJSONResponse (v : Problem) (retryAfter : option Z).
Definition VisitComposeEmailResponse (response : ComposeEmailResponseObject) : visitor :=
  match response with
  | ComposeEmail201JSONResponse v => write_json 201 (Dispute_json v)
  | ComposeEmail400ApplicationProblemPlusJSONResponse v => write_problem 400 v
  | ComposeEmail401ApplicationProblemPlusJSONResponse v => write_problem 401 v
  | ComposeEmail403ApplicationProblemPlusJSONResponse v => write_problem 403 v
  | ComposeEmail404ApplicationProblemPlusJSONResponse v => write_problem 404 v
  | ComposeEmail422ApplicationProblemPlusJSONResponse v => write_problem 422 v
  | ComposeEmail429ApplicationProblemPlusJSONResponse v n => write_limited 429 v n
  end.
Inductive GetNoticeResponseObject : Type :=
| GetNotice200JSONResponse (v : NoticeDocument)
| GetNotice401ApplicationProblemPlusJSONResponse (v : Problem)
| GetNotice404ApplicationProblemPlusJSONResponse (v : Problem)
| GetNotice429ApplicationProblemPlusJSONResponse (v : Problem) (retryAfter : option Z).
Definition VisitGetNoticeResponse (response : GetNoticeResponseObject) : visitor :=
  match response with
  | GetNotice200JSONResponse v => write_json 200 (NoticeDocument_json v)
  | GetNotice401ApplicationProblemPlusJSONResponse v => write_problem 401 v
  | GetNotice404ApplicationProblemPlusJSONResponse v => write_problem 404 v
  | GetNotice429ApplicationProblemPlusJSONResponse v n => write_limited 429 v n
  end.
Inductive ResendNoticeResponseObject : Type :=
| ResendNotice201JSONResponse (v : Dispute)
| ResendNotice401ApplicationProblemPlusJSONResponse (v : Problem)
| ResendNotice403ApplicationProblemPlusJSONResponse (v : Problem)
| ResendNotice404ApplicationProblemPlusJSONResponse (v : Problem)
| ResendNotice409ApplicationProblemPlusJSONResponse (v : Problem)
| ResendNotice429ApplicationProblemPlusJSONResponse (v : Problem) (retryAfter : option Z).
Definition VisitResendNoticeResponse (response : ResendNoticeResponseObject) : visitor :=
  match response with
  | ResendNotice201JSONResponse v => write_json 201 (Dispute_json v)
  | ResendNotice401ApplicationProblemPlusJSONResponse v => write_problem 401 v
  | ResendNotice403ApplicationProblemPlusJSONResponse v => write_problem 403 v
  | ResendNotice404ApplicationProblemPlusJSONResponse v => write_problem 404 v
  | ResendNotice409ApplicationProblemPlusJSONResponse v => write_problem 409 v
  | ResendNotice429ApplicationProblemPlusJSONResponse v n => write_limited 429 v n
  end.
Inductive SuggestQuestionnaireAnswersResponseObject : Type :=
| SuggestQuestionnaireAnswers200JSONResponse (v : QuestionnaireSuggestion)
| SuggestQuestionnaireAnswers400ApplicationProblemPlusJSONResponse (v : Problem)
| SuggestQuestionnaireAnswers401ApplicationProblemPlusJSONResponse (v : Problem)
| SuggestQuestionnaireAnswers404ApplicationProblemPlusJSONResponse (v : Problem)
| SuggestQuestionnaireAnswers429ApplicationProblemPlusJSONResponse (v : Problem) (retryAfter : option Z).
Definition VisitSuggestQuestionnaireAnswersResponse (response : SuggestQuestionnaireAnswersResponseObject) : visitor :=
  match response with
  | SuggestQuestionnaireAnswers200JSONResponse v => write_json 200 (QuestionnaireSuggestion_json v)
  | SuggestQuestionnaireAnswers400ApplicationProblemPlusJSONResponse v => write_problem 400 v
  | SuggestQuestionnaireAnswers401ApplicationProblemPlusJSONResponse v => write_problem 401 v
  | SuggestQuestionnaireAnswers404ApplicationProblemPlusJSONResponse v => write_problem 404 v
  | SuggestQuestionnaireAnswers429ApplicationProblemPlusJSONResponse v n => write_limited 429 v n
  end.
Inductive ReassignDisputeResponseObject : Type :=
| ReassignDispute204Response
| ReassignDispute400ApplicationProblemPlusJSONResponse (v : Problem)
| ReassignDispute401ApplicationProblemPlusJSONResponse (v : Problem)
| ReassignDispute403ApplicationProblemPlusJSONResponse (v : Problem)
| ReassignDispute404ApplicationProblemPlusJSONResponse (v : Problem)
| ReassignDispute422ApplicationProblemPlusJSONResponse (v : Problem).
Definition VisitReassignDisputeResponse (response : ReassignDisputeResponseObject) : visitor :=
  match response with
  | ReassignDispute204Response => write_status 204
  | ReassignDispute400ApplicationProblemPlusJSONResponse v => write_problem 400 v
  | ReassignDispute401ApplicationProblemPlusJSONResponse v => write_problem 401 v
  | ReassignDispute403ApplicationProblemPlusJSONResponse v => write_problem 403 v
  | ReassignDispute404ApplicationProblemPlusJSONResponse v => write_problem 404 v
  | ReassignDispute422ApplicationProblemPlusJSONResponse v => write_problem 422 v
  end.
Inductive GetHealthzResponseObject : Type :=
| GetHealthz200JSONResponse (v : Health).
Definition VisitGetHealthzResponse (response : GetHealthzResponseObject) : visitor :=
  match response with
  | GetHealthz200JSONResponse v => write_json 200 (Health_json v)
  end.
Inductive DeleteSessionsResponseObject : Type :=
| DeleteSessions200JSONResponse (deleted : Z)
| DeleteSessions400ApplicationProblemPlusJSONResponse (v : Problem)
| DeleteSessions401ApplicationProblemPlusJSONResponse (v : Problem).
Definition VisitDeleteSessionsResponse (response : DeleteSessionsResponseObject) : visitor :=
  match response with
  | DeleteSessions200JSONResponse deleted => write_json 200 (struct_json [required "deleted" int_json deleted])
  | DeleteSessions400ApplicationProblemPlusJSONResponse v => write_problem 400 v
  | DeleteSessions401ApplicationProblemPlusJSONResponse v => write_problem 401 v
  end.
Inductive DeleteSessionResponseObject : Type :=
| DeleteSession204Response
| DeleteSession401ApplicationProblemPlusJSONResponse (v : Problem).
Definition VisitDeleteSessionResponse (response : DeleteSessionResponseObject) : visitor :=
  match response with
  | DeleteSession204Response => write_status 204
  | DeleteSession401ApplicationProblemPlusJSONResponse v => write_problem 401 v
  end.
Inductive GetSessionResponseObject : Type :=
| GetSession200JSONResponse (v : SessionBlob)
| GetSession401ApplicationProblemPlusJSONResponse (v : Problem)
| GetSession404ApplicationProblemPlusJSONResponse (v : Problem).
Definition VisitGetSessionResponse (response : GetSessionResponseObject) : visitor :=
  match response with
  | GetSession200JSONResponse v => write_json 200 (SessionBlob_json v)
  | GetSession401ApplicationProblemPlusJSONResponse v => write_problem 401 v
  | GetSession404ApplicationProblemPlusJSONResponse v => write_problem 404 v
  end.
Inductive PutSessionResponseObject : Type :=
| PutSession204Response
| PutSession400ApplicationProblemPlusJSONResponse (v : Problem)
| PutSession401ApplicationProblemPlusJSONResponse (v : Problem).
Definition VisitPutSessionResponse (response : PutSessionResponseObject) : visitor :=
  match response with
  | PutSession204Response => write_status 204
  | PutSession400ApplicationProblemPlusJSONResponse v => write_problem 400 v
  | PutSession401ApplicationProblemPlusJSONResponse v => write_problem 401 v
  end.
Inductive ListTenantsResponseObject : Type :=
| ListTenants200JSONResponse (v : slice TenantSummary)
| ListTenants401ApplicationProblemPlusJSONResponse (v : Problem).
Definition VisitListTenantsResponse (response : ListTenantsResponseObject) : visitor :=
  match response with
  | ListTenants200JSONResponse v => write_json 200 (slice_json TenantSummary_json v)
  | ListTenants401ApplicationProblemPlusJSONResponse v => write_problem 401 v
  end.
Inductive GetMyAvatarResponseObject : Type :=
| GetMyAvatar200ImageResponse (content contentType : string) (contentLength : Z)
| GetMyAvatar401ApplicationProblemPlusJSONResponse (v : Problem)
| GetMyAvatar404ApplicationProblemPlusJSONResponse (v : Problem)
| GetMyAvatar429ApplicationProblemPlusJSONResponse (v : Problem) (retryAfter : option Z)
| GetMyAvatarOther (visit : visitor).
Definition VisitGetMyAvatarResponse (response : GetMyAvatarResponseObject) : visitor :=
  match response with
  | GetMyAvatar200ImageResponse content ct n => write_stream ct 200 content n
  | GetMyAvatar401ApplicationProblemPlusJSONResponse v => write_problem 401 v
  | GetMyAvatar404ApplicationProblemPlusJSONResponse v => write_problem 404 v
  | GetMyAvatar429ApplicationProblemPlusJSONResponse v n => write_limited 429 v n
  | GetMyAvatarOther visit => visit
  end.
Inductive PutMyAvatarResponseObject : Type :=
| PutMyAvatar204Response
| PutMyAvatar400ApplicationProblemPlusJSONResponse (v : Problem)
| PutMyAvatar401ApplicationProblemPlusJSONResponse (v : Problem)
| PutMyAvatar403ApplicationProblemPlusJSONResponse (v : Problem)
| PutMyAvatar422ApplicationProblemPlusJSONResponse (v : Problem)
| PutMyAvatar429ApplicationProblemPlusJSONResponse (v : Problem) (retryAfter : option Z).
Definition VisitPutMyAvatarResponse (response : PutMyAvatarResponseObject) : visitor :=
  match response with
  | PutMyAvatar204Response => write_status 204
  | PutMyAvatar400ApplicationProblemPlusJSONResponse v => write_problem 400 v
  | PutMyAvatar401ApplicationProblemPlusJSONResponse v => write_problem 401 v
  | PutMyAvatar403ApplicationProblemPlusJSONResponse v => write_problem 403 v
  | PutMyAvatar422ApplicationProblemPlusJSONResponse v => write_problem 422 v
  | PutMyAvatar429ApplicationProblemPlusJSONResponse v n => write_limited 429 v n
  end.
Inductive GetReadyzResponseObject : Type :=
| GetReadyz200JSONResponse (v : Health)
| GetReadyz503JSONResponse (v : Health).
Definition VisitGetReadyzResponse (response : GetReadyzResponseObject) : visitor :=
  match response with
  | GetReadyz200JSONResponse v => write_json 200 (Health_json v)
  | GetReadyz503JSONResponse v => write_json 503 (Health_json v)
  end.
Inductive SuggestDisputeReasonResponseObject : Type :=
| SuggestDisputeReason200JSONResponse (v : DisputeReasonSuggestion)
| SuggestDisputeReason400ApplicationProblemPlusJSONResponse (v : Problem)
| SuggestDisputeReason401ApplicationProblemPlusJSONResponse (v : Problem)
| SuggestDisputeReason429ApplicationProblemPlusJSONResponse (v : Problem) (retryAfter : option Z).
Definition VisitSuggestDisputeReasonResponse (response : SuggestDisputeReasonResponseObject) : visitor :=
  match response with
  | SuggestDisputeReason200JSONResponse v => write_json 200 (DisputeReasonSuggestion_json v)
  | SuggestDisputeReason400ApplicationProblemPlusJSONResponse v => write_problem 400 v
  | SuggestDisputeReason401ApplicationProblemPlusJSONResponse v => write_problem 401 v
  | SuggestDisputeReason429ApplicationProblemPlusJSONResponse v n => write_limited 429 v n
  end.
Inductive SuggestSearchFiltersResponseObject : Type :=
| SuggestSearchFilters200JSONResponse (v : SearchFilterSuggestion)
| SuggestSearchFilters400ApplicationProblemPlusJSONResponse (v : Problem)
| SuggestSearchFilters401ApplicationProblemPlusJSONResponse (v : Problem)
| SuggestSearchFilters429ApplicationProblemPlusJSONResponse (v : Problem) (retryAfter : option Z).
Definition VisitSuggestSearchFiltersResponse (response : SuggestSearchFiltersResponseObject) : visitor :=
  match response with
  | SuggestSearchFilters200JSONResponse v => write_json 200 (SearchFilterSuggestion_json v)
  | SuggestSearchFilters400ApplicationProblemPlusJSONResponse v => write_problem 400 v
  | SuggestSearchFilters401ApplicationProblemPlusJSONResponse v => write_problem 401 v
  | SuggestSearchFilters429ApplicationProblemPlusJSONResponse v n => write_limited 429 v n
  end.
Inductive GetTenantResponseObject : Type :=
| GetTenant200JSONResponse (v : Tenant)
| GetTenant401ApplicationProblemPlusJSONResponse (v : Problem)
| GetTenant429ApplicationProblemPlusJSONResponse (v : Problem) (retryAfter : option Z).
Definition VisitGetTenantResponse (response : GetTenantResponseObject) : visitor :=
  match response with
  | GetTenant200JSONResponse v => write_json 200 (Tenant_json v)
  | GetTenant401ApplicationProblemPlusJSONResponse v => write_problem 401 v
  | GetTenant429ApplicationProblemPlusJSONResponse v n => write_limited 429 v n
  end.
Inductive ListTenantKeysResponseObject : Type :=
| ListTenantKeys200JSONResponse (v : slice TenantKey)
| ListTenantKeys401ApplicationProblemPlusJSONResponse (v : Problem)
| ListTenantKeys403ApplicationProblemPlusJSONResponse (v : Problem).
Definition VisitListTenantKeysResponse (response : ListTenantKeysResponseObject) : visitor :=
  match response with
  | ListTenantKeys200JSONResponse v => write_json 200 (slice_json TenantKey_json v)
  | ListTenantKeys401ApplicationProblemPlusJSONResponse v => write_problem 401 v
  | ListTenantKeys403ApplicationProblemPlusJSONResponse v => write_problem 403 v
  end.
Inductive CreateTenantKeyResponseObject : Type :=
| CreateTenantKey201JSONResponse (v : IssuedTenantKey)
| CreateTenantKey400ApplicationProblemPlusJSONResponse (v : Problem)
| CreateTenantKey401ApplicationProblemPlusJSONResponse (v : Problem)
| CreateTenantKey403ApplicationProblemPlusJSONResponse (v : Problem).
Definition VisitCreateTenantKeyResponse (response : CreateTenantKeyResponseObject) : visitor :=
  match response with
  | CreateTenantKey201JSONResponse v => write_json 201 (IssuedTenantKey_json v)
  | CreateTenantKey400ApplicationProblemPlusJSONResponse v => write_problem 400 v
  | CreateTenantKey401ApplicationProblemPlusJSONResponse v => write_problem 401 v
  | CreateTenantKey403ApplicationProblemPlusJSONResponse v => write_problem 403 v
  end.
Inductive RevokeTenantKeyResponseObject : Type :=
| RevokeTenantKey204Response
| RevokeTenantKey401ApplicationProblemPlusJSONResponse (v : Problem)
| RevokeTenantKey403ApplicationProblemPlusJSONResponse (v : Problem)
| RevokeTenantKey404ApplicationProblemPlusJSONResponse (v : Problem).
Definition VisitRevokeTenantKeyResponse (response : RevokeTenantKeyResponseObject) : visitor :=
  match response with
  | RevokeTenantKey204Response => write_status 204
  | RevokeTenantKey401ApplicationProblemPlusJSONResponse v => write_problem 401 v
  | RevokeTenantKey403ApplicationProblemPlusJSONResponse v => write_problem 403 v
  | RevokeTenantKey404ApplicationProblemPlusJSONResponse v => write_problem 404 v
  end.
Inductive ListTenantTemplatesResponseObject : Type :=
| ListTenantTemplates200JSONResponse (v : slice TemplateSetting)
| ListTenantTemplates401ApplicationProblemPlusJSONResponse (v : Problem)
| ListTenantTemplates403ApplicationProblemPlusJSONResponse (v : Problem)
| ListTenantTemplates429ApplicationProblemPlusJSONResponse (v : Problem) (retryAfter : option Z).
Definition VisitListTenantTemplatesResponse (response : ListTenantTemplatesResponseObject) : visitor :=
  match response with
  | ListTenantTemplates200JSONResponse v => write_json 200 (slice_json TemplateSetting_json v)
  | ListTenantTemplates401ApplicationProblemPlusJSONResponse v => write_problem 401 v
  | ListTenantTemplates403ApplicationProblemPlusJSONResponse v => write_problem 403 v
  | ListTenantTemplates429ApplicationProblemPlusJSONResponse v n => write_limited 429 v n
  end.
Inductive DeleteTenantTemplateResponseObject : Type :=
| DeleteTenantTemplate204Response
| DeleteTenantTemplate401ApplicationProblemPlusJSONResponse (v : Problem)
| DeleteTenantTemplate403ApplicationProblemPlusJSONResponse (v : Problem)
| DeleteTenantTemplate404ApplicationProblemPlusJSONResponse (v : Problem)
| DeleteTenantTemplate429ApplicationProblemPlusJSONResponse (v : Problem) (retryAfter : option Z).
Definition VisitDeleteTenantTemplateResponse (response : DeleteTenantTemplateResponseObject) : visitor :=
  match response with
  | DeleteTenantTemplate204Response => write_status 204
  | DeleteTenantTemplate401ApplicationProblemPlusJSONResponse v => write_problem 401 v
  | DeleteTenantTemplate403ApplicationProblemPlusJSONResponse v => write_problem 403 v
  | DeleteTenantTemplate404ApplicationProblemPlusJSONResponse v => write_problem 404 v
  | DeleteTenantTemplate429ApplicationProblemPlusJSONResponse v n => write_limited 429 v n
  end.
Inductive PutTenantTemplateResponseObject : Type :=
| PutTenantTemplate200JSONResponse (v : TemplateSetting)
| PutTenantTemplate400ApplicationProblemPlusJSONResponse (v : Problem)
| PutTenantTemplate401ApplicationProblemPlusJSONResponse (v : Problem)
| PutTenantTemplate403ApplicationProblemPlusJSONResponse (v : Problem)
| PutTenantTemplate422ApplicationProblemPlusJSONResponse (v : Problem)
| PutTenantTemplate429ApplicationProblemPlusJSONResponse (v : Problem) (retryAfter : option Z).
Definition VisitPutTenantTemplateResponse (response : PutTenantTemplateResponseObject) : visitor :=
  match response with
  | PutTenantTemplate200JSONResponse v => write_json 200 (TemplateSetting_json v)
  | PutTenantTemplate400ApplicationProblemPlusJSONResponse v => write_problem 400 v
  | PutTenantTemplate401ApplicationProblemPlusJSONResponse v => write_problem 401 v
  | PutTenantTemplate403ApplicationProblemPlusJSONResponse v => write_problem 403 v
  | PutTenantTemplate422ApplicationProblemPlusJSONResponse v => write_problem 422 v
  | PutTenantTemplate429ApplicationProblemPlusJSONResponse v n => write_limited 429 v n
  end.
Inductive GetTenantLogoResponseObject : Type :=
| GetTenantLogo200ImageResponse (content contentType : string) (contentLength : Z)
| GetTenantLogo401ApplicationProblemPlusJSONResponse (v : Problem)
| GetTenantLogo404ApplicationProblemPlusJSONResponse (v : Problem)
| GetTenantLogo429ApplicationProblemPlusJSONResponse (v : Problem) (retryAfter : option Z)
| GetTenantLogoOther (visit : visitor).
Definition VisitGetTenantLogoResponse (response : GetTenantLogoResponseObject) : visitor :=
  match response with
  | GetTenantLogo200ImageResponse content ct n => write_stream ct 200 content n
  | GetTenantLogo401ApplicationProblemPlusJSONResponse v => write_problem 401 v
  | GetTenantLogo404ApplicationProblemPlusJSONResponse v => write_problem 404 v
  | GetTenantLogo429ApplicationProblemPlusJSONResponse v n => write_limited 429 v n
  | GetTenantLogoOther visit => visit
  end.
Inductive PutTenantLogoResponseObject : Type :=
| PutTenantLogo200JSONResponse (v : Tenant)
| PutTenantLogo400ApplicationProblemPlusJSONResponse (v : Problem)
| PutTenantLogo401ApplicationProblemPlusJSONResponse (v : Problem)
| PutTenantLogo403ApplicationProblemPlusJSONResponse (v : Problem)
| PutTenantLogo422ApplicationProblemPlusJSONResponse (v : Problem)
| PutTenantLogo429ApplicationProblemPlusJSONResponse (v : Problem) (retryAfter : option Z).
Definition VisitPutTenantLogoResponse (response : PutTenantLogoResponseObject) : visitor :=
  match response with
  | PutTenantLogo200JSONResponse v => write_json 200 (Tenant_json v)
  | PutTenantLogo400ApplicationProblemPlusJSONResponse v => write_problem 400 v
  | PutTenantLogo401ApplicationProblemPlusJSONResponse v => write_problem 401 v
  | PutTenantLogo403ApplicationProblemPlusJSONResponse v => write_problem 403 v
  | PutTenantLogo422ApplicationProblemPlusJSONResponse v => write_problem 422 v
  | PutTenantLogo429ApplicationProblemPlusJSONResponse v n => write_limited 429 v n
  end.
End answers.
