(* ===== verification/Sql.v ===== *)
(** * Sql: the tables of the database, its row-level security, and the queries
    ([migrations/*.sql], [infrastructure/postgres/sqlcgen]).

    PostgreSQL runs the statements of the repository; what is modelled is what those statements mean. A table is a
    list of rows in the order of its identity column, or a map by its primary key; a column of text that holds an
    enumeration holds the constant, since a Go conversion between string types changes nothing; a [jsonb] column holds
    the value its text decodes to; a [timestamptz] keeps microseconds; and rounding to [numeric(19, 4)] is a
    parameter. A statement sees the rows the policies let its session see and is refused the ones they do not let it
    write. Rows of equal sort key come out in table order. Settings are kept by the paths the queries read. *)
From S2P Require Import Prelude Errs GoTime GoJson Ext Types Regimes Lifecycle Deadlines Ledger Questionnaire Risk Notice Access Store.

(** ** What the driver reports *)
Inductive driver_error : Type :=
| ErrNoRows
| PgError (Code Constraint : string)
| NetError (msg : string)     (* a timeout, a refused connection: nothing was done *)
| OtherError (msg : string).
Abbreviation sql A := (res driver_error A).
Definition unique_violation (constraint : string) : driver_error := PgError "23505" constraint.
Definition foreign_key_violation (constraint : string) : driver_error := PgError "23503" constraint.
Definition check_violation (constraint : string) : driver_error := PgError "23514" constraint.
Definition rls_violation : driver_error := PgError "42501" "".

(** ** Columns *)
Class Numeric `{DC : Decimal} : Type := numeric_19_4 : dec -> option dec.
Definition Microsecond : Z := 1000.
Definition timestamptz (t : time) : time := t - t mod Microsecond.
Definition to_numeric `{Numeric} (d : dec) : sql dec :=
  match numeric_19_4 d with Some d => Ok d | None => Err (PgError "22003" "") end.
(** A text column refuses a NUL byte; only the idempotency columns can be given one. *)
Definition to_text (s : string) : sql string := if no_nul s then Ok s else Err (PgError "22021" "").

(** The settings a transaction is bound to, and the time it began. *)
Record Session `{UUID} : Type := mkSession { ss_tenant : uuid; ss_subject : string; ss_kind : string; ss_now : time }.
Arguments Session {_}.

(** ** Tables *)
Section tables.
Context `{DC : Decimal} `{UU : UUID} {Body : Type}.

Record TenantRow : Type := mkTenantRow {
  tw_Name : string;
  tw_Timezone : option string;
  tw_Holidays : option (list string);
  tw_Core : option (option string * RawMessage)   (* the core member, with the text of its kind *)
}.
Record AccountRow : Type := mkAccountRow {
  aw_TenantID : uuid;
  aw_HolderName : string;
  aw_Currency : string;
  aw_OpenedAt : time;
  aw_Email : option string;
  aw_PostalAddress : option string
}.
Record TransactionRow : Type := mkTransactionRow {
  xw_TenantID : uuid;
  xw_AccountID : uuid;
  xw_Rail : Rail;
  xw_Amount : dec;
  xw_Currency : string;
  xw_Merchant : string;
  xw_OccurredAt : time;
  xw_Mcc : option string
}.
(** A row of a table that belongs to a dispute. *)
Record Child (A : Type) : Type := mkChild { ch_TenantID : uuid; ch_DisputeID : uuid; ch_row : A }.
Record EventRow : Type := mkEventRow {
  ew_Seq : Z;
  ew_Event : Event;
  ew_FromState : State;
  ew_ToState : State;
  ew_Actor : string;
  ew_Payload : RawMessage;
  ew_IdempotencyKey : option string;
  ew_TraceID : option string;
  ew_OccurredAt : time;
  ew_ActorID : option string
}.
Record LedgerRow : Type := mkLedgerRow {
  lw_Seq : Z;
  lw_Posting : Posting;
  lw_Reference : string;
  lw_PostedAt : time;
  lw_CoreRrn : option string;
  lw_CoreResponseCode : option string;
  lw_CoreLatencyMs : option Z
}.
Record QuestionnaireRow : Type := mkQuestionnaireRow {
  qw_Reason : Reason;
  qw_Questions : list Question;
  qw_Answers : option Answers;
  qw_SentAt : time;
  qw_ReceivedAt : option time
}.
Record NoticeRow : Type := mkNoticeRow {
  nw_ID : Z;
  nw_Seq : Z;
  nw_Kind : NoticeKind;
  nw_Channel : Channel;
  nw_Recipient : string;
  nw_Subject : string;
  nw_Document : RawMessage;
  nw_CreatedAt : time;
  nw_SentAt : option time;
  nw_Attempts : Z;
  nw_NextAttemptAt : time;
  nw_LastError : option string;
  nw_Actor : option string;
  nw_ResendOf : option Z;
  nw_TraceContext : option string
}.
Record RiskRow : Type := mkRiskRow { kw_Seq : Z; kw_Score : Z; kw_Tier : RiskTier; kw_Signals : list Signal; kw_AssessedAt : time }.
Record MetadataRow : Type := mkMetadataRow { mw_Logo : option string; mw_LogoContentType : option string; mw_LogoUpdatedAt : option time }.
Record TeamRow : Type := mkTeamRow { gw_TenantID : uuid; gw_Slug : string; gw_IsDefault : bool }.
Record MemberRow : Type := mkMemberRow { bw_TenantID : uuid; bw_Subject : string; bw_Membership : Membership }.
Record GrantRow : Type := mkGrantRow { vw_TenantID : uuid; vw_Grant : Grant }.
Record RoutingRow : Type := mkRoutingRow { ow_TenantID : uuid; ow_Position : Z; ow_Rule : RoutingRule }.

(** A dispute's row has the columns of [DisputeRecord], an attachment's those of [Attachment] and its tenant; a stored
    response is keyed by tenant, scope and key; a template is a tenant's, by kind. *)
Record DB : Type := mkDB {
  db_tenants : gmap uuid TenantRow;
  db_accounts : gmap uuid AccountRow;
  db_transactions : gmap uuid TransactionRow;
  db_disputes : gmap uuid DisputeRecord;
  db_events : list (Child EventRow);
  db_idempotency : gmap (uuid * string * string) (StoredResponse Body);
  db_deadlines : list (Child Deadline);
  db_ledger : list (Child LedgerRow);
  db_questionnaires : gmap uuid (Child QuestionnaireRow);
  db_notices : list (Child NoticeRow);
  db_notice_seq : Z;
  db_risk : list (Child RiskRow);
  db_attachments : gmap uuid (uuid * Attachment);
  db_templates : gmap uuid (gmap string TenantTemplate);
  db_metadata : gmap uuid MetadataRow;
  db_profiles : gmap (uuid * string) Image;
  db_teams : list TeamRow;
  db_members : list MemberRow;
  db_grants : list GrantRow;
  db_routing : list RoutingRow;
  db_versions : gmap uuid Z
}.
End tables.
Arguments mkChild {UU A}.
Arguments ch_TenantID {UU A}.
Arguments ch_DisputeID {UU A}.
Arguments ch_row {UU A}.
Arguments Child {UU}.
Arguments DB {DC UU} Body.
Arguments AccountRow {UU}.
Arguments TransactionRow {DC UU}.
Arguments LedgerRow {DC}.
Arguments TeamRow {UU}.
Arguments MemberRow {UU}.
Arguments GrantRow {DC UU}.
Arguments RoutingRow {DC UU}.

Section setters.
Context `{DC : Decimal} `{UU : UUID} {Body : Type}.
Definition put_disputes (v : gmap uuid DisputeRecord) (db : DB Body) : DB Body :=
  mkDB (db_tenants db) (db_accounts db) (db_transactions db) v (db_events db) (db_idempotency db) (db_deadlines db) (db_ledger db) (db_questionnaires db) (db_notices db) (db_notice_seq db) (db_risk db) (db_attachments db) (db_templates db) (db_metadata db) (db_profiles db) (db_teams db) (db_members db) (db_grants db) (db_routing db) (db_versions db).
Definition put_events (v : list (Child EventRow)) (db : DB Body) : DB Body :=
  mkDB (db_tenants db) (db_accounts db) (db_transactions db) (db_disputes db) v (db_idempotency db) (db_deadlines db) (db_ledger db) (db_questionnaires db) (db_notices db) (db_notice_seq db) (db_risk db) (db_attachments db) (db_templates db) (db_metadata db) (db_profiles db) (db_teams db) (db_members db) (db_grants db) (db_routing db) (db_versions db).
Definition put_idempotency (v : gmap (uuid * string * string) (StoredResponse Body)) (db : DB Body) : DB Body :=
  mkDB (db_tenants db) (db_accounts db) (db_transactions db) (db_disputes db) (db_events db) v (db_deadlines db) (db_ledger db) (db_questionnaires db) (db_notices db) (db_notice_seq db) (db_risk db) (db_attachments db) (db_templates db) (db_metadata db) (db_profiles db) (db_teams db) (db_members db) (db_grants db) (db_routing db) (db_versions db).
Definition put_deadlines (v : list (Child Deadline)) (db : DB Body) : DB Body :=
  mkDB (db_tenants db) (db_accounts db) (db_transactions db) (db_disputes db) (db_events db) (db_idempotency db) v (db_ledger db) (db_questionnaires db) (db_notices db) (db_notice_seq db) (db_risk db) (db_attachments db) (db_templates db) (db_metadata db) (db_profiles db) (db_teams db) (db_members db) (db_grants db) (db_routing db) (db_versions db).
Definition put_ledger (v : list (Child LedgerRow)) (db : DB Body) : DB Body :=
  mkDB (db_tenants db) (db_accounts db) (db_transactions db) (db_disputes db) (db_events db) (db_idempotency db) (db_deadlines db) v (db_questionnaires db) (db_notices db) (db_notice_seq db) (db_risk db) (db_attachments db) (db_templates db) (db_metadata db) (db_profiles db) (db_teams db) (db_members db) (db_grants db) (db_routing db) (db_versions db).
Definition put_questionnaires (v : gmap uuid (Child QuestionnaireRow)) (db : DB Body) : DB Body :=
  mkDB (db_tenants db) (db_accounts db) (db_transactions db) (db_disputes db) (db_events db) (db_idempotency db) (db_deadlines db) (db_ledger db) v (db_notices db) (db_notice_seq db) (db_risk db) (db_attachments db) (db_templates db) (db_metadata db) (db_profiles db) (db_teams db) (db_members db) (db_grants db) (db_routing db) (db_versions db).
Definition put_notices (v : list (Child NoticeRow)) (db : DB Body) : DB Body :=
  mkDB (db_tenants db) (db_accounts db) (db_transactions db) (db_disputes db) (db_events db) (db_idempotency db) (db_deadlines db) (db_ledger db) (db_questionnaires db) v (db_notice_seq db) (db_risk db) (db_attachments db) (db_templates db) (db_metadata db) (db_profiles db) (db_teams db) (db_members db) (db_grants db) (db_routing db) (db_versions db).
Definition put_notice_seq (v : Z) (db : DB Body) : DB Body :=
  mkDB (db_tenants db) (db_accounts db) (db_transactions db) (db_disputes db) (db_events db) (db_idempotency db) (db_deadlines db) (db_ledger db) (db_questionnaires db) (db_notices db) v (db_risk db) (db_attachments db) (db_templates db) (db_metadata db) (db_profiles db) (db_teams db) (db_members db) (db_grants db) (db_routing db) (db_versions db).
Definition put_risk (v : list (Child RiskRow)) (db : DB Body) : DB Body :=
  mkDB (db_tenants db) (db_accounts db) (db_transactions db) (db_disputes db) (db_events db) (db_idempotency db) (db_deadlines db) (db_ledger db) (db_questionnaires db) (db_notices db) (db_notice_seq db) v (db_attachments db) (db_templates db) (db_metadata db) (db_profiles db) (db_teams db) (db_members db) (db_grants db) (db_routing db) (db_versions db).
Definition put_attachments (v : gmap uuid (uuid * Attachment)) (db : DB Body) : DB Body :=
  mkDB (db_tenants db) (db_accounts db) (db_transactions db) (db_disputes db) (db_events db) (db_idempotency db) (db_deadlines db) (db_ledger db) (db_questionnaires db) (db_notices db) (db_notice_seq db) (db_risk db) v (db_templates db) (db_metadata db) (db_profiles db) (db_teams db) (db_members db) (db_grants db) (db_routing db) (db_versions db).
Definition put_templates (v : gmap uuid (gmap string TenantTemplate)) (db : DB Body) : DB Body :=
  mkDB (db_tenants db) (db_accounts db) (db_transactions db) (db_disputes db) (db_events db) (db_idempotency db) (db_deadlines db) (db_ledger db) (db_questionnaires db) (db_notices db) (db_notice_seq db) (db_risk db) (db_attachments db) v (db_metadata db) (db_profiles db) (db_teams db) (db_members db) (db_grants db) (db_routing db) (db_versions db).
Definition put_metadata (v : gmap uuid MetadataRow) (db : DB Body) : DB Body :=
  mkDB (db_tenants db) (db_accounts db) (db_transactions db) (db_disputes db) (db_events db) (db_idempotency db) (db_deadlines db) (db_ledger db) (db_questionnaires db) (db_notices db) (db_notice_seq db) (db_risk db) (db_attachments db) (db_templates db) v (db_profiles db) (db_teams db) (db_members db) (db_grants db) (db_routing db) (db_versions db).
Definition put_profiles (v : gmap (uuid * string) Image) (db : DB Body) : DB Body :=
  mkDB (db_tenants db) (db_accounts db) (db_transactions db) (db_disputes db) (db_events db) (db_idempotency db) (db_deadlines db) (db_ledger db) (db_questionnaires db) (db_notices db) (db_notice_seq db) (db_risk db) (db_attachments db) (db_templates db) (db_metadata db) v (db_teams db) (db_members db) (db_grants db) (db_routing db) (db_versions db).
End setters.

(** ** Row-level security *)
Section policies.
Context `{DC : Decimal} `{UU : UUID} {Body : Type}.
Context (ss : Session).
Abbreviation DBt := (DB Body).

(** [current_subject()] is NULL, and matches no member, when the setting is empty. *)
Definition in_team (db : DBt) (tenant : uuid) (team : string) : bool :=
  bool_decide (ss_kind ss = "key")
  || negb (bool_decide (ss_subject ss = ""))
     && existsb (fun m => bool_decide (bw_TenantID m = tenant) && bool_decide (MTeam (bw_Membership m) = team)
                          && bool_decide (bw_Subject m = ss_subject ss)) (db_members db).
Definition sees (db : DBt) (d : DisputeRecord) : bool :=
  bool_decide (dr_TenantID d = ss_tenant ss) && in_team db (dr_TenantID d) (dr_Team d).
Definition sees_id (db : DBt) (id : uuid) : bool :=
  match db_disputes db !! id with Some d => sees db d | None => false end.
Definition readable {A} (db : DBt) (r : Child A) : bool :=
  bool_decide (ch_TenantID r = ss_tenant ss) && sees_id db (ch_DisputeID r).

(** [SELECT ... WHERE dispute_id = id] on such a table, in table order. *)
Definition of_dispute {A} (db : DBt) (id : uuid) (rows : list (Child A)) : list A :=
  map ch_row (List.filter (fun r => readable db r && bool_decide (ch_DisputeID r = id)) rows).
Definition own (id : uuid) {A} (r : A) : Child A := mkChild (ss_tenant ss) id r.
(** The check of an insert into such a table. *)
Definition may_write (db : DBt) (id : uuid) : sql unit := if sees_id db id then Ok tt else Err rls_violation.
Definition check (ok : bool) (constraint : string) : sql unit := if ok then Ok tt else Err (check_violation constraint).
Definition unique (ok : bool) (constraint : string) : sql unit := if ok then Ok tt else Err (unique_violation constraint).
Definition references (ok : bool) (constraint : string) : sql unit := if ok then Ok tt else Err (foreign_key_violation constraint).
End policies.

(** ** Queries within a transaction *)
Section queries.
Context `{DC : Decimal} `{UU : UUID} {Body : Type} {NU : Numeric}.
Context (ss : Session).
Abbreviation DBt := (DB Body).
Abbreviation Stmt A := (DBt -> sql A * DBt).

Definition select {A} (f : DBt -> sql A) : Stmt A := fun db => (f db, db).
Definition exec {A} (f : DBt -> sql (A * DBt)) : Stmt A := fun db =>
  match f db with Ok (a, db') => (Ok a, db') | Err e => (Err e, db) end.
(** The single row of a [:one] query. *)
Definition one {A} (r : option A) : sql A := match r with Some a => Ok a | None => Err ErrNoRows end.
Definition mine (tenant : uuid) : bool := bool_decide (tenant = ss_tenant ss).

(** [ORDER BY] is a stable sort. *)
Fixpoint order_insert {A} (before : A -> A -> bool) (a : A) (l : list A) : list A :=
  match l with
  | [] => [a]
  | b :: l' => if before a b then a :: l else b :: order_insert before a l'
  end.
Definition order_by {A} (before : A -> A -> bool) (l : list A) : list A := foldl (fun l a => order_insert before a l) [] l.

(** *** Access *)
Record AccessRow : Type := mkAccessRow {
  cw_Version : Z;
  cw_Teams : list (string * bool);
  cw_Grants : list Grant;
  cw_Routing : list RoutingRule;
  cw_Members : list Membership
}.
Definition nul_joined (parts : list string) : string := String.concat nul parts.
Definition access_row (db : DBt) (subject : string) : AccessRow :=
  mkAccessRow (default 0 (db_versions db !! ss_tenant ss))
    (sort_Slice fst (map (fun r => (gw_Slug r, gw_IsDefault r)) (List.filter (fun r => mine (gw_TenantID r)) (db_teams db))))
    (sort_Slice (fun g => nul_joined [GTeam g; Role_string (GRole g); GAction g])
       (map vw_Grant (List.filter (fun r => mine (vw_TenantID r)) (db_grants db))))
    (map ow_Rule (order_by (fun a b => ow_Position a <? ow_Position b) (List.filter (fun r => mine (ow_TenantID r)) (db_routing db))))
    (sort_Slice MTeam (map bw_Membership
       (List.filter (fun r => mine (bw_TenantID r) && bool_decide (bw_Subject r = subject)) (db_members db)))).
Definition q_GetAccess (subject : string) : Stmt AccessRow := select (fun db => Ok (access_row db subject)).

(** *** Accounts, transactions, the tenant *)
Definition q_GetAccount (id : uuid) : Stmt AccountRow := select (fun db =>
  one (a ← db_accounts db !! id; if mine (aw_TenantID a) then Some a else None)).
Definition q_GetTransaction (id : uuid) : Stmt (TransactionRow * AccountRow) := select (fun db =>
  one (x ← db_transactions db !! id;
       a ← db_accounts db !! xw_AccountID x;
       if mine (xw_TenantID x) && mine (aw_TenantID a) then Some (x, a) else None)).
Definition q_GetTenantName : Stmt string := select (fun db => one (tw_Name <$> db_tenants db !! ss_tenant ss)).
Definition q_GetTenantCalendar : Stmt (string * list string) := select (fun db =>
  one ((fun t => (default "" (tw_Timezone t), default [] (tw_Holidays t))) <$> db_tenants db !! ss_tenant ss)).
Definition q_GetTenantCore : Stmt (string * RawMessage) := select (fun db =>
  one ((fun t => match tw_Core t with
                 | Some (kind, settings) => (default "" kind, settings)
                 | None => ("", RawJSON (JObject []))
                 end) <$> db_tenants db !! ss_tenant ss)).

(** *** Disputes *)
Definition q_InsertDispute (d : DisputeRecord) : Stmt unit := exec (fun db =>
  amount ← to_numeric (dr_DisputedAmount d);
  let opened := timestamptz (dr_OpenedAt d) in
  let row := mkDisputeRecord (dr_ID d) (ss_tenant ss) (dr_Team d) (dr_Regime d) (dr_State d) (dr_Appeals d) (dr_Version d)
    (dr_TransactionID d) (dr_AccountID d) amount (dr_Currency d) opened opened (dr_Reason d) in
  _ ← (if sees ss db row then Ok tt else Err rls_violation);
  _ ← check (slices_contains AllRegimes (dr_Regime d)) "disputes_regime_check";
  _ ← check (0 <=? dr_Appeals d) "disputes_appeals_check";
  _ ← check (0 <=? dr_Version d) "disputes_version_check";
  _ ← check (IsPositive amount) "disputes_disputed_amount_check";
  _ ← unique (bool_decide (db_disputes db !! dr_ID d = None)) "disputes_pkey";
  _ ← references (bool_decide (is_Some (db_transactions db !! dr_TransactionID d))) "disputes_transaction_id_fkey";
  _ ← references (bool_decide (is_Some (db_accounts db !! dr_AccountID d))) "disputes_account_id_fkey";
  _ ← references (existsb (fun r => mine (gw_TenantID r) && bool_decide (gw_Slug r = dr_Team d)) (db_teams db)) "disputes_tenant_id_team_fkey";
  Ok (tt, put_disputes (<[dr_ID d := row]> (db_disputes db)) db)).
Definition q_GetDispute (id : uuid) : Stmt DisputeRecord := select (fun db =>
  one (d ← db_disputes db !! id; if sees ss db d then Some d else None)).
(** The rows changed. *)
Definition q_UpdateDisputeState (id : uuid) (state : State) (appeals : Z) (at_ : time) (version : Z) : Stmt Z := exec (fun db =>
  match db_disputes db !! id with
  | Some d =>
      if sees ss db d && (dr_Version d =? version) then
        _ ← check (0 <=? appeals) "disputes_appeals_check";
        Ok (1, put_disputes (<[id := dr_with_state d state appeals (dr_Version d + 1) (timestamptz at_)]> (db_disputes db)) db)
      else Ok (0, db)
  | None => Ok (0, db)
  end).
(** The function [reassign_dispute] runs as the owner of the tables and repeats the session's conditions. *)
Definition q_UpdateDisputeTeam (id : uuid) (expected : Z) (team : string) (at_ : time) : Stmt Z := exec (fun db =>
  match db_disputes db !! id with
  | Some d =>
      if (dr_Version d =? expected) && bool_decide (dr_TenantID d = ss_tenant ss) && in_team ss db (dr_TenantID d) (dr_Team d) then
        _ ← references (existsb (fun r => bool_decide (gw_TenantID r = dr_TenantID d) && bool_decide (gw_Slug r = team)) (db_teams db))
              "disputes_tenant_id_team_fkey";
        Ok (1, put_disputes (<[id := dr_with_team d team (dr_Version d + 1) (timestamptz at_)]> (db_disputes db)) db)
      else Ok (0, db)
  | None => Ok (0, db)
  end).

Definition overdue_row (db : DBt) (id : uuid) (now : time) : bool :=
  existsb (fun d => Open d && (DlDueAt d <? now)) (of_dispute ss db id (db_deadlines db)).
Definition list_where (db : DBt) (q : ListQuery) (d : DisputeRecord) : bool :=
  sees ss db d
  && match lq_State q with Some s => bool_decide (dr_State d = s) | None => true end
  && match lq_Reason q with Some r => bool_decide (dr_Reason d = r) | None => true end
  && (negb (lq_Overdue q) || overdue_row db (dr_ID d) (timestamptz (lq_Now q)))
  && match lq_After q with
     | Some c => (dr_OpenedAt d <? timestamptz (cu_OpenedAt c))
                 || (dr_OpenedAt d =? timestamptz (cu_OpenedAt c))
                    && bool_decide (String.compare (uuid_String (dr_ID d)) (uuid_String (cu_ID c)) = Lt)
     | None => true
     end.
(** [ORDER BY opened_at DESC, id DESC LIMIT page_size]; ids are ordered like their text. *)
Definition q_ListDisputes (q : ListQuery) (page_size : Z) : Stmt (list DisputeRecord) := select (fun db =>
  Ok (take (Z.to_nat page_size) (foldl (fun l d => list_insert d l) []
        (List.filter (list_where db q) (map snd (map_to_list (db_disputes db))))))).

Definition q_CountAccountDisputesSince (account : uuid) (since : time) (exclude : uuid) : Stmt Z := select (fun db =>
  Ok (Z.of_nat (length (List.filter (fun '(id, d) =>
        sees ss db d && bool_decide (dr_AccountID d = account) && negb (dr_OpenedAt d <? timestamptz since) && negb (bool_decide (id = exclude)))
      (map_to_list (db_disputes db)))))).
Definition q_CountAccountLostChargebacks (account exclude : uuid) : Stmt Z := select (fun db =>
  Ok (Z.of_nat (length (List.filter (fun '(id, d) =>
        sees ss db d && bool_decide (dr_AccountID d = account) && negb (bool_decide (id = exclude))
        && existsb (fun e => bool_decide (ew_ToState e = StateChargebackLost)) (of_dispute ss db id (db_events db)))
      (map_to_list (db_disputes db)))))).

(** *** The log *)
Definition event_seq_before (a b : EventRow) : bool := ew_Seq a <? ew_Seq b.
Definition q_InsertDisputeEvent (id : uuid) (e : EventRow) : Stmt unit := exec (fun db =>
  let row := mkEventRow (ew_Seq e) (ew_Event e) (ew_FromState e) (ew_ToState e) (ew_Actor e) (ew_Payload e) (ew_IdempotencyKey e)
    (ew_TraceID e) (timestamptz (ew_OccurredAt e)) (ew_ActorID e) in
  _ ← may_write ss db id;
  _ ← check (0 <? ew_Seq e) "dispute_events_seq_check";
  _ ← unique (negb (existsb (fun r => bool_decide (ch_DisputeID r = id) && (ew_Seq (ch_row r) =? ew_Seq e)) (db_events db)))
        "dispute_events_dispute_id_seq_key";
  Ok (tt, put_events (db_events db ++ [own ss id row]) db)).
Definition q_ListDisputeEvents (id : uuid) : Stmt (list EventRow) := select (fun db =>
  Ok (order_by event_seq_before (of_dispute ss db id (db_events db)))).

(** *** Stored responses *)
Definition q_GetIdempotencyKey (scope key : string) : Stmt (StoredResponse Body) := select (fun db =>
  scope ← to_text scope; key ← to_text key;
  one (db_idempotency db !! (ss_tenant ss, scope, key))).
Definition q_InsertIdempotencyKey (scope key hash : string) (status : Z) (response : Body) : Stmt unit := exec (fun db =>
  scope ← to_text scope; key ← to_text key;
  _ ← unique (bool_decide (db_idempotency db !! (ss_tenant ss, scope, key) = None)) "idempotency_keys_pkey";
  Ok (tt, put_idempotency (<[(ss_tenant ss, scope, key) := mkStoredResponse hash status response (timestamptz (ss_now ss))]> (db_idempotency db)) db)).

(** *** Deadlines *)
Definition DeadlineKind_text (k : DeadlineKind) : string :=
  match k with DeadlineRefund => "REFUND" | DeadlineAcknowledge => "ACKNOWLEDGE" | DeadlineResolution => "RESOLUTION" end.
Definition deadline_before (a b : Deadline) : bool :=
  if negb (DlCycle a =? DlCycle b) then DlCycle a <? DlCycle b
  else if negb (DlStartedAt a =? DlStartedAt b) then DlStartedAt a <? DlStartedAt b
  else bool_decide (String.compare (DeadlineKind_text (DlKind a)) (DeadlineKind_text (DlKind b)) = Lt).
Definition q_InsertDeadline (id : uuid) (kind : DeadlineKind) (cycle : Z) (started due : time) (basis : string) : Stmt unit := exec (fun db =>
  _ ← may_write ss db id;
  _ ← check (0 <=? cycle) "dispute_deadlines_cycle_check";
  _ ← unique (negb (existsb (fun r => bool_decide (ch_DisputeID r = id) && bool_decide (DlKind (ch_row r) = kind) && (DlCycle (ch_row r) =? cycle))
        (db_deadlines db))) "dispute_deadlines_pkey";
  Ok (tt, put_deadlines (db_deadlines db ++ [own ss id (mkDeadline kind cycle (timestamptz started) (timestamptz due) None None basis)]) db)).
Definition q_ListDeadlines (id : uuid) : Stmt (list Deadline) := select (fun db =>
  Ok (order_by deadline_before (of_dispute ss db id (db_deadlines db)))).
Definition settles (db : DBt) (id : uuid) (kind : DeadlineKind) (cycle : Z) (r : Child Deadline) : bool :=
  readable ss db r && bool_decide (ch_DisputeID r = id)
  && (bool_decide (DlKind (ch_row r) = kind) && (DlCycle (ch_row r) =? cycle) && Open (ch_row r)).
Definition q_SettleDeadline (met : bool) (at_ : time) (id : uuid) (kind : DeadlineKind) (cycle : Z) : Stmt Z := exec (fun db =>
  let at_ := timestamptz at_ in
  Ok (Z.of_nat (length (List.filter (settles db id kind cycle) (db_deadlines db))),
      put_deadlines (map (fun r =>
        if settles db id kind cycle r then
          mkChild (ch_TenantID r) (ch_DisputeID r)
            (if met then d_with_settled (ch_row r) (Some at_) (DlVoidedAt (ch_row r)) else d_with_settled (ch_row r) (DlMetAt (ch_row r)) (Some at_))
        else r) (db_deadlines db)) db)).
(** [SELECT DISTINCT ON (dispute_id) ... ORDER BY dispute_id, due_at] over the open clocks. *)
Definition first_due (l : list Deadline) : option Deadline :=
  head (order_by (fun a b => DlDueAt a <? DlDueAt b) (List.filter Open l)).
Definition q_NextDeadlines (ids : list uuid) : Stmt (list (uuid * Deadline)) := select (fun db =>
  Ok (omap (fun id => pair id <$> first_due (of_dispute ss db id (db_deadlines db))) (remove_dups ids))).

(** *** The ledger *)
Definition q_InsertLedgerEntry (id : uuid) (l : LedgerRow) : Stmt unit := exec (fun db =>
  let p := lw_Posting l in
  amount ← to_numeric (PAmount p);
  let row := mkLedgerRow (lw_Seq l) (mkPosting (PKind p) (PDebit p) (PCredit p) amount (PCurrency p)) (lw_Reference l) (timestamptz (lw_PostedAt l))
    (lw_CoreRrn l) (lw_CoreResponseCode l) (lw_CoreLatencyMs l) in
  _ ← may_write ss db id;
  _ ← check (0 <? lw_Seq l) "ledger_entries_seq_check";
  _ ← check (IsPositive amount) "ledger_entries_amount_check";
  _ ← check (negb (bool_decide (PDebit p = PCredit p))) "ledger_entries_check";
  _ ← unique (negb (existsb (fun r => bool_decide (ch_DisputeID r = id) && (lw_Seq (ch_row r) =? lw_Seq l)
                                      && bool_decide (PKind (lw_Posting (ch_row r)) = PKind p)) (db_ledger db)))
        "ledger_entries_dispute_id_seq_kind_key";
  _ ← unique (negb (existsb (fun r => mine (ch_TenantID r) && bool_decide (lw_Reference (ch_row r) = lw_Reference l)) (db_ledger db)))
        "ledger_entries_tenant_id_reference_key";
  Ok (tt, put_ledger (db_ledger db ++ [own ss id row]) db)).
Definition q_ListLedgerEntries (id : uuid) : Stmt (list LedgerRow) := select (fun db => Ok (of_dispute ss db id (db_ledger db))).

(** *** Questionnaires *)
Definition q_UpsertQuestionnaire (id : uuid) (reason : Reason) (questions : list Question) (sent : time) : Stmt unit := exec (fun db =>
  _ ← may_write ss db id;
  _ ← (match db_questionnaires db !! id with Some r => if readable ss db r then Ok tt else Err rls_violation | None => Ok tt end);
  Ok (tt, put_questionnaires (<[id := own ss id (mkQuestionnaireRow reason questions None (timestamptz sent) None)]> (db_questionnaires db)) db)).
Definition q_GetQuestionnaire (id : uuid) : Stmt QuestionnaireRow := select (fun db =>
  one (r ← db_questionnaires db !! id; if readable ss db r then Some (ch_row r) else None)).
Definition q_AnswerQuestionnaire (id : uuid) (answers : Answers) (received : time) : Stmt Z := exec (fun db =>
  match db_questionnaires db !! id with
  | Some r =>
      let q := ch_row r in
      if readable ss db r && bool_decide (qw_ReceivedAt q = None) then
        Ok (1, put_questionnaires (<[id := mkChild (ch_TenantID r) (ch_DisputeID r)
          (mkQuestionnaireRow (qw_Reason q) (qw_Questions q) (Some answers) (qw_SentAt q) (Some (timestamptz received)))]> (db_questionnaires db)) db)
      else Ok (0, db)
  | None => Ok (0, db)
  end).

(** *** Notices *)
(** The identity column counts whether the insert succeeds or not. *)
Definition q_InsertNotice (id : uuid) (n : NoticeRow) : Stmt Z := fun db =>
  let nid := db_notice_seq db + 1 in
  let db := put_notice_seq nid db in
  let row := mkNoticeRow nid (nw_Seq n) (nw_Kind n) (nw_Channel n) (nw_Recipient n) (nw_Subject n) (nw_Document n) (timestamptz (nw_CreatedAt n))
    (timestamptz <$> nw_SentAt n) 0 (timestamptz (ss_now ss)) None (nw_Actor n) (nw_ResendOf n) (nw_TraceContext n) in
  exec (fun db =>
    _ ← may_write ss db id;
    _ ← check (0 <? nw_Seq n) "notices_seq_check";
    _ ← check (match nw_Kind n with NoticeOther _ => false | _ => true end) "notices_kind_check";
    _ ← unique (bool_decide (is_Some (nw_Actor n))
                || negb (existsb (fun r => bool_decide (ch_DisputeID r = id) && (nw_Seq (ch_row r) =? nw_Seq n)
                     && bool_decide (nw_Kind (ch_row r) = nw_Kind n) && bool_decide (nw_Channel (ch_row r) = nw_Channel n)
                     && bool_decide (nw_Actor (ch_row r) = None)) (db_notices db))) "notices_automatic_once_idx";
    _ ← references (match nw_ResendOf n with
                    | Some o => existsb (fun r => nw_ID (ch_row r) =? o) (db_notices db)
                    | None => true
                    end) "notices_resend_of_fkey";
    Ok (nid, put_notices (db_notices db ++ [own ss id row]) db)) db.
Definition q_ListNotices (id : uuid) : Stmt (list NoticeRow) := select (fun db => Ok (of_dispute ss db id (db_notices db))).
Definition q_GetNotice (nid : Z) (id : uuid) : Stmt NoticeRow := select (fun db =>
  one (List.find (fun n => nw_ID n =? nid) (of_dispute ss db id (db_notices db)))).

(** *** Risk *)
Definition q_InsertRiskAssessment (id : uuid) (k : RiskRow) : Stmt unit := exec (fun db =>
  _ ← may_write ss db id;
  _ ← check (0 <? kw_Seq k) "risk_assessments_seq_check";
  _ ← check (0 <=? kw_Score k) "risk_assessments_score_check";
  _ ← unique (negb (existsb (fun r => bool_decide (ch_DisputeID r = id) && (kw_Seq (ch_row r) =? kw_Seq k)) (db_risk db)))
        "risk_assessments_dispute_id_seq_key";
  Ok (tt, put_risk (db_risk db ++ [own ss id (mkRiskRow (kw_Seq k) (kw_Score k) (kw_Tier k) (kw_Signals k) (timestamptz (kw_AssessedAt k)))]) db)).
Definition q_ListRiskAssessments (id : uuid) : Stmt (list RiskRow) := select (fun db => Ok (of_dispute ss db id (db_risk db))).
Definition q_LatestRiskTiers (ids : list uuid) : Stmt (list (uuid * (Z * RiskTier))) := select (fun db =>
  Ok (omap (fun id => (fun k => (id, (kw_Score k, kw_Tier k))) <$> list.last (of_dispute ss db id (db_risk db))) (remove_dups ids))).

(** *** Attachments *)
Definition file_readable (db : DBt) (f : uuid * Attachment) : bool := mine f.1 && sees_id ss db (at_DisputeID f.2).
Definition q_InsertAttachment (a : Attachment) : Stmt unit := exec (fun db =>
  _ ← may_write ss db (at_DisputeID a);
  _ ← check ((0 <? at_Size a) && (at_Size a <=? 5242880)) "attachments_size_check";
  _ ← unique (bool_decide (db_attachments db !! at_ID a = None)) "attachments_pkey";
  Ok (tt, put_attachments (<[at_ID a := (ss_tenant ss, mkAttachment (at_ID a) (at_DisputeID a) None (at_Filename a) (at_ContentType a) (at_Size a)
        (at_Content a) (at_UploadedBy a) (timestamptz (at_UploadedAt a)))]> (db_attachments db)) db)).
Definition claimable (db : DBt) (id : uuid) (ids : list uuid) (key : uuid) (f : uuid * Attachment) : bool :=
  file_readable db f && bool_decide (at_DisputeID f.2 = id) && bool_decide (at_NoticeID f.2 = None) && slices_contains ids key.
Definition q_ClaimAttachments (nid : Z) (id : uuid) (ids : list uuid) : Stmt Z := exec (fun db =>
  let n := Z.of_nat (length (List.filter (fun k => match db_attachments db !! k with Some f => claimable db id ids k f | None => false end) (remove_dups ids))) in
  _ ← references ((n =? 0) || existsb (fun r => nw_ID (ch_row r) =? nid) (db_notices db)) "attachments_notice_id_fkey";
  Ok (n, put_attachments (map_imap (fun k f => Some (if claimable db id ids k f then (f.1, at_with_notice f.2 nid) else f)) (db_attachments db)) db)).
Definition q_ListAttachmentMeta (id : uuid) (nids : list Z) : Stmt (list Attachment) := select (fun db =>
  Ok (sort_by_upload (map (fun f => at_without_content f.2) (List.filter (fun f => file_readable db f && bool_decide (at_DisputeID f.2 = id)
        && match at_NoticeID f.2 with None => true | Some n => slices_contains nids n end) (map snd (map_to_list (db_attachments db))))))).
Definition q_GetAttachment (aid id : uuid) : Stmt Attachment := select (fun db =>
  one (f ← db_attachments db !! aid; if file_readable db f && bool_decide (at_DisputeID f.2 = id) then Some f.2 else None)).

(** *** Templates, the logo and pictures *)
Definition tenant_rows (db : DBt) : gmap string TenantTemplate := default ∅ (db_templates db !! ss_tenant ss).
Definition q_ListTenantTemplates : Stmt (list TenantTemplate) := select (fun db =>
  Ok (sort_Slice (fun tt => NoticeKind_string (tt_Kind tt)) (map snd (map_to_list (tenant_rows db))))).
Definition q_UpsertTenantTemplate (r : TenantTemplate) : Stmt unit := exec (fun db =>
  let row := mkTenantTemplate (tt_Kind r) (tt_Override r) (tt_UpdatedBy r) (timestamptz (tt_UpdatedAt r)) in
  Ok (tt, put_templates (<[ss_tenant ss := <[NoticeKind_string (tt_Kind r) := row]> (tenant_rows db)]> (db_templates db)) db)).
Definition q_DeleteTenantTemplate (kind : NoticeKind) : Stmt Z := exec (fun db =>
  Ok (if bool_decide (is_Some (tenant_rows db !! NoticeKind_string kind)) then 1 else 0,
      put_templates (alter (delete (NoticeKind_string kind)) (ss_tenant ss) (db_templates db)) db)).
Definition q_GetTenantMetadata : Stmt (option string * option time) := select (fun db =>
  one ((fun r => (mw_LogoContentType r, mw_LogoUpdatedAt r)) <$> db_metadata db !! ss_tenant ss)).
Definition q_GetTenantLogo : Stmt (string * option string) := select (fun db =>
  one (r ← db_metadata db !! ss_tenant ss; logo ← mw_Logo r; Some (logo, mw_LogoContentType r))).
Definition max_picture : Z := 262144.
Definition q_PutTenantLogo (logo content_type : string) (at_ : time) : Stmt unit := exec (fun db =>
  _ ← check (Z.of_nat (String.length logo) <=? max_picture) "logo_size";
  Ok (tt, put_metadata (<[ss_tenant ss := mkMetadataRow (Some logo) (Some content_type) (Some (timestamptz at_))]> (db_metadata db)) db)).
Definition q_GetAnalystAvatar (subject : string) : Stmt Image := select (fun db => one (db_profiles db !! (ss_tenant ss, subject))).
Definition q_PutAnalystAvatar (subject avatar content_type : string) : Stmt unit := exec (fun db =>
  _ ← check (Z.of_nat (String.length avatar) <=? max_picture) "avatar_size";
  Ok (tt, put_profiles (<[(ss_tenant ss, subject) := mkImage avatar content_type]> (db_profiles db)) db)).
End queries.

(** ** Functions of the owner, across tenants; [now] is the time of the statement *)
Section owner.
Context `{DC : Decimal} `{UU : UUID} {Body : Type}.
Abbreviation DBt := (DB Body).
Abbreviation Stmt A := (DBt -> sql A * DBt).

Definition nw_with (n : NoticeRow) (sent : option time) (attempts : Z) (next : time) (err : option string) : NoticeRow :=
  mkNoticeRow (nw_ID n) (nw_Seq n) (nw_Kind n) (nw_Channel n) (nw_Recipient n) (nw_Subject n) (nw_Document n) (nw_CreatedAt n) sent attempts next err
    (nw_Actor n) (nw_ResendOf n) (nw_TraceContext n).
Definition ch_with {A} (r : Child A) (a : A) : Child A := mkChild (ch_TenantID r) (ch_DisputeID r) a.
Definition unsent (n : NoticeRow) : bool := bool_decide (nw_SentAt n = None) && bool_decide (nw_Channel n = ChannelEmail).
(** The wait after an attempt: 30 seconds doubled with each, an hour at most. *)
Definition backoff (attempts : Z) : Z := Z.min 3600 (30 * 2 ^ attempts) * Second.
Definition claim_batch (db : DBt) (now : time) (batch : Z) : list Z :=
  map (fun r => nw_ID (ch_row r)) (take (Z.to_nat batch) (order_by (fun a b => nw_NextAttemptAt (ch_row a) <? nw_NextAttemptAt (ch_row b))
    (List.filter (fun r => unsent (ch_row r) && (nw_NextAttemptAt (ch_row r) <=? now)) (db_notices db)))).
Definition q_ClaimNotices (now : time) (batch : Z) : Stmt (list (Child NoticeRow)) := fun db =>
  let ids := claim_batch db now batch in
  let claim r := let n := ch_row r in ch_with r (nw_with n (nw_SentAt n) (nw_Attempts n + 1) (now + backoff (nw_Attempts n)) (nw_LastError n)) in
  (Ok (map claim (List.filter (fun r => slices_contains ids (nw_ID (ch_row r))) (db_notices db))),
   put_notices (map (fun r => if slices_contains ids (nw_ID (ch_row r)) then claim r else r) (db_notices db)) db).
Definition q_FinishNotice (now : time) (nid : Z) (failure : option string) : Stmt unit := fun db =>
  (Ok tt, put_notices (map (fun r =>
     let n := ch_row r in
     if nw_ID n =? nid then
       ch_with r (nw_with n (match failure with None => Some now | Some _ => nw_SentAt n end) (nw_Attempts n) (nw_NextAttemptAt n) failure)
     else r) (db_notices db)) db).
Definition q_OutboxBacklog : Stmt Z := fun db =>
  (Ok (Z.of_nat (length (List.filter (fun r => unsent (ch_row r)) (db_notices db)))), db).
Definition q_NoticeAttachments (nid : Z) : Stmt (list Attachment) := fun db =>
  (Ok (sort_by_upload (List.filter (fun a => bool_decide (at_NoticeID a = Some nid)) (map (fun f => f.2.2) (map_to_list (db_attachments db))))), db).
Definition q_PurgeDraftAttachments (before : time) : Stmt Z := fun db =>
  let kept := filter (fun ia => ~ (at_NoticeID ia.2.2 = None /\ at_UploadedAt ia.2.2 < timestamptz before)) (db_attachments db) in
  (Ok (Z.of_nat (size (db_attachments db)) - Z.of_nat (size kept)), put_attachments kept db).
Definition q_PurgeIdempotencyKeys (before : time) : Stmt Z := fun db =>
  let kept := filter (fun kr => ~ sr_CreatedAt kr.2 < timestamptz before) (db_idempotency db) in
  (Ok (Z.of_nat (size (db_idempotency db)) - Z.of_nat (size kept)), put_idempotency kept db).
(** The views behind the gauges: [GROUP BY] in the order groups are first met. *)
Fixpoint group_count {K} `{EqDecision K} (keys : list K) (acc : list (K * Z)) : list (K * Z) :=
  match keys with
  | [] => acc
  | k :: keys =>
      group_count keys (if existsb (fun a => bool_decide (a.1 = k)) acc
                        then map (fun a => if bool_decide (a.1 = k) then (a.1, a.2 + 1) else a) acc else acc ++ [(k, 1)])
  end.
Definition q_CountDisputesByState : Stmt (list (uuid * Regime * State * Z)) := fun db =>
  (Ok (group_count (map (fun kd => (dr_TenantID kd.2, dr_Regime kd.2, dr_State kd.2)) (map_to_list (db_disputes db))) []), db).
Definition q_CountDeadlinesOverdue (now : time) : Stmt (list (uuid * Regime * DeadlineKind * Z)) := fun db =>
  (Ok (group_count (omap (fun r => if Open (ch_row r) && (DlDueAt (ch_row r) <? now)
        then (fun d => (ch_TenantID r, dr_Regime d, DlKind (ch_row r))) <$> db_disputes db !! ch_DisputeID r else None) (db_deadlines db)) []), db).
End owner.
