(* ===== verification/Migrate.v ===== *)
(** * Migrate: the forward-only migrations ([platform/postgres/migrate.go]).

    The files and their order; [Check]; and [Migrate], as a function of what befalls its statements and as the instances
    of a cluster that run it at once, interleaved statement by statement, dying anywhere. What a script does to the
    schema is a parameter; scripts leave the table [schema_migrations] alone. The column [applied_at] is left out. *)
From S2P Require Import Prelude Errs GoTime GoJson Ext Types Regimes Lifecycle Deadlines Ledger Questionnaire Risk Notice Access Text Wire Authz Store Sql.
Local Open Scope Z_scope.

(** ** Files *)
Record Migration : Type := mkMigration { MgVersion : Z; MgName : string; MgSQL : string; MgChecksum : string }.
#[export] Instance Migration_eq_dec : EqDecision Migration.
Proof. solve_decision. Defined.

Definition name_char (a : Ascii.ascii) : bool :=
  ((97 <=? byte_of a) && (byte_of a <=? 122)) || is_digit a || (byte_of a =? 95).
(** What [migrationName] finds in the name of a file: its version. *)
Definition migrationName (name : string) : option Z :=
  match name with
  | String a (String b (String c (String d (String u rest)))) =>
      y3 ← digit_value a; y2 ← digit_value b; y1 ← digit_value c; y0 ← digit_value d;
      let n := (String.length rest - 4)%nat in
      if (byte_of u =? 95) && (4 <? String.length rest)%nat && every_char name_char (String.substring 0 n rest)
         && bool_decide (String.substring n 4 rest = ".sql")
      then Some (1000 * y3 + 100 * y2 + 10 * y1 + y0) else None
  | _ => None
  end.

Section files.
(** The hexadecimal of the digest of a file. *)
Context (checksum : string -> string).
Fixpoint read_files (entries : list (string * M string)) : M (list Migration) :=
  match entries with
  | [] => Ok []
  | (name, file) :: entries =>
      match migrationName name with
      | None => read_files entries
      | Some version =>
          body ← file;
          out ← read_files entries;
          Ok (mkMigration version name body (checksum body) :: out)
      end
  end.
Definition by_version (ms : list Migration) : list Migration := order_by (fun a b => MgVersion a <? MgVersion b) ms.
Fixpoint duplicate (ms : list Migration) : option Z :=
  match ms with
  | a :: (b :: _) as ms' => if MgVersion b =? MgVersion a then Some (MgVersion b) else duplicate ms'
  | _ => None
  end.
(** [Load], given what [fs.ReadDir] and the reading of each file answer. *)
Definition Load (dir : M (list (string * M string))) : M (list Migration) :=
  entries ← dir;
  out ← read_files entries;
  let out := by_version out in
  match duplicate out with
  | Some v => Err (EPlain ("postgres: duplicate migration version " +:+ pad4 v))
  | None => Ok out
  end.
End files.

(** ** The database *)
Inductive MigrateError : Type :=
| MDriver (e : driver_error)
| MScript (name : string) (e : driver_error)
| ErrMigrationModified (name : string)
| ErrMigrationsPending (name : string)
| ErrNotReadable (e : driver_error).   (* [ErrMigrationsPending] around what the driver said *)
Record AppliedRow : Type := mkAppliedRow { wr_Version : Z; wr_Name : string; wr_Checksum : string }.
Definition row_of (m : Migration) : AppliedRow := mkAppliedRow (MgVersion m) (MgName m) (MgChecksum m).
Definition undefined_table : driver_error := PgError "42P01" "".

Section migrate.
Context {Schema : Type} (run_sql : string -> Schema -> sql Schema).
(** What is committed: the schema, and [schema_migrations] once that table is there. *)
Record Migrated : Type := mkMigrated { md_schema : Schema; md_applied : option (list AppliedRow) }.

Definition read_applied (rows : list AppliedRow) : gmap Z string := foldl (fun applied r => <[wr_Version r := wr_Checksum r]> applied) ∅ rows.
Definition select_applied (d : Migrated) : sql (gmap Z string) :=
  match md_applied d with Some rows => Ok (read_applied rows) | None => Err undefined_table end.
Definition create_table (d : Migrated) : Migrated := mkMigrated (md_schema d) (Some (default [] (md_applied d))).

Fixpoint check_each (applied : gmap Z string) (ms : list Migration) : option MigrateError :=
  match ms with
  | [] => None
  | m :: ms =>
      match applied !! MgVersion m with
      | None => Some (ErrMigrationsPending (MgName m))
      | Some sum => if bool_decide (sum <> MgChecksum m) then Some (ErrMigrationModified (MgName m)) else check_each applied ms
      end
  end.
(** [Check]; [query] and [rows] are what befalls the query and the reading of its rows. *)
Definition check_migrations (query rows : option driver_error) (ms : list Migration) (d : Migrated) : option MigrateError :=
  match match query with Some e => Err e | None => select_applied d end with
  | Err e => Some (ErrNotReadable e)
  | Ok applied => match rows with Some e => Some (MDriver e) | None => check_each applied ms end
  end.

(** What befalls a statement, or a transaction at its n-th statement: nothing; it is refused; or it takes effect and the
    answer is lost. *)
Inductive Befall : Type := Calm | Refused (n : nat) (e : driver_error) | Lost (e : driver_error).

(** The script and the row that records it. *)
Definition apply_script (m : Migration) (d : Migrated) : res MigrateError Migrated :=
  match run_sql (MgSQL m) (md_schema d) with
  | Err e => Err (MScript (MgName m) e)
  | Ok s =>
      match md_applied d with
      | None => Err (MDriver undefined_table)
      | Some rows =>
          if existsb (fun r => wr_Version r =? MgVersion m) rows then Err (MDriver (unique_violation "schema_migrations_pkey"))
          else Ok (mkMigrated s (Some (rows ++ [row_of m])))
      end
  end.
(** [pgx.BeginFunc] around them: begin, script, insert, commit. *)
Definition transact (b : Befall) (m : Migration) (d : Migrated) : option MigrateError * Migrated :=
  match b with
  | Refused 0 e => (Some (MDriver e), d)
  | Refused 1 e => (Some (MScript (MgName m) e), d)
  | _ =>
      match apply_script m d with
      | Err e => (Some e, d)
      | Ok d' =>
          match b with
          | Calm => (None, d')
          | Lost e => (Some (MDriver e), d')
          | Refused _ e => (Some (MDriver e), d)
          end
      end
  end.

(** How many ran, and what stopped it. *)
Definition MigrateResult : Type := nat * option MigrateError.
Fixpoint apply_pending (befalls : nat -> Befall) (n : nat) (applied : gmap Z string) (ms : list Migration) (ran : nat) (d : Migrated) : MigrateResult * Migrated :=
  match ms with
  | [] => ((ran, None), d)
  | m :: ms =>
      match applied !! MgVersion m with
      | Some sum => if bool_decide (sum <> MgChecksum m) then ((ran, Some (ErrMigrationModified (MgName m))), d)
                    else apply_pending befalls n applied ms ran d
      | None =>
          match transact (befalls n) m d with
          | (Some e, d) => ((ran, Some e), d)
          | (None, d) => apply_pending befalls (S n) applied ms (S ran) d
          end
      end
  end.
(** [Migrate] with the lock to itself. The unlocking is best effort and changes no answer. *)
Definition Migrate (befalls : nat -> Befall) (ms : list Migration) (d : Migrated) : MigrateResult * Migrated :=
  match befalls 0%nat, befalls 1%nat with
  | (Refused _ e | Lost e), _ | Calm, (Refused _ e | Lost e) => ((0%nat, Some (MDriver e)), d)
  | Calm, Calm =>
      match befalls 2%nat with
      | Refused _ e => ((0%nat, Some (MDriver e)), d)
      | Lost e => ((0%nat, Some (MDriver e)), create_table d)
      | Calm =>
          let d := create_table d in
          match befalls 3%nat with
          | Refused _ e | Lost e => ((0%nat, Some (MDriver e)), d)
          | Calm =>
              match select_applied d with
              | Err e => ((0%nat, Some (MDriver e)), d)
              | Ok applied => apply_pending befalls 4 applied ms 0 d
              end
          end
      end
  end.

(** ** A cluster: instances that migrate at once

    Each is between two of its statements. The advisory lock is a session's: it is gone with the instance that held it,
    and so is a transaction that did not commit. *)
Inductive Phase : Type :=
| Acquiring | Locking | Creating | Reading
| Applying (applied : gmap Z string) (todo : list Migration) (ran : nat)
| Unlocking (r : MigrateResult) | Returned (r : MigrateResult) | Dead.
Record Cluster : Type := mkCluster {
  cl_data : Migrated;
  cl_lock : option nat;
  cl_instances : gmap nat (list Migration * Phase)
}.

(** The next statement of instance [i]; none while it waits for the lock, or is done. *)
Definition next_statement (i : nat) (ms : list Migration) (b : Befall) (p : Phase) (lock : option nat) (d : Migrated) : option (Phase * option nat * Migrated) :=
  let failed e := (0%nat, Some (MDriver e)) in
  match p with
  | Acquiring => Some (match b with Calm => Locking | Refused _ e | Lost e => Returned (failed e) end, lock, d)
  | Locking =>
      match b, lock with
      | Refused _ e, _ | Lost e, _ => Some (Returned (failed e), lock, d)
      | Calm, None => Some (Creating, Some i, d)
      | Calm, Some _ => None
      end
  | Creating =>
      Some (match b with
            | Calm => (Reading, lock, create_table d)
            | Refused _ e => (Unlocking (failed e), lock, d)
            | Lost e => (Unlocking (failed e), lock, create_table d)
            end)
  | Reading =>
      Some (match b, select_applied d with
            | Calm, Ok applied => Applying applied ms 0
            | Calm, Err e | Refused _ e, _ | Lost e, _ => Unlocking (failed e)
            end, lock, d)
  | Applying applied todo ran =>
      match todo with
      | [] => Some (Unlocking (ran, None), lock, d)
      | m :: todo =>
          match applied !! MgVersion m with
          | Some sum => Some (if bool_decide (sum <> MgChecksum m) then Unlocking (ran, Some (ErrMigrationModified (MgName m)))
                              else Applying applied todo ran, lock, d)
          | None =>
              match transact b m d with
              | (Some e, d) => Some (Unlocking (ran, Some e), lock, d)
              | (None, d) => Some (Applying applied todo (S ran), lock, d)
              end
          end
      end
  | Unlocking r => Some (Returned r, match b with Refused _ _ => lock | _ => None end, d)
  | Returned _ | Dead => None
  end.

(** [deploys] says which sets of files instances are started with. *)
Inductive cluster_step (deploys : list Migration -> Prop) : Cluster -> Cluster -> Prop :=
| step_start d lock insts i ms : insts !! i = None -> deploys ms ->
    cluster_step deploys (mkCluster d lock insts) (mkCluster d lock (<[i := (ms, Acquiring)]> insts))
| step_statement d lock insts i ms p b p' lock' d' : insts !! i = Some (ms, p) -> next_statement i ms b p lock d = Some (p', lock', d') ->
    cluster_step deploys (mkCluster d lock insts) (mkCluster d' lock' (<[i := (ms, p')]> insts))
| step_die d lock insts i ms p : insts !! i = Some (ms, p) ->
    cluster_step deploys (mkCluster d lock insts)
      (mkCluster d (if bool_decide (lock = Some i) then None else lock) (<[i := (ms, Dead)]> insts)).

(** ** One instance with the lock to itself

    What it does to a cluster in which it alone moves is [Migrate]. *)
Section alone.
Context (deploys : list Migration -> Prop) (befalls : nat -> Befall) (i : nat) (ms : list Migration).
Definition runs_to (r : MigrateResult) (d' : Migrated) (p : Phase) (lock : option nat) (d : Migrated) : Prop :=
  forall insts, insts !! i = Some (ms, p) ->
    rtc (cluster_step deploys) (mkCluster d lock insts) (mkCluster d' None (<[i := (ms, Returned r)]> insts)).

Lemma runs_on b p p' lock lock' d d1 r d' : next_statement i ms b p lock d = Some (p', lock', d1) ->
  runs_to r d' p' lock' d1 -> runs_to r d' p lock d.
Proof.
  intros Hn H insts Hi. eapply rtc_l; [by eapply step_statement|].
  rewrite <- (insert_insert_eq insts i (ms, Returned r) (ms, p')). apply H. by rewrite lookup_insert_eq.
Qed.
Lemma runs_last b p d d' r : next_statement i ms b p None d = Some (Returned r, None, d') -> runs_to r d' p None d.
Proof. intros Hn insts Hi. apply rtc_once. by eapply step_statement. Qed.
Lemma unlocks r d : runs_to r d (Unlocking r) (Some i) d.
Proof. intros insts Hi. apply rtc_once. by apply (step_statement deploys d (Some i) insts i ms (Unlocking r) Calm). Qed.

Lemma pending_alone applied todo n ran d :
  let a := apply_pending befalls n applied todo ran d in runs_to a.1 a.2 (Applying applied todo ran) (Some i) d.
Proof.
  revert n ran d. induction todo as [|m todo IH]; intros n ran d; cbn [apply_pending].
  { by apply (runs_on Calm _ (Unlocking (ran, None)) _ (Some i) _ d), unlocks. }
  destruct (applied !! MgVersion m) as [sum|] eqn:Ea.
  - case_bool_decide as Es.
    + eapply (runs_on Calm); [cbn; rewrite Ea, bool_decide_true by done; reflexivity|apply unlocks].
    + eapply (runs_on Calm); [cbn; rewrite Ea, bool_decide_false by (intros E; by apply E); reflexivity|apply IH].
  - destruct (transact (befalls n) m d) as [[e|] d1] eqn:Et.
    + eapply (runs_on (befalls n)); [cbn; rewrite Ea, Et; reflexivity|apply unlocks].
    + eapply (runs_on (befalls n)); [cbn; rewrite Ea, Et; reflexivity|apply IH].
Qed.

Lemma Migrate_alone d : let a := Migrate befalls ms d in runs_to a.1 a.2 Acquiring None d.
Proof.
  unfold Migrate. destruct (befalls 0%nat) as [|? e|e] eqn:E0; [|by eapply (runs_last (befalls 0%nat)); cbn; rewrite E0..].
  eapply (runs_on Calm); [reflexivity|].
  destruct (befalls 1%nat) as [|? e|e] eqn:E1; [|by eapply (runs_last (befalls 1%nat)); cbn; rewrite E1..].
  eapply (runs_on Calm); [reflexivity|].
  destruct (befalls 2%nat) as [|? e|e] eqn:E2; [|by eapply (runs_on (befalls 2%nat)); [cbn; rewrite E2; reflexivity|apply unlocks]..].
  eapply (runs_on Calm); [reflexivity|].
  destruct (befalls 3%nat) as [|? e|e] eqn:E3; [|by eapply (runs_on (befalls 3%nat)); [cbn; rewrite E3; reflexivity|apply unlocks]..].
  destruct (select_applied (create_table d)) as [applied|e] eqn:Es; (eapply (runs_on Calm); [unfold next_statement; rewrite Es; reflexivity|]); [apply pending_alone|apply unlocks].
Qed.
End alone.

(** ** Facts *)
Fixpoint run_scripts (ms : list Migration) (s : Schema) : sql Schema :=
  match ms with [] => Ok s | m :: ms => s ← run_sql (MgSQL m) s; run_scripts ms s end.
Lemma run_scripts_snoc ms m s s1 : run_scripts ms s = Ok s1 -> run_scripts (ms ++ [m]) s = run_sql (MgSQL m) s1.
Proof.
  revert s. induction ms as [|x ms IH]; intros s H; cbn in H |- *.
  - injection H as <-. by destruct (run_sql _ _).
  - apply bind_ok in H as (s2 & -> & H). by apply IH.
Qed.

Section forward.
(** All the migrations there are to be, and the schema before the first. *)
Context (all : list Migration) (s0 : Schema).
Context (versions : NoDup (map MgVersion all)).
(** The first [k] ran, each once, in order, and exactly they are recorded. *)
Definition at_version (k : nat) (d : Migrated) : Prop :=
  (k <= length all)%nat /\ run_scripts (take k all) s0 = Ok (md_schema d) /\
  match md_applied d with Some rows => rows = map row_of (take k all) | None => k = 0%nat end.

Lemma read_applied_at k m j : all !! j = Some m ->
  read_applied (map row_of (take k all)) !! MgVersion m = if bool_decide (j < k)%nat then Some (MgChecksum m) else None.
Proof.
  intros Hj. induction k as [|k IH]; [by rewrite bool_decide_false by lia|].
  destruct (all !! k) as [x|] eqn:Hk.
  - rewrite (take_S_r all k x Hk), map_app. unfold read_applied in *. rewrite foldl_app. cbn [map foldl row_of wr_Version wr_Checksum].
    destruct (decide (j = k)) as [->|Hne].
    + rewrite Hj in Hk. injection Hk as ->. rewrite bool_decide_true by lia. apply lookup_insert_eq.
    + assert (MgVersion x <> MgVersion m).
      { intros E. apply Hne. apply (NoDup_lookup (map MgVersion all) j k (MgVersion m) versions); by rewrite list_lookup_fmap, ?Hj, ?Hk; cbn; rewrite ?E. }
      rewrite lookup_insert_ne by done. rewrite IH. do 2 case_bool_decide; done || lia.
  - apply lookup_ge_None in Hk. pose proof (lookup_lt_Some _ _ _ Hj). rewrite take_ge in * by lia. rewrite IH.
    by rewrite !bool_decide_true by lia.
Qed.
Lemma create_at k d : at_version k d -> at_version k (create_table d).
Proof. intros (H1 & H2 & H3). split_and!; [done|done|]. cbn. destruct (md_applied d); [done|]. by subst k. Qed.
Lemma apply_at k d m : at_version k d -> all !! k = Some m -> forall d', apply_script m d = Ok d' -> at_version (S k) d'.
Proof.
  intros (H1 & H2 & H3) Hm d' H. unfold apply_script in H. destruct (run_sql _ _) as [s|] eqn:Es; [|done].
  destruct (md_applied d) as [rows|]; [|done]. destruct (existsb _ _); [done|]. injection H as <-.
  split_and!; [by apply lookup_lt_Some in Hm| |].
  - rewrite (take_S_r all k m Hm). rewrite (run_scripts_snoc _ _ _ _ H2). exact Es.
  - cbn. by rewrite (take_S_r all k m Hm), map_app, H3.
Qed.
(** A transaction moves the data one migration forward, or not at all. *)
Lemma transact_at b k d m e d' : at_version k d -> all !! k = Some m -> transact b m d = (e, d') ->
  (e = None /\ at_version (S k) d') \/ (exists err, e = Some err) /\ (at_version k d' \/ at_version (S k) d').
Proof.
  intros Hk Hm H. pose proof (apply_at k d m Hk Hm) as Ha. unfold transact in H.
  destruct b as [|[|[|n]] e1|e1]; try (injection H as <- <-; right; by eauto);
    (destruct (apply_script m d) as [d1|]; [specialize (Ha d1 eq_refl)|]); injection H as <- <-; (by left) || (right; by eauto).
Qed.

(** How far an instance is, when the data is at [k]. *)
Definition phase_at (k i : nat) (ms : list Migration) (p : Phase) (lock : option nat) (d : Migrated) : Prop :=
  match p with
  | Acquiring | Locking | Dead => True
  | Creating => lock = Some i
  | Reading => lock = Some i /\ md_applied d <> None
  | Applying applied todo ran =>
      lock = Some i /\ exists k0 j, todo = drop j ms /\ (j <= length ms)%nat /\ applied = read_applied (map row_of (take k0 all)) /\ k = Nat.max k0 j
  | Unlocking (_, e) => lock = Some i /\ (e = None -> (length ms <= k)%nat)
  | Returned (_, e) => e = None -> (length ms <= k)%nat
  end.
Definition cluster_at (k : nat) (c : Cluster) : Prop :=
  at_version k (cl_data c) /\
  forall i ms p, cl_instances c !! i = Some (ms, p) -> ms `prefix_of` all /\ phase_at k i ms p (cl_lock c) (cl_data c).

(** The others, when one moved. *)
Lemma others_at k k' i i' ms p lock lock' d d' : phase_at k i' ms p lock d -> i' <> i -> (k <= k')%nat ->
  (lock <> Some i -> (lock' = lock \/ lock = None) /\ k = k' /\ d = d') -> phase_at k' i' ms p lock' d'.
Proof.
  intros H Hi Hk Hl.
  assert (Hmine : lock = Some i' -> lock' = Some i' /\ k = k' /\ d = d').
  { intros ->. destruct Hl as ([->|E] & -> & ->); [congruence|done|discriminate E]. }
  destruct p as [| | | |applied todo ran|[n e]|[n e]|]; cbn in *; try done.
  - by destruct (Hmine H) as (? & _).
  - destruct H as [E H]. by destruct (Hmine E) as (? & <- & <-).
  - destruct H as [E H]. by destruct (Hmine E) as (? & <- & <-).
  - destruct H as [E H]. destruct (Hmine E) as (? & <- & <-). by split.
  - intros E. specialize (H E). lia.
Qed.
Lemma statement_at k i ms b p lock d p' lock' d' : at_version k d -> ms `prefix_of` all -> phase_at k i ms p lock d ->
  next_statement i ms b p lock d = Some (p', lock', d') ->
  exists k', (k <= k')%nat /\ at_version k' d' /\ phase_at k' i ms p' lock' d' /\ (lock <> Some i -> (lock' = lock \/ lock = None) /\ k = k' /\ d = d').
Proof.
  intros Hd Hms Hp H. destruct p as [| | | |applied todo ran|[n e]|[n e]|]; cbn in Hp, H; try done.
  - injection H as <- <- <-. exists k. split_and!; [done|done|by destruct b|auto].
  - exists k. destruct b as [|n e|e]; [destruct lock; [done|]|..]; injection H as <- <- <-; split_and!; try done; auto.
  - exists k. destruct b as [|n e|e]; injection H as <- <- <-; split_and!; try done; by apply create_at.
  - destruct Hp as [-> Ht]. destruct Hd as (Hk & Hs & Hr). unfold select_applied in H. destruct (md_applied d) as [rows|] eqn:Ed; [|done].
    exists k. assert (Hd : at_version k d) by (split_and!; [done|done|by rewrite Ed]).
    destruct b as [|n e|e]; injection H as <- <- <-; split_and!; try done. cbn. split; [done|]. exists k, 0%nat. split_and!; [by rewrite drop_0|lia|by rewrite Hr|lia].
  - destruct Hp as (-> & k0 & j & -> & Hj & -> & ->). destruct (drop j ms) as [|m todo] eqn:Ed.
    { injection H as <- <- <-. exists (Nat.max k0 j). split_and!; try done. cbn. split; [done|]. intros _. apply (f_equal length) in Ed. rewrite length_drop in Ed. cbn in Ed. lia. }
    assert (Hm : ms !! j = Some m) by (rewrite <- (Nat.add_0_r j), <- lookup_drop, Ed; done).
    pose proof (drop_S ms m j Hm) as E2. rewrite Ed in E2. injection E2 as ->.
    assert (Hall : all !! j = Some m) by (destruct Hms as [l ->]; by apply lookup_app_l_Some).
    rewrite (read_applied_at k0 m j Hall) in H. pose proof (lookup_lt_Some _ _ _ Hm) as Hlt. case_bool_decide as Hjk.
    + rewrite bool_decide_false in H by (intros E; by apply E). injection H as <- <- <-. exists (Nat.max k0 j). split_and!; try done. cbn. split; [done|].
      exists k0, (S j). split_and!; [done|lia|done|lia].
    + replace (Nat.max k0 j) with j in * by lia. destruct (transact b m d) as [e d1] eqn:Et.
      destruct (transact_at b j d m e d1 Hd Hall Et) as [[-> Hd1]|[[err ->] Hd1]]; injection H as <- <- <-.
      * exists (S j). split_and!; try done; [lia|]. cbn. split; [done|]. exists k0, (S j). split_and!; [done|lia|done|lia].
      * destruct Hd1 as [Hd1|Hd1]; [exists j|exists (S j)]; split_and!; try done; lia.
  - destruct Hp as [-> He]. injection H as <- <- <-. exists k. by split_and!.
Qed.
Lemma step_at k c c' : cluster_at k c -> cluster_step (fun ms => ms `prefix_of` all) c c' -> exists k', (k <= k')%nat /\ cluster_at k' c'.
Proof.
  intros Hc Hs. destruct Hs as [d lock insts i ms Hn Hms|d lock insts i ms p b p' lock' d' Hp H|d lock insts i ms p Hp];
    destruct Hc as [Hd Hi]; cbn [cl_data cl_lock cl_instances] in *.
  - exists k. split; [done|]. split; [exact Hd|]. cbn. intros i' ms' p'. rewrite lookup_insert_Some. intros [[<- [= <- <-]]|[_ E]]; [by split|by apply Hi].
  - destruct (Hi i ms p Hp) as [Hms Hph]. destruct (statement_at _ _ _ _ _ _ _ _ _ _ Hd Hms Hph H) as (k' & Hk & Hd' & Hp' & Hl).
    exists k'. split; [done|]. split; [exact Hd'|]. cbn. intros i' ms' q. rewrite lookup_insert_Some. intros [[<- [= <- <-]]|[Hne E]]; [by split|].
    destruct (Hi i' ms' q E) as [Hms' Hq]. split; [done|]. by eapply others_at.
  - exists k. split; [done|]. split; [exact Hd|]. cbn. intros i' ms' q. rewrite lookup_insert_Some. intros [[<- [= <- <-]]|[Hne E]]; [split; [by destruct (Hi i ms p Hp)|done]|].
    destruct (Hi i' ms' q E) as [Hms' Hq]. split; [done|]. eapply others_at; [exact Hq|done|done|]. intros Hl. rewrite bool_decide_false by done. auto.
Qed.
Lemma steps_at k c c' : cluster_at k c -> rtc (cluster_step (fun ms => ms `prefix_of` all)) c c' -> exists k', (k <= k')%nat /\ cluster_at k' c'.
Proof.
  intros H Hs. revert k H. induction Hs as [c|c c1 c2 H1 _ IH]; intros k H; [by exists k|].
  destruct (step_at k c c1 H H1) as (k1 & Hk1 & H'). destruct (IH k1 H') as (k2 & Hk2 & H''). exists k2. split; [lia|done].
Qed.

(** An instance that has the lock. *)
Definition working (p : Phase) : bool :=
  match p with Creating | Reading | Applying _ _ _ | Unlocking _ => true | _ => false end.
Lemma working_one k c i j ms ms' p q : cluster_at k c -> cl_instances c !! i = Some (ms, p) -> cl_instances c !! j = Some (ms', q) ->
  working p = true -> working q = true -> i = j.
Proof.
  intros [_ H] Hi Hj Hp Hq. destruct (H i ms p Hi) as [_ Hpi], (H j ms' q Hj) as [_ Hqj].
  assert (Hlock : forall i ms p, phase_at k i ms p (cl_lock c) (cl_data c) -> working p = true -> cl_lock c = Some i)
    by (intros ? ? [| | | | | [n e]|[n e]|]; cbn; naive_solver).
  pose proof (Hlock _ _ _ Hpi Hp). pose proof (Hlock _ _ _ Hqj Hq). congruence.
Qed.

(** C13: Whatever a deployment does to it, a database only moves forward through the migrations: let any number of
    instances, old and new, migrate at once, their statements interleaved in any way, refused or unanswered at any point,
    instances dying anywhere; at every moment the schema is the one the first so many scripts make, each run once and in
    order, and exactly they are recorded; no script that ran is undone; one instance works at a time; and an instance
    that reported success found or made the schema its own files ask for. *)
Theorem schema_moves_forward k0 d0 c1 c2 : at_version k0 d0 ->
  rtc (cluster_step (fun ms => ms `prefix_of` all)) (mkCluster d0 None ∅) c1 -> rtc (cluster_step (fun ms => ms `prefix_of` all)) c1 c2 ->
  exists k1 k2, (k0 <= k1 <= k2)%nat /\ at_version k1 (cl_data c1) /\ at_version k2 (cl_data c2) /\
    (forall i ms ran, cl_instances c1 !! i = Some (ms, Returned (ran, None)) -> (length ms <= k1)%nat) /\
    (forall i j ms ms' p q, cl_instances c1 !! i = Some (ms, p) -> cl_instances c1 !! j = Some (ms', q) -> working p = true -> working q = true -> i = j).
Proof.
  intros H0 H1 H2. destruct (steps_at k0 (mkCluster d0 None ∅) c1) as (k1 & Hk1 & Hc1); [by split|done|].
  destruct (steps_at k1 c1 c2 Hc1 H2) as (k2 & Hk2 & Hc2). exists k1, k2. split_and!; [lia|lia|apply Hc1|apply Hc2| |].
  - intros i ms ran E. destruct Hc1 as [_ Hi]. by destruct (Hi i ms _ E) as [_ He]; apply He.
  - intros i j ms ms' p q. by apply (working_one k1).
Qed.
End forward.

(** ** A run undisturbed, after whatever there was *)
Section undisturbed.
Context (ms : list Migration) (s0 : Schema) (versions : NoDup (map MgVersion ms)).
Lemma run_scripts_prefix a b s s1 : run_scripts (a ++ b) s = Ok s1 -> exists s2, run_scripts a s = Ok s2.
Proof.
  revert s. induction a as [|m a IH]; intros s H; [by eexists|]. cbn in H |- *. apply bind_ok in H as (s2 & -> & H). by apply (IH s2).
Qed.
(** Where every script runs, the next one does. *)
Lemma apply_next j m d s1 : run_scripts ms s0 = Ok s1 -> at_version ms s0 j d -> md_applied d <> None -> ms !! j = Some m ->
  exists d1, apply_script m d = Ok d1 /\ md_applied d1 <> None.
Proof.
  intros Hs (H1 & H2 & H3) Ha Hm. unfold apply_script. destruct (md_applied d) as [rows|]; [|done].
  rewrite <- (take_drop (S j) ms), (take_S_r ms j m Hm) in Hs. apply run_scripts_prefix in Hs as [s2 Hs2].
  rewrite (run_scripts_snoc _ _ _ _ H2) in Hs2. rewrite Hs2. subst rows.
  destruct (existsb _ _) eqn:E; [|by eexists]. exfalso. apply existsb_exists in E as (r & Hr%list_elem_of_In & Er%Z.eqb_eq).
  apply list_elem_of_fmap in Hr as (x & -> & Hx). apply list_elem_of_lookup in Hx as [i Hi]. apply lookup_take_Some in Hi as [Hi Hlt].
  assert (i = j); [|lia]. apply (NoDup_lookup (map MgVersion ms) i j (MgVersion m) versions); rewrite list_lookup_fmap, ?Hi, ?Hm; cbn; [by rewrite <- Er|done].
Qed.
Lemma apply_pending_done k0 s1 : run_scripts ms s0 = Ok s1 -> forall todo j d n ran, (todo + j = length ms)%nat ->
  at_version ms s0 (Nat.max k0 j) d -> md_applied d <> None ->
  exists d', apply_pending (fun _ => Calm) n (read_applied (map row_of (take k0 ms))) (drop j ms) ran d =
    ((ran + (length ms - Nat.max k0 j))%nat, None, d') /\ at_version ms s0 (length ms) d' /\ md_applied d' <> None.
Proof.
  intros Hs. induction todo as [|todo IH]; intros j d n ran Ej Hd Ha.
  - rewrite drop_ge by lia. cbn. exists d. pose proof Hd as (H1 & _). replace (Nat.max k0 j) with (length ms) in * by lia.
    by rewrite Nat.sub_diag, Nat.add_0_r.
  - destruct (ms !! j) as [m|] eqn:Hm; [|apply lookup_ge_None in Hm; lia]. rewrite (drop_S ms m j Hm). cbn [apply_pending].
    rewrite (read_applied_at ms versions k0 m j Hm). case_bool_decide as Hjk.
    + rewrite bool_decide_false by (intros E; by apply E). replace (Nat.max k0 j) with (Nat.max k0 (S j)) in * by lia.
      apply IH; [lia|done|done].
    + cbn [transact]. replace (Nat.max k0 j) with j in * by lia. destruct (apply_next j m d s1 Hs Hd Ha Hm) as (d1 & E1 & Ha1). rewrite E1.
      destruct (IH (S j) d1 (S n) (S ran)) as (d' & E' & Hd'); [lia| |done|].
      { replace (Nat.max k0 (S j)) with (S j) by lia. by apply (apply_at ms s0 j d m Hd Hm). }
      exists d'. rewrite E'. split; [|done]. pose proof (lookup_lt_Some _ _ _ Hm).
      by replace (S ran + (length ms - Nat.max k0 (S j)))%nat with (ran + (length ms - j))%nat by lia.
Qed.
Lemma check_each_done todo j : (todo + j = length ms)%nat -> check_each (read_applied (map row_of ms)) (drop j ms) = None.
Proof.
  revert j. induction todo as [|todo IH]; intros j Ej; [by rewrite drop_ge by lia|].
  destruct (ms !! j) as [m|] eqn:Hm; [|apply lookup_ge_None in Hm; lia]. rewrite (drop_S ms m j Hm). cbn [check_each].
  pose proof (read_applied_at ms versions (length ms) m j Hm) as Hr. rewrite firstn_all, bool_decide_true in Hr by lia. rewrite Hr.
  rewrite bool_decide_false by (intros E; by apply E). apply IH. lia.
Qed.

(** C37: A migration that was stopped is finished by the next: from wherever earlier runs left the database, one run that
    nothing befalls runs exactly the scripts that are missing, however many those are, and reports their number; after
    it [Check] is content, and running again runs nothing. *)
Theorem migration_completes k d s1 : run_scripts ms s0 = Ok s1 -> at_version ms s0 k d ->
  exists d', Migrate (fun _ => Calm) ms d = ((length ms - k)%nat, None, d') /\ md_schema d' = s1 /\
    check_migrations None None ms d' = None /\ Migrate (fun _ => Calm) ms d' = (0%nat, None, d').
Proof.
  intros Hs Hd. assert (Hrun : forall k d, at_version ms s0 k d -> exists d', Migrate (fun _ => Calm) ms d = ((length ms - k)%nat, None, d') /\
    at_version ms s0 (length ms) d' /\ md_applied d' <> None).
  { clear k d Hd. intros k d Hd. unfold Migrate. pose proof (create_at ms s0 k d Hd) as Hc. unfold select_applied.
    assert (Er : md_applied (create_table d) = Some (map row_of (take k ms))) by (destruct Hc as (_ & _ & Hr); by rewrite <- Hr).
    rewrite Er. destruct (apply_pending_done k s1 Hs (length ms) 0 (create_table d) 4 0) as (d' & E & H); [lia|by rewrite Nat.max_0_r|by rewrite Er|].
    exists d'. rewrite drop_0, Nat.max_0_r in E. by rewrite E. }
  destruct (Hrun k d Hd) as (d' & E & Hd' & Ha). exists d'. pose proof Hd' as (_ & Hs' & Hr). rewrite firstn_all in Hs', Hr. rewrite Hs in Hs'.
  split_and!; [done|by injection Hs'| |].
  - unfold check_migrations, select_applied. destruct (md_applied d') as [rows|]; [|done]. subst rows.
    rewrite <- (drop_0 ms) at 2. by apply (check_each_done (length ms)).
  - destruct (Hrun (length ms) d' Hd') as (d2 & E2 & Hd2 & Ha2). rewrite E2, Nat.sub_diag. do 2 f_equal.
    pose proof Hd2 as (_ & Hs2 & Hr2). rewrite firstn_all, Hs in Hs2. rewrite firstn_all in Hr2.
    destruct d' as [a r], d2 as [a2 r2]; cbn in *. destruct r, r2; try done. injection Hs' as <-. injection Hs2 as <-. by subst.
Qed.
End undisturbed.
End migrate.

(** ** What [Load] vouches for *)
Lemma order_insert_perm {A} (before : A -> A -> bool) a l : order_insert before a l ≡ₚ a :: l.
Proof. induction l as [|b l IH]; [done|]. cbn. destruct (before a b); [done|]. rewrite IH. apply Permutation_swap. Qed.
Lemma by_version_perm ms : by_version ms ≡ₚ ms.
Proof.
  unfold by_version, order_by. change ms with ([] ++ ms) at 2. generalize (@nil Migration) as acc.
  induction ms as [|m ms IH]; intros acc; cbn; [by rewrite app_nil_r|]. rewrite IH, order_insert_perm. apply Permutation_middle.
Qed.
Definition version_le (a b : Migration) : Prop := MgVersion a <= MgVersion b.
#[export] Instance version_le_trans : Transitive version_le.
Proof. intros a b c. unfold version_le. lia. Qed.
Lemma by_version_sorted ms : StronglySorted version_le (by_version ms).
Proof.
  unfold by_version, order_by. assert (H : StronglySorted version_le []) by constructor. revert H. generalize (@nil Migration) as acc.
  induction ms as [|m ms IH]; intros acc H; cbn; [done|]. apply IH. clear IH. induction H as [|b l H IH Hb]; cbn; [by repeat constructor|].
  destruct (MgVersion m <? MgVersion b) eqn:E.
  - apply Z.ltb_lt in E. constructor; [by constructor|]. constructor; [unfold version_le; lia|]. eapply list.Forall_impl; [exact Hb|]. intros x Hx. unfold version_le in *. lia.
  - apply Z.ltb_ge in E. constructor; [done|]. rewrite order_insert_perm. by constructor.
Qed.
Lemma duplicate_none ms : StronglySorted version_le ms -> duplicate ms = None -> StronglySorted (fun a b => MgVersion a < MgVersion b) ms.
Proof.
  induction 1 as [|a ms H IH Ha]; intros Hd; [constructor|]. destruct ms as [|b ms]; [by repeat constructor|]. cbn [duplicate] in Hd.
  destruct (MgVersion b =? MgVersion a) eqn:E; [done|]. apply Z.eqb_neq in E. specialize (IH Hd). constructor; [done|].
  apply list.Forall_cons in Ha as [Ha _]. unfold version_le in Ha. constructor; [lia|]. apply StronglySorted_inv in IH as [_ Hb].
  eapply list.Forall_impl; [exact Hb|]. intros x Hx. cbn in Hx. lia.
Qed.
Lemma sorted_versions ms : StronglySorted (fun a b => MgVersion a < MgVersion b) ms -> NoDup (map MgVersion ms).
Proof.
  induction 1 as [|a ms H IH Ha]; [constructor|]. cbn. apply list.NoDup_cons. split; [|done].
  intros (b & E & Hb)%list_elem_of_fmap. rewrite list.Forall_forall in Ha. specialize (Ha b Hb). cbn in Ha. lia.
Qed.
(** The files of a loaded set: those named as migrations, each once, in the order of their versions, no version twice. *)
Lemma Load_sound checksum entries ms : Load checksum (Ok entries) = Ok ms ->
  StronglySorted (fun a b => MgVersion a < MgVersion b) ms /\ exists read, read_files checksum entries = Ok read /\ ms ≡ₚ read.
Proof.
  unfold Load. cbn. intros (read & Hr & H)%bind_ok. destruct (duplicate _) eqn:E; [done|]. injection H as <-.
  split; [apply duplicate_none; [apply by_version_sorted|done]|]. exists read. split; [done|apply by_version_perm].
Qed.

(** ** Played out *)
Module MigrateExamples.
(** The schema is the list of scripts that made it, and one script is broken. *)
Definition schema_with (script : string) (s : list string) : sql (list string) :=
  if bool_decide (script = "oops") then Err (PgError "42601" "") else Ok (s ++ [script]).
Definition directory : list (string * M string) :=
  [("0003_c.sql", Ok "create c"); ("0001_a.sql", Ok "create a"); ("README.md", Err (EPlain "not read")); ("0002_b.sql", Ok "create b"); ("0003_c.sql.bak", Ok "no")].
Definition files : list Migration := match Load (fun s => s) (Ok directory) with Ok ms => ms | Err _ => [] end.
Example loaded : map MgName files = ["0001_a.sql"; "0002_b.sql"; "0003_c.sql"].
Proof. vm_compute. reflexivity. Qed.
Example duplicate_refused : Load (fun s => s) (Ok (("0002_again.sql", Ok "") :: directory)) = Err (EPlain "postgres: duplicate migration version 0002").
Proof. vm_compute. reflexivity. Qed.

(** A schedule, played. *)
Inductive event : Type := Start (i : nat) (ms : list Migration) | Go (i : nat) (b : Befall) | Die (i : nat).
Definition act (e : event) (c : Cluster (Schema := list string)) : option Cluster :=
  let 'mkCluster d lock insts := c in
  match e with
  | Start i ms => match insts !! i with None => Some (mkCluster d lock (<[i := (ms, Acquiring)]> insts)) | Some _ => None end
  | Go i b =>
      match insts !! i with
      | Some (ms, p) => match next_statement schema_with i ms b p lock d with Some (p, lock, d) => Some (mkCluster d lock (<[i := (ms, p)]> insts)) | None => None end
      | None => None
      end
  | Die i => match insts !! i with Some (ms, p) => Some (mkCluster d (if bool_decide (lock = Some i) then None else lock) (<[i := (ms, Dead)]> insts)) | None => None end
  end.
Definition deployable (e : event) : bool := match e with Start _ ms => bool_decide (ms `prefix_of` files) | _ => true end.
Fixpoint play (es : list event) (c : Cluster) : option Cluster :=
  match es with [] => Some c | e :: es => c ← act e c; play es c end.
Lemma play_steps es c c' : forallb deployable es = true -> play es c = Some c' -> rtc (cluster_step schema_with (fun ms => ms `prefix_of` files)) c c'.
Proof.
  revert c. induction es as [|e es IH]; intros c Hd H; cbn in H; [by injection H as <-|]. apply andb_true_iff in Hd as [He Hd].
  destruct (act e c) as [c1|] eqn:E; [|done]. apply (rtc_l _ c c1); [|by apply IH]. clear IH H. destruct c as [d lock insts]. destruct e as [i ms|i b|i]; cbn in E, He.
  - destruct (insts !! i) eqn:Ei; [done|]. injection E as <-. apply step_start; [done|]. by apply bool_decide_eq_true in He.
  - destruct (insts !! i) as [[ms p]|] eqn:Ei; [|done]. destruct (next_statement _ _ _ _ _ _ _) as [[[p' lock'] d']|] eqn:En; [|done].
    injection E as <-. by eapply step_statement.
  - destruct (insts !! i) as [[ms p]|] eqn:Ei; [|done]. injection E as <-. by eapply step_die.
Qed.

Definition empty_db : Migrated := mkMigrated (Schema := list string) [] None.
Definition lost : Befall := Lost (NetError "connection reset").
(** An old instance dies after its first script; a new one whose commit goes unanswered stops; a third finishes. *)
Definition morning : list event :=
  [Start 1 (take 2 files); Start 2 files; Go 1 Calm; Go 2 Calm; Go 1 Calm; Go 1 Calm; Go 1 Calm; Go 1 Calm; Die 1;
   Go 2 Calm; Go 2 Calm; Go 2 Calm; Go 2 Calm; Go 2 lost].
Definition evening : list event := [Go 2 Calm; Start 3 files] ++ replicate 9 (Go 3 Calm) ++ [Start 4 (take 2 files); Go 4 Calm].
Definition at_noon : Cluster := default (mkCluster empty_db None ∅) (play morning (mkCluster empty_db None ∅)).
Definition at_night : Cluster := default at_noon (play evening at_noon).
Example day_played : md_schema (cl_data at_noon) = ["create a"; "create b"] /\ md_schema (cl_data at_night) = ["create a"; "create b"; "create c"] /\
  snd <$> (cl_instances at_night !! 3%nat) = Some (Returned (1%nat, None)).
Proof. vm_compute. done. Qed.
Lemma file_versions : NoDup (map MgVersion files).
Proof. apply sorted_versions. by destruct (Load_sound (fun s => s) directory files eq_refl). Qed.
Lemma empty_at : at_version schema_with files [] 0 empty_db.
Proof. split_and!; [lia|reflexivity..]. Qed.

Lemma schema_moves_forward_witness : exists k1 k2, (0 <= k1 <= k2)%nat /\ at_version schema_with files [] k1 (cl_data at_noon) /\ at_version schema_with files [] k2 (cl_data at_night).
Proof.
  destruct (schema_moves_forward schema_with files [] file_versions 0 empty_db at_noon at_night empty_at) as (k1 & k2 & H & H1 & H2 & _); [..|by exists k1, k2].
  - apply (play_steps morning); vm_compute; reflexivity.
  - apply (play_steps evening); vm_compute; reflexivity.
Defined.

(** Stopped by a refused statement after one script, and finished by the next run. *)
Definition refused_at (n : nat) (m : nat) : Befall := if bool_decide (m = n) then Refused 1 (NetError "timeout") else Calm.
Definition stopped : MigrateResult * Migrated := Migrate schema_with (refused_at 5) files empty_db.
Lemma migration_completes_witness :
  stopped.1 = (1%nat, Some (MScript "0002_b.sql" (NetError "timeout"))) /\
  exists d', Migrate schema_with (fun _ => Calm) files stopped.2 = (2%nat, None, d') /\ md_schema d' = ["create a"; "create b"; "create c"] /\
    check_migrations None None files d' = None /\ Migrate schema_with (fun _ => Calm) files d' = (0%nat, None, d').
Proof.
  split; [vm_compute; reflexivity|]. apply (migration_completes schema_with files [] file_versions 1 stopped.2); [vm_compute; reflexivity|].
  split_and!; [by_eval|vm_compute; reflexivity..].
Defined.
(** A file that was changed after it ran stops everything. *)
Example modified_refused : (Migrate schema_with (fun _ => Calm) (mkMigration 1 "0001_a.sql" "create z" "create z" :: files) stopped.2).1 = (0%nat, Some (ErrMigrationModified "0001_a.sql")).
Proof. vm_compute. reflexivity. Qed.
End MigrateExamples.
