(* ===== verification/PgStore.v ===== *)
(** * PgStore: the storage port on PostgreSQL ([infrastructure/postgres/store.go]).

    A transaction carries the database, whether a statement of it has failed - PostgreSQL then refuses every further
    one - the statements sent so far and the accesses it has cached. [fault] is what befalls the n-th statement from
    outside; [load] is [time.LoadLocation]. Spans are left out. *)
From S2P Require Import Prelude Errs GoTime GoJson Ext Types Regimes Lifecycle Deadlines Ledger Questionnaire Risk Notice Access Store Sql.

(** ** Errors *)
Definition starts_with (p s : string) : bool := match cut_prefix p s with Some _ => true | None => false end.
Definition driver_text (err : driver_error) : string :=
  match err with
  | ErrNoRows => "no rows in result set"
  | PgError code constraint => "SQLSTATE " +:+ code +:+ " " +:+ constraint
  | NetError msg | OtherError msg => msg
  end.
Definition mapErr (err : driver_error) : error :=
  match err with
  | ErrNoRows => EClass ErrNotFound
  | PgError code constraint =>
      if bool_decide (code = "23505") then Wrap (EClass ErrConflict) ("unique violation on " +:+ constraint)
      else if bool_decide (code = "40001") || bool_decide (code = "40P01") then Wrap (EClass ErrConflict) ("postgres " +:+ code)
      else if starts_with "08" code || starts_with "53" code || starts_with "57" code then Wrap (EClass ErrUnavailable) ("postgres " +:+ code)
      else EPlain (driver_text err)
  | NetError msg => Wrap (EClass ErrUnavailable) ("postgres: " +:+ msg)
  | OtherError msg => EPlain msg
  end.

(** ** Small conversions *)
Definition MaxInt32 : Z := 2 ^ 31 - 1.
Definition int32Of (n : Z) : Z := if n <? 0 then 0 else if MaxInt32 <? n then MaxInt32 else n.
Definition nonEmpty (s : string) : option string := if bool_decide (s = "") then None else Some s.
Definition derefString (p : option string) : string := default "" p.

(** ** Transactions *)
Section store.
Context `{DC : Decimal} `{UU : UUID} {Body : Type} {NU : Numeric}.
Context (fault : nat -> option driver_error) (load : string -> option Location).
Abbreviation Stmt A := (DB Body -> sql A * DB Body).

Record PgTx : Type := mkPgTx { px_db : DB Body; px_aborted : bool; px_statements : nat; px_access : gmap string Access }.
Definition begin (db : DB Body) (n : nat) : PgTx := mkPgTx db false n ∅.
Definition Pg (A : Type) : Type := PgTx -> M A * PgTx.
#[export] Instance Pg_ret : MRet Pg := fun A a x => (Ok a, x).
#[export] Instance Pg_bind : MBind Pg := fun A B f p x =>
  match p x with (Ok a, x) => f a x | (Err e, x) => (Err e, x) end.
Definition pg_fail {A} (err : error) : Pg A := fun x => (Err err, x).

(** Sending a statement. *)
Definition in_failed_transaction : driver_error := PgError "25P02" "".
Definition send {A} (q : Stmt A) : PgTx -> sql A * PgTx := fun x =>
  let after db aborted := mkPgTx db aborted (S (px_statements x)) (px_access x) in
  if px_aborted x then (Err in_failed_transaction, after (px_db x) true)
  else match fault (px_statements x) with
       | Some e => (Err e, after (px_db x) true)
       | None =>
           match q (px_db x) with
           | (Ok a, db) => (Ok a, after db false)
           | (Err ErrNoRows, db) => (Err ErrNoRows, after db false)
           | (Err e, db) => (Err e, after db true)
           end
       end.
Definition run_query {A} (q : Stmt A) : Pg A := fun x =>
  match send q x with (Ok a, x) => (Ok a, x) | (Err e, x) => (Err (mapErr e), x) end.
Fixpoint pg_each {A} (f : A -> Pg unit) (l : list A) : Pg unit :=
  match l with [] => mret tt | a :: l => _ ← f a; pg_each f l end.

(** [Store.WithTx]. Beginning, binding the session and committing are statements too; the errors of the first and
    the last are returned as the driver gave them. *)
Definition session_of (c : Ctx) (now : time) (id : uuid) : Session :=
  match From_ctx c with
  | Some p => mkSession _ id (PID p) (PrincipalKind_string (PrKind p)) now
  | None => mkSession _ id "" "" now
  end.
Definition unmapped (err : driver_error) : error := EPlain (driver_text err).
Definition pg_WithTx {A} (c : Ctx) (now : time) (fn : Session -> Pg A) (db : DB Body) (n : nat) : M A * DB Body * nat :=
  match IDFrom c with
  | None => (fail ErrMissing, db, n)
  | Some id =>
      match fault n with
      | Some e => (Err (unmapped e), db, S n)
      | None =>
          let tx := begin db (S n) in
          match run_query (fun db => (Ok tt, db)) tx with
          | (Err e, x) => (Err e, db, S (px_statements x))
          | (Ok _, x) =>
              match fn (session_of c now id) x with
              | (Err e, x) => (Err e, put_notice_seq (db_notice_seq (px_db x)) db, S (px_statements x))
              | (Ok a, x) =>
                  let gone := put_notice_seq (db_notice_seq (px_db x)) db in
                  let n := px_statements x in
                  match fault n with
                  | Some e => (Err (unmapped e), gone, S n)
                  | None =>
                      if px_aborted x then (Err (EPlain "commit unexpectedly resulted in rollback"), gone, S n)
                      else (Ok a, px_db x, S n)
                  end
              end
          end
      end
  end.

(** ** The methods of a transaction *)
Section txn.
Context (ss : Session) (traceparent : string).

(** Access is read once per transaction and subject. *)
Definition access_of (row : AccessRow) : Access :=
  mkAccess (cw_Version row)
    (foldl (fun d tm => if (tm : string * bool).2 then tm.1 else d) "" (cw_Teams row))
    (map fst (cw_Teams row)) (cw_Grants row) (cw_Routing row) (cw_Members row).
Definition pg_Access (p : Principal) : Pg Access := fun x =>
  let subject := match PrKind p with Analyst => PID p | Key => "" end in
  match px_access x !! subject with
  | Some a => (Ok a, x)
  | None =>
      match run_query (q_GetAccess ss subject) x with
      | (Err e, x) => (Err e, x)
      | (Ok row, x) =>
          let a := access_of row in
          (Ok a, mkPgTx (px_db x) (px_aborted x) (px_statements x) (<[subject := a]> (px_access x)))
      end
  end.

Definition transaction_of (id : uuid) (row : TransactionRow * AccountRow) : TransactionRecord :=
  let '(x, a) := row in
  mkTransactionRecord id uuid_Nil (xw_AccountID x) (xw_Rail x) (xw_Amount x) (xw_Currency x) (aw_Currency a) (aw_OpenedAt a)
    (xw_Merchant x) (derefString (xw_Mcc x)) (xw_OccurredAt x).
Definition pg_GetTransaction (id : uuid) : Pg TransactionRecord :=
  row ← run_query (q_GetTransaction ss id); mret (transaction_of id row).
Definition account_of (id : uuid) (a : AccountRow) : AccountRecord :=
  mkAccountRecord id (aw_HolderName a) (aw_Currency a) (derefString (aw_Email a)) (derefString (aw_PostalAddress a)) (aw_OpenedAt a).
Definition pg_GetAccount (id : uuid) : Pg AccountRecord := row ← run_query (q_GetAccount ss id); mret (account_of id row).
Definition pg_TenantName : Pg string := run_query (q_GetTenantName ss).
Definition pg_TenantCalendar : Pg Calendar :=
  row ← run_query (q_GetTenantCalendar ss);
  match NewCalendar load row.1 row.2 with Ok cal => mret cal | Err e => pg_fail e end.
Definition pg_TenantCore : Pg CoreConfig := row ← run_query (q_GetTenantCore ss); mret (mkCoreConfig row.1 row.2).

Definition pg_InsertDispute (d : DisputeRecord) : Pg unit :=
  run_query (q_InsertDispute ss (mkDisputeRecord (dr_ID d) (dr_TenantID d) (dr_Team d) (dr_Regime d) (dr_State d) (int32Of (dr_Appeals d)) (dr_Version d)
    (dr_TransactionID d) (dr_AccountID d) (dr_DisputedAmount d) (dr_Currency d) (dr_OpenedAt d) (dr_UpdatedAt d) (dr_Reason d))).
Definition pg_GetDispute (id : uuid) : Pg DisputeRecord := run_query (q_GetDispute ss id).
(** No row changed means the version moved on. *)
Definition moved_on (n : Z) : Pg unit := if n =? 0 then pg_fail (EClass ErrConflict) else mret tt.
Definition pg_UpdateDisputeState (id : uuid) (expected : Z) (state : State) (appeals : Z) (at_ : time) : Pg unit :=
  n ← run_query (q_UpdateDisputeState ss id state (int32Of appeals) at_ expected); moved_on n.
Definition pg_UpdateDisputeTeam (id : uuid) (expected : Z) (team : string) (at_ : time) : Pg unit :=
  n ← run_query (q_UpdateDisputeTeam ss id expected team at_); moved_on n.
(** The page's query does not read the tenant, the account, the appeals and the version. *)
Definition listed (d : DisputeRecord) : DisputeRecord :=
  mkDisputeRecord (dr_ID d) uuid_Nil (dr_Team d) (dr_Regime d) (dr_State d) 0 0 (dr_TransactionID d) uuid_Nil (dr_DisputedAmount d)
    (dr_Currency d) (dr_OpenedAt d) (dr_UpdatedAt d) (dr_Reason d).
Definition pg_ListDisputes (q : ListQuery) : Pg (list DisputeRecord) :=
  rows ← run_query (q_ListDisputes ss q (int32Of (lq_Limit q))); mret (map listed rows).
Definition pg_AccountHistory (account exclude : uuid) (since : time) : Pg (Z * Z) :=
  disputes ← run_query (q_CountAccountDisputesSince ss account since exclude);
  lost ← run_query (q_CountAccountLostChargebacks ss account exclude);
  mret (disputes, lost).

Definition event_row (e : EventRecord) : EventRow :=
  mkEventRow (int32Of (ev_Seq e)) (ev_Event e) (ev_FromState e) (ev_ToState e) (ev_Actor e) (ev_Payload e) (ev_IdempotencyKey e) (ev_TraceID e)
    (ev_OccurredAt e) (nonEmpty (ev_ActorID e)).
Definition event_of (r : EventRow) : EventRecord :=
  mkEventRecord (ew_Seq r) (ew_Event r) (ew_FromState r) (ew_ToState r) (ew_Actor r) (derefString (ew_ActorID r)) (ew_Payload r)
    (ew_IdempotencyKey r) (ew_TraceID r) (ew_OccurredAt r).
Definition pg_AppendEvent (id : uuid) (e : EventRecord) : Pg unit := run_query (q_InsertDisputeEvent ss id (event_row e)).
Definition pg_ListEvents (id : uuid) : Pg (list EventRecord) := rows ← run_query (q_ListDisputeEvents ss id); mret (map event_of rows).

Definition pg_GetIdempotent (scope key : string) : Pg (StoredResponse Body) := run_query (q_GetIdempotencyKey ss scope key).
Definition pg_PutIdempotent (scope key : string) (r : StoredResponse Body) : Pg unit :=
  run_query (q_InsertIdempotencyKey ss scope key (sr_RequestHash r) (int32Of (sr_StatusCode r)) (sr_Body r)).

Definition pg_InsertDeadlines (id : uuid) : list Deadline -> Pg unit := pg_each (fun d =>
  run_query (q_InsertDeadline ss id (DlKind d) (int32Of (DlCycle d)) (DlStartedAt d) (DlDueAt d) (DlBasis d))).
Definition pg_ListDeadlines (id : uuid) : Pg (list Deadline) := run_query (q_ListDeadlines ss id).
Definition pg_SettleDeadline (id : uuid) (kind : DeadlineKind) (cycle : Z) (met : bool) (at_ : time) : Pg unit :=
  _ ← run_query (q_SettleDeadline ss met at_ id kind (int32Of cycle)); mret tt.
Definition pg_NextDeadlines (ids : list uuid) : Pg (gmap uuid Deadline) :=
  rows ← run_query (q_NextDeadlines ss ids);
  mret (foldl (fun out r => <[(r : uuid * Deadline).1 := r.2]> out) ∅ rows).

Definition Milliseconds (d : Z) : Z := Z.quot d 1000000.
Definition ledger_row (e : LedgerEntry) : LedgerRow :=
  mkLedgerRow (int32Of (le_Seq e)) (le_Posting e) (le_Reference e) (le_PostedAt e)
    (rc_RRN <$> le_Core e) (rc_ResponseCode <$> le_Core e) ((fun c => int32Of (Milliseconds (rc_Latency c))) <$> le_Core e).
Definition ledger_of (r : LedgerRow) : LedgerEntry :=
  mkLedgerEntry (lw_Seq r) (lw_Posting r) (lw_Reference r) (lw_PostedAt r)
    (match lw_CoreResponseCode r with
     | Some code => Some (mkCoreReceipt (derefString (lw_CoreRrn r)) code "" true false "" (lw_PostedAt r)
                            (default 0 (lw_CoreLatencyMs r) * 1000000))
     | None => None
     end).
Definition pg_AppendLedger (id : uuid) : list LedgerEntry -> Pg unit := pg_each (fun e => run_query (q_InsertLedgerEntry ss id (ledger_row e))).
Definition pg_ListLedger (id : uuid) : Pg (list LedgerEntry) := rows ← run_query (q_ListLedgerEntries ss id); mret (map ledger_of rows).

Definition pg_SendQuestionnaire (id : uuid) (q : Questionnaire) : Pg unit :=
  run_query (q_UpsertQuestionnaire ss id (qr_Reason q) (qr_Questions q) (qr_SentAt q)).
Definition no_questionnaire : error := Wrap (EClass ErrNotFound) "no unanswered questionnaire on dispute".
Definition pg_AnswerQuestionnaire (id : uuid) (answers : Answers) (at_ : time) : Pg unit :=
  n ← run_query (q_AnswerQuestionnaire ss id answers at_);
  if n =? 0 then pg_fail no_questionnaire else mret tt.
Definition questionnaire_of (r : QuestionnaireRow) : Questionnaire :=
  mkQuestionnaire (qw_Reason r) (qw_Questions r)
    (match qw_ReceivedAt r with Some _ => default ∅ (qw_Answers r) | None => ∅ end) (qw_SentAt r) (qw_ReceivedAt r).
Definition pg_GetQuestionnaire (id : uuid) : Pg Questionnaire := row ← run_query (q_GetQuestionnaire ss id); mret (questionnaire_of row).

Definition notice_row (n : NoticeRecord) : NoticeRow :=
  mkNoticeRow 0 (int32Of (nr_Seq n)) (nr_Kind n) (nr_Channel n) (nr_Recipient n) (nr_Subject n) (nr_Document n) (nr_CreatedAt n) (nr_SentAt n)
    0 0 None (nonEmpty (nr_Actor n)) (nr_ResendOf n) (nonEmpty traceparent).
Definition pg_InsertNotice (n : NoticeRecord) : Pg Z := run_query (q_InsertNotice ss (nr_DisputeID n) (notice_row n)).
Definition noticeOf (id : uuid) (r : NoticeRow) : NoticeRecord :=
  mkNoticeRecord (nw_ID r) uuid_Nil id (nw_Seq r) (nw_Kind r) (nw_Channel r) (nw_Recipient r) (nw_Subject r) (nw_Document r) (nw_CreatedAt r)
    (nw_SentAt r) (nw_Attempts r) (nw_LastError r) (derefString (nw_Actor r)) (nw_ResendOf r) "".
Definition pg_ListNotices (id : uuid) : Pg (list NoticeRecord) := rows ← run_query (q_ListNotices ss id); mret (map (noticeOf id) rows).
Definition pg_GetNotice (id : uuid) (nid : Z) : Pg NoticeRecord := row ← run_query (q_GetNotice ss nid id); mret (noticeOf id row).

Definition risk_row (r : RiskRecord) : RiskRow :=
  mkRiskRow (int32Of (rr_Seq r)) (int32Of (AScore (rr_Assessment r))) (ATier (rr_Assessment r)) (ASignals (rr_Assessment r)) (rr_AssessedAt r).
Definition risk_of (r : RiskRow) : RiskRecord := mkRiskRecord (kw_Seq r) (mkAssessment (kw_Score r) (kw_Tier r) (kw_Signals r)) (kw_AssessedAt r).
Definition pg_InsertRisk (id : uuid) (r : RiskRecord) : Pg unit := run_query (q_InsertRiskAssessment ss id (risk_row r)).
Definition pg_ListRisk (id : uuid) : Pg (list RiskRecord) := rows ← run_query (q_ListRiskAssessments ss id); mret (map risk_of rows).
(** Without the signals. *)
Definition pg_LatestRisk (ids : list uuid) : Pg (gmap uuid Assessment) :=
  rows ← run_query (q_LatestRiskTiers ss ids);
  mret (foldl (fun out r => <[(r : uuid * (Z * RiskTier)).1 := mkAssessment r.2.1 r.2.2 []]> out) ∅ rows).

Definition pg_InsertAttachment (id : uuid) (a : Attachment) : Pg unit :=
  run_query (q_InsertAttachment ss (mkAttachment (at_ID a) id (at_NoticeID a) (at_Filename a) (at_ContentType a) (int32Of (at_Size a)) (at_Content a)
    (at_UploadedBy a) (at_UploadedAt a))).
Definition pg_ClaimAttachments (id : uuid) (nid : Z) (ids : list uuid) : Pg Z := run_query (q_ClaimAttachments ss nid id ids).
Definition pg_ListAttachmentMeta (id : uuid) (nids : list Z) : Pg (list Attachment) := run_query (q_ListAttachmentMeta ss id nids).
Definition pg_GetAttachment (id aid : uuid) : Pg Attachment := run_query (q_GetAttachment ss aid id).

Definition pg_TenantTemplates : Pg (list TenantTemplate) := run_query (q_ListTenantTemplates ss).
Definition pg_PutTenantTemplate (t : TenantTemplate) : Pg unit := run_query (q_UpsertTenantTemplate ss t).
Definition pg_DeleteTenantTemplate (kind : NoticeKind) : Pg bool := n ← run_query (q_DeleteTenantTemplate ss kind); mret (0 <? n).
(** These look for the driver's error before mapping it. *)
Definition pg_GetTenantMetadata : Pg TenantMetadata := fun x =>
  match send (q_GetTenantMetadata ss) x with
  | (Err ErrNoRows, x) => (Ok (mkTenantMetadata false None), x)
  | (Err e, x) => (Err (mapErr e), x)
  | (Ok (content_type, updated), x) => (Ok (mkTenantMetadata (bool_decide (is_Some content_type)) updated), x)
  end.
Definition pg_GetTenantLogo : Pg Image := row ← run_query (q_GetTenantLogo ss); mret (mkImage row.1 (derefString row.2)).
Definition pg_PutTenantLogo (img : Image) (at_ : time) : Pg unit := run_query (q_PutTenantLogo ss (im_Content img) (im_ContentType img) at_).
Definition pg_GetAnalystAvatar (subject : string) : Pg Image := run_query (q_GetAnalystAvatar ss subject).
Definition pg_PutAnalystAvatar (subject : string) (img : Image) (at_ : time) : Pg unit :=
  run_query (q_PutAnalystAvatar ss subject (im_Content img) (im_ContentType img)).
End txn.

(** ** Outside a transaction: one statement on a connection of the pool *)
Definition pool {A} (q : Stmt A) (db : DB Body) (n : nat) : M A * DB Body * nat :=
  match fault n with
  | Some e => (Err (mapErr e), db, S n)
  | None => match q db with (Ok a, db) => (Ok a, db, S n) | (Err e, _) => (Err (mapErr e), db, S n) end
  end.
(** The columns [ClaimNotices] selects. *)
Definition claimed_of (r : Child NoticeRow) : NoticeRecord :=
  let n := ch_row r in
  mkNoticeRecord (nw_ID n) (ch_TenantID r) (ch_DisputeID r) (nw_Seq n) (nw_Kind n) (nw_Channel n) (nw_Recipient n) (nw_Subject n) (nw_Document n)
    (nw_CreatedAt n) None (nw_Attempts n) None "" None (derefString (nw_TraceContext n)).
Definition pg_ClaimNotices (now : time) (batch : Z) (db : DB Body) (n : nat) : M (list NoticeRecord) * DB Body * nat :=
  match pool (q_ClaimNotices now (int32Of batch)) db n with
  | (Ok rows, db, n) => (Ok (map claimed_of rows), db, n)
  | (Err e, db, n) => (Err e, db, n)
  end.
Definition pg_FinishNotice (now : time) (nid : Z) (failure : string) : DB Body -> nat -> M unit * DB Body * nat :=
  pool (q_FinishNotice now nid (nonEmpty failure)).
Definition pg_OutboxBacklog : DB Body -> nat -> M Z * DB Body * nat := pool q_OutboxBacklog.
Definition file_of (a : Attachment) : Attachment :=
  mkAttachment (at_ID a) uuid_Nil None (at_Filename a) (at_ContentType a) (at_Size a) (at_Content a) "" zero_time.
Definition pg_NoticeAttachments (nid : Z) (db : DB Body) (n : nat) : M (list Attachment) * DB Body * nat :=
  match pool (q_NoticeAttachments nid) db n with
  | (Ok rows, db, n) => (Ok (map file_of rows), db, n)
  | (Err e, db, n) => (Err e, db, n)
  end.
Definition pg_PurgeDraftAttachments (before : time) : DB Body -> nat -> M Z * DB Body * nat := pool (q_PurgeDraftAttachments before).
(** In a transaction of its own, behind an advisory lock another replica may hold. *)
Definition pg_PurgeIdempotencyKeys (got : bool) (before : time) (db : DB Body) (n : nat) : M Z * DB Body * nat :=
  match fault n, fault (S n), fault (S (S n)) with
  | Some e, _, _ => (Err (mapErr e), db, S n)
  | _, Some e, _ => (Err (mapErr e), db, S (S n))
  | _, _, Some e => (Err (mapErr e), db, S (S (S n)))
  | None, None, None =>
      if got then
        match q_PurgeIdempotencyKeys before db, fault (S (S (S n))) with
        | (Ok k, db'), None => (Ok k, db', S (S (S (S n))))
        | (_, _), Some e | (Err e, _), None => (Err (mapErr e), db, S (S (S (S n))))
        end
      else (Ok 0, db, S (S (S n)))
  end.
(** What the gauges count. *)
Definition pg_CountByState (db : DB Body) (n : nat) : M (list StateCount) * DB Body * nat :=
  match pool q_CountDisputesByState db n with
  | (Ok rows, db, n) => (Ok (map (fun r => mkStateCount (r : uuid * Regime * State * Z).1.1.1 r.1.1.2 r.1.2 r.2) rows), db, n)
  | (Err e, db, n) => (Err e, db, n)
  end.
Definition pg_CountOverdue (now : time) (db : DB Body) (n : nat) : M (list OverdueCount) * DB Body * nat :=
  match pool (q_CountDeadlinesOverdue now) db n with
  | (Ok rows, db, n) => (Ok (map (fun r => mkOverdueCount (r : uuid * Regime * DeadlineKind * Z).1.1.1 r.1.1.2 r.1.2 r.2) rows), db, n)
  | (Err e, db, n) => (Err e, db, n)
  end.
End store.

(** ** What the statements of a method add up to *)
(** A reflexive and transitive relation every statement respects, a method respects. *)
Section walk.
Context `{DC : Decimal} `{UU : UUID} {Body : Type}.
Context (R : PgTx (Body := Body) -> PgTx (Body := Body) -> Prop) `{!PreOrder R}.
Definition walks {A} (p : Pg (Body := Body) A) : Prop := forall x r x', p x = (r, x') -> R x x'.
Lemma walks_ret {A} (a : A) : walks (mret a).
Proof. by intros x r x' [= <- <-]. Qed.
Lemma walks_fail {A} e : walks (pg_fail (A := A) e).
Proof. by intros x r x' [= <- <-]. Qed.
Lemma walks_bind {A B} (p : Pg (Body := Body) A) (f : A -> Pg (Body := Body) B) : walks p -> (forall a, walks (f a)) -> walks (mbind f p).
Proof.
  intros Hp Hf x r x' H. unfold mbind, Pg_bind in H. destruct (p x) as [[a|e] y] eqn:E; [|injection H as <- <-; by eapply Hp].
  etransitivity; [by eapply Hp|by eapply Hf].
Qed.
Lemma walks_if {A} (b : bool) (p q : Pg (Body := Body) A) : walks p -> walks q -> walks (if b then p else q).
Proof. intros. by destruct b. Qed.
Lemma walks_each {A} (f : A -> Pg (Body := Body) unit) l : (forall a, walks (f a)) -> walks (pg_each f l).
Proof. intros Hf. induction l as [|a l IH]; [apply walks_ret|]. by apply walks_bind. Qed.
End walk.
Ltac pg_walk := repeat first [apply walks_ret; apply _ | apply walks_fail; apply _ | apply walks_if | apply walks_bind; [apply _| |intros ?] | apply walks_each; [apply _|intros ?]].
Ltac pg_unfold := unfold pg_GetTransaction, pg_GetAccount, pg_TenantName, pg_TenantCore, pg_InsertDispute, pg_GetDispute, pg_UpdateDisputeState,
  pg_UpdateDisputeTeam, moved_on, pg_ListDisputes, pg_AccountHistory, pg_AppendEvent, pg_ListEvents, pg_GetIdempotent, pg_PutIdempotent, pg_InsertDeadlines,
  pg_ListDeadlines, pg_SettleDeadline, pg_NextDeadlines, pg_AppendLedger, pg_ListLedger, pg_SendQuestionnaire, pg_AnswerQuestionnaire,
  pg_GetQuestionnaire, pg_InsertNotice, pg_ListNotices, pg_GetNotice, pg_InsertRisk, pg_ListRisk, pg_LatestRisk, pg_InsertAttachment,
  pg_ClaimAttachments, pg_ListAttachmentMeta, pg_GetAttachment, pg_TenantTemplates, pg_PutTenantTemplate, pg_DeleteTenantTemplate,
  pg_GetTenantLogo, pg_PutTenantLogo, pg_GetAnalystAvatar, pg_PutAnalystAvatar.
