(* ===== verification/Directory.v ===== *)
(** * Directory: tenants, tenant keys and web sessions in the database
    ([migrations/0003..0009], their queries in [infrastructure/postgres/sqlcgen]).

    These tables are outside row-level security: a key is looked up, an issuer resolved and a session read before
    the tenant is known. A table is the list of its rows in the order they were inserted; [now()] is the time the
    statement is given. [ORDER BY] on a name follows the database's collation, a parameter. *)
From S2P Require Import Prelude Errs GoTime GoJson Ext Store Sql.

Class Collation : Type := collates_before : string -> string -> bool.

Section directory.
Context `{UU : UUID}.

Record TenantEntry : Type := mkTenantEntry {
  te_ID : uuid;
  te_Name : string;
  te_Slug : string;
  te_OidcIssuer : option string;
  te_EmailDomains : list string;
  te_DisabledAt : option time;
  te_Settings : gmap string json   (* a [jsonb] object *)
}.
Record KeyRow : Type := mkKeyRow {
  kr_ID : uuid;
  kr_TenantID : uuid;
  kr_KeyHash : string;
  kr_Prefix : string;
  kr_Label : string;
  kr_CreatedAt : time;
  kr_LastUsedAt : option time;
  kr_ExpiresAt : option time;
  kr_RevokedAt : option time
}.
Record SessionRow : Type := mkSessionRow {
  sw_TenantID : option uuid;
  sw_Ciphertext : string;
  sw_ExpiresAt : time;
  sw_Subject : option string;
  sw_Sid : option string
}.
Record Directory : Type := mkDirectory {
  dir_tenants : list TenantEntry;
  dir_keys : list KeyRow;
  dir_sessions : gmap uuid SessionRow
}.
Definition put_tenants (v : list TenantEntry) (d : Directory) : Directory := mkDirectory v (dir_keys d) (dir_sessions d).
Definition put_keys (v : list KeyRow) (d : Directory) : Directory := mkDirectory (dir_tenants d) v (dir_sessions d).
Definition put_sessions (v : gmap uuid SessionRow) (d : Directory) : Directory := mkDirectory (dir_tenants d) (dir_keys d) v.

(** A statement run on its own is given the time it runs at; it changes the tables or is refused. *)
Definition DStmt (A : Type) : Type := time -> Directory -> sql A * Directory.
Definition refused {A} (e : driver_error) : DStmt A := fun _ d => (Err e, d).
Definition select {A} (f : Directory -> A) : DStmt A := fun _ d => (Ok (f d), d).
(** [:one]: the first row, or no row. *)
Definition select_one {A} (f : time -> Directory -> list A) : DStmt A := fun now d =>
  match f now d with a :: _ => (Ok a, d) | [] => (Err ErrNoRows, d) end.
(** [UPDATE ... WHERE] on a list of rows, and how many it touched. *)
Fixpoint update_where {A} (p : A -> bool) (f : A -> A) (l : list A) : list A * Z :=
  match l with
  | [] => ([], 0)
  | a :: l => let '(l, n) := update_where p f l in if p a then (f a :: l, n + 1) else (a :: l, n)
  end.

(** ** Tenants *)
Definition tenant_is (id : uuid) (t : TenantEntry) : bool := bool_decide (te_ID t = id).
Definition enabled (t : TenantEntry) : bool := bool_decide (te_DisabledAt t = None).
Definition slug_char (a : Ascii.ascii) : bool :=
  let n := Z.of_nat (Ascii.nat_of_ascii a) in ((97 <=? n) && (n <=? 122)) || ((48 <=? n) && (n <=? 57)).
Fixpoint slug_rest (s : string) : bool :=
  match s with EmptyString => true | String a s => (slug_char a || bool_decide (a = "-"%char)) && slug_rest s end.
(** The check on a slug: [^[a-z0-9][a-z0-9-]{1,62}$]. *)
Definition slug_shape (s : string) : bool :=
  match s with
  | String a rest => slug_char a && slug_rest rest && (1 <=? Z.of_nat (String.length rest)) && (Z.of_nat (String.length rest) <=? 62)
  | EmptyString => false
  end.

Definition q_GetTenantByIssuer (issuer : string) : DStmt (uuid * string) :=
  select_one (fun _ d => map (fun t => (te_ID t, te_Slug t))
    (List.filter (fun t => bool_decide (te_OidcIssuer t = Some issuer) && enabled t) (dir_tenants d))).
Definition by_name `{Collation} : list TenantEntry -> list TenantEntry :=
  order_by (fun a b => collates_before (te_Name a) (te_Name b)).
Definition q_ListTenantsForDiscovery `{Collation} : DStmt (list TenantEntry) :=
  select (fun d => by_name (List.filter enabled (dir_tenants d))).
Definition q_ListTenants `{Collation} : DStmt (list TenantEntry) := select (fun d => by_name (dir_tenants d)).

(** [INSERT ... ON CONFLICT (id) DO UPDATE]: name, slug and issuer of a tenant that exists are replaced. *)
Definition q_UpsertTenant (id : uuid) (name slug : string) (issuer : option string) : DStmt unit := fun _ d =>
  let others := List.filter (fun t => negb (tenant_is id t)) (dir_tenants d) in
  if negb (slug_shape slug) then (Err (check_violation "tenants_slug_shape"), d)
  else if existsb (fun t => bool_decide (te_Slug t = slug)) others then (Err (unique_violation "tenants_slug_key"), d)
  else if existsb (fun t => bool_decide (te_OidcIssuer t = issuer) && negb (bool_decide (issuer = None))) others
       then (Err (unique_violation "tenants_oidc_issuer_key"), d)
  else
    let renamed t := mkTenantEntry (te_ID t) name slug issuer (te_EmailDomains t) (te_DisabledAt t) (te_Settings t) in
    if existsb (tenant_is id) (dir_tenants d)
    then (Ok tt, put_tenants (update_where (tenant_is id) renamed (dir_tenants d)).1 d)
    else (Ok tt, put_tenants (dir_tenants d ++ [mkTenantEntry id name slug issuer [] None ∅]) d).
Definition update_tenant (id : uuid) (f : time -> TenantEntry -> TenantEntry) : DStmt Z := fun now d =>
  let '(rows, n) := update_where (tenant_is id) (f now) (dir_tenants d) in (Ok n, put_tenants rows d).
Definition q_SetTenantDisabled (disabled : bool) (id : uuid) : DStmt Z := update_tenant id (fun now t =>
  mkTenantEntry (te_ID t) (te_Name t) (te_Slug t) (te_OidcIssuer t) (te_EmailDomains t)
    (if disabled then Some (default (timestamptz now) (te_DisabledAt t)) else None) (te_Settings t)).
Definition q_SetTenantEmailDomains (id : uuid) (domains : list string) : DStmt Z := update_tenant id (fun _ t =>
  mkTenantEntry (te_ID t) (te_Name t) (te_Slug t) (te_OidcIssuer t) domains (te_DisabledAt t) (te_Settings t)).
(** [settings || jsonb_build_object(...)]: the named members are replaced, the others kept. *)
Definition with_settings (t : TenantEntry) (members : gmap string json) : TenantEntry :=
  mkTenantEntry (te_ID t) (te_Name t) (te_Slug t) (te_OidcIssuer t) (te_EmailDomains t) (te_DisabledAt t) (members ∪ te_Settings t).
Definition q_SetTenantCalendar (timezone : string) (holidays : list string) (id : uuid) : DStmt Z := update_tenant id (fun _ t =>
  with_settings t {["timezone" := JString timezone; "holidays" := JArray (map JString holidays)]}).
Definition q_SetTenantCore (core : json) (id : uuid) : DStmt Z := update_tenant id (fun _ t => with_settings t {["core" := core]}).

(** ** Tenant keys *)
Definition key_is (id : uuid) (k : KeyRow) : bool := bool_decide (kr_ID k = id).
Definition key_of (id tenant : uuid) (k : KeyRow) : bool := key_is id k && bool_decide (kr_TenantID k = tenant).
Definition unrevoked (k : KeyRow) : bool := bool_decide (kr_RevokedAt k = None).
Definition unexpired (now : time) (k : KeyRow) : bool :=
  match kr_ExpiresAt k with None => true | Some e => now <? e end.

Definition q_InsertTenantKey (id tenant : uuid) (hash prefix label : string) (expires : option time) : DStmt unit := fun now d =>
  match to_text label with
  | Err e => (Err e, d)
  | Ok _ =>
      if existsb (key_is id) (dir_keys d) then (Err (unique_violation "tenant_keys_pkey"), d)
      else if existsb (fun k => bool_decide (kr_KeyHash k = hash)) (dir_keys d) then (Err (unique_violation "tenant_keys_key_hash_key"), d)
      else if negb (existsb (tenant_is tenant) (dir_tenants d)) then (Err (foreign_key_violation "tenant_keys_tenant_id_fkey"), d)
      else (Ok tt, put_keys (dir_keys d ++ [mkKeyRow id tenant hash prefix label (timestamptz now) None (timestamptz <$> expires) None]) d)
  end.
Definition live_row (now : time) (d : Directory) (k : KeyRow) : bool :=
  existsb (fun t => tenant_is (kr_TenantID k) t && enabled t) (dir_tenants d) && unrevoked k && unexpired now k.
Definition q_GetTenantByTenantKeyHash (hash : string) : DStmt KeyRow :=
  select_one (fun now d => List.filter (fun k => bool_decide (kr_KeyHash k = hash) && live_row now d k) (dir_keys d)).
Definition touched_at (now : time) (k : KeyRow) : KeyRow :=
  mkKeyRow (kr_ID k) (kr_TenantID k) (kr_KeyHash k) (kr_Prefix k) (kr_Label k) (kr_CreatedAt k) (Some (timestamptz now))
    (kr_ExpiresAt k) (kr_RevokedAt k).
Definition revoked_at (now : time) (k : KeyRow) : KeyRow :=
  mkKeyRow (kr_ID k) (kr_TenantID k) (kr_KeyHash k) (kr_Prefix k) (kr_Label k) (kr_CreatedAt k) (kr_LastUsedAt k)
    (kr_ExpiresAt k) (Some (timestamptz now)).
Definition update_keys (p : KeyRow -> bool) (f : time -> KeyRow -> KeyRow) : DStmt Z := fun now d =>
  let '(rows, n) := update_where p (f now) (dir_keys d) in (Ok n, put_keys rows d).
Definition q_TouchTenantKey (id : uuid) : DStmt Z := update_keys (key_is id) touched_at.
Definition q_RevokeTenantKey (id : uuid) : DStmt Z := update_keys (fun k => key_is id k && unrevoked k) revoked_at.
Definition q_RevokeTenantKeyForTenant (id tenant : uuid) : DStmt Z :=
  update_keys (fun k => key_of id tenant k && unrevoked k) revoked_at.
Definition q_GetTenantKeyForTenant (id tenant : uuid) : DStmt KeyRow :=
  select_one (fun _ d => List.filter (key_of id tenant) (dir_keys d)).
Definition by_creation : list KeyRow -> list KeyRow := order_by (fun a b => kr_CreatedAt a <? kr_CreatedAt b).
Definition q_ListTenantKeysByTenant (tenant : uuid) : DStmt (list KeyRow) :=
  select (fun d => by_creation (List.filter (fun k => bool_decide (kr_TenantID k = tenant)) (dir_keys d))).
Definition q_ListTenantKeys : DStmt (list KeyRow) := select (fun d => by_creation (dir_keys d)).
Definition q_FindTenantKeyByHash (hash : string) : DStmt KeyRow :=
  select_one (fun _ d => List.filter (fun k => bool_decide (kr_KeyHash k = hash)) (dir_keys d)).
Definition q_FindTenantKeysByPrefix (prefix : string) : DStmt (list KeyRow) :=
  select (fun d => List.filter (fun k => bool_decide (kr_Prefix k = prefix)) (dir_keys d)).

(** ** Web sessions *)
Definition q_PutWebSession (id : uuid) (tenant : option uuid) (ciphertext : string) (expires : time)
    (subject sid : option string) : DStmt unit := fun _ d =>
  match to_text (default "" subject), to_text (default "" sid) with
  | Err e, _ | Ok _, Err e => (Err e, d)
  | Ok _, Ok _ =>
      if match tenant with Some t => negb (existsb (tenant_is t) (dir_tenants d)) | None => false end
      then (Err (foreign_key_violation "web_sessions_tenant_id_fkey"), d)
      else (Ok tt, put_sessions (<[id := mkSessionRow tenant ciphertext (timestamptz expires) subject sid]> (dir_sessions d)) d)
  end.
(** The columns it reads: tenant, ciphertext and expiry. *)
Definition q_GetWebSession (id : uuid) : DStmt (option uuid * string * time) :=
  select_one (fun now d =>
    match dir_sessions d !! id with
    | Some s => if now <? sw_ExpiresAt s then [(sw_TenantID s, sw_Ciphertext s, sw_ExpiresAt s)] else []
    | None => []
    end).
Definition delete_sessions (p : uuid -> SessionRow -> bool) : time -> Directory -> sql Z * Directory := fun _ d =>
  let gone := filter (fun kv => Is_true (p kv.1 kv.2)) (dir_sessions d) in
  (Ok (Z.of_nat (size gone)), put_sessions (filter (fun kv => ~ Is_true (p kv.1 kv.2)) (dir_sessions d)) d).
Definition q_DeleteWebSession (id : uuid) : DStmt Z := delete_sessions (fun k _ => bool_decide (k = id)).
Definition q_DeleteWebSessionsBySid (sid : string) : DStmt Z := delete_sessions (fun _ s => bool_decide (sw_Sid s = Some sid)).
Definition q_DeleteWebSessionsBySubject (tenant : uuid) (subject : string) : DStmt Z :=
  delete_sessions (fun _ s => bool_decide (sw_TenantID s = Some tenant) && bool_decide (sw_Subject s = Some subject)).
Definition q_DeleteWebSessionsByTenant (tenant : uuid) : DStmt Z := delete_sessions (fun _ s => bool_decide (sw_TenantID s = Some tenant)).
Definition q_PurgeWebSessions : DStmt Z := fun now => delete_sessions (fun _ s => sw_ExpiresAt s <? now) now.
End directory.
Arguments TenantEntry {UU}.
Arguments KeyRow {UU}.
Arguments SessionRow {UU}.
Arguments Directory {UU}.
Arguments mkDirectory {UU}.
