(* ===== verification/PgMirror.v ===== *)
(** * PgMirror: when the database and the in-memory store hold the same thing. *)
From S2P Require Import Prelude Errs GoTime GoJson Ext Types Regimes Lifecycle Deadlines Ledger Questionnaire Risk Notice Access Store Sql PgStore.

(** ** Lists *)
Lemma filter_map {A B} (f : A -> B) (p : B -> bool) (l : list A) : List.filter p (map f l) = map f (List.filter (fun a => p (f a)) l).
Proof. induction l as [|a l IH]; [done|]. cbn. destruct (p (f a)); cbn; by rewrite IH. Qed.
Lemma filter_ext_in {A} (p q : A -> bool) (l : list A) : Forall (fun a => p a = q a) l -> List.filter p l = List.filter q l.
Proof. induction 1 as [|a l H _ IH]; [done|]. cbn. rewrite H. destruct (q a); by rewrite IH. Qed.
Lemma order_insert_map {A B} (f : A -> B) before before' a l : (forall a b, before (f a) (f b) = before' a b) ->
  order_insert before (f a) (map f l) = map f (order_insert before' a l).
Proof. intros H. induction l as [|b l IH]; [done|]. cbn. rewrite H. destruct (before' a b); [done|]. cbn. by rewrite IH. Qed.
Lemma order_by_map {A B} (f : A -> B) before before' l : (forall a b, before (f a) (f b) = before' a b) ->
  order_by before (map f l) = map f (order_by before' l).
Proof.
  intros H. unfold order_by. change (@nil B) with (map f []). generalize (@nil A) as acc.
  induction l as [|a l IH]; intros acc; [done|]. cbn. by rewrite (order_insert_map _ _ before'), IH.
Qed.

(** The earliest of a list by a strict order is the head of its sort. *)
Lemma first_due_next l : first_due l = next_deadline l.
Proof.
  unfold first_due, next_deadline, order_by. set (bf := fun a b : Deadline => DlDueAt a <? DlDueAt b).
  set (step := fun (cur : option Deadline) (d : Deadline) => _).
  assert (Hhead : forall a acc, head (order_insert bf a acc) = match head acc with Some c => if bf a c then Some a else Some c | None => Some a end).
  { intros a [|c acc]; [done|]. cbn. by destruct (bf a c). }
  assert (H : forall acc, head (foldl (fun l a => order_insert bf a l) acc (List.filter Open l)) = foldl step (head acc) l).
  { induction l as [|d l IH]; intros acc; [done|]. cbn. destruct (Open d) eqn:E; cbn.
    - rewrite IH, Hhead. f_equal. unfold step. rewrite E. cbn. by destruct (head acc).
    - rewrite IH. f_equal. unfold step. by rewrite E. }
  apply (H []).
Qed.

(** Folding a map over the distinct keys of a list. *)
Lemma fold_keys {K A} `{Countable K} (f : K -> option A) (ids : list K) :
  foldl (fun out r => <[(r : K * A).1 := r.2]> out) ∅ (omap (fun id => pair id <$> f id) (remove_dups ids)) =
  foldl (fun out id => match f id with Some a => <[id := a]> out | None => out end) (∅ : gmap K A) ids.
Proof.
  assert (H1 : forall l (acc : gmap K A) k, foldl (fun out r => <[(r : K * A).1 := r.2]> out) acc (omap (fun id => pair id <$> f id) l) !! k =
    if bool_decide (k ∈ l) then match f k with Some a => Some a | None => acc !! k end else acc !! k).
  { induction l as [|i l IH]; intros acc k; [done|]. cbn [omap list_omap]. rewrite (bool_decide_ext (k ∈ i :: l) (k = i \/ k ∈ l)) by apply elem_of_cons.
    destruct (f i) as [a|] eqn:E; cbn [fmap option_fmap option_map foldl]; rewrite IH; cbn [fst snd].
    - destruct (decide (k = i)) as [->|Hk].
      + rewrite (bool_decide_true (i = i \/ i ∈ l)) by (by left). rewrite E, lookup_insert_eq. by destruct (bool_decide _).
      + rewrite lookup_insert_ne by done. by rewrite (bool_decide_ext (k = i \/ k ∈ l) (k ∈ l)) by naive_solver.
    - destruct (decide (k = i)) as [->|Hk]; [|by rewrite (bool_decide_ext (k = i \/ k ∈ l) (k ∈ l)) by naive_solver].
      rewrite E. by destruct (bool_decide (i ∈ l)), (bool_decide (i = i \/ i ∈ l)). }
  assert (H2 : forall l (acc : gmap K A) k, foldl (fun out id => match f id with Some a => <[id := a]> out | None => out end) acc l !! k =
    if bool_decide (k ∈ l) then match f k with Some a => Some a | None => acc !! k end else acc !! k).
  { induction l as [|i l IH]; intros acc k; [done|]. cbn [foldl]. rewrite IH. rewrite (bool_decide_ext (k ∈ i :: l) (k = i \/ k ∈ l)) by apply elem_of_cons.
    destruct (f i) as [a|] eqn:E.
    - destruct (decide (k = i)) as [->|Hk].
      + rewrite (bool_decide_true (i = i \/ i ∈ l)) by (by left). rewrite E, lookup_insert_eq. by destruct (bool_decide _).
      + rewrite lookup_insert_ne by done. by rewrite (bool_decide_ext (k = i \/ k ∈ l) (k ∈ l)) by naive_solver.
    - destruct (decide (k = i)) as [->|Hk]; [|by rewrite (bool_decide_ext (k = i \/ k ∈ l) (k ∈ l)) by naive_solver].
      rewrite E. by destruct (bool_decide (i ∈ l)), (bool_decide (i = i \/ i ∈ l)). }
  apply map_eq. intros k. rewrite H1, H2. by rewrite (bool_decide_ext (k ∈ remove_dups ids) (k ∈ ids)) by apply elem_of_remove_dups.
Qed.

(** ** Stored-response keys *)
Lemma split_nul a a' b b' : no_nul a = true -> no_nul a' = true -> (a +:+ nul +:+ b = a' +:+ nul +:+ b')%string -> a = a' /\ b = b'.
Proof.
  revert a'. induction a as [|c a IH]; intros [|c' a'] Ha Ha' H.
  - change ("" +:+ ?x)%string with x in H. change (nul +:+ ?x)%string with (String Ascii.zero x) in H. by injection H as ->.
  - exfalso. change ("" +:+ ?x)%string with x in H. change (nul +:+ b)%string with (String Ascii.zero b) in H.
    change (String c' a' +:+ ?x)%string with (String c' (a' +:+ x)%string) in H. injection H as <- _. by cbn in Ha'.
  - exfalso. change ("" +:+ ?x)%string with x in H. change (nul +:+ b')%string with (String Ascii.zero b') in H.
    change (String c a +:+ ?x)%string with (String c (a +:+ x)%string) in H. injection H as -> _. by cbn in Ha.
  - change (String ?c ?a +:+ ?x)%string with (String c (a +:+ x)%string) in H. injection H as -> H. cbn in Ha, Ha'.
    apply andb_true_iff in Ha as [_ Ha], Ha' as [_ Ha']. by destruct (IH a' Ha Ha' H) as [-> ->].
Qed.
Lemma idempotent_key_inj `{UUIDLaws} t t' s s' k k' : no_nul s = true -> no_nul s' = true ->
  idempotent_key t s k = idempotent_key t' s' k' -> t_tenant t = t_tenant t' /\ s = s' /\ k = k'.
Proof.
  intros Hs Hs' E. unfold idempotent_key in E. apply split_nul in E as [E1 E]; [|apply uuid_String_no_nul..].
  apply split_nul in E as [-> ->]; [|done..]. split; [by apply uuid_String_inj|done].
Qed.

(** ** The correspondence *)
Section mirrors.
Context `{DC : Decimal} `{UU : UUID} {UL : UUIDLaws UU} {Body : Type}.
Context (load : string -> option Location) (t : memTx) (now : time).

Definition session : Session :=
  mkSession _ (t_tenant t) (match t_principal t with Some p => PID p | None => "" end)
    (match t_principal t with Some p => PrincipalKind_string (PrKind p) | None => "" end) now.

(** The rows of a dispute in a table, visible or not. *)
Definition children {A} (id : uuid) (rows : list (Child A)) : list A :=
  map ch_row (List.filter (fun r => bool_decide (ch_DisputeID r = id)) rows).
(** What the port's readers are never told, or not by every method. *)
Definition hide_transaction (r : TransactionRecord) : TransactionRecord :=
  mkTransactionRecord (tr_ID r) uuid_Nil (tr_AccountID r) (tr_Rail r) (tr_Amount r) (tr_Currency r) (tr_AccountCurrency r) (tr_AccountOpenedAt r)
    (tr_Merchant r) (tr_MCC r) (tr_OccurredAt r).
Definition hide_notice (n : NoticeRecord) : NoticeRecord :=
  mkNoticeRecord (nr_ID n) uuid_Nil (nr_DisputeID n) (nr_Seq n) (nr_Kind n) (nr_Channel n) (nr_Recipient n) (nr_Subject n) (nr_Document n)
    (nr_CreatedAt n) (nr_SentAt n) (nr_Attempts n) (nr_LastError n) (nr_Actor n) (nr_ResendOf n) "".
Definition notice_here (r : Child NoticeRow) : NoticeRecord := noticeOf (ch_DisputeID r) (ch_row r).

(** Every row of such a table carries the tenant of its dispute, and keys are the ids of rows. *)
Definition tenanted {A} (db : DB Body) (r : Child A) : Prop :=
  exists d, db_disputes db !! ch_DisputeID r = Some d /\ dr_TenantID d = ch_TenantID r.
Record well_tenanted (db : DB Body) : Prop := {
  wt_disputes : forall id d, db_disputes db !! id = Some d -> dr_ID d = id;
  wt_events : Forall (tenanted db) (db_events db);
  wt_deadlines : Forall (tenanted db) (db_deadlines db);
  wt_ledger : Forall (tenanted db) (db_ledger db);
  wt_notices : Forall (tenanted db) (db_notices db);
  wt_risk : Forall (tenanted db) (db_risk db);
  wt_questionnaires : forall id r, db_questionnaires db !! id = Some r -> ch_DisputeID r = id /\ tenanted db r;
  wt_attachments : forall id f, db_attachments db !! id = Some f ->
    exists d, db_disputes db !! at_DisputeID f.2 = Some d /\ dr_TenantID d = f.1
}.

(** The reference data the port only reads. *)
Record reference_data (db : DB Body) (m : MemStore Body) : Prop := {
  rd_transactions : forall id,
    match GetTransaction t id m with Ok r => Some (hide_transaction r) | Err _ => None end =
    match (q_GetTransaction session id db).1 with Ok row => Some (transaction_of id row) | Err _ => None end;
  rd_accounts : forall id a, (q_GetAccount session id db).1 = Ok a -> mAccounts m !! id = Some (account_of id a);
  rd_tenant : exists row, db_tenants db !! t_tenant t = Some row /\ mNames m !! t_tenant t = Some (tw_Name row) /\
    mCores m !! t_tenant t = Some (mkCoreConfig (match tw_Core row with Some c => default "" c.1 | None => "" end)
                                                (match tw_Core row with Some c => c.2 | None => RawJSON (JObject []) end)) /\
    exists cal, NewCalendar load (default "" (tw_Timezone row)) (default [] (tw_Holidays row)) = Ok cal /\ mCalendars m !! t_tenant t = Some cal;
  rd_access : exists members, mAccessData m !! t_tenant t = Some (let a := access_of (access_row session db "") in
      mkMemAccess (AVersion a) (ATeams a) (ADefaultTeam a) (AGrants a) (ARouting a) members) /\
    (forall s, s <> "" -> default [] (members !! s) = cw_Members (access_row session db s)) /\ cw_Members (access_row session db "") = []
}.

Record mirrors (db : DB Body) (m : MemStore Body) : Prop := {
  mi_disputes : mDisputes m = db_disputes db;
  mi_events : forall id, at_key (mEvents m) id = map event_of (children id (db_events db));
  mi_idempotency : forall tenant scope key, no_nul scope = true -> no_nul key = true ->
    mIdempotent m !! idempotent_key (mkMemTx tenant None) scope key = db_idempotency db !! (tenant, scope, key);
  mi_deadlines : forall id, at_key (mDeadlines m) id = children id (db_deadlines db);
  mi_ledger : forall id, map ledger_row (at_key (mLedger m) id) = children id (db_ledger db);
  mi_questions : forall id, mQuestions m !! id = (fun r => questionnaire_of (ch_row r)) <$> db_questionnaires db !! id;
  mi_notices : map hide_notice (mNotices m) = map notice_here (db_notices db);
  mi_notice_seq : mnextNotice m = db_notice_seq db;
  mi_risk : forall id, at_key (mRisk m) id = map risk_of (children id (db_risk db));
  mi_attachments : mAttachments m = snd <$> db_attachments db;
  mi_templates : mTemplates m = db_templates db;
  mi_logo : forall id, match db_metadata db !! id with
    | Some r => exists logo ct at_, mw_Logo r = Some logo /\ mw_LogoContentType r = Some ct /\ mw_LogoUpdatedAt r = Some at_ /\ logo <> "" /\
                  mTenantLogos m !! id = Some (mkImage logo ct) /\ mTenantLogoAt m !! id = Some at_
    | None => mTenantLogos m !! id = None
    end;
  mi_profiles : mAvatars m = db_profiles db;
  mi_reference : reference_data db m;
  mi_tenanted : well_tenanted db
}.

(** ** Visibility *)
(** An analyst has a subject. *)
Definition named : Prop := match t_principal t with Some p => PrKind p = Analyst -> PID p <> "" | None => True end.

Lemma existsb_perm {A} (p : A -> bool) l l' : l ≡ₚ l' -> existsb p l = existsb p l'.
Proof. intros H. apply eq_true_iff_eq. rewrite !existsb_exists. split; intros (a & Ha & Hp); exists a; (split; [|done]); apply list_elem_of_In; apply list_elem_of_In in Ha; by rewrite H in *||rewrite <- H in *. Qed.
Lemma in_team_members (db : DB Body) team : t_principal t <> None -> (forall p, t_principal t = Some p -> PrKind p = Analyst /\ PID p <> "") ->
  in_team session db (t_tenant t) team =
  existsb (fun mem => bool_decide (MTeam mem = team)) (cw_Members (access_row session db (ss_subject session))).
Proof.
  intros Hn Hp. unfold in_team. destruct (t_principal t) as [p|] eqn:E; [|done]. destruct (Hp p eq_refl) as [Hk Hi]. cbn. rewrite E, Hk. cbn.
  rewrite (bool_decide_false ("analyst" = "key"%string)), (bool_decide_false (PID p = "")) by done. cbn. rewrite (existsb_perm _ _ _ (sort_Slice_perm _ _)).
  unfold mine. cbn. induction (db_members db) as [|r l IH]; [done|]. cbn. rewrite IH.
  destruct (bool_decide (bw_TenantID r = t_tenant t)), (bool_decide (bw_Subject r = PID p)); cbn; rewrite ?andb_true_r, ?andb_false_r; done.
Qed.

Lemma sees_visible db m d : mirrors db m -> named -> dr_TenantID d = t_tenant t -> sees session db d = visible t m d.
Proof.
  intros Hm Hn Ht. unfold sees. rewrite Ht. rewrite bool_decide_true by done. cbn [andb]. unfold visible, tx_members.
  destruct (rd_access _ _ (mi_reference _ _ Hm)) as (members & Ha & Hs & _). unfold named in Hn.
  destruct (t_principal t) as [p|] eqn:E.
  - destruct (PrKind p) eqn:Ek.
    + rewrite in_team_members by (rewrite ?E; try done; intros p' [= <-]; auto). unfold GetAccess. rewrite Ha. cbn. rewrite Ek, E. cbn.
      rewrite Hs by auto. by destruct p; cbn in Ek; subst.
    + unfold in_team. cbn. rewrite E, Ek. cbn. by destruct p; cbn in Ek; subst.
  - unfold in_team. cbn. rewrite E. cbn. done.
Qed.

Lemma GetDispute_mirror db m id : mirrors db m -> named ->
  GetDispute t id m = match (q_GetDispute session id db).1 with Ok d => Ok d | Err _ => fail ErrNotFound end.
Proof.
  intros Hm Hn. unfold GetDispute, q_GetDispute, select. cbn. rewrite (mi_disputes _ _ Hm). destruct (db_disputes db !! id) as [d|]; cbn; [|done].
  destruct (decide (dr_TenantID d = t_tenant t)) as [Ht|Ht].
  - rewrite bool_decide_true by done. rewrite (sees_visible db m) by done. cbn. by destruct (visible t m d).
  - unfold sees. cbn. by rewrite bool_decide_false by done.
Qed.
Lemma sees_id_some (db : DB Body) id : sees_id session db id = true -> exists d, db_disputes db !! id = Some d /\ sees session db d = true /\ dr_TenantID d = t_tenant t.
Proof.
  unfold sees_id. destruct (db_disputes db !! id) as [d|]; [|done]. intros H. exists d. split_and!; [done|done|].
  unfold sees in H. apply andb_true_iff in H as [H _]. by to_prop.
Qed.
Lemma seen_dispute db m id : mirrors db m -> named -> sees_id session db id = true -> exists d, GetDispute t id m = Ok d.
Proof.
  intros Hm Hn Hs. apply sees_id_some in Hs as (d & Hd & Hs & _). exists d. rewrite (GetDispute_mirror db) by done.
  unfold q_GetDispute, select. cbn. rewrite Hd. cbn. by rewrite Hs.
Qed.

(** What a session that sees a dispute reads of its rows is all of them. *)
Lemma of_dispute_seen {A} (db : DB Body) id (rows : list (Child A)) : sees_id session db id = true -> Forall (tenanted db) rows ->
  of_dispute session db id rows = children id rows.
Proof.
  intros Hs Hw. unfold of_dispute, children. f_equal. apply filter_ext_in. eapply list.Forall_impl; [exact Hw|]. intros r (d & Hd & Ht). cbn.
  destruct (bool_decide (ch_DisputeID r = id)) eqn:E; [|by rewrite andb_false_r]. to_prop. subst id. rewrite andb_true_r.
  unfold readable. rewrite Hs, andb_true_r. apply sees_id_some in Hs as (d' & Hd' & _ & Ht'). apply bool_decide_true. cbn. congruence.
Qed.
Lemma children_own {A} id (rows : list (Child A)) (a : A) j :
  children j (rows ++ [own session id a]) = if bool_decide (id = j) then children j rows ++ [a] else children j rows.
Proof. unfold children. rewrite List.filter_app, map_app. cbn. destruct (bool_decide (id = j)); cbn; [done|by rewrite app_nil_r]. Qed.
Lemma tenanted_own {A} (db : DB Body) id (a : A) : sees_id session db id = true -> tenanted db (own session id a).
Proof. intros Hs. apply sees_id_some in Hs as (d & Hd & _ & Ht). by exists d. Qed.
End mirrors.

(** ** Changing one table *)
Section steps.
Context `{DC : Decimal} `{UU : UUID} {UL : UUIDLaws UU} {Body : Type}.
Context (load : string -> option Location) (t : memTx) (now : time).
Abbreviation mirrored := (mirrors (Body := Body) load t now).

Ltac keep :=
  let H := fresh in intros [? ? ? ? ? ? ? ? ? ? ? ? ? H [? ? ? ? ? ? ? ?]]; intros;
  split; cbn [set_Disputes set_Events set_Idempotent set_Deadlines set_Ledger set_Questions set_Notices set_nextNotice set_Risk set_Attachments
              set_Templates set_TenantLogos set_TenantLogoAt set_Avatars mDisputes mEvents mIdempotent mDeadlines mLedger mQuestions mNotices
              mRisk mAttachments mTemplates mTenantLogos mTenantLogoAt mAvatars mnextNotice
              put_disputes put_events put_idempotency put_deadlines put_ledger put_questionnaires put_notices put_notice_seq put_risk
              put_attachments put_templates put_metadata put_profiles db_disputes db_events db_idempotency db_deadlines db_ledger
              db_questionnaires db_notices db_notice_seq db_risk db_attachments db_templates db_metadata db_profiles];
  try assumption; try (destruct H; split; assumption); try (split; assumption).

Lemma put_events_mirrors db m rows E : mirrored db m -> (forall id, at_key E id = map event_of (children id rows)) ->
  Forall (tenanted db) rows -> mirrored (put_events rows db) (set_Events E m).
Proof. keep. Qed.
Lemma put_deadlines_mirrors db m rows E : mirrored db m -> (forall id, at_key E id = children id rows) ->
  Forall (tenanted db) rows -> mirrored (put_deadlines rows db) (set_Deadlines E m).
Proof. keep. Qed.
(** A dispute without clocks, and one with an empty list of them. *)
Lemma no_clocks_mirrors db m E : (forall id, at_key E id = at_key (mDeadlines m) id) -> mirrored db m <-> mirrored db (set_Deadlines E m).
Proof.
  intros HE. split.
  - keep. intros id. rewrite HE. auto.
  - intros [? ? ? Hd ? ? ? ? ? ? ? ? ? [? ? ? ?] ?]. split; try assumption; [|by split]. intros id. rewrite <- HE. apply Hd.
Qed.
Lemma put_ledger_mirrors db m rows E : mirrored db m -> (forall id, map ledger_row (at_key E id) = children id rows) ->
  Forall (tenanted db) rows -> mirrored (put_ledger rows db) (set_Ledger E m).
Proof. keep. Qed.
Lemma put_risk_mirrors db m rows E : mirrored db m -> (forall id, at_key E id = map risk_of (children id rows)) ->
  Forall (tenanted db) rows -> mirrored (put_risk rows db) (set_Risk E m).
Proof. keep. Qed.
Lemma put_questionnaires_mirrors db m rows E : mirrored db m ->
  (forall id, E !! id = (fun r => questionnaire_of (ch_row r)) <$> rows !! id) ->
  (forall id r, rows !! id = Some r -> ch_DisputeID r = id /\ tenanted db r) -> mirrored (put_questionnaires rows db) (set_Questions E m).
Proof. keep. Qed.
Lemma put_notices_mirrors db m rows E n : mirrored db m -> map hide_notice E = map notice_here rows -> Forall (tenanted db) rows ->
  mirrored (put_notices rows (put_notice_seq n db)) (set_Notices E (set_nextNotice n m)).
Proof. keep; done. Qed.
Lemma put_attachments_mirrors db m rows : mirrored db m ->
  (forall id f, rows !! id = Some f -> exists d, db_disputes db !! at_DisputeID f.2 = Some d /\ dr_TenantID d = f.1) ->
  mirrored (put_attachments rows db) (set_Attachments (snd <$> rows) m).
Proof. keep; done. Qed.
Lemma put_templates_mirrors db m rows : mirrored db m -> mirrored (put_templates rows db) (set_Templates rows m).
Proof. keep; done. Qed.
Lemma put_profiles_mirrors db m rows : mirrored db m -> mirrored (put_profiles rows db) (set_Avatars rows m).
Proof. keep; done. Qed.
Lemma put_idempotency_mirrors db m tenant scope key r : mirrored db m -> no_nul scope = true -> no_nul key = true ->
  mirrored (put_idempotency (<[(tenant, scope, key) := r]> (db_idempotency db)) db)
    (set_Idempotent (<[idempotent_key (mkMemTx tenant None) scope key := r]> (mIdempotent m)) m).
Proof.
  intros Hm Hs Hk. pose proof (mi_idempotency _ _ _ _ _ Hm) as Hi. revert Hm. keep. intros tn s k Hs' Hk'.
  destruct (decide ((tenant, scope, key) = (tn, s, k))) as [[= <- <- <-]|Hne].
  - by rewrite !lookup_insert_eq.
  - rewrite (lookup_insert_ne (db_idempotency db)) by done. rewrite lookup_insert_ne; [by apply Hi|].
    intros E. apply idempotent_key_inj in E as (E1 & -> & ->); [|done..]. cbn in E1. by subst.
Qed.
Lemma put_logo_mirrors db m img at_ : mirrored db m -> im_Content img <> "" ->
  mirrored (put_metadata (<[t_tenant t := mkMetadataRow (Some (im_Content img)) (Some (im_ContentType img)) (Some at_)]> (db_metadata db)) db)
    (set_TenantLogoAt (<[t_tenant t := at_]> (mTenantLogoAt m)) (set_TenantLogos (<[t_tenant t := img]> (mTenantLogos m)) m)).
Proof.
  intros Hm Hne. pose proof (mi_logo _ _ _ _ _ Hm) as Hl. revert Hm. keep. intros id. destruct (decide (t_tenant t = id)) as [<-|Hid].
  - rewrite !lookup_insert_eq. exists (im_Content img), (im_ContentType img), at_. split_and!; try done. by destruct img.
  - rewrite !lookup_insert_ne by done. apply Hl.
Qed.

(** A dispute written keeps the rows of its tables tenanted when it is new, or keeps its tenant. *)
Lemma tenanted_insert {A} (db : DB Body) (r : Child A) id d : (forall d0, db_disputes db !! id = Some d0 -> dr_TenantID d0 = dr_TenantID d) ->
  tenanted db r -> tenanted (put_disputes (<[id := d]> (db_disputes db)) db) r.
Proof.
  intros H (d0 & Hd & Ht). unfold tenanted. cbn. destruct (decide (id = ch_DisputeID r)) as [->|Hne].
  - exists d. rewrite lookup_insert_eq. split; [done|]. rewrite <- Ht. symmetry. by apply H.
  - exists d0. by rewrite lookup_insert_ne.
Qed.
Lemma put_dispute_mirrors db m id d : mirrored db m -> dr_ID d = id -> (forall d0, db_disputes db !! id = Some d0 -> dr_TenantID d0 = dr_TenantID d) ->
  mirrored (put_disputes (<[id := d]> (db_disputes db)) db) (set_Disputes (<[id := d]> (mDisputes m)) m).
Proof.
  intros Hm Hid Hd. pose proof (mi_tenanted _ _ _ _ _ Hm) as [H0 H1 H2 H3 H4 H5 H6 H7]. pose proof (mi_disputes _ _ _ _ _ Hm) as Hdis. revert Hm. keep.
  - by rewrite Hdis.
  - split; cbn [put_disputes db_events db_deadlines db_ledger db_notices db_risk db_questionnaires db_attachments];
      try (eapply list.Forall_impl; [eassumption|]; intros r Hr; by apply tenanted_insert).
    + intros j e. cbn. destruct (decide (id = j)) as [->|Hne]; [rewrite lookup_insert_eq; by intros [= <-]|rewrite lookup_insert_ne by done; apply H0].
    + intros j r Hr. destruct (H6 _ _ Hr) as [Hj Ht]. split; [done|]. by apply tenanted_insert.
    + intros j f Hf. destruct (H7 _ _ Hf) as (d0 & Hd0 & Ht). cbn. destruct (decide (id = at_DisputeID f.2)) as [->|Hne].
      * exists d. rewrite lookup_insert_eq. split; [done|]. rewrite <- Ht. symmetry. by apply Hd.
      * exists d0. by rewrite lookup_insert_ne.
Qed.
End steps.
