(* ===== verification/Auth.v ===== *)
(** * Auth: which tenant a request acts for ([platform/auth]).

    Parameters, because they are other people's code: the lookup of a key's hash in the database, the lookup of a
    token's issuer, the JSON a text is, discovery of an issuer's keys, and verification of a token. SHA-256 is the run time's. *)
From S2P Require Import Prelude Errs GoTime GoJson Ext Types Access Text Http Store Wire Tx.

Definition ErrUnauthenticated : Error := sentinel Unauthorized "unauthenticated" "a valid tenant key is required".
Definition ErrAuthForbidden : Error := sentinel Forbidden "forbidden" "this credential may not perform this operation".
Definition RoleTenantAdmin : string := "tenant-admin".
Definition PrefixLen : nat := 12.
(** [Prefix]. *)
Definition key_prefix (key : string) : string := String.substring 0 PrefixLen key.

Section auth.
Context `{UU : UUID} {RT : Runtime}.

Record KeyIdentity : Type := mkKeyIdentity { ki_Tenant : uuid; ki_ID : uuid; ki_Prefix : string }.
Definition Resolver : Type := string -> M KeyIdentity.
Definition HashKey (key : string) : string := sha256 key.

(** [auth.Principal]: what an analyst's token resolves to. *)
Record Analyst_ : Type := mkAnalyst {
  an_Tenant : uuid;
  an_Subject : string;
  an_Sid : string;
  an_Email : string;
  an_Name : string;
  an_FirstName : string;
  an_LastName : string;
  an_Roles : list string
}.
Definition HasRole (p : Analyst_) (role : string) : bool := slices_contains (an_Roles p) role.

(** The values the middleware puts into a request's context: the use cases' part of it, the outcome [Bearer]
    recorded, the analyst, the service mark, and the id of the request. *)
Record Values : Type := mkValues {
  v_ctx : Ctx;
  v_auth : option error;
  v_analyst : option Analyst_;
  v_service : bool;
  v_request_id : string
}.
Definition v_with_ctx (v : Values) (c : Ctx) : Values := mkValues c (v_auth v) (v_analyst v) (v_service v) (v_request_id v).
Definition v_with_auth (v : Values) (e : error) : Values := mkValues (v_ctx v) (Some e) (v_analyst v) (v_service v) (v_request_id v).
Definition v_as_service (v : Values) : Values := mkValues (v_ctx v) (v_auth v) (v_analyst v) true (v_request_id v).

Definition analyst_principal (p : Analyst_) : Principal :=
  mkPrincipal Analyst (an_Subject p) (if bool_decide (an_Email p = "") then an_Subject p else an_Email p) (HasRole p RoleTenantAdmin).
Definition WithPrincipal (v : Values) (p : Analyst_) : Values :=
  mkValues (WithID (With (v_ctx v) (analyst_principal p)) (an_Tenant p)) (v_auth v) (Some p) (v_service v) (v_request_id v).
Definition PrincipalFrom (v : Values) : option Analyst_ := v_analyst v.

(** ** Tokens *)
Record Claims : Type := mkClaims {
  cl_TenantID : string; cl_Sid : string; cl_Email : string; cl_Name : string; cl_FirstName : string; cl_LastName : string;
  cl_Roles : list string
}.
Record Token : Type := mkToken { tok_Subject : string; tok_Claims : option Claims }.

(** What the OIDC verifier is built on. *)
Record Issuers : Type := mkIssuers {
  TenantForIssuer : string -> M uuid;
  json_text : string -> RawMessage;             (* bytes as a JSON text, or not *)
  discover : string -> option string;           (* [None]: a verifier for the issuer; [Some]: why there is none *)
  verify_token : string -> string -> option Token (* issuer, token: its subject and claims, when it is genuine *)
}.
(** The issuer a token's payload names, before it is verified. *)
Definition into_iss : decoder string := into_struct [("iss", into_string)].
Definition unverifiedIssuer (o : Issuers) (raw : string) : option string :=
  match Split raw "."%char with
  | [_; payload; _] =>
      match DecodeString payload with
      | None => None
      | Some payload =>
          match Unmarshal into_iss (json_text o payload) "" with
          | None => None
          | Some iss => if bool_decide (iss = "") then None else Some iss
          end
      end
  | _ => None
  end.
(** The text of [fmt.Errorf("...: %w", errs.New(...))]. *)
Definition idp_unavailable (issuer why : string) : error :=
  Wrap (EClass (sentinel Unavailable "unavailable" "the identity provider is temporarily unavailable"))
    ("oidc discovery for " +:+ issuer +:+ ": " +:+ why).

Definition Verify (o : Issuers) (raw : string) : M Analyst_ :=
  match unverifiedIssuer o raw with
  | None => fail ErrUnauthenticated
  | Some issuer =>
      match TenantForIssuer o issuer with
      | Err err => if bool_decide (KindOf err = NotFound) then fail ErrUnauthenticated else Err err
      | Ok tenant =>
          match discover o issuer with
          | Some why => Err (idp_unavailable issuer why)
          | None =>
              match verify_token o issuer raw with
              | None => fail ErrUnauthenticated
              | Some tok =>
                  match tok_Claims tok with
                  | None => fail ErrUnauthenticated
                  | Some cl =>
                      if negb (bool_decide (cl_TenantID cl = "")) && negb (bool_decide (cl_TenantID cl = uuid_String tenant))
                      then fail ErrUnauthenticated
                      else if bool_decide (tok_Subject tok = "") then fail ErrUnauthenticated
                      else Ok (mkAnalyst tenant (tok_Subject tok) (cl_Sid cl) (cl_Email cl) (cl_Name cl) (cl_FirstName cl)
                                 (cl_LastName cl) (cl_Roles cl))
                  end
              end
          end
      end
  end.

Fixpoint count_char (s : string) (c : Ascii.ascii) : Z :=
  match s with EmptyString => 0 | String a s => (if bool_decide (a = c) then 1 else 0) + count_char s c end.
Definition LooksLikeJWT (token : string) : bool :=
  (count_char token "." =? 2) && match cut_prefix "tk_" token with Some _ => false | None => true end.

(** ** The credential of a request *)
(** [strings.TrimSpace] of what follows ["Bearer "], when anything does. *)
Definition credential (r : Req) : option string :=
  match cut_prefix "Bearer " (header r "Authorization") with
  | Some cred => let cred := TrimSpace cred in if bool_decide (cred = "") then None else Some cred
  | None => None
  end.

Definition key_principal (k : KeyIdentity) : Principal :=
  mkPrincipal Key (uuid_String (ki_ID k)) ("key:" +:+ ki_Prefix k) false.

(** The context a credential leads to, and its tenant. *)
Definition authenticate (keys : Resolver) (oidc : option Issuers) (v : Values) (cred : string) : res error (uuid * Values) :=
  if LooksLikeJWT cred then
    match oidc with
    | None => fail ErrUnauthenticated
    | Some o => match Verify o cred with Ok p => Ok (an_Tenant p, WithPrincipal v p) | Err e => Err e end
    end
  else
    match keys (HashKey cred) with
    | Ok k => Ok (ki_Tenant k, v_with_ctx v (With (v_ctx v) (key_principal k)))
    | Err e => Err e
    end.
Definition Bearer_values (keys : Resolver) (oidc : option Issuers) (v : Values) (r : Req) : Values :=
  match credential r with
  | None => v_with_auth v (EClass ErrUnauthenticated)
  | Some cred =>
      match authenticate keys oidc v cred with
      | Err err => v_with_auth v (if bool_decide (KindOf err = NotFound) then EClass ErrUnauthenticated else err)
      | Ok (id, v) => v_with_ctx v (WithID (v_ctx v) id)
      end
  end.
Definition Bearer {S} (keys : Resolver) (oidc : option Issuers) : Middleware Values S := fun next v r =>
  next (Bearer_values keys oidc v r) r.

(** [ServiceKey]: the comparison of secrets takes constant time and is otherwise equality. *)
Definition ServiceKey_values (key : string) (v : Values) (r : Req) : Values :=
  let got := header r "X-Service-Key" in
  if negb (bool_decide (key = "")) && negb (bool_decide (got = "")) && bool_decide (got = key) then v_as_service v else v.
Definition ServiceKey {S} (key : string) : Middleware Values S := fun next v r => next (ServiceKey_values key v r) r.
Definition IsService (v : Values) : bool := v_service v.

(** The validator's hook for one security scheme of an operation; [None] lets the request through. *)
Definition RequiredScheme (v : Values) (scheme : string) : option error :=
  if bool_decide (scheme = "serviceKey") then
    if IsService v then None else Some (EClass ErrUnauthenticated)
  else match IDFrom (v_ctx v) with
       | Some _ => None
       | None => match v_auth v with Some err => Some err | None => Some (EClass ErrUnauthenticated) end
       end.

(** ** Facts *)

(** A request's context as it arrives: nobody's. *)
Definition anonymous (v : Values) : Prop := IDFrom (v_ctx v) = None /\ ctx_principal (v_ctx v) = None /\ v_auth v = None.

(** What must be true of a request for it to act as a tenant. *)
Inductive proven (keys : Resolver) (oidc : option Issuers) (r : Req) : uuid -> Principal -> Prop :=
| proven_key cred k : credential r = Some cred -> LooksLikeJWT cred = false -> keys (sha256 cred) = Ok k ->
    proven keys oidc r (ki_Tenant k) (mkPrincipal Key (uuid_String (ki_ID k)) ("key:" +:+ ki_Prefix k) false)
| proven_token cred o issuer tenant tok cl :
    credential r = Some cred -> LooksLikeJWT cred = true -> oidc = Some o ->
    unverifiedIssuer o cred = Some issuer -> TenantForIssuer o issuer = Ok tenant -> verify_token o issuer cred = Some tok ->
    tok_Claims tok = Some cl -> tok_Subject tok <> "" -> (cl_TenantID cl = "" \/ cl_TenantID cl = uuid_String tenant) ->
    proven keys oidc r tenant
      (mkPrincipal Analyst (tok_Subject tok) (if bool_decide (cl_Email cl = "") then tok_Subject tok else cl_Email cl)
         (slices_contains (cl_Roles cl) RoleTenantAdmin)).

Lemma Verify_ok o raw p : Verify o raw = Ok p -> exists issuer tenant tok cl,
  unverifiedIssuer o raw = Some issuer /\ TenantForIssuer o issuer = Ok tenant /\ verify_token o issuer raw = Some tok /\
  tok_Claims tok = Some cl /\ tok_Subject tok <> "" /\ (cl_TenantID cl = "" \/ cl_TenantID cl = uuid_String tenant) /\
  p = mkAnalyst tenant (tok_Subject tok) (cl_Sid cl) (cl_Email cl) (cl_Name cl) (cl_FirstName cl) (cl_LastName cl) (cl_Roles cl).
Proof.
  unfold Verify. destruct (unverifiedIssuer o raw) as [issuer|] eqn:E1; [|done].
  destruct (TenantForIssuer o issuer) as [tenant|e] eqn:E2; [|by destruct (bool_decide _)]. destruct (discover o issuer); [done|].
  destruct (verify_token o issuer raw) as [tok|] eqn:E3; [|done]. destruct (tok_Claims tok) as [cl|] eqn:E4; [|done].
  destruct (negb _ && negb _) eqn:E5; [done|]. destruct (bool_decide (tok_Subject tok = "")) eqn:E6; [done|]. to_prop. intros [= <-].
  exists issuer, tenant, tok, cl. split_and!; try done. destruct E5 as [E5|E5]; to_prop; auto.
Qed.

Lemma authenticate_ok keys oidc v r cred id v' : anonymous v -> credential r = Some cred ->
  authenticate keys oidc v cred = Ok (id, v') ->
  exists p, proven keys oidc r id p /\ ctx_principal (v_ctx v') = Some p /\ v_auth v' = v_auth v.
Proof.
  intros (Hi & Hp & Ha) Hc H. unfold authenticate in H. destruct (LooksLikeJWT cred) eqn:Ej.
  - destruct oidc as [o|] eqn:Eo; [|done]. destruct (Verify o cred) as [p|e] eqn:Ev; [|done]. injection H as <- <-.
    apply Verify_ok in Ev as (issuer & tenant & tok & cl & H1 & H2 & H3 & H4 & H5 & H6 & ->).
    eexists. split; [by eapply (proven_token _ _ _ cred o issuer tenant tok cl)|]. done.
  - destruct (keys (HashKey cred)) as [k|e] eqn:Ek; [|done]. injection H as <- <-.
    eexists. split; [by apply (proven_key _ _ _ cred)|]. done.
Qed.

(** No request acts for a tenant without proof: an operation that needs a tenant is let through exactly when the
    request carries a live key of that tenant, or a genuine token of an issuer that is that tenant's and names the
    tenant or none and some subject; the caller the use cases see is then that key or that subject; and an unknown
    key or issuer is refused like a malformed one, so a caller cannot tell them apart. *)
Theorem Bearer_sound keys oidc v r : anonymous v ->
  let v' := Bearer_values keys oidc v r in
  (RequiredScheme v' "bearerAuth" = None <-> exists tid, IDFrom (v_ctx v') = Some tid) /\
  (forall tid, IDFrom (v_ctx v') = Some tid -> exists p, proven keys oidc r tid p /\ From_ctx (v_ctx v') = Some p) /\
  (forall err, RequiredScheme v' "bearerAuth" = Some err -> KindOf err <> NotFound) /\
  (credential r = None -> RequiredScheme v' "bearerAuth" = Some (EClass ErrUnauthenticated)).
Proof.
  intros Hv. cbv zeta. unfold RequiredScheme. rewrite bool_decide_false by done.
  split; [destruct (IDFrom (v_ctx (Bearer_values keys oidc v r))); split; try (by intros (? & [=])); [by eexists|by destruct (v_auth _)]|].
  unfold Bearer_values. destruct (credential r) as [cred|] eqn:Ec.
  2: { destruct Hv as (Hi & _). cbn. rewrite Hi. split_and!; [done|by intros err [= <-]|done]. }
  destruct (authenticate keys oidc v cred) as [[id v1]|err] eqn:Ea.
  - apply (authenticate_ok _ _ _ r) in Ea as (p & Hp & Hv1 & Hau); [|done..]. cbn. split_and!; [| |done].
    + unfold IDFrom, WithID. cbn. intros tid. destruct (decide (id = uuid_Nil)); [done|]. intros [= <-]. eauto.
    + unfold IDFrom, WithID. cbn. destruct (decide (id = uuid_Nil)); [|done]. destruct Hv as (_ & _ & Hn). rewrite Hau, Hn. by intros err [= <-].
  - destruct Hv as (Hi & _). cbn. rewrite Hi. split_and!; [done| |done]. intros e [= <-]. by case_bool_decide.
Qed.
End auth.

Module AuthExamples.
  Import NUuid.

#[export] Instance run_time : Runtime := {
  now_at n := Z.of_nat n; NewV7 n := Ok (N.of_nat n); Local := UTC; sha256 s := s; address _ := ""
}.
Definition live (hash : string) : M KeyIdentity :=
  if bool_decide (hash = "tk_live") then Ok (mkKeyIdentity 7%N 9%N "tk_live") else fail ErrNotFound.
Definition arriving : Values := mkValues (mkCtx _ None None None) None None false "r-1".
Definition with_key (key : string) : Req := bare_request "GET" "/v1/disputes" "10.0.0.1:5000" {["Authorization" := "Bearer " +:+ key]}.

Lemma Bearer_sound_witness :
  (exists p, proven live None (with_key "tk_live") 7%N p /\ From_ctx (v_ctx (Bearer_values live None arriving (with_key "tk_live"))) = Some p) /\
  RequiredScheme (Bearer_values live None arriving (with_key "tk_dead")) "bearerAuth" = Some (EClass ErrUnauthenticated).
Proof.
  split; [|vm_compute; reflexivity].
  destruct (Bearer_sound live None arriving (with_key "tk_live")) as (_ & H & _); [by split_and!|].
  apply H. vm_compute. reflexivity.
Defined.

(** A token's second part, decoded, and what is not a token. *)
Definition realm : Issuers := mkIssuers (fun _ => Ok 7%N)
  (fun b => if bool_decide (b = "{" +:+ quoted "iss" +:+ ":" +:+ quoted "https://id/otp" +:+ "}") then RawJSON (JObject [("iss", JString "https://id/otp")]) else RawInvalid b)
  (fun _ => None) (fun _ _ => None).
Example issuers_read : map (unverifiedIssuer realm) ["h.eyJpc3MiOiJodHRwczovL2lkL290cCJ9.s"; "h.eyJpc3Mi.s"; "h.!.s"; "h.s"] =
  [Some "https://id/otp"; None; None; None].
Proof. vm_compute. reflexivity. Qed.
End AuthExamples.
