(* ===== verification/Keys.v ===== *)
(** * Keys: tenant keys ([infrastructure/postgres/keys.go], [cmd/tenantkey]), and the tenants an operator manages
    ([cmd/tenant]).

    The process keeps the database, the times it last recorded the use of a key, and the writes of such times it has
    started and not yet finished: those run beside the requests and may fail unseen. Every query is a statement of
    its own; [fault] is what befalls the n-th, [db_now] the database's clock at it, [rand_Read] the n-th draw of
    random bytes. A command of [cmd/tenantkey] is given the flags it parsed and prints lines. *)
From Stdlib Require Import SpecFloat.
From S2P Require Import Prelude Errs GoTime GoJson Ext Types Text Store Wire Tx Sql PgStore Directory Auth Deadlines Risk.

Definition touchEvery : Z := Minute.

Section keys.
Context `{UU : UUID} {RT : Runtime} {CO : Collation}.
Context (fault : nat -> option driver_error) (db_now : nat -> time) (rand_Read : nat -> M string).

Record KeyWorld : Type := mkKeyWorld {
  kw_dir : Directory;
  kw_touched : gmap uuid time;
  kw_pending : list uuid;
  kw_statements : nat;
  kw_ticks : nat;
  kw_ids : nat;
  kw_draws : nat
}.
Definition K (A : Type) : Type := KeyWorld -> M A * KeyWorld.
#[export] Instance K_ret : MRet K := fun A a w => (Ok a, w).
#[export] Instance K_bind : MBind K := fun A B f p w =>
  match p w with (Ok a, w) => f a w | (Err e, w) => (Err e, w) end.
Definition k_fail {A} (e : error) : K A := fun w => (Err e, w).
Definition k_lift {A} (r : M A) : K A := fun w => (r, w).
(** [fmt.Errorf] without a cause. *)
Definition errorf {A} (msg : string) : K A := k_fail (EPlain msg).

(** One statement on the pool: refused from outside, or run. *)
Definition pool {A} (q : DStmt A) (w : KeyWorld) : sql A * KeyWorld :=
  let n := kw_statements w in
  let after d := mkKeyWorld d (kw_touched w) (kw_pending w) (S n) (kw_ticks w) (kw_ids w) (kw_draws w) in
  match fault n with
  | Some e => (Err e, after (kw_dir w))
  | None => let '(r, d) := q (db_now n) (kw_dir w) in (r, after d)
  end.
(** The error as [mapErr] classifies it, and as the driver gave it. *)
Definition mapped {A} (q : DStmt A) : K A := fun w =>
  match pool q w with (Ok a, w) => (Ok a, w) | (Err e, w) => (Err (mapErr e), w) end.
Definition plain {A} (q : DStmt A) : K A := fun w =>
  match pool q w with (Ok a, w) => (Ok a, w) | (Err e, w) => (Err (unmapped e), w) end.
Definition k_now : K time := fun w =>
  (Ok (now_at (kw_ticks w)), mkKeyWorld (kw_dir w) (kw_touched w) (kw_pending w) (kw_statements w) (S (kw_ticks w)) (kw_ids w) (kw_draws w)).
Definition k_id : K uuid := fun w =>
  (NewV7 (kw_ids w), mkKeyWorld (kw_dir w) (kw_touched w) (kw_pending w) (kw_statements w) (kw_ticks w) (S (kw_ids w)) (kw_draws w)).
(** [auth.NewSecret]: 32 random bytes behind a recognisable prefix. *)
Definition NewSecret : K string := fun w =>
  ((fun b => "tk_" +:+ EncodeToString b) <$> rand_Read (kw_draws w),
   mkKeyWorld (kw_dir w) (kw_touched w) (kw_pending w) (kw_statements w) (kw_ticks w) (kw_ids w) (S (kw_draws w))).

(** ** [KeyStore] *)
(** [touch]: at most one write per key per interval, and not on the request's path. *)
Definition touch (id : uuid) : K unit := fun w =>
  let now := now_at (kw_ticks w) in
  let recent := match kw_touched w !! id with Some last => now - last <? touchEvery | None => false end in
  if recent then (Ok tt, mkKeyWorld (kw_dir w) (kw_touched w) (kw_pending w) (kw_statements w) (S (kw_ticks w)) (kw_ids w) (kw_draws w))
  else (Ok tt, mkKeyWorld (kw_dir w) (<[id := now]> (kw_touched w)) (kw_pending w ++ [id]) (kw_statements w) (S (kw_ticks w)) (kw_ids w) (kw_draws w)).
(** One of the writes under way ends, whichever way; its outcome is dropped. *)
Definition touch_done (n : nat) : K unit := fun w =>
  match kw_pending w !! n with
  | None => (Ok tt, w)
  | Some id =>
      let w := mkKeyWorld (kw_dir w) (kw_touched w) (delete n (kw_pending w)) (kw_statements w) (kw_ticks w) (kw_ids w) (kw_draws w) in
      (Ok tt, (pool (q_TouchTenantKey id) w).2)
  end.

Definition KeyForHash (hash : string) : K KeyIdentity :=
  row ← mapped (q_GetTenantByTenantKeyHash hash);
  _ ← touch (kr_ID row);
  mret (mkKeyIdentity (kr_TenantID row) (kr_ID row) (kr_Prefix row)).
Definition KeyStore_TenantForIssuer (issuer : string) : K uuid := row ← mapped (q_GetTenantByIssuer issuer); mret row.1.

Record TenantSummary : Type := mkTenantSummary {
  tsm_ID : uuid; tsm_Slug : string; tsm_Name : string; tsm_Issuer : string; tsm_EmailDomains : list string
}.
Definition ActiveTenants : K (list TenantSummary) :=
  rows ← mapped q_ListTenantsForDiscovery;
  mret (map (fun t => mkTenantSummary (te_ID t) (te_Slug t) (te_Name t) (default "" (te_OidcIssuer t)) (te_EmailDomains t)) rows).

Record KeyRecord : Type := mkKeyRecord {
  ky_ID : uuid; ky_Prefix : string; ky_Label : string; ky_CreatedAt : time;
  ky_LastUsedAt : option time; ky_ExpiresAt : option time; ky_RevokedAt : option time
}.
Definition KeyRecord_Status (r : KeyRecord) (now : time) : string :=
  match ky_RevokedAt r with
  | Some _ => "revoked"
  | None => match ky_ExpiresAt r with
            | Some e => if now <? e then "live" else "expired"
            | None => "live"
            end
  end.
Definition record_of (k : KeyRow) : KeyRecord :=
  mkKeyRecord (kr_ID k) (kr_Prefix k) (kr_Label k) (kr_CreatedAt k) (kr_LastUsedAt k) (kr_ExpiresAt k) (kr_RevokedAt k).
Definition ListForTenant (tenant : uuid) : K (list KeyRecord) :=
  rows ← mapped (q_ListTenantKeysByTenant tenant); mret (rev (map record_of rows)).
Definition getForTenant (id tenant : uuid) : K KeyRecord := row ← mapped (q_GetTenantKeyForTenant id tenant); mret (record_of row).
(** The record cannot be read back: the secret is returned beside the error, and its caller drops both. *)
Definition Issue (tenant : uuid) (label : string) (expires : option time) : K (KeyRecord * string) :=
  secret ← NewSecret;
  id ← k_id;
  _ ← mapped (q_InsertTenantKey id tenant (HashKey secret) (key_prefix secret) label expires);
  rec ← getForTenant id tenant;
  mret (rec, secret).
Definition Revoke (tenant id : uuid) : K unit :=
  _ ← getForTenant id tenant;
  _ ← mapped (q_RevokeTenantKeyForTenant id tenant);
  mret tt.

(** ** [cmd/tenantkey] *)
Definition cmd_day (t : option time) : string :=
  match t with None => "-" | Some t => format_day (local_day Local t) end.
Definition cmd_state (revoked expires : option time) : K string :=
  match revoked, expires with
  | Some t, _ => mret ("revoked " +:+ format_day (local_day Local t))
  | None, Some e => now ← k_now; mret (if now <? e then "live" else "expired")
  | None, None => mret "live"
  end.
Fixpoint k_each {A B} (f : A -> K B) (l : list A) : K (list B) :=
  match l with [] => mret [] | a :: l => b ← f a; rest ← k_each f l; mret (b :: rest) end.

(** What a row of [list] and of [find] shows. *)
Record ListLine : Type := mkListLine {
  ll_ID : uuid; ll_Tenant : uuid; ll_Prefix : string; ll_Label : string; ll_LastUsed : string; ll_Expires : string; ll_State : string
}.
Record FindLine : Type := mkFindLine { fl_ID : uuid; fl_Tenant : uuid; fl_Label : string; fl_State : string; fl_Exact : bool }.

Definition cmd_list : K (list ListLine) :=
  keys ← plain q_ListTenantKeys;
  k_each (fun k => s ← cmd_state (kr_RevokedAt k) (kr_ExpiresAt k);
    mret (mkListLine (kr_ID k) (kr_TenantID k) (kr_Prefix k) (kr_Label k) (cmd_day (kr_LastUsedAt k)) (cmd_day (kr_ExpiresAt k)) s)) keys.

(** [create], once its flags are parsed: [expires] is the date given, if any. *)
Definition cmd_create (tenant : uuid) (label : string) (expires : option string) : K (uuid * string * string) :=
  if bool_decide (label = "") then errorf "create needs --tenant <uuid> and --label <text>"
  else
    expiresAt ← match expires with
      | None => mret None
      | Some text =>
          match parse_ymd text with
          | None => errorf "--expires must be a future YYYY-MM-DD"
          | Some (y, m, d) =>
              now ← k_now;
              let t := Date y m d 0 0 0 0 UTC in
              if now <? t then mret (Some t) else errorf "--expires must be a future YYYY-MM-DD"
          end
      end;
    secret ← NewSecret;
    id ← k_id;
    _ ← plain (q_InsertTenantKey id tenant (HashKey secret) (key_prefix secret) label expiresAt);
    mret (id, key_prefix secret, secret).

(** What is said of a key found does not look at when it expires. *)
Definition find_line (exact : bool) (row : KeyRow) : K FindLine :=
  s ← cmd_state (kr_RevokedAt row) None;
  mret (mkFindLine (kr_ID row) (kr_TenantID row) (kr_Label row) s exact).
Definition find_by_prefix (value : string) : K (list FindLine) :=
  rows ← plain (q_FindTenantKeysByPrefix value);
  match rows with
  | [] => errorf ("no key with prefix " +:+ quoted value)
  | _ => k_each (find_line false) rows
  end.
Definition cmd_find (value : string) : K (list FindLine) :=
  let value := TrimSpace value in
  if bool_decide (PrefixLen < String.length value)%nat then fun w =>
    match pool (q_FindTenantKeyByHash (HashKey value)) w with
    | (Ok row, w) => (l ← find_line true row; mret [l]) w
    | (Err _, w) => find_by_prefix (key_prefix value) w
    end
  else find_by_prefix value.

Definition cmd_revoke_id (id : uuid) : K uuid :=
  n ← plain (q_RevokeTenantKey id);
  if n =? 0 then errorf ("no live key with id " +:+ uuid_String id) else mret id.
(** [--prefix], when no id is given. *)
Definition cmd_revoke_prefix (prefix : string) : K uuid :=
  rows ← plain (q_FindTenantKeysByPrefix prefix);
  let live := List.filter unrevoked rows in
  match live with
  | [row] => cmd_revoke_id (kr_ID row)
  | _ => errorf ("prefix " +:+ quoted prefix +:+ " matches " +:+ show (Z.of_nat (length live)) +:+ " live keys; revoke by --id")
  end.

(** [audit]: the live keys to rotate or revoke, with the whole days they are old or unused for, counted in float64.
    A [Duration] has 64 bits. *)
Definition int64 (z : Z) : Z := (z + 2 ^ 63) mod 2 ^ 64 - 2 ^ 63.
Definition audit_days (now since : time) (days : Z) : option Z :=
  let age := Sub now since in
  if int64 (days * 24 * Hour) <? age then Some (int_of_float (SFdiv 53 1024 (Hours age) (float_of_Z 24))) else None.
Definition audit_key (now : time) (stale idle : Z) (k : KeyRow) : option (KeyRow * option Z * option Z) :=
  if negb (unrevoked k) || negb (unexpired now k) then None
  else
    let old := audit_days now (kr_CreatedAt k) stale in
    let unused := audit_days now (default (kr_CreatedAt k) (kr_LastUsedAt k)) idle in
    match old, unused with None, None => None | _, _ => Some (k, old, unused) end.
Definition cmd_audit (stale idle : Z) : K (list (KeyRow * option Z * option Z)) :=
  keys ← plain q_ListTenantKeys;
  now ← k_now;
  mret (omap (audit_key now stale idle) keys).

(** ** [cmd/tenant] *)
Definition idForSlug (slug : string) : K uuid :=
  if bool_decide (slug = "") then errorf "--slug is required"
  else
    rows ← plain q_ListTenants;
    match List.find (fun t => bool_decide (te_Slug t = slug)) rows with
    | Some t => mret (te_ID t)
    | None => errorf ("no tenant " +:+ quoted slug)
    end.
(** [splitList]: trimmed, in lower case (of ASCII, which dates and domains are in), without the empty ones. *)
Definition lower (a : Ascii.ascii) : Ascii.ascii :=
  let n := Ascii.nat_of_ascii a in if (65 <=? n)%nat && (n <=? 90)%nat then Ascii.ascii_of_nat (n + 32) else a.
Definition ToLower (s : string) : string := String.string_of_list_ascii (map lower (String.list_ascii_of_string s)).
Definition splitList (raw : string) : list string :=
  List.filter (fun s => negb (bool_decide (s = ""))) (map (fun s => ToLower (TrimSpace s)) (Split raw comma)).
(** [upsert], once its flags are parsed; [core] is the text of the flag as it decodes, [keycloak] the address of the
    realms without trailing slashes. Each statement commits on its own. *)
Definition cmd_upsert (load : string -> option Location) (keycloak : string) (id : option uuid)
    (slug name issuer domains timezone holidays : string) (core : RawMessage) : K uuid :=
  match core with
  | RawInvalid _ => errorf "--core must be a JSON object"
  | _ =>
      if bool_decide (slug = "") || bool_decide (name = "") then errorf "upsert needs --slug and --name"
      else
        _ ← k_lift (NewCalendar load timezone (splitList holidays));
        id ← match id with Some id => mret id | None => k_id end;
        let iss := if bool_decide (issuer = "") then keycloak +:+ "/realms/" +:+ slug else issuer in
        _ ← plain (q_UpsertTenant id name slug (Some iss));
        _ ← plain (q_SetTenantEmailDomains id (splitList domains));
        _ ← plain (q_SetTenantCalendar timezone (splitList holidays) id);
        _ ← match core with RawJSON j => (_ ← plain (q_SetTenantCore j id); mret tt) | _ => mret tt end;
        mret id
  end.
Definition cmd_set_disabled (disabled : bool) (slug : string) : K uuid :=
  id ← idForSlug slug;
  n ← plain (q_SetTenantDisabled disabled id);
  if n =? 0 then errorf ("no tenant " +:+ quoted slug) else mret id.

(** ** Everything that can be asked of keys and tenants *)
Inductive KeyCall : Type :=
| CKeyForHash (hash : string) | CTenantForIssuer (issuer : string) | CActiveTenants | CListForTenant (tenant : uuid)
| CIssue (tenant : uuid) (label : string) (expires : option time) | CRevoke (tenant id : uuid) | CTouchDone (n : nat)
| CCmdList | CCmdCreate (tenant : uuid) (label : string) (expires : option string) | CCmdFind (value : string)
| CCmdRevokeID (id : uuid) | CCmdRevokePrefix (prefix : string) | CCmdAudit (stale idle : Z)
| CCmdUpsert (load : string -> option Location) (keycloak : string) (id : option uuid) (slug name issuer domains timezone holidays : string) (core : RawMessage)
| CCmdSetDisabled (disabled : bool) (slug : string).
Definition after {A} (p : K A) : KeyWorld -> KeyWorld := fun w => (p w).2.
Definition key_call (call : KeyCall) : KeyWorld -> KeyWorld :=
  match call with
  | CKeyForHash hash => after (KeyForHash hash)
  | CTenantForIssuer issuer => after (KeyStore_TenantForIssuer issuer)
  | CActiveTenants => after ActiveTenants
  | CListForTenant tenant => after (ListForTenant tenant)
  | CIssue tenant label expires => after (Issue tenant label expires)
  | CRevoke tenant id => after (Revoke tenant id)
  | CTouchDone n => after (touch_done n)
  | CCmdList => after cmd_list
  | CCmdCreate tenant label expires => after (cmd_create tenant label expires)
  | CCmdFind value => after (cmd_find value)
  | CCmdRevokeID id => after (cmd_revoke_id id)
  | CCmdRevokePrefix prefix => after (cmd_revoke_prefix prefix)
  | CCmdAudit stale idle => after (cmd_audit stale idle)
  | CCmdUpsert load keycloak id slug name issuer domains timezone holidays core =>
      after (cmd_upsert load keycloak id slug name issuer domains timezone holidays core)
  | CCmdSetDisabled disabled slug => after (cmd_set_disabled disabled slug)
  end.
Definition key_calls (calls : list KeyCall) (w : KeyWorld) : KeyWorld := foldl (fun w call => key_call call w) w calls.

(** ** Facts *)

(** What may become of a key: it keeps whose it is, its hash and when it expires; a revocation is for good. *)
Record key_le (k k' : KeyRow) : Prop := {
  kle_ID : kr_ID k' = kr_ID k;
  kle_TenantID : kr_TenantID k' = kr_TenantID k;
  kle_KeyHash : kr_KeyHash k' = kr_KeyHash k;
  kle_Prefix : kr_Prefix k' = kr_Prefix k;
  kle_ExpiresAt : kr_ExpiresAt k' = kr_ExpiresAt k;
  kle_RevokedAt : forall t, kr_RevokedAt k = Some t -> kr_RevokedAt k' = Some t
}.
#[export] Instance key_le_preorder : PreOrder key_le.
Proof. split; [by intros k; split|]. intros k1 k2 k3 [] []. split; try congruence. eauto. Qed.

Definition distinct_keys (l : list KeyRow) : Prop := NoDup (map kr_ID l) /\ NoDup (map kr_KeyHash l).
(** Keys are only ever added, and an old one only touched or revoked. *)
Definition grows (l l' : list KeyRow) : Prop :=
  (exists l1 l2, l' = l1 ++ l2 /\ Forall2 key_le l l1) /\ (distinct_keys l -> distinct_keys l').

Lemma key_list_refl l : Forall2 key_le l l.
Proof. induction l; by constructor. Qed.
#[export] Instance grows_preorder : PreOrder grows.
Proof.
  split.
  - intros l. split; [|done]. exists l, []. split; [by rewrite app_nil_r|]. apply key_list_refl.
  - intros a b c [(b1 & b2 & -> & H1) D1] [(c1 & c2 & -> & H2) D2]. split; [|by eauto].
    apply Forall2_app_inv_l in H2 as (c3 & c4 & H2 & _ & ->). exists c3, (c4 ++ c2). split; [by rewrite app_assoc|].
    clear -H1 H2. revert c3 H2. induction H1; intros c3 H2; inversion H2; subst; constructor; [by etransitivity|auto].
Qed.

Lemma grows_update p (f : KeyRow -> KeyRow) l : (forall k, p k = true -> key_le k (f k)) -> grows l (update_where p f l).1.
Proof.
  intros Hf. assert (H : Forall2 key_le l (update_where p f l).1).
  { induction l as [|k l IH]; [constructor|]. cbn. destruct (update_where p f l) as [l' n]. cbn in IH.
    destruct (p k) eqn:E; constructor; auto. done. }
  split.
  - exists (update_where p f l).1, []. by rewrite app_nil_r.
  - enough (E : map kr_ID (update_where p f l).1 = map kr_ID l /\ map kr_KeyHash (update_where p f l).1 = map kr_KeyHash l)
      by (unfold distinct_keys; destruct E as [-> ->]; done).
    induction H as [|k k' l l' [] _ [IH1 IH2]]; [done|]. cbn. split; congruence.
Qed.
Lemma grows_insert l k : ~ (kr_ID k ∈ map kr_ID l) -> ~ (kr_KeyHash k ∈ map kr_KeyHash l) -> grows l (l ++ [k]).
Proof.
  intros H1 H2. split; [exists l, [k]; split; [done|apply key_list_refl]|].
  intros [D1 D2]. unfold distinct_keys. rewrite !map_app. cbn.
  split; apply list.NoDup_app; (split; [done|split; [|apply NoDup_singleton]]); by intros x Hx ->%list_elem_of_singleton.
Qed.

(** A statement, a computation, that only lets the keys grow. *)
Definition stmt_grows {A} (q : DStmt A) : Prop := forall now d, grows (dir_keys d) (dir_keys (q now d).2).
Definition K_grows {A} (p : K A) : Prop := forall w, grows (dir_keys (kw_dir w)) (dir_keys (kw_dir (p w).2)).

Lemma existsb_not_in {A B} `{EqDecision B} (f : A -> B) b (l : list A) : existsb (fun a => bool_decide (f a = b)) l = false -> ~ (b ∈ map f l).
Proof.
  intros H Hin. apply list_elem_of_In, in_map_iff in Hin as (a & <- & Hin). apply not_true_iff_false in H. apply H, existsb_exists.
  exists a. split; [done|]. by apply bool_decide_eq_true.
Qed.
Lemma InsertTenantKey_grows id tenant hash prefix label expires : stmt_grows (q_InsertTenantKey id tenant hash prefix label expires).
Proof.
  intros now d. unfold q_InsertTenantKey. destruct (to_text label); [|done]. destruct (existsb (key_is id) _) eqn:E1; [done|].
  destruct (existsb _ (dir_keys d)) eqn:E2 at 1; [done|]. destruct (negb _); [done|]. cbn.
  apply grows_insert; cbn; [by apply existsb_not_in|by apply existsb_not_in].
Qed.
Lemma update_keys_grows p f : (forall now k, p k = true -> key_le k (f now k)) -> stmt_grows (update_keys p f).
Proof.
  intros Hf now d. unfold update_keys. pose proof (grows_update p (f now) (dir_keys d) (Hf now)) as H.
  by destruct (update_where p (f now) (dir_keys d)) as [rows n].
Qed.
Lemma touch_grows id : stmt_grows (q_TouchTenantKey id).
Proof. apply update_keys_grows. by intros now k _. Qed.
Lemma revoke_grows p : (forall k, p k = true -> unrevoked k = true) -> stmt_grows (update_keys p revoked_at).
Proof.
  intros Hp. apply update_keys_grows. intros now k H%Hp. unfold unrevoked in H. to_prop. split; try done. intros t E. by rewrite H in E.
Qed.
Lemma update_tenant_grows id f : stmt_grows (update_tenant id f).
Proof. intros now d. unfold update_tenant. by destruct (update_where _ _ _). Qed.
Lemma UpsertTenant_grows id name slug issuer : stmt_grows (q_UpsertTenant id name slug issuer).
Proof. intros now d. unfold q_UpsertTenant. by repeat case_match. Qed.
Lemma select_grows {A} (f : Directory -> A) : stmt_grows (select f).
Proof. by intros now d. Qed.
Lemma select_one_grows {A} (f : time -> Directory -> list A) : stmt_grows (select_one f).
Proof. intros now d. unfold select_one. by destruct (f now d). Qed.

Lemma pool_grows {A} (q : DStmt A) : stmt_grows q -> forall w, grows (dir_keys (kw_dir w)) (dir_keys (kw_dir (pool q w).2)).
Proof.
  intros Hq w. unfold pool. destruct (fault _); [done|]. specialize (Hq (db_now (kw_statements w)) (kw_dir w)).
  by destruct (q _ (kw_dir w)).
Qed.
Lemma mapped_grows {A} (q : DStmt A) : stmt_grows q -> K_grows (mapped q).
Proof. intros Hq w. unfold mapped. pose proof (pool_grows q Hq w). by destruct (pool q w) as [[|] ?]. Qed.
Lemma plain_grows {A} (q : DStmt A) : stmt_grows q -> K_grows (plain q).
Proof. intros Hq w. unfold plain. pose proof (pool_grows q Hq w). by destruct (pool q w) as [[|] ?]. Qed.
Lemma bind_grows {A B} (p : K A) (f : A -> K B) : K_grows p -> (forall a, K_grows (f a)) -> K_grows (mbind f p).
Proof.
  intros Hp Hf w. unfold mbind, K_bind. specialize (Hp w). destruct (p w) as [[a|e] w1]; [|done].
  etransitivity; [exact Hp|apply Hf].
Qed.
Lemma still {A} (p : K A) : (forall w, kw_dir (p w).2 = kw_dir w) -> K_grows p.
Proof. intros H w. by rewrite H. Qed.
Lemma k_each_grows {A B} (f : A -> K B) l : (forall a, K_grows (f a)) -> K_grows (k_each f l).
Proof.
  intros Hf. induction l as [|a l IH]; cbn; [by apply still|]. apply bind_grows; [done|]. intros b.
  apply bind_grows; [done|]. intros r. by apply still.
Qed.

Ltac grow :=
  repeat first
    [ progress intros
    | apply bind_grows | apply k_each_grows
    | apply mapped_grows | apply plain_grows
    | apply InsertTenantKey_grows | apply touch_grows | apply UpsertTenant_grows | apply update_tenant_grows
    | apply select_grows | apply select_one_grows
    | apply revoke_grows; intros ? ?%andb_true_iff; by destruct_and?
    | by apply still
    | case_match ].

Lemma touch_still id : K_grows (touch id).
Proof. apply still. intros w. unfold touch. by destruct (match kw_touched w !! id with Some _ => _ | None => _ end). Qed.
Lemma touch_done_grows n : K_grows (touch_done n).
Proof. intros w. unfold touch_done. destruct (kw_pending w !! n) as [id|]; [|done]. cbn zeta. by apply (pool_grows _ (touch_grows id) (mkKeyWorld _ _ _ _ _ _ _)). Qed.
Lemma cmd_find_grows value : K_grows (cmd_find value).
Proof.
  assert (Hs : forall r e, K_grows (cmd_state r e)) by (intros; unfold cmd_state; grow).
  assert (Hp : forall v, K_grows (find_by_prefix v)).
  { intros v. unfold find_by_prefix, find_line. repeat first [apply Hs | progress grow]. }
  unfold cmd_find. destruct (bool_decide _); [|apply Hp]. intros w.
  pose proof (pool_grows (q_FindTenantKeyByHash (HashKey (TrimSpace value))) (select_one_grows _) w) as Hq.
  destruct (pool _ w) as [[row|e] w1]; (etransitivity; [exact Hq|]); [|apply Hp].
  unfold find_line. apply bind_grows; [|intros; by apply still]. apply bind_grows; [apply Hs|intros; by apply still].
Qed.

Lemma call_grows call w : grows (dir_keys (kw_dir w)) (dir_keys (kw_dir (key_call call w))).
Proof.
  assert (Hs : forall r e, K_grows (cmd_state r e)) by (intros; unfold cmd_state; grow).
  assert (H : forall A (p : K A), K_grows p -> grows (dir_keys (kw_dir w)) (dir_keys (kw_dir (after p w)))) by (intros A p Hp; apply Hp).
  destruct call; cbn [key_call]; apply H.
  7: by apply touch_done_grows.
  9: by apply cmd_find_grows.
  all: unfold KeyForHash, KeyStore_TenantForIssuer, ActiveTenants, ListForTenant, Issue, getForTenant, Revoke, cmd_list, cmd_create,
    cmd_revoke_id, cmd_revoke_prefix, cmd_audit, cmd_upsert, cmd_set_disabled, idForSlug;
    repeat first [apply Hs | apply touch_still | progress grow].
Qed.
Lemma calls_grow calls w : grows (dir_keys (kw_dir w)) (dir_keys (kw_dir (key_calls calls w))).
Proof.
  revert w. induction calls as [|call calls IH]; intros w; [done|]. etransitivity; [apply call_grows|apply IH].
Qed.

(** ** Whom a key speaks for *)
Lemma grows_later l l' k : grows l l' -> k ∈ l -> exists k', k' ∈ l' /\ key_le k k'.
Proof.
  intros [(l1 & l2 & -> & H) _] Hk. apply list_elem_of_lookup_1 in Hk as (i & Hi).
  destruct (Forall2_lookup_l _ _ _ _ _ H Hi) as (k' & Hi' & Hle). exists k'. split; [|done].
  apply elem_of_app. left. by eapply list_elem_of_lookup_2.
Qed.
Lemma NoDup_map_inj {A B} (f : A -> B) (l : list A) a b : NoDup (map f l) -> a ∈ l -> b ∈ l -> f a = f b -> a = b.
Proof.
  intros Hd Ha Hb E. apply list_elem_of_lookup_1 in Ha as (i & Hi). apply list_elem_of_lookup_1 in Hb as (j & Hj).
  assert (i = j).
  { apply (NoDup_lookup (map f l) i j (f a) Hd); rewrite list_lookup_fmap; [by rewrite Hi|by rewrite Hj, E]. }
  subst j. congruence.
Qed.
Lemma filter_head {A} (p : A -> bool) l a rest : List.filter p l = a :: rest -> a ∈ l /\ p a = true.
Proof. intros H. rewrite list_elem_of_In, <- (filter_In p). rewrite H. by left. Qed.

(** What a credential resolves to is a row of it that is live, or there is no answer. *)
Lemma KeyForHash_ok hash w ident w' : KeyForHash hash w = (Ok ident, w') -> exists k,
  k ∈ dir_keys (kw_dir w) /\ kr_KeyHash k = hash /\ live_row (db_now (kw_statements w)) (kw_dir w) k = true /\
  ident = mkKeyIdentity (kr_TenantID k) (kr_ID k) (kr_Prefix k).
Proof.
  unfold KeyForHash, mbind, K_bind, mapped, pool. destruct (fault _); [done|].
  unfold q_GetTenantByTenantKeyHash, select_one. destruct (List.filter _ (dir_keys (kw_dir w))) as [|k rest] eqn:E; [done|].
  apply filter_head in E as [Hin [Hh Hl]%andb_true_iff]. to_prop. intros H. exists k.
  destruct (touch _ _) as [[[]|e] w1]; [|done]. injection H as <- <-. done.
Qed.

Lemma Revoke_ok tenant id w w' : Revoke tenant id w = (Ok tt, w') ->
  exists k, k ∈ dir_keys (kw_dir w') /\ kr_ID k = id /\ kr_TenantID k = tenant /\ is_Some (kr_RevokedAt k).
Proof.
  unfold Revoke, getForTenant, mbind, K_bind, mapped, pool. destruct (fault (kw_statements w)); [done|].
  unfold q_GetTenantKeyForTenant, select_one. destruct (List.filter _ (dir_keys (kw_dir w))) as [|k rest] eqn:E; [done|].
  apply filter_head in E as [Hin [Hi Ht]%andb_true_iff]. unfold mret, K_ret. cbn [kw_statements kw_dir kw_touched kw_pending kw_ticks kw_ids kw_draws].
  destruct (fault _); [done|]. unfold q_RevokeTenantKeyForTenant, update_keys.
  set (now := db_now _). set (p := fun k => key_of id tenant k && unrevoked k). intros H.
  assert (Hup : exists k', k' ∈ (update_where p (revoked_at now) (dir_keys (kw_dir w))).1 /\ kr_ID k' = id /\ kr_TenantID k' = tenant /\ is_Some (kr_RevokedAt k')).
  { clear H. unfold key_is in Hi. to_prop. induction (dir_keys (kw_dir w)) as [|a l IH]; [by apply not_elem_of_nil in Hin|].
    cbn. apply elem_of_cons in Hin as [<-|Hin].
    - destruct (update_where p (revoked_at now) l) as [l' n]. destruct (p k) eqn:Ep.
      + exists (revoked_at now k). split; [by left|]. cbn. split_and!; eauto.
      + exists k. split; [by left|]. split_and!; [done..|]. unfold p, key_of, key_is, unrevoked in Ep.
        rewrite !bool_decide_true in Ep by done. cbn in Ep. to_prop. by destruct (kr_RevokedAt k); [eexists|].
    - destruct (IH Hin) as (k' & Hk' & Hr). exists k'. split; [|done].
      destruct (update_where p (revoked_at now) l) as [l' n]. destruct (p a); by right. }
  destruct (update_where p (revoked_at now) (dir_keys (kw_dir w))) as [rows n]. injection H as <-. done.
Qed.

(** C31: A tenant key speaks for the tenant it was issued to, and no longer than it should: through any calls - issuing,
    revoking, listing, recorded uses, an operator's commands, each of their statements failing or not - a
    credential resolves only to a row with its hash that is not revoked, not expired and of an enabled tenant; the
    tenant, the id and the prefix it resolves to never change; once it was revoked by anyone it never resolves again;
    and a tenant's request to revoke another tenant's key is refused and changes no key. *)
Theorem key_authority w calls : distinct_keys (dir_keys (kw_dir w)) ->
  let w' := key_calls calls w in
  (forall hash ident w'', KeyForHash hash w' = (Ok ident, w'') -> exists k,
     k ∈ dir_keys (kw_dir w') /\ kr_KeyHash k = hash /\ live_row (db_now (kw_statements w')) (kw_dir w') k = true /\
     ident = mkKeyIdentity (kr_TenantID k) (kr_ID k) (kr_Prefix k)) /\
  (forall k ident w'', k ∈ dir_keys (kw_dir w) -> KeyForHash (kr_KeyHash k) w' = (Ok ident, w'') ->
     ident = mkKeyIdentity (kr_TenantID k) (kr_ID k) (kr_Prefix k) /\ kr_RevokedAt k = None /\
     unexpired (db_now (kw_statements w')) k = true) /\
  (forall tenant id w1 later hash ident w2, Revoke tenant id w' = (Ok tt, w1) ->
     KeyForHash hash (key_calls later w1) = (Ok ident, w2) -> ki_ID ident <> id) /\
  (forall tenant k, k ∈ dir_keys (kw_dir w') -> kr_TenantID k <> tenant -> exists e w1,
     Revoke tenant (kr_ID k) w' = (Err e, w1) /\ kw_dir w1 = kw_dir w' /\
     (fault (kw_statements w') = None -> e = EClass ErrNotFound)).
Proof.
  intros Hd w'. assert (Hg := calls_grow calls w). fold w' in Hg. assert (Hd' := proj2 Hg Hd).
  split_and!; [by intros hash ident w'' H%KeyForHash_ok| | |].
  - intros k ident w'' Hk (k2 & Hin & Hh & Hl & ->)%KeyForHash_ok. destruct (grows_later _ _ _ Hg Hk) as (k1 & Hk1 & Hle).
    assert (k2 = k1) as -> by (apply (NoDup_map_inj kr_KeyHash (dir_keys (kw_dir w'))); [apply Hd'|done..|by rewrite (kle_KeyHash _ _ Hle)]).
    unfold live_row in Hl. apply andb_true_iff in Hl as [[_ Hr]%andb_true_iff He]. unfold unrevoked in Hr. to_prop.
    destruct Hle as [E1 E2 E3 E4 E5 E6]. rewrite E1, E2, E4. split_and!; [done| |by unfold unexpired in *; rewrite <- E5].
    destruct (kr_RevokedAt k) as [t|]; [|done]. by rewrite (E6 t) in Hr.
  - intros tenant id w1 later hash ident w2 Hr (k2 & Hin & _ & Hl & ->)%KeyForHash_ok. cbn. intros E.
    assert (Hg1 : grows (dir_keys (kw_dir w')) (dir_keys (kw_dir w1))).
    { pose proof (call_grows (CRevoke tenant id) w') as H1. cbn in H1. unfold after in H1. by rewrite Hr in H1. }
    apply Revoke_ok in Hr as (k & Hk & Hi & _ & (t & Ht)). pose proof (calls_grow later w1) as Hg2.
    destruct (grows_later _ _ _ Hg2 Hk) as (k1 & Hk1 & Hle).
    assert (k2 = k1) as -> by (apply (NoDup_map_inj kr_ID (dir_keys (kw_dir (key_calls later w1)))); [apply Hg2, Hg1, Hd'|done..|by rewrite (kle_ID _ _ Hle), Hi]).
    unfold live_row, unrevoked in Hl. apply andb_true_iff in Hl as [[_ Hr]%andb_true_iff _]. to_prop. by rewrite (kle_RevokedAt _ _ Hle t Ht) in Hr.
  - intros tenant k Hk Ht. unfold Revoke, getForTenant, mbind, K_bind, mapped, pool.
    destruct (fault (kw_statements w')) as [e|]; [eexists _, _; by split_and!|]. unfold q_GetTenantKeyForTenant, select_one.
    destruct (List.filter _ _) as [|k2 rest] eqn:E; [eexists _, _; by split_and!|].
    apply filter_head in E as [Hin [Hi Ht2]%andb_true_iff]. unfold key_is in Hi. to_prop.
    by assert (k2 = k) as -> by (apply (NoDup_map_inj kr_ID (dir_keys (kw_dir w'))); [apply Hd'|done..]).
Qed.

Lemma filter_none {A} (p : A -> bool) l : existsb p l = false -> List.filter p l = [].
Proof. induction l as [|a l IH]; [done|]. cbn. intros [-> ?]%orb_false_iff. by apply IH. Qed.
Lemma filter_none_and {A} (p q : A -> bool) l : existsb p l = false -> List.filter (fun a => p a && q a) l = [].
Proof. induction l as [|a l IH]; [done|]. cbn. intros [-> ?]%orb_false_iff. by apply IH. Qed.

Lemma order_insert_in {A} before (a : A) l x : In x (order_insert before a l) <-> x = a \/ In x l.
Proof. induction l as [|b l IH]; cbn; [naive_solver|]. destruct (before a b); cbn; rewrite ?IH; naive_solver. Qed.
Lemma order_by_in {A} before (l : list A) x : In x (order_by before l) <-> In x l.
Proof.
  unfold order_by. assert (H : forall acc, In x (foldl (fun l a => order_insert before a l) acc l) <-> In x acc \/ In x l).
  { induction l as [|a l IH]; intros acc; cbn; [naive_solver|]. rewrite IH, order_insert_in. naive_solver. }
  rewrite H. cbn. naive_solver.
Qed.

(** What an issued key leaves behind: its row, after all others, and the record of it. *)
Lemma Issue_ok tenant label expires w rec secret w' : Issue tenant label expires w = (Ok (rec, secret), w') -> exists k old,
  dir_keys (kw_dir w') = old ++ [k] /\ rec = record_of k /\ existsb (key_is (kr_ID k)) old = false /\
  existsb (fun k' => bool_decide (kr_KeyHash k' = kr_KeyHash k)) old = false /\ kr_TenantID k = tenant /\ kr_KeyHash k = HashKey secret /\
  kr_Prefix k = key_prefix secret /\ kr_Label k = label /\ kr_ExpiresAt k = timestamptz <$> expires /\ kr_RevokedAt k = None.
Proof.
  unfold Issue, getForTenant, mbind, K_bind, NewSecret, k_id. destruct (rand_Read _) as [b|]; [|done]. cbn.
  destruct (NewV7 _) as [id|]; [|done]. unfold mapped, pool. cbn. destruct (fault _); [done|].
  unfold q_InsertTenantKey. destruct (to_text label); [|done]. destruct (existsb (key_is id) (dir_keys (kw_dir w))) eqn:E1; [done|].
  destruct (existsb _ (dir_keys (kw_dir w))) eqn:E2 at 1; [done|]. destruct (negb _); [done|]. cbn. destruct (fault _); [done|].
  unfold q_GetTenantKeyForTenant, select_one. cbn [dir_keys put_keys]. rewrite List.filter_app. change (key_of id tenant) with (fun k => key_is id k && bool_decide (kr_TenantID k = tenant)). rewrite (filter_none_and (key_is id) (fun k => bool_decide (kr_TenantID k = tenant))) by done. cbn.
  unfold key_is. cbn. rewrite !bool_decide_true by done. cbn. intros H. injection H as <- <- <-. cbn.
  eexists _, _. by split_and!.
Qed.

(** C32: A key that was issued works: as soon as [Issue] returns, the secret it returned - and only ever returned then -
    resolves to the tenant it was issued for and the record shown, as long as the tenant is enabled and the key has
    not expired; the record says it is live and is in the tenant's list. *)
Theorem issued_key_works tenant label expires w rec secret w' :
  Issue tenant label expires w = (Ok (rec, secret), w') -> fault (kw_statements w') = None ->
  (exists t, t ∈ dir_tenants (kw_dir w') /\ te_ID t = tenant /\ te_DisabledAt t = None) ->
  (forall e, expires = Some e -> db_now (kw_statements w') < timestamptz e) ->
  (exists w1, KeyForHash (HashKey secret) w' = (Ok (mkKeyIdentity tenant (ky_ID rec) (key_prefix secret)), w1)) /\
  KeyRecord_Status rec (db_now (kw_statements w')) = "live" /\
  (exists l w1, ListForTenant tenant w' = (Ok l, w1) /\ rec ∈ l).
Proof.
  intros (k & old & Hk & -> & Hi & Hh & Ht & Hs & Hp & Hl & He & Hr)%Issue_ok Hf (t & Hin & Hid & Hen) Hexp.
  assert (Hlive : unexpired (db_now (kw_statements w')) k = true).
  { unfold unexpired. rewrite He. destruct expires as [e|]; [|done]. cbn. apply Z.ltb_lt. by apply Hexp. }
  split_and!.
  - unfold KeyForHash, mbind, K_bind, mapped, pool. rewrite Hf. unfold q_GetTenantByTenantKeyHash, select_one.
    rewrite Hk, List.filter_app, <- Hs, (filter_none_and (fun k' => bool_decide (kr_KeyHash k' = kr_KeyHash k)) (live_row _ _)) by done.
    cbn. rewrite bool_decide_true by done. unfold live_row, unrevoked.
    rewrite Hr, Hlive. replace (existsb _ _) with true.
    + cbn. unfold touch. cbn. destruct (match kw_touched w' !! kr_ID k with Some _ => _ | None => _ end); (eexists; by rewrite Ht, Hp).
    + symmetry. apply existsb_exists. exists t. split; [by apply list_elem_of_In|]. unfold tenant_is, enabled. by rewrite !bool_decide_true by congruence.
  - unfold KeyRecord_Status, record_of. cbn. rewrite Hr, He. destruct expires as [e|]; [|done]. cbn.
    by rewrite (proj2 (Z.ltb_lt _ _)) by (by apply Hexp).
  - unfold ListForTenant, mbind, K_bind, mapped, pool. rewrite Hf. cbn. eexists _, _. split; [done|].
    apply list_elem_of_In, in_rev. rewrite rev_involutive. apply in_map. unfold by_creation. apply order_by_in. apply filter_In.
    split; [|by apply bool_decide_eq_true]. rewrite Hk. apply in_or_app. right. by left.
Qed.
End keys.

Module KeyExamples.
  Import NUuid AuthExamples.

#[export] Instance by_bytes : Collation := fun a b => match String.compare a b with Lt => true | _ => false end.
Definition never : nat -> option driver_error := fun _ => None.
Definition otp : @uuid NUuid.ops := 1%N.
Definition erste : @uuid NUuid.ops := 2%N.
Definition clock (n : nat) : time := Z.of_nat n * Second.
Definition draw (n : nat) : M string := Ok ("bytes" +:+ show (Z.of_nat n)).
Definition bank (id : N) (slug : string) : TenantEntry := mkTenantEntry id slug slug None [] None ∅.
Definition row (id tenant : N) (secret : string) (expires revoked : option time) : KeyRow :=
  mkKeyRow id tenant (sha256 secret) (key_prefix secret) "key" 0 None expires revoked.
Definition start : KeyWorld := mkKeyWorld
  (mkDirectory [bank 1%N "otp"; bank 2%N "erste"]
     [row 11%N 1%N "tk_aaaaaaaaaaaa" None None; row 21%N 2%N "tk_bbbbbbbbbbbb" (Some 1000) None] ∅) ∅ [] 0 0 100 0.
Definition story : list KeyCall :=
  [CKeyForHash "tk_aaaaaaaaaaaa"; CIssue 1%N "batch" None; CTouchDone 0; CCmdSetDisabled true "erste"; CCmdSetDisabled false "erste"].
Abbreviation calls := (key_calls never clock draw).

(** What [find] says of a key that expired: it does not read when keys expire. *)
Example find_calls_expired_live :
  (map (fun l => (fl_State l, fl_Exact l)) <$> (cmd_find never clock "tk_bbbbbbbbbbbb" (calls story start)).1) = Ok [("live", true)] /\
  (map ll_State <$> (cmd_list never clock (mkKeyWorld (kw_dir start) ∅ [] 0 2000 0 0)).1) = Ok ["live"; "expired"].
Proof. split; vm_compute; reflexivity. Qed.

Lemma start_distinct : distinct_keys (dir_keys (kw_dir start)).
Proof. split; apply (bool_decide_unpack _); vm_compute; exact I. Qed.

Lemma key_authority_witness :
  (exists e w1, Revoke never clock 2%N 11%N (calls story start) = (Err e, w1) /\ kw_dir w1 = kw_dir (calls story start) /\ e = EClass ErrNotFound) /\
  (forall ident w2, KeyForHash never clock "tk_aaaaaaaaaaaa" (calls story (Revoke never clock 1%N 11%N (calls story start)).2) = (Ok ident, w2) ->
     ki_ID ident <> 11%N).
Proof.
  destruct (key_authority never clock draw start story start_distinct) as (_ & _ & H3 & H4). split.
  - destruct (H4 2%N (touched_at (3 * Second) (row 11%N 1%N "tk_aaaaaaaaaaaa" None None))) as (e & w1 & H & Hd & He).
    + vm_compute; left.
    + done.
    + exists e, w1. split_and!; [exact H|exact Hd|by apply He].
  - intros ident w2. pose (id := 11%N : @uuid NUuid.ops).
    apply (H3 otp id (Revoke never clock otp id (calls story start)).2 story). vm_compute. reflexivity.
Defined.

Definition issued : M (KeyRecord * string) * KeyWorld := Issue never clock draw erste "batch" (Some (60 * Second)) start.
Lemma issued_key_works_witness : exists rec secret,
  issued.1 = Ok (rec, secret) /\
  (exists w1, KeyForHash never clock (HashKey secret) issued.2 = (Ok (mkKeyIdentity erste (ky_ID rec) (key_prefix secret)), w1)).
Proof.
  assert (Hok : is_ok issued.1 = true) by (vm_compute; reflexivity).
  assert (Hn : kw_statements issued.2 = 2%nat) by (vm_compute; reflexivity).
  assert (Hw : dir_tenants (kw_dir issued.2) = dir_tenants (kw_dir start)) by reflexivity.
  destruct issued as [[[rec secret]|e] w'] eqn:E; [|discriminate Hok]. exists rec, secret. split; [reflexivity|].
  destruct (issued_key_works never clock draw erste "batch" (Some (60 * Second)) start rec secret w' E) as [H _].
  - reflexivity.
  - cbn [snd] in Hw. rewrite Hw. exists (bank erste "erste"). split; [right; left|split; reflexivity].
  - cbn [snd] in Hn. intros e [= <-]. rewrite Hn. vm_compute. reflexivity.
  - exact H.
Defined.
End KeyExamples.
