(* ===== verification/Provision.v ===== *)
(** * Provision: a tenant's access data in the database, and the commands that change it
    ([migrations/0023_access.sql], [cmd/seed/access.go], [cmd/tenant/member.go]).

    The tables of [Sql] that hold teams, memberships, grants, routing and policy versions, the statements of the two
    commands with the constraints and the triggers of the migration, and the transaction around the seeding. The
    commands run as the owner of the tables, whom row-level security lets by. [fault] is what befalls the n-th statement of a
    command - the commit of a transaction is one more - from outside. A team's name is not kept, nothing reads it. *)
From Stdlib Require Import QArith.
From S2P Require Import Prelude Errs GoTime GoJson Ext Types Regimes Lifecycle Deadlines Ledger Questionnaire Risk Text Wire Access Authz Fixture Store Sql PgStore Directory.
Local Open Scope Z_scope.

Section provision.
Context `{DC : Decimal} `{UU : UUID} {NU : Numeric}.

Record AccessTables : Type := mkAccessTables {
  at_teams : list TeamRow;
  at_members : list MemberRow;
  at_grants : list GrantRow;
  at_routing : list RoutingRow;
  at_versions : gmap uuid Z
}.
Definition tables_of {Body} (db : DB Body) : AccessTables :=
  mkAccessTables (db_teams db) (db_members db) (db_grants db) (db_routing db) (db_versions db).

(** ** The trigger: every row changed is a version *)
Definition bump_policy_version (t : uuid) (rows : nat) (versions : gmap uuid Z) : gmap uuid Z :=
  match rows with
  | O => versions
  | S _ => <[t := default 0 (versions !! t) + Z.of_nat rows]> versions
  end.

(** ** Statements *)
Definition AStmt : Type := AccessTables -> sql AccessTables.
Definition count {A} (f : A -> bool) (l : list A) : nat := length (List.filter f l).
Definition without {A} (f : A -> bool) (l : list A) : list A := List.filter (fun a => negb (f a)) l.

Definition routing_of (t : uuid) (r : RoutingRow) : bool := bool_decide (ow_TenantID r = t).
Definition grant_of (t : uuid) (r : GrantRow) : bool := bool_decide (vw_TenantID r = t).
Definition team_of (t : uuid) (r : TeamRow) : bool := bool_decide (gw_TenantID r = t).
Definition is_team (t : uuid) (slug : string) (r : TeamRow) : bool := team_of t r && bool_decide (gw_Slug r = slug).
Definition member_of (t : uuid) (subjects : list string) (r : MemberRow) : bool :=
  bool_decide (bw_TenantID r = t) && slices_contains subjects (bw_Subject r).
Definition is_member (t : uuid) (team subject : string) (r : MemberRow) : bool :=
  bool_decide (bw_TenantID r = t) && bool_decide (MTeam (bw_Membership r) = team) && bool_decide (bw_Subject r = subject).

Definition delete_routing (t : uuid) : AStmt := fun d =>
  Ok (mkAccessTables (at_teams d) (at_members d) (at_grants d) (without (routing_of t) (at_routing d))
        (bump_policy_version t (count (routing_of t) (at_routing d)) (at_versions d))).
Definition delete_grants (t : uuid) : AStmt := fun d =>
  Ok (mkAccessTables (at_teams d) (at_members d) (without (grant_of t) (at_grants d)) (at_routing d)
        (bump_policy_version t (count (grant_of t) (at_grants d)) (at_versions d))).
Definition undefault (t : uuid) : AStmt := fun d =>
  Ok (mkAccessTables (map (fun r => if team_of t r then mkTeamRow (gw_TenantID r) (gw_Slug r) false else r) (at_teams d))
        (at_members d) (at_grants d) (at_routing d) (bump_policy_version t (count (team_of t) (at_teams d)) (at_versions d))).
Definition delete_members (t : uuid) (subjects : list string) : AStmt := fun d =>
  Ok (mkAccessTables (at_teams d) (without (member_of t subjects) (at_members d)) (at_grants d) (at_routing d)
        (bump_policy_version t (count (member_of t subjects) (at_members d)) (at_versions d))).

(** The checks of the columns. *)
Definition lower_letter (a : Ascii.ascii) : bool := (97 <=? byte_of a) && (byte_of a <=? 122).
Definition slug_tail (a : Ascii.ascii) : bool := lower_letter a || ((48 <=? byte_of a) && (byte_of a <=? 57)) || (byte_of a =? 45).
Definition team_slug (s : string) : bool :=
  match s with
  | EmptyString => false
  | String a s => lower_letter a && every_char slug_tail s && (String.length s <=? 31)%nat
  end.
(** The largest limit the column takes. *)
Definition limit_ceiling : dec := NewFromInt 922337203685477.
Definition limit_in_range (l : option dec) : bool :=
  match l with Some d => negb (LessThan d dec_zero) && negb (GreaterThan d limit_ceiling) | None => true end.
Definition numeric_opt (l : option dec) : sql (option dec) :=
  match l with Some d => d ← to_numeric d; Ok (Some d) | None => Ok None end.
Definition has_team (d : AccessTables) (t : uuid) (slug : string) : bool := existsb (is_team t slug) (at_teams d).

(** [INSERT ... ON CONFLICT (tenant_id, slug) DO UPDATE]. *)
Definition upsert_team (t : uuid) (slug : string) (is_default : bool) : AStmt := fun d =>
  _ ← check (team_slug slug) "teams_slug_check";
  _ ← unique (negb (is_default && existsb (fun r => team_of t r && gw_IsDefault r && negb (bool_decide (gw_Slug r = slug))) (at_teams d)))
        "teams_one_default";
  let row := mkTeamRow t slug is_default in
  Ok (mkAccessTables
        (if has_team d t slug then map (fun r => if is_team t slug r then row else r) (at_teams d) else at_teams d ++ [row])
        (at_members d) (at_grants d) (at_routing d) (bump_policy_version t 1 (at_versions d))).
Definition insert_member (t : uuid) (team subject : string) (role : Role) : AStmt := fun d =>
  _ ← check (slices_contains Roles role) "team_members_role_check";
  _ ← unique (negb (existsb (is_member t team subject) (at_members d))) "team_members_pkey";
  _ ← references (has_team d t team) "team_members_tenant_id_team_fkey";
  Ok (mkAccessTables (at_teams d) (at_members d ++ [mkMemberRow t subject (mkMembership team role)]) (at_grants d) (at_routing d)
        (bump_policy_version t 1 (at_versions d))).
(** The insert of [addMember], which changes the role where the membership is there. *)
Definition upsert_member (t : uuid) (team subject : string) (role : Role) : AStmt := fun d =>
  if existsb (is_member t team subject) (at_members d) then
    _ ← check (slices_contains Roles role) "team_members_role_check";
    Ok (mkAccessTables (at_teams d)
          (map (fun r => if is_member t team subject r then mkMemberRow t subject (mkMembership team role) else r) (at_members d))
          (at_grants d) (at_routing d) (bump_policy_version t 1 (at_versions d)))
  else insert_member t team subject role d.
Definition delete_member (t : uuid) (team subject : string) : AStmt := fun d =>
  Ok (mkAccessTables (at_teams d) (without (is_member t team subject) (at_members d)) (at_grants d) (at_routing d)
        (bump_policy_version t (count (is_member t team subject) (at_members d)) (at_versions d))).
Definition same_grant (t : uuid) (g : Grant) (r : GrantRow) : bool :=
  bool_decide (vw_TenantID r = t) && bool_decide (GTeam (vw_Grant r) = GTeam g) && bool_decide (GRole (vw_Grant r) = GRole g)
  && bool_decide (GAction (vw_Grant r) = GAction g).
Definition insert_grant (t : uuid) (g : Grant) : AStmt := fun d =>
  limit ← numeric_opt (GAmountLimit g);
  _ ← check (slices_contains Roles (GRole g)) "role_grants_role_check";
  _ ← check (safeAction (GAction g)) "role_grants_action_check";
  _ ← check (limit_in_range limit) "role_grants_amount_limit_check";
  _ ← unique (negb (existsb (same_grant t g) (at_grants d))) "role_grants_pkey";
  _ ← references (has_team d t (GTeam g)) "role_grants_tenant_id_team_fkey";
  Ok (mkAccessTables (at_teams d) (at_members d) (at_grants d ++ [mkGrantRow t (mkGrant (GTeam g) (GRole g) (GAction g) limit)])
        (at_routing d) (bump_policy_version t 1 (at_versions d))).
Definition insert_routing (t : uuid) (position : Z) (r : RoutingRule) : AStmt := fun d =>
  min ← numeric_opt (RMinAmount r);
  _ ← unique (negb (existsb (fun x => bool_decide (ow_TenantID x = t) && (ow_Position x =? position)) (at_routing d))) "routing_rules_pkey";
  _ ← references (has_team d t (RTeam r)) "routing_rules_tenant_id_team_fkey";
  Ok (mkAccessTables (at_teams d) (at_members d) (at_grants d)
        (at_routing d ++ [mkRoutingRow t position (mkRoutingRule (RRail r) (RReason r) (RRiskTier r) min (RTeam r))])
        (bump_policy_version t 1 (at_versions d))).

(** ** What the trigger on tenants gives a new one *)
Definition insert_team (t : uuid) (slug : string) (is_default : bool) : AStmt := fun d =>
  _ ← unique (negb (has_team d t slug)) "teams_pkey";
  upsert_team t slug is_default d.
Definition default_actions : list Action :=
  ["create"; "compose-email"; "upload-attachment"; "resend-notice";
   "OPEN_INVESTIGATION"; "SEND_QUESTIONNAIRE"; "RECEIVE_QUESTIONNAIRE"; "ISSUE_REFUND"; "FILE_CHARGEBACK";
   "ACKNOWLEDGE_CHARGEBACK"; "SUBMIT_EVIDENCE"; "WIN_CHARGEBACK"; "LOSE_CHARGEBACK"; "ISSUE_FINAL_CREDIT";
   "REVERSE_PROVISIONAL_CREDIT"; "CLOSE"; "APPEAL"].
Definition default_access (t : uuid) : list AStmt :=
  insert_team t "general" true
  :: map (fun a => insert_grant t (mkGrant "general" RoleJunior a None)) default_actions
  ++ [insert_grant t (mkGrant "general" RoleLead "reassign" None)].

(** ** Commands *)
Section commands.
Context (fault : nat -> option driver_error).
(** The errors of the driver are returned as they are. *)
Definition of_driver {A} (r : sql A) : M A := match r with Ok a => Ok a | Err e => Err (unmapped e) end.

Fixpoint run_statements (n : nat) (stmts : list AStmt) (d : AccessTables) : sql AccessTables :=
  match stmts with
  | [] => match fault n with Some e => Err e | None => Ok d end
  | s :: stmts => match fault n with Some e => Err e | None => d ← s d; run_statements (S n) stmts d end
  end.
(** [pgx.BeginFunc], whose beginning is a statement too: what did not commit has not happened. *)
Definition in_transaction (stmts : list AStmt) (d : AccessTables) : sql unit * AccessTables :=
  match match fault 0 with Some e => Err e | None => run_statements 1 stmts d end with
  | Ok d' => (Ok tt, d')
  | Err e => (Err e, d)
  end.

Definition seed_statements (t : uuid) (f : Fixture) : list AStmt :=
  [delete_routing t; delete_grants t; undefault t; delete_members t (map FMSubject (FMembers f))]
  ++ map (fun x => upsert_team t (FTSlug x) (FTDefault x)) (FTeams f)
  ++ map (fun m => insert_member t (FMTeam m) (FMSubject m) (FMRole m)) (FMembers f)
  ++ map (insert_grant t) (FGrants f)
  ++ imap (fun i r => insert_routing t (Z.of_nat i + 1) r) (FRouting f).
(** [seedAccess], given the text of the tenant's fixture, if there is one. *)
Definition seedAccess `{Yaml} (t : uuid) (slug : string) (file : option string) (d : AccessTables) : M unit * AccessTables :=
  match match file with Some b => ParseFixture b | None => Err (EPlain "file does not exist") end with
  | Err e => (Err (EWrap ("access " +:+ slug) e), d)
  | Ok f => let '(r, d) := in_transaction (seed_statements t f) d in (of_driver r, d)
  end.

Definition addMember (t : uuid) (subject team role : string) (d : AccessTables) : M unit * AccessTables :=
  if slices_contains Roles (Role_of role) then
    match fault 0 with
    | Some e => (of_driver (Err e), d)
    | None => match upsert_member t team subject (Role_of role) d with Ok d' => (Ok tt, d') | Err e => (of_driver (Err e), d) end
    end
  else (Err (EPlain ("role " +:+ quoted role +:+ " is not one of [junior senior lead]")), d).
Definition removeMember (t : uuid) (subject team : string) (d : AccessTables) : M Z * AccessTables :=
  match fault 0 with
  | Some e => (of_driver (Err e), d)
  | None =>
      match delete_member t team subject d with
      | Ok d' => (Ok (Z.of_nat (count (is_member t team subject) (at_members d))), d')
      | Err e => (of_driver (Err e), d)
      end
  end.
(** The rows of a tenant, in the order of the database's collation. *)
Definition listMembers `{Collation} (t : uuid) (d : AccessTables) : M (list (string * string * string)) :=
  match fault 0 with
  | Some e => of_driver (Err e)
  | None =>
      Ok (map (fun r => (MTeam (bw_Membership r), bw_Subject r, Role_string (MRole (bw_Membership r))))
        (order_by (fun a b => collates_before (MTeam (bw_Membership a)) (MTeam (bw_Membership b))
                    || bool_decide (MTeam (bw_Membership a) = MTeam (bw_Membership b)) && collates_before (bw_Subject a) (bw_Subject b))
          (List.filter (fun r => bool_decide (bw_TenantID r = t)) (at_members d))))
  end.

(** What [tenant member] prints; the padding of its columns is left out. *)
Inductive MemberOutput : Type :=
| PlacedIn (subject role team slug : string) | Removed (n : Z) | Members (rows : list (string * string * string)).
(** [member], given its first argument, the flags it parsed and what [idForSlug] answers. *)
Definition member `{Collation} (command : option string) (id : M uuid) (slug subject team role : string) (d : AccessTables)
    : M MemberOutput * AccessTables :=
  match command with
  | None => (Err (EPlain "usage: tenant member add|remove|list"), d)
  | Some command =>
      match id with
      | Err e => (Err e, d)
      | Ok t =>
          if bool_decide (command = "add") then
            if bool_decide (subject = "") || bool_decide (team = "") then (Err (EPlain "member add needs --subject, --team and --role"), d)
            else match addMember t subject team role d with
                 | (Ok _, d) => (Ok (PlacedIn subject role team slug), d)
                 | (Err e, d) => (Err e, d)
                 end
          else if bool_decide (command = "remove") then
            match removeMember t subject team d with (Ok n, d) => (Ok (Removed n), d) | (Err e, d) => (Err e, d) end
          else if bool_decide (command = "list") then (Members <$> listMembers t d, d)
          else (Err (EPlain ("unknown member command " +:+ quoted command)), d)
      end
  end.
End commands.
End provision.
