(* ===== verification/ProvisionFacts.v ===== *)
(** * ProvisionFacts: a tenant's access data stays in order, its version tells it, and the engine follows it. *)
From Stdlib Require Import QArith.
From S2P Require Import Prelude Errs GoTime GoJson Ext Types Regimes Lifecycle Deadlines Ledger Questionnaire Risk Text Wire Access Authz AuthzFacts Fixture Store Sql PgStore Directory Provision.
Local Open Scope Z_scope.

(** ** Lists of rows *)
Lemma without_none {A} (f : A -> bool) l : count f l = 0%nat -> without f l = l.
Proof.
  unfold count, without. induction l as [|a l IH]; [done|]. cbn. destruct (f a); cbn; [done|]. intros H. by rewrite IH.
Qed.
Lemma filter_without {A} (g f : A -> bool) l : (forall a, f a = true -> g a = false) -> List.filter g (without f l) = List.filter g l.
Proof.
  intros H. unfold without. induction l as [|a l IH]; [done|]. cbn. destruct (f a) eqn:E; cbn; [by rewrite (H a E)|].
  by rewrite IH.
Qed.
Lemma filter_update {A} (g h : A -> bool) (k : A -> A) l : (forall a, h a = true -> g a = false /\ g (k a) = false) ->
  List.filter g (map (fun a => if h a then k a else a) l) = List.filter g l.
Proof.
  intros H. induction l as [|a l IH]; [done|]. cbn. destruct (h a) eqn:E; [|by rewrite IH].
  destruct (H a E) as [-> ->]. exact IH.
Qed.
Lemma update_none {A} (h : A -> bool) (k : A -> A) l : count h l = 0%nat -> map (fun a => if h a then k a else a) l = l.
Proof. unfold count. induction l as [|a l IH]; [done|]. cbn. destruct (h a); cbn; [done|]. intros H. by rewrite IH. Qed.
Lemma filter_snoc {A} (g : A -> bool) l a : g a = false -> List.filter g (l ++ [a]) = List.filter g l.
Proof. intros H. rewrite List.filter_app. cbn. by rewrite H, app_nil_r. Qed.
Lemma elem_of_without {A} (f : A -> bool) l a : a ∈ without f l <-> a ∈ l /\ f a = false.
Proof. unfold without. by rewrite !list_elem_of_In, filter_In, negb_true_iff. Qed.
Lemma NoDup_without {A B} (key : A -> B) f l : NoDup (map key l) -> NoDup (map key (without f l)).
Proof.
  induction l as [|a l IH]; [done|]. cbn. intros [Ha H]%list.NoDup_cons. destruct (f a); cbn; [by apply IH|].
  apply list.NoDup_cons. split; [|by apply IH]. intros (b & E & [Hb _]%elem_of_without)%list_elem_of_fmap. apply Ha. rewrite E. by apply list_elem_of_fmap_2.
Qed.
Lemma NoDup_snoc {A B} (key : A -> B) l a : NoDup (map key l) -> key a ∉ map key l -> NoDup (map key (l ++ [a])).
Proof.
  intros H Ha. rewrite map_app. apply list.NoDup_app. split_and!; [done| |by apply NoDup_singleton].
  intros x Hx ->%list_elem_of_singleton. by apply Ha.
Qed.
(** A scan that found no row says the key is new. *)
Lemma key_new {A B} (key : A -> B) (same : A -> bool) l k : (forall a, key a = k -> same a = true) -> existsb same l = false -> k ∉ map key l.
Proof.
  intros H E (a & -> & Ha)%list_elem_of_fmap. apply not_true_iff_false in E. apply E, existsb_exists.
  exists a. rewrite <- list_elem_of_In. split; [done|by apply H].
Qed.
Lemma Forall_without {A} (P : A -> Prop) f l : Forall P l -> Forall P (without f l).
Proof. rewrite !list.Forall_forall. intros H a [Ha _]%elem_of_without. by apply H. Qed.

Lemma Ok_inj {E A} (a b : A) : @Ok E A a = Ok b -> a = b.
Proof. by intros [= ->]. Qed.

Section facts.
Context `{DC : Decimal} `{UU : UUID} {NU : Numeric}.
Implicit Types (d : AccessTables) (t : uuid).

(** ** Versions tell data apart *)
Definition version t d : Z := default 0 (at_versions d !! t).
Definition same_rows t d d' : Prop :=
  List.filter (team_of t) (at_teams d) = List.filter (team_of t) (at_teams d') /\
  List.filter (fun r => bool_decide (bw_TenantID r = t)) (at_members d) = List.filter (fun r => bool_decide (bw_TenantID r = t)) (at_members d') /\
  List.filter (grant_of t) (at_grants d) = List.filter (grant_of t) (at_grants d') /\
  List.filter (routing_of t) (at_routing d) = List.filter (routing_of t) (at_routing d').
(** Versions never go back, and one that did not move stands for the same rows. *)
Definition tracked d d' : Prop := forall t, version t d <= version t d' /\ (version t d = version t d' -> same_rows t d d').

#[export] Instance same_rows_equivalence t : Equivalence (same_rows t).
Proof.
  split; [done|by intros d d' (? & ? & ? & ?)|].
  intros d1 d2 d3 (E1 & E2 & E3 & E4) (F1 & F2 & F3 & F4). unfold same_rows. by rewrite E1, E2, E3, E4.
Qed.
#[export] Instance tracked_preorder : PreOrder tracked.
Proof.
  split; [intros d t; done|]. intros d1 d2 d3 H1 H2 t. destruct (H1 t) as [L1 S1], (H2 t) as [L2 S2]. split; [lia|].
  intros E. transitivity d2; [apply S1|apply S2]; lia.
Qed.

Lemma tracked_bump t0 n d d' : at_versions d' = bump_policy_version t0 n (at_versions d) ->
  (forall t, t <> t0 \/ n = 0%nat -> same_rows t d d') -> tracked d d'.
Proof.
  intros Hv Hs t. unfold version. rewrite Hv. destruct n as [|n]; cbn [bump_policy_version]; [split; [done|intros _; apply Hs; by right]|].
  destruct (decide (t = t0)) as [->|Hne].
  - rewrite lookup_insert_eq. set (v := default 0 (at_versions d !! t0)). change (default 0 (Some (v + Z.of_nat (S n)))) with (v + Z.of_nat (S n)). split; lia.
  - rewrite lookup_insert_ne by done. split; [done|]. intros _. apply Hs. by left.
Qed.

Definition tracks (s : AStmt) : Prop := forall d d', s d = Ok d' -> tracked d d'.

(** Rows of one tenant are not another's. *)
Ltac others :=
  first [apply filter_without | apply filter_update | apply filter_snoc];
  unfold team_of, is_team, member_of, is_member, grant_of, routing_of, team_of; cbn;
  intros; to_prop; repeat (case_bool_decide; try congruence); try (split; congruence); done.
Ltac tracked_tac :=
  intros d d' H; repeat (apply bind_ok in H as (? & ? & H)); apply Ok_inj in H; subst d';
  eapply tracked_bump; [reflexivity|];
  let t := fresh "t" in
  let Ht := fresh in let Hn := fresh in
  intros t [Ht|Hn]; [|try discriminate Hn]; unfold same_rows; cbn; rewrite ?(without_none _ _ Hn), ?(update_none _ _ _ Hn) || idtac; split_and!; try done; symmetry; others.

Lemma tracks_delete_routing t : tracks (delete_routing t). Proof. tracked_tac. Qed.
Lemma tracks_delete_grants t : tracks (delete_grants t). Proof. tracked_tac. Qed.
Lemma tracks_delete_members t subjects : tracks (delete_members t subjects). Proof. tracked_tac. Qed.
Lemma tracks_delete_member t team subject : tracks (delete_member t team subject). Proof. tracked_tac. Qed.
Lemma tracks_undefault t : tracks (undefault t). Proof. tracked_tac. Qed.
Lemma tracks_upsert_team t slug b : tracks (upsert_team t slug b).
Proof.
  intros d d' H. apply bind_ok in H as (? & _ & H). apply bind_ok in H as (? & _ & H). apply Ok_inj in H. subst d'.
  eapply tracked_bump; [reflexivity|]. intros t' [Ht|Hn]; [|discriminate Hn]. unfold same_rows; cbn. split_and!; try done. symmetry.
  destruct (has_team d t slug); others.
Qed.
Lemma tracks_insert_member t team subject role : tracks (insert_member t team subject role). Proof. tracked_tac. Qed.
Lemma tracks_upsert_member t team subject role : tracks (upsert_member t team subject role).
Proof.
  intros d d' H. unfold upsert_member in H. destruct (existsb _ _); [|by eapply tracks_insert_member].
  revert d d' H. tracked_tac.
Qed.
Lemma tracks_insert_grant t g : tracks (insert_grant t g). Proof. tracked_tac. Qed.
Lemma tracks_insert_routing t i r : tracks (insert_routing t i r). Proof. tracked_tac. Qed.


(** ** Data in order *)
Definition team_key (r : TeamRow) : uuid * string := (gw_TenantID r, gw_Slug r).
Definition member_key (r : MemberRow) : uuid * string * string := (bw_TenantID r, MTeam (bw_Membership r), bw_Subject r).
Definition grant_key (r : GrantRow) : uuid * (string * Role * Action) :=
  (vw_TenantID r, (GTeam (vw_Grant r), GRole (vw_Grant r), GAction (vw_Grant r))).
Definition routing_key (r : RoutingRow) : uuid * Z := (ow_TenantID r, ow_Position r).

(** The keys, references and checks of the tables. *)
Record in_order d : Prop := {
  or_teams : NoDup (map team_key (at_teams d));
  or_default : forall r r', r ∈ at_teams d -> r' ∈ at_teams d -> gw_TenantID r = gw_TenantID r' ->
    gw_IsDefault r = true -> gw_IsDefault r' = true -> gw_Slug r = gw_Slug r';
  or_members : NoDup (map member_key (at_members d));
  or_member : Forall (fun r => has_team d (bw_TenantID r) (MTeam (bw_Membership r)) = true /\ MRole (bw_Membership r) ∈ Roles) (at_members d);
  or_grants : NoDup (map grant_key (at_grants d));
  or_grant : Forall (fun r => has_team d (vw_TenantID r) (GTeam (vw_Grant r)) = true /\ GRole (vw_Grant r) ∈ Roles /\
    safeAction (GAction (vw_Grant r)) = true /\ limit_in_range (GAmountLimit (vw_Grant r)) = true) (at_grants d);
  or_positions : NoDup (map routing_key (at_routing d));
  or_rule : Forall (fun r => has_team d (ow_TenantID r) (RTeam (ow_Rule r)) = true) (at_routing d)
}.
Definition keeps_order (s : AStmt) : Prop := forall d d', in_order d -> s d = Ok d' -> in_order d'.

Lemma has_team_spec d t slug : has_team d t slug = true <-> (t, slug) ∈ map team_key (at_teams d).
Proof.
  unfold has_team. rewrite existsb_exists. split.
  - intros (r & Hr & [H1 H2]%andb_true_iff). unfold team_of in H1. to_prop. subst. apply list_elem_of_fmap. exists r. by rewrite list_elem_of_In.
  - intros (r & E & Hr)%list_elem_of_fmap. injection E as -> ->. exists r. rewrite <- list_elem_of_In. split; [done|].
    unfold is_team, team_of. by rewrite !bool_decide_true.
Qed.
Lemma has_team_agree d d' : map team_key (at_teams d') = map team_key (at_teams d) -> forall t slug, has_team d' t slug = has_team d t slug.
Proof. intros E t slug. apply Bool.eq_true_iff_eq. by rewrite !has_team_spec, E. Qed.

(** Changing the teams keeps the rest as long as no team goes. *)
Lemma order_teams d teams v : in_order d -> NoDup (map team_key teams) ->
  (forall r r', r ∈ teams -> r' ∈ teams -> gw_TenantID r = gw_TenantID r' -> gw_IsDefault r = true -> gw_IsDefault r' = true -> gw_Slug r = gw_Slug r') ->
  (forall k, k ∈ map team_key (at_teams d) -> k ∈ map team_key teams) ->
  in_order (mkAccessTables teams (at_members d) (at_grants d) (at_routing d) v).
Proof.
  intros [] Hnd Hdef Hsub.
  assert (Hh : forall t slug, has_team d t slug = true -> has_team (mkAccessTables teams (at_members d) (at_grants d) (at_routing d) v) t slug = true)
    by (intros t slug; rewrite !has_team_spec; apply Hsub).
  split; try done; cbn [at_members at_grants at_routing].
  - eapply list.Forall_impl; [exact or_member0|]. intros r [H1 H2]. split; [by apply Hh|done].
  - eapply list.Forall_impl; [exact or_grant0|]. intros r [H1 H2]. split; [by apply Hh|done].
  - eapply list.Forall_impl; [exact or_rule0|]. intros r H1. by apply Hh.
Qed.

Ltac order_tac :=
  intros d d' [] H; repeat (apply bind_ok in H as (? & ? & H)); apply Ok_inj in H; subst d'; split; cbn; try done;
  auto using NoDup_without, Forall_without.

Lemma order_delete_routing t : keeps_order (delete_routing t). Proof. order_tac. Qed.
Lemma order_delete_grants t : keeps_order (delete_grants t). Proof. order_tac. Qed.
Lemma order_delete_members t subjects : keeps_order (delete_members t subjects). Proof. order_tac. Qed.
Lemma order_delete_member t team subject : keeps_order (delete_member t team subject). Proof. order_tac. Qed.

Lemma undefault_keys t l : map team_key (map (fun r => if team_of t r then mkTeamRow (gw_TenantID r) (gw_Slug r) false else r) l) = map team_key l.
Proof. rewrite map_map. apply map_ext. intros r. by destruct (team_of t r). Qed.
Lemma order_undefault t : keeps_order (undefault t).
Proof.
  intros d d' Ho H. apply Ok_inj in H. subst d'. apply order_teams; [done|rewrite undefault_keys; by apply or_teams| |by rewrite undefault_keys].
  intros r r' (x & -> & Hx)%list_elem_of_fmap (x' & -> & Hx')%list_elem_of_fmap.
  destruct (team_of t x), (team_of t x'); cbn; intros; try done. by apply (or_default _ Ho).
Qed.

Lemma upsert_keys t slug b l : map team_key (map (fun r => if is_team t slug r then mkTeamRow t slug b else r) l) = map team_key l.
Proof.
  rewrite map_map. apply map_ext. intros r. destruct (is_team t slug r) eqn:E; [|done]. apply andb_true_iff in E as [E1 E2]. unfold team_of in E1. to_prop. unfold team_key. cbn.
  by rewrite E1, E2.
Qed.
Lemma check_ok b c u : check b c = Ok u -> b = true. Proof. unfold check. by destruct b. Qed.
Lemma unique_ok b c u : unique b c = Ok u -> b = true. Proof. unfold unique. by destruct b. Qed.
Lemma references_ok b c u : references b c = Ok u -> b = true. Proof. unfold references. by destruct b. Qed.

Lemma order_upsert_team t slug b : keeps_order (upsert_team t slug b).
Proof.
  intros d d' Ho H. apply bind_ok in H as (u0 & _ & H). apply bind_ok in H as (u & Hu%unique_ok & H). apply Ok_inj in H. subst d'.
  apply negb_true_iff in Hu.
  assert (Hone : b = true -> forall r, r ∈ at_teams d -> gw_TenantID r = t -> gw_IsDefault r = true -> gw_Slug r = slug).
  { intros -> r Hr Ht Hd. cbn [andb] in Hu. destruct (decide (gw_Slug r = slug)) as [|Hne]; [done|exfalso].
    apply not_true_iff_false in Hu. apply Hu, existsb_exists. exists r. rewrite <- list_elem_of_In. split; [done|].
    unfold team_of. by rewrite (bool_decide_true _ Ht), Hd, (bool_decide_false _ Hne). }
  destruct (has_team d t slug) eqn:Eh.
  - apply order_teams; [done|rewrite upsert_keys; by apply or_teams| |by rewrite upsert_keys].
    intros r r' (x & -> & Hx)%list_elem_of_fmap (x' & -> & Hx')%list_elem_of_fmap.
    destruct (is_team t slug x) eqn:E, (is_team t slug x') eqn:E'; cbn; intros Ht Hd Hd'; try done.
    + symmetry. by apply Hone.
    + by apply Hone.
    + by apply (or_default _ Ho).
  - apply order_teams; [done| | |intros k Hk; rewrite map_app; apply elem_of_app; by left].
    + apply NoDup_snoc; [by apply or_teams|]. intros Hk. apply (has_team_spec d t slug) in Hk. congruence.
    + intros r r' [Hr|Hr%list_elem_of_singleton]%elem_of_app [Hr'|Hr'%list_elem_of_singleton]%elem_of_app; subst; cbn; intros Ht Hd Hd'; try done.
      * by apply (or_default _ Ho).
      * by apply Hone.
      * symmetry. by apply Hone.
Qed.

Lemma order_insert_member t team subject role : keeps_order (insert_member t team subject role).
Proof.
  intros d d' Ho H. apply bind_ok in H as (un1 & Hc%check_ok & H). apply bind_ok in H as (un2 & Hu%unique_ok & H).
  apply bind_ok in H as (un3 & Hr%references_ok & H). apply Ok_inj in H. subst d'. apply slices_contains_spec in Hc. apply negb_true_iff in Hu.
  destruct Ho. split; cbn; try done.
  - apply NoDup_snoc; [done|]. eapply key_new; [|exact Hu]. intros r [= <- <- <-]. unfold is_member. by rewrite !bool_decide_true.
  - apply Forall_app. split; [done|]. by apply list.Forall_singleton.
Qed.
Lemma order_upsert_member t team subject role : keeps_order (upsert_member t team subject role).
Proof.
  intros d d' Ho H. unfold upsert_member in H. destruct (existsb _ _); [|by eapply order_insert_member].
  apply bind_ok in H as (un4 & Hc%check_ok & H). apply Ok_inj in H. subst d'. apply slices_contains_spec in Hc.
  destruct Ho. split; cbn; try done.
  - rewrite map_map. erewrite map_ext; [exact or_members0|]. intros r. destruct (is_member t team subject r) eqn:E; [|done].
    apply andb_true_iff in E as [[E1 E2]%andb_true_iff E3]. to_prop. unfold member_key. cbn. by rewrite E1, E2, E3.
  - rewrite list.Forall_forall in or_member0. apply list.Forall_forall. intros r (x & -> & Hx)%list_elem_of_fmap.
    destruct (is_member t team subject x) eqn:E; [|by apply or_member0]. apply andb_true_iff in E as [[E1 E2]%andb_true_iff E3]. to_prop.
    cbn. split; [|done]. rewrite <- E1, <- E2. by apply or_member0.
Qed.
Lemma order_insert_grant t g : keeps_order (insert_grant t g).
Proof.
  intros d d' Ho H. apply bind_ok in H as (limit & _ & H). apply bind_ok in H as (un5 & Hc%check_ok & H).
  apply bind_ok in H as (un6 & Ha%check_ok & H). apply bind_ok in H as (un7 & Hl%check_ok & H). apply bind_ok in H as (un8 & Hu%unique_ok & H).
  apply bind_ok in H as (un9 & Hr%references_ok & H). apply Ok_inj in H. subst d'. apply slices_contains_spec in Hc. apply negb_true_iff in Hu.
  destruct Ho. split; cbn; try done.
  - apply NoDup_snoc; [done|]. eapply key_new; [|exact Hu]. unfold grant_key. cbn. intros r E. unfold same_grant.
    injection E as E1 E2 E3 E4. by rewrite !bool_decide_true.
  - apply Forall_app. split; [done|]. by apply list.Forall_singleton.
Qed.
Lemma order_insert_routing t i r : keeps_order (insert_routing t i r).
Proof.
  intros d d' Ho H. apply bind_ok in H as (mn & _ & H). apply bind_ok in H as (un10 & Hu%unique_ok & H).
  apply bind_ok in H as (un11 & Hr%references_ok & H). apply Ok_inj in H. subst d'. apply negb_true_iff in Hu.
  destruct Ho. split; cbn; try done.
  - apply NoDup_snoc; [done|]. eapply key_new; [|exact Hu]. unfold routing_key. cbn. intros x E.
    injection E as E1 E2. rewrite bool_decide_true by done. by apply Z.eqb_eq.
  - apply Forall_app. split; [done|]. by apply list.Forall_singleton.
Qed.
Lemma order_insert_team t slug b : keeps_order (insert_team t slug b).
Proof. intros d d' Ho (u & _ & H)%bind_ok. by eapply order_upsert_team. Qed.
Lemma tracks_insert_team t slug b : tracks (insert_team t slug b).
Proof. intros d d' (u & _ & H)%bind_ok. by eapply tracks_upsert_team. Qed.

(** ** Commands *)
Definition sound (s : AStmt) : Prop := keeps_order s /\ tracks s.
Lemma sound_delete_routing t : sound (delete_routing t). Proof. split; [apply order_delete_routing|apply tracks_delete_routing]. Qed.
Lemma sound_delete_grants t : sound (delete_grants t). Proof. split; [apply order_delete_grants|apply tracks_delete_grants]. Qed.
Lemma sound_undefault t : sound (undefault t). Proof. split; [apply order_undefault|apply tracks_undefault]. Qed.
Lemma sound_delete_members t l : sound (delete_members t l). Proof. split; [apply order_delete_members|apply tracks_delete_members]. Qed.
Lemma sound_delete_member t team subject : sound (delete_member t team subject). Proof. split; [apply order_delete_member|apply tracks_delete_member]. Qed.
Lemma sound_upsert_team t slug b : sound (upsert_team t slug b). Proof. split; [apply order_upsert_team|apply tracks_upsert_team]. Qed.
Lemma sound_insert_team t slug b : sound (insert_team t slug b). Proof. split; [apply order_insert_team|apply tracks_insert_team]. Qed.
Lemma sound_insert_member t team subject role : sound (insert_member t team subject role). Proof. split; [apply order_insert_member|apply tracks_insert_member]. Qed.
Lemma sound_upsert_member t team subject role : sound (upsert_member t team subject role). Proof. split; [apply order_upsert_member|apply tracks_upsert_member]. Qed.
Lemma sound_insert_grant t g : sound (insert_grant t g). Proof. split; [apply order_insert_grant|apply tracks_insert_grant]. Qed.
Lemma sound_insert_routing t i r : sound (insert_routing t i r). Proof. split; [apply order_insert_routing|apply tracks_insert_routing]. Qed.
#[local] Hint Resolve sound_delete_routing sound_delete_grants sound_undefault sound_delete_members sound_delete_member sound_upsert_team
  sound_insert_team sound_insert_member sound_upsert_member sound_insert_grant sound_insert_routing : core.

Lemma run_sound fault n stmts d d' : Forall sound stmts -> run_statements fault n stmts d = Ok d' ->
  (in_order d -> in_order d') /\ tracked d d'.
Proof.
  intros H. revert n d. induction H as [|s stmts [Hk Ht] _ IH]; intros n d; cbn; destruct (fault n); try done; [by intros [= <-]|].
  intros (d1 & H1 & H2)%bind_ok. destruct (IH _ _ H2) as [I1 I2]. split; [intros Ho; apply I1; by eapply Hk|].
  transitivity d1; [by apply Ht|done].
Qed.
Lemma seed_sound t f : Forall sound (seed_statements t f).
Proof.
  unfold seed_statements. repeat apply Forall_app_2; [repeat (apply list.Forall_cons_2; [by auto|]); constructor|..]; apply list.Forall_forall.
  - intros s (x & -> & _)%list_elem_of_fmap. auto.
  - intros s (x & -> & _)%list_elem_of_fmap. auto.
  - intros s (x & -> & _)%list_elem_of_fmap. auto.
  - intros s (i & x & -> & _)%elem_of_lookup_imap. auto.
Qed.
Lemma default_sound t : Forall sound (default_access t).
Proof.
  apply list.Forall_cons_2; [by auto|]. apply Forall_app_2; [|by apply list.Forall_singleton].
  apply list.Forall_forall. intros s (x & -> & _)%list_elem_of_fmap. auto.
Qed.
Lemma transaction_sound fault stmts d r d' : Forall sound stmts -> in_transaction fault stmts d = (r, d') ->
  (in_order d -> in_order d') /\ tracked d d'.
Proof.
  intros Hs. unfold in_transaction. destruct (fault 0%nat); [by intros [= _ <-]|].
  destruct (run_statements fault 1 stmts d) as [d1|] eqn:E; intros [= _ <-]; [by eapply run_sound|done].
Qed.

(** Whatever changes a tenant's access data: seeding, an operator's command, a tenant being made. *)
Inductive access_step `{Yaml} `{Collation} d : AccessTables -> Prop :=
| step_seed fault t slug file r d' : seedAccess fault t slug file d = (r, d') -> access_step d d'
| step_member fault command id slug subject team role r d' : member fault command id slug subject team role d = (r, d') -> access_step d d'
| step_onboard fault t r d' : in_transaction fault (default_access t) d = (r, d') -> access_step d d'.

Lemma addMember_sound fault t subject team role d r d' : addMember fault t subject team role d = (r, d') ->
  (in_order d -> in_order d') /\ tracked d d'.
Proof.
  unfold addMember. destruct (slices_contains _ _); [|by intros [= _ <-]]. destruct (fault 0%nat); [by intros [= _ <-]|].
  destruct (upsert_member t team subject (Role_of role) d) as [d1|] eqn:E; intros [= _ <-]; [|done].
  destruct (sound_upsert_member t team subject (Role_of role)) as [H1 H2]. split; [intros Ho; by eapply H1|by apply H2].
Qed.
Lemma removeMember_sound fault t subject team d r d' : removeMember fault t subject team d = (r, d') ->
  (in_order d -> in_order d') /\ tracked d d'.
Proof.
  unfold removeMember. destruct (fault 0%nat); [by intros [= _ <-]|].
  destruct (delete_member t team subject d) as [d1|] eqn:E; intros [= _ <-]; [|done].
  destruct (sound_delete_member t team subject) as [H1 H2]. split; [intros Ho; by eapply H1|by apply H2].
Qed.
Lemma step_sound `{Yaml} `{Collation} d d' : access_step d d' -> (in_order d -> in_order d') /\ tracked d d'.
Proof.
  intros [fault t slug file r d1 H1|fault command id slug subject team role r d1 H1|fault t r d1 H1].
  - unfold seedAccess in H1. destruct (match file with Some b => ParseFixture b | None => _ end) as [f|]; [|by injection H1 as _ <-].
    destruct (in_transaction fault (seed_statements t f) d) as [r' d2] eqn:E. injection H1 as _ <-.
    eapply transaction_sound; [apply seed_sound|exact E].
  - unfold member in H1. destruct command as [command|]; [|by injection H1 as _ <-]. destruct id as [t|]; [|by injection H1 as _ <-].
    case_bool_decide; [destruct (_ || _); [by injection H1 as _ <-|]|].
    { destruct (addMember fault t subject team role d) as [r' d2] eqn:E. eapply addMember_sound. rewrite E. by destruct r'; injection H1 as _ <-. }
    case_bool_decide; [|case_bool_decide; by injection H1 as _ <-].
    destruct (removeMember fault t subject team d) as [r' d2] eqn:E. eapply removeMember_sound. rewrite E. by destruct r'; injection H1 as _ <-.
  - eapply transaction_sound; [apply default_sound|exact H1].
Qed.
End facts.
