(* ===== verification/SeedFacts.v ===== *)
(** * SeedFacts: seeding a tenant's access data again changes nothing. *)
From Stdlib Require Import QArith.
From S2P Require Import Prelude Errs GoTime GoJson Ext Types Regimes Lifecycle Deadlines Ledger Questionnaire Risk Text Wire Access Authz AuthzFacts Fixture Store Sql PgStore Directory Provision ProvisionFacts.
Local Open Scope Z_scope.

(** Lists of the same keys, one holding the other, are one list. *)
Lemma same_keys {A B} (key : A -> B) l1 l2 : map key l1 = map key l2 -> NoDup (map key l1) -> (forall a, a ∈ l1 -> a ∈ l2) -> l1 = l2.
Proof.
  revert l2. induction l1 as [|a l1 IH]; intros [|a2 l2] E Hn Hs; try done.
  cbn in E, Hn. injection E as Ea El. apply list.NoDup_cons in Hn as [Ha Hn].
  assert (Hk : forall b, b ∈ l2 -> key b <> key a) by (intros b Hb Eb; apply Ha; rewrite El, <- Eb; by apply list_elem_of_fmap_2).
  assert (E2 : a2 = a).
  { assert (Ha' : a ∈ a2 :: l2) by (apply Hs; left). apply elem_of_cons in Ha' as [E|Hin]; [done|]. by destruct (Hk a). }
  subst a2. f_equal. apply IH; [done|done|]. intros b Hb. assert (Hb' : b ∈ a :: l2) by (apply Hs; by right).
  apply elem_of_cons in Hb' as [->|Hin]; [|done]. destruct Ha. by apply list_elem_of_fmap_2.
Qed.
Lemma without_twice {A} (f : A -> bool) l : without f (without f l) = without f l.
Proof. unfold without. induction l as [|a l IH]; [done|]. cbn. destruct (f a) eqn:E; cbn; [done|]. rewrite E. cbn. by rewrite IH. Qed.
Lemma without_snoc {A} (f : A -> bool) l a : f a = true -> without f (l ++ [a]) = without f l.
Proof. intros E. unfold without. rewrite List.filter_app. cbn. by rewrite E, app_nil_r. Qed.

Section seeding.
Context `{DC : Decimal} `{UU : UUID} {NU : Numeric} {YA : Yaml}.
Implicit Types (d : AccessTables) (t : uuid).

(** ** Statements in a row, nothing befalling them *)
Fixpoint all_of (stmts : list AStmt) d : sql AccessTables :=
  match stmts with [] => Ok d | s :: stmts => d ← s d; all_of stmts d end.
Definition never (n : nat) : option driver_error := None.
Lemma run_all fault n stmts d d' : run_statements fault n stmts d = Ok d' -> all_of stmts d = Ok d'.
Proof.
  revert n d. induction stmts as [|s stmts IH]; intros n d; cbn; destruct (fault n); try done.
  intros (d1 & E & H)%bind_ok. rewrite E. by apply (IH (S n)).
Qed.
Lemma never_all n stmts d : run_statements never n stmts d = all_of stmts d.
Proof. revert n d. induction stmts as [|s stmts IH]; intros n d; cbn; [done|]. destruct (s d); [apply IH|done]. Qed.
Lemma all_app a b d : all_of (a ++ b) d = (d ← all_of a d; all_of b d).
Proof. revert d. induction a as [|s a IH]; intros d; cbn; [done|]. destruct (s d); [apply IH|done]. Qed.

(** ** Only the rows matter *)
Record same_tables d d' : Prop := {
  sm_teams : at_teams d = at_teams d';
  sm_members : at_members d = at_members d';
  sm_grants : at_grants d = at_grants d';
  sm_routing : at_routing d = at_routing d'
}.
Definition by_rows (s : AStmt) : Prop := forall d d2 d', same_tables d d2 -> s d = Ok d' -> exists d2', s d2 = Ok d2' /\ same_tables d' d2'.
Ltac by_rows_tac :=
  intros [] [] d' [] H; cbn in *; subst; unfold insert_member, insert_grant, insert_routing, has_team in *; cbn in *;
  repeat match type of H with context [mbind _ ?m] => destruct m; [cbn in *|done] end;
  injection H as <-; by eexists.
Lemma rows_insert_member t team subject role : by_rows (insert_member t team subject role). Proof. by_rows_tac. Qed.
Lemma rows_insert_grant t g : by_rows (insert_grant t g). Proof. by_rows_tac. Qed.
Lemma rows_insert_routing t i r : by_rows (insert_routing t i r). Proof. by_rows_tac. Qed.
#[local] Hint Resolve rows_insert_member rows_insert_grant rows_insert_routing : core.
Lemma all_by_rows stmts d d2 d' : Forall by_rows stmts -> same_tables d d2 -> all_of stmts d = Ok d' ->
  exists d2', all_of stmts d2 = Ok d2' /\ same_tables d' d2'.
Proof.
  intros Hs. revert d d2. induction Hs as [|s stmts Hs _ IH]; intros d d2 E H; cbn in H |- *; [injection H as <-; eauto|].
  apply bind_ok in H as (d1 & H1 & H). destruct (Hs d d2 d1 E H1) as (d3 & -> & E3). by apply (IH d1 d3).
Qed.

(** ** What an insert leaves of the rows the next seeding starts from *)
Definition kept_rows t subjects d d' : Prop :=
  at_teams d' = at_teams d /\ without (member_of t subjects) (at_members d') = without (member_of t subjects) (at_members d) /\
  without (grant_of t) (at_grants d') = without (grant_of t) (at_grants d) /\
  without (routing_of t) (at_routing d') = without (routing_of t) (at_routing d).
Definition only_adds t subjects (s : AStmt) : Prop := forall d d', s d = Ok d' -> kept_rows t subjects d d'.
Ltac adds_tac := intros d d' H; repeat (apply bind_ok in H as (? & ? & H)); apply Ok_inj in H; subst d'; unfold kept_rows; cbn;
  split_and!; try done; apply without_snoc; unfold member_of, grant_of, routing_of; cbn; by rewrite bool_decide_true.
Lemma adds_member t subjects team subject role : subject ∈ subjects -> only_adds t subjects (insert_member t team subject role).
Proof. intros Hs%slices_contains_spec. adds_tac. Qed.
Lemma adds_grant t subjects g : only_adds t subjects (insert_grant t g). Proof. adds_tac. Qed.
Lemma adds_routing t subjects i r : only_adds t subjects (insert_routing t i r). Proof. adds_tac. Qed.
Lemma all_adds t subjects stmts d d' : Forall (only_adds t subjects) stmts -> all_of stmts d = Ok d' -> kept_rows t subjects d d'.
Proof.
  intros Hs. revert d. induction Hs as [|s stmts Hs _ IH]; intros d H; cbn in H; [by injection H as <-|].
  apply bind_ok in H as (d1 & H1%Hs & H%IH). destruct H1 as (E1 & E2 & E3 & E4), H as (F1 & F2 & F3 & F4).
  unfold kept_rows. by rewrite F1, F2, F3, F4.
Qed.
Definition inserts t (f : Fixture) : list AStmt :=
  map (fun m => insert_member t (FMTeam m) (FMSubject m) (FMRole m)) (FMembers f) ++ map (insert_grant t) (FGrants f)
  ++ imap (fun i r => insert_routing t (Z.of_nat i + 1) r) (FRouting f).
Lemma inserts_each (P : AStmt -> Prop) t f :
  (forall team subject role, subject ∈ map FMSubject (FMembers f) -> P (insert_member t team subject role)) ->
  (forall g, P (insert_grant t g)) -> (forall i r, P (insert_routing t i r)) -> Forall P (inserts t f).
Proof.
  intros Hm Hg Hr. unfold inserts. repeat apply Forall_app_2; apply list.Forall_forall.
  - intros s (x & -> & Hx)%list_elem_of_fmap. apply Hm. by apply list_elem_of_fmap_2.
  - intros s (x & -> & _)%list_elem_of_fmap. apply Hg.
  - intros s (i & x & -> & _)%elem_of_lookup_imap. apply Hr.
Qed.

(** ** Teams, updated in place *)
Lemma upsert_in t slug b d d' : upsert_team t slug b d = Ok d' -> forall r,
  r ∈ at_teams d' <-> r = mkTeamRow t slug b \/ (r ∈ at_teams d /\ is_team t slug r = false).
Proof.
  intros H r. apply bind_ok in H as (u1 & _ & H). apply bind_ok in H as (u2 & _ & H). apply Ok_inj in H. subst d'. cbn.
  destruct (has_team d t slug) eqn:Eh.
  - unfold has_team in Eh. apply existsb_exists in Eh as (y & Hy%list_elem_of_In & Ey). split.
    + intros (x & -> & Hx)%list_elem_of_fmap. destruct (is_team t slug x) eqn:E; [by left|by right].
    + intros [->|[Hr E]]; apply list_elem_of_fmap; [exists y; by rewrite Ey|exists r; by rewrite E].
  - rewrite elem_of_app, list_elem_of_singleton. split; [intros [Hr| ->]; [right|by left]|intros [->|[Hr _]]; [by right|by left]].
    split; [done|]. apply not_true_iff_false. intros E. apply not_true_iff_false in Eh. apply Eh, existsb_exists. exists r. by rewrite <- list_elem_of_In.
Qed.

(** The data of the second seeding while the teams are written: nothing missing, and no default team too many. *)
Definition nearly t d d2 : Prop :=
  (forall r, r ∈ at_teams d -> r ∈ at_teams d2) /\
  (forall r, r ∈ at_teams d2 -> r ∈ at_teams d \/ gw_TenantID r = t /\ gw_IsDefault r = false).
Lemma upsert_nearly t slug b d d2 d' : nearly t d d2 -> has_team d2 t slug = true -> upsert_team t slug b d = Ok d' ->
  exists d2', upsert_team t slug b d2 = Ok d2' /\ nearly t d' d2' /\ map team_key (at_teams d2') = map team_key (at_teams d2).
Proof.
  intros [Hin Hno] Hh H. pose proof (upsert_in _ _ _ _ _ H) as Hu. apply bind_ok in H as (u1 & Hc & H). apply bind_ok in H as (u2 & Hq & _).
  assert (H2 : exists d2', upsert_team t slug b d2 = Ok d2' /\ map team_key (at_teams d2') = map team_key (at_teams d2)).
  { unfold upsert_team. rewrite Hc. cbn. apply unique_ok, negb_true_iff in Hq.
    assert (E : b && existsb (fun r => team_of t r && gw_IsDefault r && negb (bool_decide (gw_Slug r = slug))) (at_teams d2) = false).
    { destruct b; [|done]. cbn [andb] in Hq |- *. apply not_true_iff_false. intros (r & Hr%list_elem_of_In & Er)%existsb_exists.
      apply not_true_iff_false in Hq. apply Hq, existsb_exists. exists r. split; [|done]. apply list_elem_of_In.
      destruct (Hno r Hr) as [|[_ Ed]]; [done|]. rewrite Ed, andb_false_r in Er. discriminate Er. }
    rewrite E, Hh. cbn. eexists. split; [reflexivity|]. apply upsert_keys. }
  destruct H2 as (d2' & H2 & Hk). exists d2'. split_and!; [done| |done]. pose proof (upsert_in _ _ _ _ _ H2) as Hu2. split.
  - intros r Hr. apply Hu2. apply Hu in Hr as [->|[Hr E]]; [by left|right]. by split; [apply Hin|].
  - intros r [->|[Hr E]]%Hu2; [left; apply Hu; by left|]. destruct (Hno r Hr) as [Hr'|]; [|by right]. left. apply Hu. by right.
Qed.
Definition team_statements t (f : Fixture) : list AStmt := map (fun x => upsert_team t (FTSlug x) (FTDefault x)) (FTeams f).

Lemma upserts_nearly t l d d2 d' : nearly t d d2 -> Forall (fun x => has_team d2 t (FTSlug x) = true) l ->
  all_of (map (fun x => upsert_team t (FTSlug x) (FTDefault x)) l) d = Ok d' ->
  exists d2', all_of (map (fun x => upsert_team t (FTSlug x) (FTDefault x)) l) d2 = Ok d2' /\ nearly t d' d2' /\
    map team_key (at_teams d2') = map team_key (at_teams d2).
Proof.
  intros Hn Hl. revert d d2 Hn Hl. induction l as [|x l IH]; intros d d2 Hn Hl H; cbn in H |- *; [injection H as <-; eauto|].
  apply list.Forall_cons in Hl as [Hx Hl]. apply bind_ok in H as (d1 & H1 & H).
  destruct (upsert_nearly _ _ _ _ _ _ Hn Hx H1) as (d3 & -> & Hn3 & Hk3). cbn.
  destruct (IH d1 d3 Hn3) as (d2' & H2 & Hn' & Hk'); [|done|exists d2'; by rewrite Hk'].
  eapply list.Forall_impl; [exact Hl|]. intros y Hy. cbn in Hy. by rewrite (has_team_agree d2 d3 Hk3).
Qed.
(** What the statements about teams leave alone, and what they leave behind. *)
Lemma upserts_rest t l d d' : all_of (map (fun x => upsert_team t (FTSlug x) (FTDefault x)) l) d = Ok d' ->
  at_members d' = at_members d /\ at_grants d' = at_grants d /\ at_routing d' = at_routing d /\
  (forall k, k ∈ map team_key (at_teams d) -> k ∈ map team_key (at_teams d')) /\
  (forall r, gw_TenantID r <> t -> r ∈ at_teams d' <-> r ∈ at_teams d) /\
  Forall (fun x => has_team d' t (FTSlug x) = true) l.
Proof.
  revert d. induction l as [|x l IH]; intros d H; cbn in H; [injection H as <-; split_and!; try done; by constructor|].
  apply bind_ok in H as (d1 & H1 & H). destruct (IH d1 H) as (E1 & E2 & E3 & E4 & E5 & E6). pose proof (upsert_in _ _ _ _ _ H1) as Hu.
  assert (Hkeys : forall k, k ∈ map team_key (at_teams d) -> k ∈ map team_key (at_teams d1)).
  { intros k (r & -> & Hr)%list_elem_of_fmap. apply list_elem_of_fmap. destruct (is_team t (FTSlug x) r) eqn:E.
    - exists (mkTeamRow t (FTSlug x) (FTDefault x)). split; [|apply Hu; by left]. apply andb_true_iff in E as [Ea Eb]. unfold team_of in Ea. to_prop.
      unfold team_key. cbn. by rewrite Ea, Eb.
    - exists r. split; [done|]. apply Hu. by right. }
  assert (Hrest : at_members d1 = at_members d /\ at_grants d1 = at_grants d /\ at_routing d1 = at_routing d).
  { apply bind_ok in H1 as (u1 & _ & H1). apply bind_ok in H1 as (u2 & _ & H1). by apply Ok_inj in H1 as <-. }
  destruct Hrest as (F1 & F2 & F3). rewrite E1, E2, E3. split_and!; try done.
  - intros k Hk. by apply E4, Hkeys.
  - intros r Hr. rewrite E5 by done. rewrite Hu. split; [intros [->|[? _]]; [by destruct Hr|done]|].
    intros Hd. right. split; [done|]. unfold is_team, team_of. by rewrite bool_decide_false.
  - constructor; [|done]. apply has_team_spec, E4, list_elem_of_fmap. exists (mkTeamRow t (FTSlug x) (FTDefault x)). split; [done|]. apply Hu. by left.
Qed.
(** What the seeding takes away first. *)
Definition clearing t (f : Fixture) : list AStmt :=
  [delete_routing t; delete_grants t; undefault t; delete_members t (map FMSubject (FMembers f))].
Definition cleared_team t (r : TeamRow) : TeamRow := if team_of t r then mkTeamRow (gw_TenantID r) (gw_Slug r) false else r.
Lemma clearing_clears t f d : exists v, all_of (clearing t f) d = Ok (mkAccessTables (map (cleared_team t) (at_teams d))
  (without (member_of t (map FMSubject (FMembers f))) (at_members d)) (without (grant_of t) (at_grants d)) (without (routing_of t) (at_routing d)) v).
Proof. by eexists. Qed.
Lemma seed_parts t f : seed_statements t f = clearing t f ++ team_statements t f ++ inserts t f.
Proof. reflexivity. Qed.

(** A team the first seeding left is there, not a default, when the second writes its teams. *)
Lemma nearly_cleared t d0 d d1 d2 : at_teams d = map (cleared_team t) (at_teams d0) -> at_teams d2 = map (cleared_team t) (at_teams d1) ->
  (forall k, k ∈ map team_key (at_teams d) -> k ∈ map team_key (at_teams d1)) ->
  (forall r, gw_TenantID r <> t -> r ∈ at_teams d1 <-> r ∈ at_teams d) -> nearly t d d2.
Proof.
  intros E E2 Hk Ho.
  assert (Hoff : forall x, gw_TenantID x = t -> cleared_team t x = mkTeamRow t (gw_Slug x) false).
  { intros x Hx. unfold cleared_team, team_of. rewrite bool_decide_true by done. by rewrite Hx. }
  assert (Hother : forall x, gw_TenantID x <> t -> cleared_team t x = x).
  { intros x Hx. unfold cleared_team, team_of. by rewrite bool_decide_false. }
  split.
  - intros r Hr. rewrite E2. apply list_elem_of_fmap. destruct (decide (gw_TenantID r = t)) as [Ht|Ht].
    + pose proof (Hk (team_key r) (list_elem_of_fmap_2 _ _ _ Hr)) as (y & Ey & Hy)%list_elem_of_fmap. injection Ey as Ey1 Ey2.
      exists y. split; [|done]. rewrite Hoff by congruence. rewrite E in Hr. apply list_elem_of_fmap in Hr as (x & -> & Hx).
      destruct (decide (gw_TenantID x = t)) as [Hxt|Hxt]; [rewrite Hoff in Ey2 |- * by done; cbn in Ey2; by rewrite Ey2|].
      rewrite Hother in Ht by done. done.
    + exists r. split; [by rewrite Hother|]. by apply Ho.
  - intros r Hr. rewrite E2 in Hr. apply list_elem_of_fmap in Hr as (y & -> & Hy). destruct (decide (gw_TenantID y = t)) as [Ht|Ht].
    + right. by rewrite Hoff.
    + left. rewrite Hother by done. by apply Ho.
Qed.

Lemma reseed_all t f d d1 : in_order d1 -> all_of (seed_statements t f) d = Ok d1 ->
  exists d2, all_of (seed_statements t f) d1 = Ok d2 /\ same_tables d1 d2.
Proof.
  intros Ho1 E. rewrite seed_parts, all_app in *. destruct (clearing_clears t f d) as [v Ev]. rewrite Ev in E. clear Ev.
  match type of E with context [Ok ?x] => set (da := x) in * end. change (all_of (team_statements t f ++ inserts t f) da = Ok d1) in E.
  rewrite all_app in E. apply bind_ok in E as (db & Hb & Hc). destruct (upserts_rest t _ _ _ Hb) as (B1 & B2 & B3 & B4 & B5 & B6).
  destruct (all_adds t (map FMSubject (FMembers f)) _ _ _ (inserts_each _ t f (fun _ _ _ => adds_member _ _ _ _ _) (adds_grant _ _) (adds_routing _ _)) Hc)
    as (C1 & C2 & C3 & C4).
  destruct (clearing_clears t f d1) as [v2 ->]. match goal with |- context [Ok ?x] => set (da2 := x) in * end.
  change (exists d2, all_of (team_statements t f ++ inserts t f) da2 = Ok d2 /\ same_tables d1 d2). rewrite all_app.
  assert (Hn : nearly t da da2) by (apply (nearly_cleared t d da d1 da2); [done|done|..]; rewrite C1; done).
  assert (Hk2 : map team_key (at_teams da2) = map team_key (at_teams db)) by (cbn; rewrite C1; apply undefault_keys).
  destruct (upserts_nearly t (FTeams f) da da2 db Hn) as (db2 & Hb2 & Hn2 & Hkb2); [|exact Hb|].
  { eapply list.Forall_impl; [exact B6|]. intros x Hx. cbn in Hx. by rewrite (has_team_agree db da2 Hk2). }
  destruct (upserts_rest t _ _ _ Hb2) as (D1 & D2 & D3 & _).
  assert (Hsame : same_tables db db2).
  { split.
    - apply (same_keys team_key); [by rewrite Hkb2, Hk2|rewrite <- C1; by apply or_teams|by apply Hn2].
    - rewrite D1. unfold da2. cbn [at_members]. rewrite C2, B1. unfold da. cbn [at_members]. symmetry. apply without_twice.
    - rewrite D2. unfold da2. cbn [at_grants]. rewrite C3, B2. unfold da. cbn [at_grants]. symmetry. apply without_twice.
    - rewrite D3. unfold da2. cbn [at_routing]. rewrite C4, B3. unfold da. cbn [at_routing]. symmetry. apply without_twice. }
  destruct (all_by_rows (inserts t f) db db2 d1) as (d2 & Hd2 & Hs); [apply inserts_each; auto|done|done|].
  exists d2. unfold team_statements. rewrite Hb2. by split.
Qed.

(** C12: Seeding again changes nothing: when a tenant's fixture has been seeded, whatever the data before and whatever an
    operator had added, seeding it once more succeeds and leaves the very same teams, memberships, grants and routing. *)
Theorem reseeding_repeats fault t slug file d d1 : in_order d -> seedAccess fault t slug file d = (Ok tt, d1) ->
  exists d2, seedAccess never t slug file d1 = (Ok tt, d2) /\ same_tables d1 d2.
Proof.
  intros Ho H. unfold seedAccess in *. destruct (match file with Some b => ParseFixture b | None => _ end) as [f|]; [|discriminate H].
  unfold in_transaction in *. change (never 0) with (@None driver_error). rewrite never_all.
  destruct (fault 0%nat); [discriminate H|]. destruct (run_statements fault 1 (seed_statements t f) d) as [d1'|] eqn:E; [|discriminate H].
  injection H as <-. pose proof (run_sound _ _ _ _ _ (seed_sound t f) E) as [Ho1 _]. apply run_all in E.
  destruct (reseed_all t f d d1' (Ho1 Ho) E) as (d2 & -> & Hs). by exists d2.
Qed.
End seeding.
