(* ===== verification/Followed.v ===== *)
(** * Followed: the policy engine on the database's rows.

    Whatever operators and seeding do to the access data of any tenant, and whenever transactions read it, the engine - its
    cache keyed by versions the triggers count - decides by the rows that were read. *)
From S2P Require Import Prelude Errs GoTime GoJson Ext Types Regimes Lifecycle Deadlines Ledger Questionnaire Risk Text Wire Access Authz AuthzFacts Fixture Store Sql PgStore Directory Provision ProvisionFacts.

Section followed.
Context `{DC : Decimal} {DL : DecimalLaws DC} `{UU : UUID} {Body : Type} {NU : Numeric} {CE : Cedar} {CL : CedarLaws CE} {YA : Yaml} {CO : Collation}.
Implicit Types (db : DB Body) (t : uuid).

(** ** What a transaction reads *)
Definition access_in (t : uuid) (subject : string) (d : AccessTables) : Access :=
  access_of (mkAccessRow (version t d)
    (sort_Slice fst (map (fun r => (gw_Slug r, gw_IsDefault r)) (List.filter (team_of t) (at_teams d))))
    (sort_Slice (fun g => nul_joined [GTeam g; Role_string (GRole g); GAction g]) (map vw_Grant (List.filter (grant_of t) (at_grants d))))
    (map ow_Rule (order_by (fun a b => ow_Position a <? ow_Position b) (List.filter (routing_of t) (at_routing d))))
    (sort_Slice MTeam (map bw_Membership
       (List.filter (fun r => bool_decide (bw_TenantID r = t) && bool_decide (bw_Subject r = subject)) (at_members d))))).
Lemma access_row_in (ss : Session) db subject : access_of (access_row ss db subject) = access_in (ss_tenant ss) subject (tables_of db).
Proof. reflexivity. Qed.

Lemma pg_Access_reads fault ss p (x x' : PgTx (Body := Body)) a : px_access x = ∅ -> pg_Access fault ss p x = (Ok a, x') ->
  a = access_in (ss_tenant ss) (match PrKind p with Analyst => PID p | Key => "" end) (tables_of (px_db x)).
Proof.
  intros Hx. unfold pg_Access. rewrite Hx. set (s := match PrKind p with Analyst => PID p | Key => "" end).
  change (@lookup string Access (gmap string Access) _ s ∅) with (@None Access). unfold run_query, send.
  destruct (px_aborted x); [done|]. destruct (fault (px_statements x)); [done|].
  unfold q_GetAccess, select. cbv beta iota. intros H. apply (f_equal fst) in H. cbn in H. apply Ok_inj in H. by rewrite <- H.
Qed.

(** ** In order, so well formed *)
Lemma access_well_formed t subject d : in_order d -> well_formed (access_in t subject d).
Proof.
  intros Ho. split; unfold access_in, access_of; cbn [AMembers ATeams AGrants cw_Members cw_Teams cw_Grants].
  - apply list.Forall_forall. intros m [r [-> Hr]]%elem_of_sort_Slice%list_elem_of_fmap.
    apply list_elem_of_In, filter_In in Hr as [Hr [E _]%andb_true_iff]. apply list_elem_of_In in Hr. to_prop.
    pose proof (or_member _ Ho) as Hm. rewrite list.Forall_forall in Hm. destruct (Hm r Hr) as [Ht _].
    rewrite E in Ht. apply has_team_spec, list_elem_of_fmap in Ht as (g & Eg & Hg). injection Eg as Eg1 Eg2.
    apply list_elem_of_fmap. exists (gw_Slug g, gw_IsDefault g). split; [done|]. apply elem_of_sort_Slice, list_elem_of_fmap.
    exists g. split; [done|]. apply list_elem_of_In, filter_In. split; [by apply list_elem_of_In|]. unfold team_of. by apply bool_decide_eq_true.
  - apply list.Forall_forall. intros m [r [-> Hr]]%elem_of_sort_Slice%list_elem_of_fmap.
    apply list_elem_of_In, filter_In in Hr as [Hr _]. apply list_elem_of_In in Hr.
    pose proof (or_member _ Ho) as Hm. rewrite list.Forall_forall in Hm. by apply Hm.
  - rewrite (sort_Slice_perm _ (map vw_Grant _)), map_map. pose proof (or_grants _ Ho) as Hn.
    induction (at_grants d) as [|r l IH]; [constructor|]. cbn [map] in Hn. apply list.NoDup_cons in Hn as [Hr Hn]. cbn [List.filter].
    destruct (grant_of t r) eqn:E; [|by apply IH]. cbn [map]. apply list.NoDup_cons. split; [|by apply IH].
    intros (r' & Ek & [Hr' E']%list_elem_of_In%filter_In)%list_elem_of_fmap. apply Hr, list_elem_of_fmap. exists r'. rewrite list_elem_of_In.
    split; [|done]. unfold grant_of in *. to_prop. unfold grant_key. rewrite E, E'. by f_equal.
Qed.
Lemma same_rows_grants t d d' s s' : same_rows t d d' -> AGrants (access_in t s d) = AGrants (access_in t s' d').
Proof. intros (_ & _ & E & _). unfold access_in, access_of. cbn [AGrants cw_Grants]. by rewrite E. Qed.

(** ** A history of committed data *)
Inductive history : list AccessTables -> Prop :=
| history_one d : in_order d -> history [d]
| history_step d ds d' : history (ds ++ [d]) -> access_step d d' -> history (ds ++ [d; d']).

Lemma history_in_order ds : history ds -> Forall in_order ds.
Proof.
  induction 1 as [d H|d ds d' _ IH H]; [by apply list.Forall_singleton|]. apply Forall_app in IH as [I1 [I2 _]%list.Forall_cons].
  apply Forall_app. split; [done|]. repeat apply list.Forall_cons_2; [done| |constructor]. by apply (step_sound d).
Qed.
Lemma history_last ds d : history (ds ++ [d]) -> Forall (fun d0 => tracked d0 d) (ds ++ [d]).
Proof.
  intros H. remember (ds ++ [d]) as l eqn:El. revert ds d El. induction H as [d H|d ds d' _ IH H]; intros ds0 d0 El.
  - destruct ds0 as [|x [|y l]]; try done. injection El as <-. by apply list.Forall_singleton.
  - change (ds ++ [d; d']) with (ds ++ [d] ++ [d']) in El |- *. rewrite app_assoc in El |- *. apply app_inj_tail in El as [<- <-]. specialize (IH ds d eq_refl).
    apply Forall_app. split; [|by apply list.Forall_singleton]. eapply list.Forall_impl; [exact IH|].
    intros x Hx. transitivity d; [exact Hx|by apply step_sound].
Qed.
(** Of any two moments one came first. *)
Lemma history_tracked ds d d' : history ds -> d ∈ ds -> d' ∈ ds -> tracked d d' \/ tracked d' d.
Proof.
  intros H. revert d d'. induction H as [x Hx|x ds x' H IH Hs]; intros d d' Hd Hd'.
  - apply list_elem_of_singleton in Hd, Hd'. subst. by left.
  - assert (Hl : Forall (fun y => tracked y x') ((ds ++ [x]) ++ [x'])) by (apply history_last; rewrite <- app_assoc; by eapply history_step).
    rewrite list.Forall_forall in Hl. change (ds ++ [x; x']) with (ds ++ [x] ++ [x']) in Hd, Hd'. rewrite app_assoc in Hd, Hd'.
    pose proof Hd as Hd0. apply elem_of_app in Hd0 as [Hd0|Hd0]; [|apply list_elem_of_singleton in Hd0; subst d; right; by apply Hl].
    pose proof Hd' as Hd0'. apply elem_of_app in Hd0' as [Hd0'|Hd0']; [by apply IH|apply list_elem_of_singleton in Hd0'; subst d'; left; by apply Hl].
Qed.
Lemma same_version ds t d d' : history ds -> d ∈ ds -> d' ∈ ds -> version t d = version t d' -> same_rows t d d'.
Proof.
  intros H Hd Hd' E. destruct (history_tracked ds d d' H Hd Hd') as [Ht|Ht]; destruct (Ht t) as [_ Hs]; [by apply Hs|].
  symmetry. by apply Hs.
Qed.

(** ** The engine on what transactions read *)
Record Moment : Type := mkMoment {
  mo_session : Session;
  mo_tx : PgTx (Body := Body);
  mo_principal : Principal;
  mo_access : Access;
  mo_action : Action;
  mo_dispute : option DisputeFacts
}.
Definition asked_at (m : Moment) : AuthzCall :=
  mkAuthzCall (ss_tenant (mo_session m)) (mo_principal m) (mo_access m) (mo_action m) (mo_dispute m).
(** A transaction that saw one state of the history, and read the caller's access from it. *)
Record reads_from (ds : list AccessTables) (m : Moment) : Prop := {
  rf_there : tables_of (px_db (mo_tx m)) ∈ ds;
  rf_fresh : px_access (mo_tx m) = ∅;
  rf_access : exists fault x', pg_Access fault (mo_session m) (mo_principal m) (mo_tx m) = (Ok (mo_access m), x');
  rf_amounts : amounts_read (mo_access m) (mo_dispute m);
  rf_text : NewPolicyListFromBytes (Compile (mo_access m)).1 = Some (kept (mo_access m))
}.
Lemma reads_in ds m : reads_from ds m -> exists s d, d ∈ ds /\ mo_access m = access_in (ss_tenant (mo_session m)) s d.
Proof. intros [H1 H2 (fault & x' & H3) _ _]. apply pg_Access_reads in H3; [|done]. eauto. Qed.

(** C8: The engine follows the rows: let operators, seeding and new tenants change any tenant's access data in any order,
    each command succeeding or failing at any statement, and let transactions read it at any moments, in any order - what
    the engine answers to what they read is exactly what those rows and the guardrails mean. No stale policy set is ever
    served: the triggers give every change a version of its own, and the engine's cache goes by the version. *)
Theorem engine_follows_the_rows file ds ms : NewPolicyListFromBytes file = Some guardrails ->
  history ds -> Forall (reads_from ds) ms ->
  exists e, New_engine file = Ok e /\ map decision_of (Decide_all (map asked_at ms) e) = map (fun m => verdict_of (asked_at m)) ms.
Proof.
  intros Hf Hh Hm. exists (mkEngine guardrails ∅). split; [by apply new_engine|]. rewrite <- (map_map asked_at verdict_of).
  rewrite list.Forall_forall in Hm. apply (engine_decides _ (map asked_at ms) _ (coherent_new _)); [|done|].
  - intros c c' (m & -> & H1)%list_elem_of_fmap (m' & -> & H2)%list_elem_of_fmap. cbn. intros Et.
    destruct (reads_in ds m (Hm m H1)) as (s & d & Hd & ->), (reads_in ds m' (Hm m' H2)) as (s' & d' & Hd' & ->).
    rewrite Et. intros Ev. apply same_rows_grants. by apply (same_version ds).
  - apply list.Forall_forall. intros c (m & -> & H1)%list_elem_of_fmap. pose proof (Hm m H1) as [_ _ _ Ha Ht].
    destruct (reads_in ds m (Hm m H1)) as (s & d & Hd & E). split; [|by split]. cbn. rewrite E. apply access_well_formed.
    pose proof (history_in_order ds Hh) as Ho. rewrite list.Forall_forall in Ho. by apply Ho.
Qed.

(** C11: Access data is well typed, always: whatever commands have run, no team is there twice and no tenant has two
    default teams, every membership, grant and routing rule is about a team of its own tenant, once, every role is on the
    ladder and every limit in range; and so what a caller is seen with - in any tenant, whoever they are - names only
    the tenant's teams, roles of the ladder, and each grant once. *)
Theorem access_well_typed ds d t subject : history ds -> d ∈ ds -> in_order d /\ well_formed (access_in t subject d).
Proof.
  intros Hh Hd. assert (Ho : in_order d) by (pose proof (history_in_order ds Hh) as Ho; rewrite list.Forall_forall in Ho; by apply Ho).
  split; [done|by apply access_well_formed].
Qed.
End followed.
