(* ===== verification/FollowedScenario.v ===== *)
(** * FollowedScenario: a tenant's access data seeded, changed and seeded again, and the engine asked along the way. *)
From Stdlib Require Import QArith.
From S2P Require Import Prelude Errs GoTime Ext Types Text Wire Access Authz AuthzFacts AuthzScenario Fixture Store Sql PgStore Directory Provision ProvisionFacts SeedFacts Followed.
Local Open Scope Z_scope.

(** ** Played out *)
Module FollowedExamples.
  Import QDec NUuid AuthzExamples.

#[export] Instance numeric : Numeric := Some.
#[export] Instance by_bytes : Collation := fun a b => match String.compare a b with Lt => true | _ => false end.

(** Two editions of a fixture: the second raises what a junior may credit. *)
Definition edition (limit : string) : fixtureDoc := mkFixtureDoc
  [mkTeamDoc "general" "General" true; mkTeamDoc "cb" "Chargebacks" false]
  [mkMemberDoc "alice" "cb" "junior"]
  [mkGrantDoc "cb" "junior" ["ISSUE_FINAL_CREDIT"; "ISSUE_REFUND"] limit; mkGrantDoc "cb" "lead" ["reassign"] ""]
  [mkRoutingDoc "CARD" "" "" "1000" "cb"].
#[export] Instance yaml : Yaml := fun s =>
  if bool_decide (s = "first") then Some (edition "500.00") else if bool_decide (s = "second") then Some (edition "900.00")
  else if bool_decide (s = "twice the same team") then
    Some (mkFixtureDoc [mkTeamDoc "general" "General" true; mkTeamDoc "general" "Everybody" false] [] [] [])
  else None.
Definition bank : uuid := 1%N.
Definition calm : nat -> option driver_error := fun _ => None.
(** The seeding's last grant is refused. *)
Definition rough : nat -> option driver_error := fun n => if bool_decide (n = 10%nat) then Some (PgError "57P01" "") else None.

Definition bare : AccessTables := mkAccessTables [] [] [] [] ∅.
Definition seeded : AccessTables := (seedAccess calm bank "erste" (Some "first") bare).2.
Definition joined : AccessTables := (member calm (Some "add") (Ok bank) "erste" "bob" "cb" "junior" seeded).2.
Definition disturbed : AccessTables := (seedAccess rough bank "erste" (Some "second") joined).2.
Definition reseeded : AccessTables := (seedAccess calm bank "erste" (Some "second") disturbed).2.
Definition past : list AccessTables := [bare; seeded; joined; disturbed; reseeded].

Example versions_count_rows :
  map (version bank) past = [0; 7; 8; 8; 22].
Proof. vm_compute. reflexivity. Qed.
(** What an operator added is there after seeding again. *)
Example operators_survive : map (fun r => bw_Subject r) (at_members reseeded) = ["bob"; "alice"].
Proof. vm_compute. reflexivity. Qed.
(** A document that declares its default team twice leaves the tenant without one. *)
Example no_default_left :
  let d := seedAccess calm bank "erste" (Some "twice the same team") bare in
  d.1 = Ok tt /\ map (fun r => (gw_Slug r, gw_IsDefault r)) (at_teams d.2) = [("general", false)].
Proof. vm_compute. done. Qed.

Definition parsing (past : list AccessTables) (s : string) : option (list Policy) :=
  if bool_decide (s = "guardrails") then Some guardrails
  else kept <$> List.find (fun a => bool_decide ((Compile a).1 = s)) (map (access_in bank "alice") past).
#[export] Instance cedar2 : Cedar := documented (parsing past).
#[export] Instance cedar2_laws : CedarLaws cedar2 := documented_laws _.

Definition db_of (d : AccessTables) : DB string :=
  mkDB ∅ ∅ ∅ ∅ [] ∅ [] [] ∅ [] 0 [] ∅ ∅ ∅ ∅ (at_teams d) (at_members d) (at_grants d) (at_routing d) (at_versions d).
Lemma tables_db_of d : tables_of (db_of d) = d.
Proof. by destruct d. Qed.
(** Someone of the team is asked to credit an amount. *)
Definition credited (d : AccessTables) (who : string) (amount : Q) : Moment (Body := string) :=
  mkMoment (mkSession _ bank who "analyst" 0) (begin (db_of d) 0) (someone who) (access_in bank who d)
    (EventAction EventIssueFinalCredit) (Some (about amount "other")).
Definition moments : list (Moment (Body := string)) :=
  [credited seeded "alice" 700; credited seeded "bob" 100; credited joined "bob" 100; credited reseeded "alice" 700;
   credited seeded "alice" 700; credited disturbed "alice" 700; credited reseeded "bob" 1000].

Lemma past_history : history past.
Proof.
  assert (H0 : in_order bare) by (split; cbn [bare at_teams at_members at_grants at_routing map]; try constructor; intros r ? Hr; by apply elem_of_nil in Hr).
  refine (history_step disturbed [bare; seeded; joined] reseeded (history_step joined [bare; seeded] disturbed (history_step seeded [bare] joined
    (history_step bare [] seeded (history_one _ H0) _) _) _) _).
  - unfold seeded. eapply (step_seed _ calm bank "erste" (Some "first")). apply surjective_pairing.
  - unfold joined. eapply (step_member _ calm (Some "add") (Ok bank) "erste" "bob" "cb" "junior"). apply surjective_pairing.
  - unfold disturbed. eapply (step_seed _ rough bank "erste" (Some "second")). apply surjective_pairing.
  - unfold reseeded. eapply (step_seed _ calm bank "erste" (Some "second")). apply surjective_pairing.
Qed.

Definition limits_ok (a : Access) : bool :=
  forallb (fun g => match GAmountLimit g with Some l => bool_decide (amount_reads l) | None => true end) (AGrants a).
Lemma credited_reads d who amount : d ∈ past -> bool_decide (amount_reads (amount : dec)) && limits_ok (access_in bank who d) = true ->
  parsing past (Compile (access_in bank who d)).1 = Some (kept (access_in bank who d)) ->
  reads_from past (credited d who amount).
Proof.
  intros Hd [Ha Hl]%andb_true_iff Ht. split; cbn [mo_tx credited begin px_db px_access mo_session mo_principal mo_access mo_dispute]; [by rewrite tables_db_of|done| |split|done].
  - exists calm. eexists. unfold pg_Access, begin. cbn [px_access someone PrKind PID ss_subject].
    change (@lookup string Access (gmap string Access) _ who ∅) with (@None Access).
    unfold run_query, send, calm. cbn [px_aborted px_statements px_db]. reflexivity.
  - apply list.Forall_forall. intros g Hg l El. unfold limits_ok in Hl. rewrite forallb_forall in Hl.
    specialize (Hl g (proj1 (list_elem_of_In _ _) Hg)). rewrite El in Hl. by apply bool_decide_eq_true in Hl.
  - intros f [= <-] _. by apply bool_decide_eq_true in Ha.
Qed.
Lemma past_list d : d ∈ [bare; seeded; joined; disturbed; reseeded] -> d ∈ past. Proof. done. Qed.
Ltac in_past := apply past_list; set_solver.
Lemma moments_read : Forall (reads_from past) moments.
Proof.
  unfold moments. repeat apply list.Forall_cons_2; [..|constructor]; (apply credited_reads; [in_past|vm_compute; reflexivity..]).
Qed.

Lemma engine_follows_the_rows_witness :
  exists e, New_engine "guardrails" = Ok e /\
    map decision_of (Decide_all (map asked_at moments) e) =
      [Some false; Some false; Some true; Some true; Some false; Some false; Some false].
Proof.
  destruct (engine_follows_the_rows (CE := cedar2) "guardrails" past moments) as (e & He & H);
    [vm_compute; reflexivity|exact past_history|exact moments_read|].
  exists e. split; [exact He|]. rewrite H. vm_compute. reflexivity.
Defined.

Lemma access_well_typed_witness : in_order reseeded /\ well_formed (access_in bank "bob" reseeded).
Proof. apply (access_well_typed past reseeded bank "bob" past_history). in_past. Defined.

Lemma reseeding_repeats_witness :
  seedAccess calm bank "erste" (Some "second") disturbed = (Ok tt, reseeded) /\
  exists d2, seedAccess never bank "erste" (Some "second") reseeded = (Ok tt, d2) /\ same_tables reseeded d2.
Proof.
  assert (E : seedAccess calm bank "erste" (Some "second") disturbed = (Ok tt, reseeded)).
  { rewrite (surjective_pairing (seedAccess _ _ _ _ _)). f_equal. }
  split; [exact E|]. apply (reseeding_repeats calm bank "erste" (Some "second") disturbed reseeded); [|exact E].
  pose proof (history_in_order past past_history) as Hall. rewrite list.Forall_forall in Hall. apply Hall. clear. in_past.
Defined.
End FollowedExamples.
