(* ===== verification/Seed.v ===== *)
(** * Seed: the demonstration data ([cmd/seed/main.go]).

    Two banks with their calendars, cores, logos, keys and access data, four customers and ten transactions, written
    statement by statement as the owner of the tables; [fault] is what befalls the n-th. Migrating first and the lines
    printed at the end are left out; one reading of the clock serves a statement and its arguments. *)
From Stdlib Require Import QArith.
From S2P Require Import Prelude Errs GoTime GoJson Ext Types Regimes Lifecycle Deadlines Ledger Questionnaire Risk Text Wire Access Http Authz AuthzFacts AuthzScenario Fixture Store Sql PgStore Tx Directory Auth Provision ProvisionFacts SeedFacts Followed FollowedScenario.
Local Open Scope Z_scope.

(** ** What is seeded *)
Record txn : Type := mkTxn {
  tx_id : string; tx_tenant : string; tx_account : string; tx_rail : string; tx_amount : string; tx_currency : string;
  tx_merchant : string; tx_daysAgo : Z; tx_mcc : string
}.
Definition tenantA : string := "00000000-0000-8000-8000-00000000a001".
Definition tenantB : string := "00000000-0000-8000-8000-00000000a002".
Definition devKeyA : string := "tk_dev_tenant_a".
Definition devKeyB : string := "tk_dev_tenant_b".
Definition accountEUR : string := "00000000-0000-8000-8000-000000000001".
Definition accountUSD : string := "00000000-0000-8000-8000-000000000002".
Definition accountB : string := "00000000-0000-8000-8000-000000000003".
Definition accountProbe : string := "00000000-0000-8000-8000-000000000004".
Definition seedTxns : list txn := [
  mkTxn "00000000-0000-8000-8000-000000000101" tenantA accountEUR "CARD" "125.40" "EUR" "Ryanair" 3 "4511";
  mkTxn "00000000-0000-8000-8000-000000000102" tenantA accountEUR "CARD" "1899.00" "EUR" "MediaMarkt" 12 "5732";
  mkTxn "00000000-0000-8000-8000-000000000103" tenantA accountEUR "SEPA_DD" "49.99" "EUR" "Vodafone Hungary" 20 "4814";
  mkTxn "00000000-0000-8000-8000-000000000104" tenantA accountEUR "CARD" "7450.00" "EUR" "Apple Store" 7 "5815";
  mkTxn "00000000-0000-8000-8000-000000000201" tenantA accountUSD "CARD" "89.10" "USD" "Amazon" 5 "5942";
  mkTxn "00000000-0000-8000-8000-000000000202" tenantA accountUSD "CREDIT_CARD" "412.00" "USD" "Delta Air Lines" 9 "4511";
  mkTxn "00000000-0000-8000-8000-000000000301" tenantB accountB "CARD" "64.00" "EUR" "Bolt" 2 "4121";
  mkTxn "00000000-0000-8000-8000-000000000901" tenantA accountProbe "CARD" "42.00" "EUR" "Probe Shop" 4 "5999";
  mkTxn "00000000-0000-8000-8000-000000000902" tenantA accountProbe "SEPA_DD" "19.90" "EUR" "Probe Utility" 9 "4900";
  mkTxn "00000000-0000-8000-8000-000000000302" tenantB accountB "SEPA_DD" "29.90" "EUR" "Telekom" 15 "4814"].
Definition hungarianHolidays : list string := [
  "2026-01-01"; "2026-01-02"; "2026-03-15"; "2026-04-03"; "2026-04-06"; "2026-05-01"; "2026-05-25"; "2026-08-20"; "2026-08-21";
  "2026-10-23"; "2026-11-01"; "2026-12-24"; "2026-12-25"; "2026-12-26";
  "2027-01-01"; "2027-03-15"; "2027-03-26"; "2027-03-29"; "2027-05-01"; "2027-05-17"; "2027-08-20"; "2027-10-23"; "2027-11-01";
  "2027-12-25"; "2027-12-26"].
(** An optional column: empty means NULL. *)
Definition mccPtr (m : string) : option string := if bool_decide (m = "") then None else Some m.

Section seed.
Context `{DC : Decimal} `{UU : UUID} {NU : Numeric} {YA : Yaml} {RT : Runtime}.

(** The tables it writes. *)
Record Tables : Type := mkTables {
  st_directory : Directory;
  st_access : AccessTables;
  st_accounts : gmap uuid AccountRow;
  st_transactions : gmap uuid TransactionRow;
  st_metadata : gmap uuid MetadataRow
}.
(** A statement at a time; what is refused has not happened. *)
Definition SStmt : Type := time -> Tables -> sql Tables.
Definition in_directory {A} (q : DStmt A) : SStmt := fun now s =>
  match q now (st_directory s) with
  | (Ok _, d) => Ok (mkTables d (st_access s) (st_accounts s) (st_transactions s) (st_metadata s))
  | (Err e, _) => Err e
  end.
Definition is_tenant (id : uuid) (s : Tables) : bool := existsb (tenant_is id) (dir_tenants (st_directory s)).
(** A [char(n)] column. *)
Definition fits (n : nat) (v : string) : sql unit := if (String.length v <=? n)%nat then Ok tt else Err (PgError "22001" "").

(** [UpsertTenant], with the trigger that gives a new tenant its access. *)
Definition upsert_with_access (id : uuid) (name slug : string) (issuer : option string) : SStmt := fun now s =>
  s' ← in_directory (q_UpsertTenant id name slug issuer) now s;
  if is_tenant id s then Ok s'
  else
    a ← run_statements (fun _ => None) 0 (default_access id) (st_access s');
    Ok (mkTables (st_directory s') a (st_accounts s') (st_transactions s') (st_metadata s')).
Definition q_InsertAccount (id tenant : uuid) (holder currency : string) (email address : option string) : SStmt := fun now s =>
  _ ← fits 3 currency;
  row ← match st_accounts s !! id with
        | Some r => Ok (mkAccountRow (aw_TenantID r) (aw_HolderName r) (aw_Currency r) (aw_OpenedAt r) email address)
        | None =>
            _ ← references (is_tenant tenant s) "accounts_tenant_id_fkey";
            Ok (mkAccountRow tenant holder currency (timestamptz now) email address)
        end;
  Ok (mkTables (st_directory s) (st_access s) (<[id := row]> (st_accounts s)) (st_transactions s) (st_metadata s)).
Definition q_InsertTransaction (id tenant account : uuid) (rail : Rail) (amount : dec) (currency merchant : string) (at_ : time)
    (mcc : option string) : SStmt := fun _ s =>
  amount ← to_numeric amount;
  _ ← fits 3 currency;
  _ ← fits 4 (default "" mcc);
  _ ← check (slices_contains [RailCard; RailCreditCard; RailSEPADD] rail) "transactions_rail_check";
  _ ← check (IsPositive amount) "transactions_amount_check";
  row ← match st_transactions s !! id with
        | Some r => Ok (mkTransactionRow (xw_TenantID r) (xw_AccountID r) (xw_Rail r) (xw_Amount r) (xw_Currency r) (xw_Merchant r)
                          (xw_OccurredAt r) mcc)
        | None =>
            _ ← references (bool_decide (is_Some (st_accounts s !! account))) "transactions_account_id_fkey";
            _ ← references (is_tenant tenant s) "transactions_tenant_id_fkey";
            Ok (mkTransactionRow tenant account rail amount currency merchant (timestamptz at_) mcc)
        end;
  Ok (mkTables (st_directory s) (st_access s) (st_accounts s) (<[id := row]> (st_transactions s)) (st_metadata s)).
Definition q_SeedTenantLogo (tenant : uuid) (logo : string) (content_type : option string) : SStmt := fun now s =>
  _ ← check (bool_decide (is_Some content_type)) "logo_complete";
  _ ← check (Z.of_nat (String.length logo) <=? max_picture) "logo_size";
  _ ← references (is_tenant tenant s) "tenant_metadata_tenant_id_fkey";
  Ok (mkTables (st_directory s) (st_access s) (st_accounts s) (st_transactions s)
        (<[tenant := mkMetadataRow (Some logo) content_type (Some (timestamptz now))]> (st_metadata s))).

(** ** The command *)
(** [uuid.MustParse]; where Keycloak is; the files embedded in the program. *)
Context (MustParse : string -> uuid) (keycloak : string) (logo_of fixture_of : string -> string).

(** One step of [run]: a statement, or the transaction that seeds a tenant's access data. *)
Inductive Step : Type :=
| Exec (q : SStmt)
| ExecUnlessThere (q : SStmt)   (* a unique violation is no error *)
| Access_of (id slug : string).
(** [decimal.RequireFromString] would panic on what is not a decimal; the amounts above all are. *)
Definition amount_of (s : string) : dec := default dec_zero (NewFromString s).

Definition seeded_tenants : list (string * string * string * string * json) := [
  (tenantA, "OTP Bank", "otp", "otpbank.hu", JObject [("kind", JString "mock"); ("declineAbove", JString "5000.00")]);
  (tenantB, "Erste Bank", "erste", "erstebank.hu", JObject [("kind", JString "mock"); ("latencyMs", JNumber "150")])].
Definition tenant_steps (t : string * string * string * string * json) : list Step :=
  let '(id, name, slug, domain, core) := t in
  let id := MustParse id in
  [Exec (upsert_with_access id name slug (Some (keycloak +:+ "/realms/" +:+ slug)));
   Exec (in_directory (q_SetTenantEmailDomains id [domain]));
   Exec (in_directory (q_SetTenantCalendar "Europe/Budapest" hungarianHolidays id));
   Exec (in_directory (q_SetTenantCore core id));
   Exec (q_SeedTenantLogo id (logo_of slug) (Some "image/png"))].
Definition key_step (k : string * string * string) : Step :=
  let '(id, tenant, secret) := k in
  ExecUnlessThere (in_directory (q_InsertTenantKey (MustParse id) (MustParse tenant) (HashKey secret) (key_prefix secret) "dev" None)).
Definition account_step (a : string * string * string * string * string * string) : Step :=
  let '(id, tenant, holder, currency, email, address) := a in
  Exec (q_InsertAccount (MustParse id) (MustParse tenant) holder currency (mccPtr email) (mccPtr address)).
Definition transaction_step (t : txn) : Step :=
  Exec (fun now => q_InsertTransaction (MustParse (tx_id t)) (MustParse (tx_tenant t)) (MustParse (tx_account t)) (Rail_of (tx_rail t))
          (amount_of (tx_amount t)) (tx_currency t) (tx_merchant t) (AddDate Local now 0 0 (- tx_daysAgo t)) (mccPtr (tx_mcc t)) now).
Definition seeded_accounts : list (string * string * string * string * string * string) := [
  (accountProbe, tenantA, "Probe Account", "EUR", "", "");
  (accountEUR, tenantA, "Kovács Anna", "EUR", "anna.kovacs@example.com", "Kovács Anna, Andrássy út 12, 1061 Budapest, Hungary");
  (accountUSD, tenantA, "Jordan Lee", "USD", "jordan.lee@example.com", "Jordan Lee, 350 Fifth Avenue, New York, NY 10118, USA");
  (accountB, tenantB, "Nagy Péter", "EUR", "peter.nagy@example.com", "Nagy Péter, Fő utca 3, 9021 Győr, Hungary")].
Definition steps : list Step :=
  flat_map tenant_steps seeded_tenants
  ++ [Access_of tenantA "otp"; Access_of tenantB "erste"]
  ++ map key_step [("00000000-0000-8000-8000-00000000c001", tenantA, devKeyA); ("00000000-0000-8000-8000-00000000c002", tenantB, devKeyB)]
  ++ map account_step seeded_accounts
  ++ map transaction_step seedTxns.

Context (fault : nat -> option driver_error).
Definition isUniqueViolation (e : driver_error) : bool := match e with PgError code _ => bool_decide (code = "23505") | _ => false end.
(** [n] counts the steps; within a tenant's access data [fault] goes on with the statement of the transaction. *)
Definition step (n : nat) (p : Step) (s : Tables) : M unit * Tables :=
  match p with
  | Access_of id slug =>
      let '(r, a) := seedAccess (fun i => fault (n + i)%nat) (MustParse id) slug (Some (fixture_of slug)) (st_access s) in
      (r, mkTables (st_directory s) a (st_accounts s) (st_transactions s) (st_metadata s))
  | Exec q | ExecUnlessThere q =>
      match match fault n with Some e => Err e | None => q (now_at n) s end with
      | Ok s' => (Ok tt, s')
      | Err e =>
          if match p with ExecUnlessThere _ => isUniqueViolation e | _ => false end then (Ok tt, s)
          else (Err (unmapped e), s)
      end
  end.
Fixpoint seed_run (n : nat) (l : list Step) (s : Tables) : M unit * Tables :=
  match l with
  | [] => (Ok tt, s)
  | p :: l => match step n p s with (Ok _, s) => seed_run (S n) l s | (Err e, s) => (Err e, s) end
  end.
Definition run : Tables -> M unit * Tables := seed_run 0 steps.
End seed.

(** ** What seeding again leaves alone *)
Section kept.
Context `{DC : Decimal} `{UU : UUID} {NU : Numeric} {YA : Yaml} {RT : Runtime}.
Context (MustParse : string -> uuid) (keycloak : string) (logo_of fixture_of : string -> string) (fault : nat -> option driver_error).

(** No transaction that is there is changed but for its category, no account but for where its holder is written to, no key
    at all. *)
Definition with_mcc (r : TransactionRow) (mcc : option string) : TransactionRow :=
  mkTransactionRow (xw_TenantID r) (xw_AccountID r) (xw_Rail r) (xw_Amount r) (xw_Currency r) (xw_Merchant r) (xw_OccurredAt r) mcc.
Definition with_contact (r : AccountRow) (email address : option string) : AccountRow :=
  mkAccountRow (aw_TenantID r) (aw_HolderName r) (aw_Currency r) (aw_OpenedAt r) email address.
Record keeps (s s' : Tables) : Prop := {
  kp_transactions : forall id r, st_transactions s !! id = Some r -> exists mcc, st_transactions s' !! id = Some (with_mcc r mcc);
  kp_accounts : forall id r, st_accounts s !! id = Some r -> exists email address, st_accounts s' !! id = Some (with_contact r email address);
  kp_keys : forall k, k ∈ dir_keys (st_directory s) -> k ∈ dir_keys (st_directory s')
}.
#[export] Instance keeps_preorder : PreOrder keeps.
Proof.
  split; [intros s; split; [intros id []; eauto|intros id []; eauto|done]|]. intros a b c [H1 H2 H3] [K1 K2 K3]. split.
  - intros id r Hr. destruct (H1 id r Hr) as [m Hm]. destruct (K1 id _ Hm) as [m' Hm']. by exists m'.
  - intros id r Hr. destruct (H2 id r Hr) as (e & x & Hm). destruct (K2 id _ Hm) as (e' & x' & Hm'). by exists e', x'.
  - auto.
Qed.
Definition keeping (q : SStmt) : Prop := forall now s s', q now s = Ok s' -> keeps s s'.
Lemma keeps_rows s d a md : (forall k, k ∈ dir_keys (st_directory s) -> k ∈ dir_keys d) ->
  keeps s (mkTables d a (st_accounts s) (st_transactions s) md).
Proof. intros H. split; cbn; [intros id []; eauto|intros id []; eauto|done]. Qed.
Lemma keeping_directory {A} (q : DStmt A) : (forall now d r d', q now d = (r, d') -> forall k, k ∈ dir_keys d -> k ∈ dir_keys d') -> keeping (in_directory q).
Proof.
  intros Hq now s s' H. unfold in_directory in H. destruct (q now (st_directory s)) as [[a|e] d] eqn:E; [|done]. injection H as <-.
  apply keeps_rows. by eapply Hq.
Qed.
Lemma update_tenant_keys id f now d r d' : update_tenant id f now d = (r, d') -> dir_keys d' = dir_keys d.
Proof. unfold update_tenant. destruct (update_where _ _ _). by intros [= _ <-]. Qed.
Lemma keeping_tenant id f : keeping (in_directory (update_tenant id f)).
Proof. apply keeping_directory. intros now d r d' H k. by rewrite (update_tenant_keys _ _ _ _ _ _ H). Qed.
Lemma upsert_keys_kept id name slug issuer now d r d' : q_UpsertTenant id name slug issuer now d = (r, d') -> dir_keys d' = dir_keys d.
Proof. unfold q_UpsertTenant. repeat case_match; by intros [= _ <-]. Qed.
Lemma keeping_upsert id name slug issuer : keeping (upsert_with_access id name slug issuer).
Proof.
  intros now s s' H. unfold upsert_with_access in H. apply bind_ok in H as (s1 & H1 & H). transitivity s1.
  - revert H1. apply keeping_directory. clear. intros now d r d' H k. by rewrite (upsert_keys_kept _ _ _ _ _ _ _ _ H).
  - destruct (is_tenant id s); [by injection H as <-|]. apply bind_ok in H as (a & _ & H). injection H as <-. by apply keeps_rows.
Qed.
Lemma keeping_account id tenant holder currency email address : keeping (q_InsertAccount id tenant holder currency email address).
Proof.
  intros now s s' H. unfold q_InsertAccount in H. apply bind_ok in H as (? & _ & H). apply bind_ok in H as (row & Hrow & H). injection H as <-.
  split; cbn; [intros i []; eauto| |done]. intros i r Hr. destruct (decide (i = id)) as [->|Hne].
  - rewrite Hr in Hrow. injection Hrow as <-. exists email, address. by rewrite lookup_insert_eq.
  - exists (aw_Email r), (aw_PostalAddress r). rewrite lookup_insert_ne by done. by destruct r.
Qed.
Lemma keeping_transaction id tenant account rail amount currency merchant at_ mcc :
  keeping (q_InsertTransaction id tenant account rail amount currency merchant at_ mcc).
Proof.
  intros now s s' H. unfold q_InsertTransaction in H. do 5 apply bind_ok in H as (? & _ & H). apply bind_ok in H as (row & Hrow & H). injection H as <-.
  split; cbn; [|intros i []; eauto|done]. intros i r Hr. destruct (decide (i = id)) as [->|Hne].
  - rewrite Hr in Hrow. injection Hrow as <-. exists mcc. by rewrite lookup_insert_eq.
  - exists (xw_Mcc r). rewrite lookup_insert_ne by done. by destruct r.
Qed.
Lemma keeping_logo tenant logo content_type : keeping (q_SeedTenantLogo tenant logo content_type).
Proof.
  intros now s s' H. unfold q_SeedTenantLogo in H. do 3 apply bind_ok in H as (? & _ & H). injection H as <-. by apply keeps_rows.
Qed.
Lemma keeping_key id tenant hash prefix label expires : keeping (in_directory (q_InsertTenantKey id tenant hash prefix label expires)).
Proof.
  apply keeping_directory. intros now d r d' H k Hk. unfold q_InsertTenantKey in H.
  repeat case_match; injection H as <- <-; try done. cbn. by apply elem_of_app; left.
Qed.

Definition keeping_step (p : Step) : Prop := match p with Exec q | ExecUnlessThere q => keeping q | Access_of _ _ => True end.
Lemma steps_keep : Forall keeping_step (steps MustParse keycloak logo_of).
Proof.
  assert (Ht : forall t, Forall keeping_step (tenant_steps MustParse keycloak logo_of t)).
  { intros [[[[id name] slug] domain] core]. unfold tenant_steps. cbv zeta.
    repeat (apply list.Forall_cons_2; [cbn [keeping_step]; first [apply keeping_upsert|apply keeping_tenant|apply keeping_logo]|]). by apply list.Forall_nil_2. }
  unfold steps. repeat apply Forall_app_2; [apply Ht|apply Ht|constructor|by repeat constructor|..];
    apply list.Forall_forall; intros p (x & -> & _)%list_elem_of_fmap.
  - destruct x as [[id tenant] secret]. apply keeping_key.
  - destruct x as [[[[[id tenant] holder] currency] email] address]. apply keeping_account.
  - intros now s s' H. revert H. apply keeping_transaction.
Qed.
Lemma step_keeps n p s r s' : keeping_step p -> step MustParse fixture_of fault n p s = (r, s') -> keeps s s'.
Proof.
  intros Hp H. destruct p as [q|q|id slug]; cbn [step] in H.
  3: { destruct (seedAccess _ _ _ _ _) as [r' a]. injection H as _ <-. by apply keeps_rows. }
  all: destruct (fault n) as [e|]; [by repeat case_match; injection H as _ <-|].
  all: destruct (q (now_at n) s) as [s1|e] eqn:E; [injection H as _ <-; by eapply Hp|by repeat case_match; injection H as _ <-].
Qed.
(** Wherever it stops. *)
Lemma seeding_keeps s r s' : run MustParse keycloak logo_of fixture_of fault s = (r, s') -> keeps s s'.
Proof.
  unfold run. generalize 0%nat as n. pose proof steps_keep as Hs. revert Hs. generalize (steps MustParse keycloak logo_of) as l.
  intros l Hs. revert s. induction Hs as [|p l Hp Hs IH]; intros s n H; cbn [seed_run] in H; [by injection H as _ <-|].
  destruct (step _ _ _ n p s) as [[u|e] s1] eqn:E; [|injection H as _ <-; by eapply step_keeps].
  transitivity s1; [by eapply step_keeps|by eapply IH].
Qed.
End kept.

Module SeedExamples.
  Import QDec NUuid AuthzExamples FollowedExamples.

#[export] Instance ticking : Runtime :=
  { now_at n := Z.of_nat n * 86400000000000; NewV7 n := Ok (N.of_nat n); Local := UTC; sha256 s := s; address _ := "" }.
Fixpoint hex (s : string) (n : N) : N :=
  match s with
  | EmptyString => n
  | String a s =>
      let c := Ascii.N_of_ascii a in
      if (c =? 45)%N then hex s n else hex s (16 * n + (if (c <? 58)%N then c - 48 else c - 87))%N
  end.
Definition parse (s : string) : uuid := hex s 0%N.
Definition seed_with (fault : nat -> option driver_error) : Tables -> M unit * Tables :=
  run parse "http://localhost:8180" (fun slug => slug) (fun _ => "first") fault.
(** What the migrations leave: the first tenant, with the default access. *)
Definition migrated : Tables :=
  mkTables (mkDirectory [mkTenantEntry (parse tenantA) "OTP Bank" "otp" None [] None ∅] [] ∅)
    match run_statements (fun _ => None) 0 (default_access (parse tenantA)) bare with Ok a => a | Err _ => bare end ∅ ∅ ∅.
Definition once : M unit * Tables := seed_with calm migrated.
(** The tables, without the times and the versions. *)
Definition shape (s : Tables) :=
  (map (fun t => (te_ID t, te_Name t, te_Slug t, te_OidcIssuer t, te_EmailDomains t, te_Settings t !! "core")) (dir_tenants (st_directory s)),
   map (fun k => (kr_ID k, kr_Prefix k, kr_RevokedAt k)) (dir_keys (st_directory s)),
   (map (fun r => (gw_TenantID r, gw_Slug r, gw_IsDefault r)) (at_teams (st_access s)),
    map (fun r => (bw_TenantID r, bw_Subject r)) (at_members (st_access s)), length (at_grants (st_access s)), length (at_routing (st_access s))),
   (map (fun kv => (kv.1, aw_HolderName kv.2, aw_Email kv.2)) (map_to_list (st_accounts s)),
    map (fun kv => (kv.1, xw_Merchant kv.2, xw_OccurredAt kv.2, xw_Mcc kv.2)) (map_to_list (st_transactions s)),
    map (fun kv => (kv.1, mw_Logo kv.2)) (map_to_list (st_metadata s)))).
Example seeded_once : once.1 = Ok tt /\
  (length (dir_tenants (st_directory once.2)), length (dir_keys (st_directory once.2)), size (st_accounts once.2), size (st_transactions once.2))
    = (2, 2, 4, 10)%nat.
Proof. vm_compute. done. Qed.
(** Seeded again, the same rows; seeded after a run that was stopped, too. *)
Example seeded_again : (seed_with calm once.2).1 = Ok tt /\ shape (seed_with calm once.2).2 = shape once.2.
Proof. vm_compute. done. Qed.
Definition stopped_at (k n : nat) : option driver_error := if bool_decide (n = k) then Some (PgError "57P01" "") else None.
Example finished_later : map (fun k => (seed_with (stopped_at k) migrated).1) [3; 11; 17]%nat = replicate 3 (Err (EPlain (driver_text (PgError "57P01" "")))) /\
  map (fun k => let s := (seed_with calm (seed_with (stopped_at k) migrated).2).2 in
     (length (dir_tenants (st_directory s)), length (at_grants (st_access s)), size (st_accounts s), size (st_transactions s))) [3; 11; 17]%nat =
  replicate 3 (2, length (at_grants (st_access once.2)), 4, 10)%nat.
Proof. vm_compute. done. Qed.
(** What an operator set in between is set back. *)
Definition reconfigured : Tables :=
  match in_directory (q_SetTenantCore (JObject [("kind", JString "real")]) (parse tenantA)) 0 once.2 with Ok s => s | Err _ => once.2 end.
Example reseeding_resets :
  map (fun s => (fun t => te_Settings t !! "core") <$> head (dir_tenants (st_directory s))) [reconfigured; (seed_with calm reconfigured).2] =
  [Some (Some (JObject [("kind", JString "real")])); Some (Some (JObject [("kind", JString "mock"); ("declineAbove", JString "5000.00")]))].
Proof. vm_compute. done. Qed.
End SeedExamples.
