(* ===== verification/Sessions.v ===== *)
(** * Sessions: the frontend server's opaque sessions ([internal/websession]).

    Blobs in, blobs out, expiry enforced on read. The store's statements run on the pool of [Keys], one by one; its
    errors are the driver's, unclassified. The loop that purges every five minutes is left out, its turn is
    [PurgeExpired]. *)
From S2P Require Import Prelude Errs GoTime Ext Store Wire Tx Sql PgStore Directory Auth Keys.

Definition MaxCiphertext : Z := 16384.

Section sessions.
Context `{UU : UUID} {RT : Runtime}.
Context (fault : nat -> option driver_error) (db_now : nat -> time).
Abbreviation run q := (plain fault db_now q).

Record Blob : Type := mkBlob {
  bl_TenantID : option uuid; bl_Subject : string; bl_Sid : string; bl_Ciphertext : string; bl_ExpiresAt : time
}.
Record Selector : Type := mkSelector { sl_Sid : string; sl_TenantID : option uuid; sl_Subject : string }.

Definition session_invalid (msg : string) : error := EClass (sentinel Invalid "contract-violation" msg).
Definition session_Put (id : uuid) (b : Blob) : K unit :=
  let n := Z.of_nat (String.length (bl_Ciphertext b)) in
  if (n =? 0) || (MaxCiphertext <? n) then k_fail (session_invalid "ciphertext must be between 1 and 16384 bytes")
  else
    now ← k_now;
    if negb (now <? bl_ExpiresAt b) then k_fail (session_invalid "expiresAt must be in the future")
    else run (q_PutWebSession id (bl_TenantID b) (bl_Ciphertext b) (bl_ExpiresAt b) (nonEmpty (bl_Subject b)) (nonEmpty (bl_Sid b))).

Definition DeleteMatching (sel : Selector) : K Z :=
  if negb (bool_decide (sl_Sid sel = "")) then run (q_DeleteWebSessionsBySid (sl_Sid sel))
  else match sl_TenantID sel with
       | Some t =>
           if negb (bool_decide (sl_Subject sel = "")) then run (q_DeleteWebSessionsBySubject t (sl_Subject sel))
           else run (q_DeleteWebSessionsByTenant t)
       | None => mret 0
       end.

(** The subject and the realm's session id are not among the columns read. *)
Definition session_Get (id : uuid) : K Blob := fun w =>
  match pool fault db_now (q_GetWebSession id) w with
  | (Ok (tenant, ciphertext, expires), w) => (Ok (mkBlob tenant "" "" ciphertext expires), w)
  | (Err ErrNoRows, w) => (Err (EClass ErrNotFound), w)
  | (Err e, w) => (Err (unmapped e), w)
  end.
Definition session_Delete (id : uuid) : K unit := _ ← run (q_DeleteWebSession id); mret tt.
Definition PurgeExpired : K Z := run q_PurgeWebSessions.

(** ** Facts *)
Definition stored (w : KeyWorld) : gmap uuid SessionRow := dir_sessions (kw_dir w).
(** The sessions a selector names. *)
Definition selected (sel : Selector) (s : SessionRow) : bool :=
  if negb (bool_decide (sl_Sid sel = "")) then bool_decide (sw_Sid s = Some (sl_Sid sel))
  else match sl_TenantID sel with
       | Some t => bool_decide (sw_TenantID s = Some t) && (bool_decide (sl_Subject sel = "") || bool_decide (sw_Subject s = Some (sl_Subject sel)))
       | None => false
       end.

Lemma deleted (p : uuid -> SessionRow -> bool) now d r d' : delete_sessions p now d = (r, d') ->
  (forall id, dir_sessions d' !! id = match dir_sessions d !! id with Some s => if p id s then None else Some s | None => None end) /\
  r = Ok (Z.of_nat (size (dir_sessions d)) - Z.of_nat (size (dir_sessions d'))).
Proof.
  unfold delete_sessions. intros [= <- <-]. cbn. split.
  - intros id. rewrite map_lookup_filter. destruct (dir_sessions d !! id) as [s|]; [|done]. cbn. destruct (p id s) eqn:E.
    + case_guard; naive_solver.
    + case_guard; naive_solver.
  - f_equal. rewrite <- (map_filter_union_complement (fun kv => Is_true (p kv.1 kv.2)) (dir_sessions d)) at 2.
    rewrite map_size_disj_union by apply map_disjoint_filter_complement. lia.
Qed.
Lemma DeleteMatching_ok sel w n w' : DeleteMatching sel w = (Ok n, w') ->
  (forall id, stored w' !! id = match stored w !! id with Some s => if selected sel s then None else Some s | None => None end) /\
  n = Z.of_nat (size (stored w)) - Z.of_nat (size (stored w')).
Proof.
  assert (Hrun : forall p, run (delete_sessions (fun _ => p)) w = (Ok n, w') ->
    (forall id, stored w' !! id = match stored w !! id with Some s => if p s then None else Some s | None => None end) /\
    n = Z.of_nat (size (stored w)) - Z.of_nat (size (stored w'))).
  { intros p. unfold plain, pool. destruct (fault _); [done|]. destruct (delete_sessions _ _ (kw_dir w)) as [r d'] eqn:E.
    destruct (deleted _ _ _ _ _ E) as [H ->]. by intros [= <- <-]. }
  unfold DeleteMatching, selected. destruct (negb (bool_decide (sl_Sid sel = ""))); [apply Hrun|].
  destruct (sl_TenantID sel) as [t|].
  - destruct (bool_decide (sl_Subject sel = "")); cbn [negb orb]; intros H%Hrun; [|exact H].
    destruct H as [H ->]. split; [|done]. intros id. rewrite H. destruct (stored w !! id); [|done]. by rewrite andb_true_r.
  - intros [= <- <-]. split; [|lia]. intros id. by destruct (stored w !! id).
Qed.

Lemma Put_ok id b w w' : session_Put id b w = (Ok tt, w') ->
  1 <= Z.of_nat (String.length (bl_Ciphertext b)) <= MaxCiphertext /\ now_at (kw_ticks w) < bl_ExpiresAt b /\
  stored w' = <[id := mkSessionRow (bl_TenantID b) (bl_Ciphertext b) (timestamptz (bl_ExpiresAt b)) (nonEmpty (bl_Subject b)) (nonEmpty (bl_Sid b))]> (stored w).
Proof.
  unfold session_Put. destruct (_ || _) eqn:E1; [done|]. apply orb_false_iff in E1 as [E1 E2]. to_prop.
  unfold mbind, K_bind, k_now. destruct (negb _) eqn:E3; [done|]. apply negb_false_iff in E3. to_prop.
  unfold plain, pool. cbn [kw_statements kw_dir]. destruct (fault _); [done|]. unfold q_PutWebSession.
  destruct (to_text _); [|done]. destruct (to_text _); [|done]. destruct (match bl_TenantID b with Some _ => _ | None => _ end); [done|].
  intros [= <-]. split; [lia|]. split; [done|]. done.
Qed.
Lemma Get_at id w : fault (kw_statements w) = None -> (session_Get id w).1 =
  match stored w !! id with
  | Some s => if db_now (kw_statements w) <? sw_ExpiresAt s then Ok (mkBlob (sw_TenantID s) "" "" (sw_Ciphertext s) (sw_ExpiresAt s))
              else Err (EClass ErrNotFound)
  | None => Err (EClass ErrNotFound)
  end.
Proof.
  intros Hf. unfold session_Get, pool. rewrite Hf. unfold q_GetWebSession, select_one, stored.
  destruct (dir_sessions (kw_dir w) !! id) as [s|]; [|done]. by destruct (_ <? _).
Qed.

(** Sessions are kept as the frontend server left them and no longer: what was put is read back - tenant,
    ciphertext, and expiry to the microsecond - until it expires, only ciphertexts within the limit are taken and
    other sessions are not touched; ending sessions by a realm session, a tenant's subject or a tenant ends exactly
    those it names, counts them, and none of them is read again; naming nothing ends nothing; and a purge is
    never noticed by a later reader. *)
Theorem session_lifecycle w :
  (forall id b w', session_Put id b w = (Ok tt, w') ->
     1 <= Z.of_nat (String.length (bl_Ciphertext b)) <= MaxCiphertext /\
     (fault (kw_statements w') = None -> (session_Get id w').1 =
        if db_now (kw_statements w') <? timestamptz (bl_ExpiresAt b)
        then Ok (mkBlob (bl_TenantID b) "" "" (bl_Ciphertext b) (timestamptz (bl_ExpiresAt b))) else Err (EClass ErrNotFound)) /\
     (forall other, other <> id -> stored w' !! other = stored w !! other)) /\
  (forall sel n w', DeleteMatching sel w = (Ok n, w') ->
     n = Z.of_nat (size (stored w)) - Z.of_nat (size (stored w')) /\
     (forall id s, stored w !! id = Some s ->
        (selected sel s = false -> stored w' !! id = Some s) /\
        (selected sel s = true -> fault (kw_statements w') = None -> (session_Get id w').1 = Err (EClass ErrNotFound)))) /\
  (forall n w', DeleteMatching (mkSelector "" None "") w = (n, w') -> n = Ok 0 /\ w' = w) /\
  (forall n w' id now, PurgeExpired w = (Ok n, w') -> db_now (kw_statements w) <= now ->
     (q_GetWebSession id now (kw_dir w')).1 = (q_GetWebSession id now (kw_dir w)).1).
Proof.
  split_and!.
  - intros id b w' (Hn & _ & Hs)%Put_ok. split; [done|]. split.
    + intros Hf. rewrite Get_at, Hs, lookup_insert_eq by done. done.
    + intros other Ho. by rewrite Hs, lookup_insert_ne by done.
  - intros sel n w' [H Hn]%DeleteMatching_ok. split; [done|]. intros id s Hs. specialize (H id). rewrite Hs in H. split; intros Es; rewrite Es in H; [done|].
    intros Hf. by rewrite Get_at, H.
  - intros n w' H. cbn in H. by injection H as <- <-.
  - intros n w' id now. unfold PurgeExpired, plain, pool. destruct (fault _); [done|]. unfold q_PurgeWebSessions.
    destruct (delete_sessions _ _ (kw_dir w)) as [r d'] eqn:E. destruct (deleted _ _ _ _ _ E) as [H ->]. intros [= _ <-] Hnow.
    cbn [kw_dir]. unfold q_GetWebSession, select_one. rewrite H. destruct (dir_sessions (kw_dir w) !! id) as [s|]; [|done].
    cbn beta. destruct (sw_ExpiresAt s <? db_now _) eqn:E1; [|by destruct (now <? _)]. to_prop. by rewrite (proj2 (Z.ltb_ge now (sw_ExpiresAt s))) by lia.
Qed.
End sessions.

Module SessionExamples.
  Import NUuid AuthExamples KeyExamples.

Definition blob (subject : string) : Blob := mkBlob (Some otp) subject "" "secret" (5 * Second + 1).
Definition sid (n : N) : @uuid NUuid.ops := n.
Definition two : KeyWorld :=
  (session_Put never clock (sid 2) (blob "b") (session_Put never clock (sid 1) (blob "a") start).2).2.
Definition ends (sel : Selector) : M Z * list (M Blob) :=
  let '(n, w) := DeleteMatching never clock sel two in
  (n, map (fun id => (session_Get never clock id w).1) [sid 1; sid 2]).
(** Ending one subject's sessions leaves the other's; expiry is kept to the microsecond. *)
Example end_one : ends (mkSelector "" (Some otp) "a") =
  (Ok 1, [fail ErrNotFound; Ok (mkBlob (Some otp) "" "" "secret" (5 * Second))]).
Proof. vm_compute. reflexivity. Qed.
End SessionExamples.
