(* ===== verification/Limits.v ===== *)
(** * Limits: budgets of requests per tenant and of failed credentials per address
    ([platform/ratelimit/ratelimit.go] and [platform/auth/failures.go]).

    The failure limiter is a map in the process, behind a mutex; the rate limiter counts in the database, so its
    counter is an interface with the law its comment states. [time.Now] is the run time's, one reading at a time. *)
From S2P Require Import Prelude Errs GoTime GoJson Ext Types Access Text Http Store Tx Auth.

Definition ErrTooManyFailures : Error := sentinel RateLimited "rate-limited" "too many failed authentication attempts from this address".
Definition ErrRateLimited : Error := sentinel RateLimited "rate-limited" "this tenant has used its request budget for the current minute".

(** ** [net.SplitHostPort], as far as the host goes *)
Fixpoint last_index (s : string) (c : Ascii.ascii) (i : nat) (found : option nat) : option nat :=
  match s with EmptyString => found | String a s => last_index s c (S i) (if bool_decide (a = c) then Some i else found) end.
Fixpoint first_index (s : string) (c : Ascii.ascii) (i : nat) : option nat :=
  match s with EmptyString => None | String a s => if bool_decide (a = c) then Some i else first_index s c (S i) end.
Definition sub_from (s : string) (i : nat) : string := String.substring i (String.length s - i) s.
Definition SplitHost (hostport : string) : option string :=
  match last_index hostport ":" 0 None with
  | None => None
  | Some i =>
      let checked host j k :=
        if contains_char (sub_from hostport j) "[" || contains_char (sub_from hostport k) "]" then None else Some host in
      match hostport with
      | String "[" _ =>
          match first_index hostport "]" 0 with
          | None => None
          | Some e => if Nat.eqb (S e) i then checked (String.substring 1 (e - 1) hostport) 1%nat (S e) else None
          end
      | _ =>
          let host := String.substring 0 i hostport in
          if contains_char host ":" then None else checked host 0%nat 0%nat
      end
  end.
Definition peerOf (remote : string) : string := default remote (SplitHost remote).

Example split_hosts : map SplitHost ["10.0.0.1:80"; "[::1]:443"; "::1"; "[::1]"; "host"; "[::1]x:1"; ":80"; "a[b:1"] =
  [Some "10.0.0.1"; Some "::1"; None; None; None; None; Some ""; None].
Proof. vm_compute. reflexivity. Qed.

(** ** Failed credentials *)
Section failures.
Context `{UU : UUID} {RT : Runtime}.

Record FailureLimiter : Type := mkFailureLimiter {
  fl_perMinute : Z;
  fl_hits : gmap string (list time);
  fl_lastSweep : time;
  fl_ticks : nat
}.
Definition NewFailureLimiter (perMinute : Z) (ticks : nat) : FailureLimiter :=
  mkFailureLimiter perMinute ∅ (now_at ticks) (S ticks).
Definition fl_with (f : FailureLimiter) (hits : gmap string (list time)) (swept : time) (ticks : nat) : FailureLimiter :=
  mkFailureLimiter (fl_perMinute f) hits swept ticks.

(** What is left of a peer's failures at a reading of the clock: those of the last minute. *)
Fixpoint recent (now : time) (all : list time) : list time :=
  match all with
  | [] => []
  | t :: all' => if t <? now + - Minute then recent now all' else all
  end.
(** The deletions of a sweep, one reading of the clock per peer. *)
Fixpoint sweep_peers (peers : list (string * list time)) (hits : gmap string (list time)) (ticks : nat) : gmap string (list time) * nat :=
  match peers with
  | [] => (hits, ticks)
  | (peer, all) :: peers =>
      sweep_peers peers (if bool_decide (recent (now_at ticks) all = []) then delete peer hits else hits) (S ticks)
  end.
Definition sweepLocked (f : FailureLimiter) : FailureLimiter :=
  let k := fl_ticks f in
  if now_at k - fl_lastSweep f <? Minute then fl_with f (fl_hits f) (fl_lastSweep f) (S k)
  else
    let '(hits, ticks) := sweep_peers (map_to_list (fl_hits f)) (fl_hits f) (S (S k)) in
    fl_with f hits (now_at (S k)) ticks.
Definition hits_of (f : FailureLimiter) (peer : string) : list time := default [] (fl_hits f !! peer).

Definition blocked (f : FailureLimiter) (peer : string) : bool * FailureLimiter :=
  let f := sweepLocked f in
  (fl_perMinute f <=? Z.of_nat (length (recent (now_at (fl_ticks f)) (hits_of f peer))),
   fl_with f (fl_hits f) (fl_lastSweep f) (S (fl_ticks f))).
Definition record_failure (f : FailureLimiter) (peer : string) : FailureLimiter :=
  let k := fl_ticks f in
  fl_with f (<[peer := recent (now_at k) (hits_of f peer) ++ [now_at (S k)]]> (fl_hits f)) (fl_lastSweep f) (S (S k)).

(** The middleware, over a state that holds the limiter. *)
Definition FailureMiddleware {S} (get : S -> FailureLimiter) (put : FailureLimiter -> S -> S) (perMinute : Z) : Middleware Values S :=
  fun next v r h s =>
  if perMinute <=? 0 then next v r h s
  else if bool_decide (header r "Authorization" = "") then next v r h s
  else
    let peer := peerOf (RemoteAddr r) in
    let '(b, f) := blocked (get s) peer in
    if (b : bool) then
      (Wrote (WriteProblem h (Http.WithRetryAfter (ProblemFrom (v_request_id v) (Path r) (EClass ErrTooManyFailures)) 60)), put f s)
    else
      let f := match v_auth v with Some _ => record_failure f peer | None => f end in
      next v r h (put f s).

(** *** The limiter against the full log of failures *)

(** A clock does not go back. *)
Class SteadyClock : Prop := steady_clock : forall i j, (i <= j)%nat -> now_at i <= now_at j.
Context {SC : SteadyClock}.

(** The failures of one peer in a log, oldest first, and how many of them are of the last minute. *)
Definition failures_of (log : list (string * time)) (peer : string) : list time :=
  omap (fun e => if bool_decide (e.1 = peer) then Some e.2 else None) log.
Definition in_last_minute (now : time) (ts : list time) : list time := List.filter (fun t => now + - Minute <=? t) ts.

Lemma recent_filter now ts : Sorted Z.le ts -> recent now ts = in_last_minute now ts.
Proof.
  intros Hs%Sorted_StronglySorted; [|intros a b c; lia]. induction Hs as [|t ts Hs IH Hall]; [done|].
  cbn. destruct (t <? _) eqn:E; to_prop.
  - rewrite (proj2 (Z.leb_gt _ _)) by lia. exact IH.
  - rewrite (proj2 (Z.leb_le _ _)) by lia. f_equal. symmetry. clear IH Hs. induction Hall as [|u ts Hu _ IH]; [done|].
    cbn. rewrite (proj2 (Z.leb_le _ _)) by lia. f_equal. exact IH.
Qed.
Lemma in_last_minute_mono a b ts : a <= b -> in_last_minute b (in_last_minute a ts) = in_last_minute b ts.
Proof.
  intros H. unfold in_last_minute in *. induction ts as [|t ts IH]; [done|]. cbn [List.filter].
  destruct (a + - Minute <=? t) eqn:Ea; cbn [List.filter]; [by rewrite IH|].
  to_prop. rewrite IH. by rewrite (proj2 (Z.leb_gt (b + - Minute) t)) by lia.
Qed.
Lemma in_last_minute_sorted now ts : Sorted Z.le ts -> Sorted Z.le (in_last_minute now ts).
Proof.
  intros Hs%Sorted_StronglySorted; [|intros a b c; lia]. apply StronglySorted_Sorted.
  induction Hs as [|t ts Hs IH Hall]; [constructor|]. cbn. destruct (_ <=? t); [|done]. constructor; [done|].
  rewrite list.Forall_forall in Hall |- *. intros u Hu. apply list_elem_of_In, List.filter_In in Hu as [Hu _]. apply Hall. by apply list_elem_of_In.
Qed.

(** What the map keeps of a log, at a reading: for each peer, at least its failures of the minute before. *)
Record tracks (f : FailureLimiter) (log : list (string * time)) : Prop := {
  tr_sorted : forall peer, Sorted Z.le (failures_of log peer) /\ Sorted Z.le (hits_of f peer);
  tr_past : Forall (fun e => exists k, (k < fl_ticks f)%nat /\ e.2 = now_at k) log;
  tr_kept : forall peer k, (fl_ticks f <= k)%nat -> in_last_minute (now_at k) (hits_of f peer) = in_last_minute (now_at k) (failures_of log peer)
}.

Lemma tracks_ticks f log ticks : (fl_ticks f <= ticks)%nat -> tracks f log -> tracks (fl_with f (fl_hits f) (fl_lastSweep f) ticks) log.
Proof.
  intros Hle [H1 H2 H3]. split; cbn; [exact H1| |].
  - eapply list.Forall_impl; [exact H2|]. intros e (k & Hk & He). exists k. split; [lia|done].
  - intros peer k Hk. apply H3. lia.
Qed.

Lemma sweep_peers_hits peers hits ticks hits' ticks' : sweep_peers peers hits ticks = (hits', ticks') ->
  (forall peer all, (peer, all) ∈ peers -> hits !! peer = Some all \/ hits !! peer = None) ->
  (ticks <= ticks')%nat /\
  forall peer, hits' !! peer = hits !! peer \/ (hits' !! peer = None /\ exists all k, (ticks <= k < ticks')%nat /\ hits !! peer = Some all /\ recent (now_at k) all = []).
Proof.
  revert hits ticks. induction peers as [|[p all] peers IH]; intros hits ticks H Hin; cbn [sweep_peers] in H.
  { injection H as <- <-. split; [lia|]. by left. }
  assert (Hp : hits !! p = Some all \/ hits !! p = None) by (apply Hin, elem_of_cons; by left).
  case_bool_decide as Hr.
  - apply IH in H as [Hle H].
    + split; [lia|]. intros peer. destruct (decide (peer = p)) as [->|Hne].
      * destruct (H p) as [E|[E (a & k & Hk & Ea & _)]]; rewrite lookup_delete_eq in *; [|done].
        destruct Hp as [Hp|Hp]; [right|left; congruence]. split; [done|]. exists all, ticks. split_and!; [lia|lia|done|done].
      * destruct (H peer) as [E|[E (a & k & Hk & Ea & Er)]]; rewrite lookup_delete_ne in * by done; [by left|].
        right. split; [done|]. exists a, k. split_and!; [lia|lia|done|done].
    + intros peer a Ha. destruct (decide (peer = p)) as [->|Hne]; [right; by rewrite lookup_delete_eq|].
      rewrite lookup_delete_ne by done. apply Hin, elem_of_cons. by right.
  - apply IH in H as [Hle H]; [|intros peer a Ha; apply Hin, elem_of_cons; by right]. split; [lia|]. intros peer.
    destruct (H peer) as [E|[E (a & k & Hk & Ea & Er)]]; [by left|]. right. split; [done|]. exists a, k. split_and!; [lia|lia|done|done].
Qed.

Lemma sweep_tracks f log : tracks f log -> tracks (sweepLocked f) log /\ (fl_ticks f < fl_ticks (sweepLocked f))%nat /\
  fl_perMinute (sweepLocked f) = fl_perMinute f.
Proof.
  intros Ht. unfold sweepLocked. destruct (_ <? Minute).
  { split; [|split; [cbn; lia|done]]. apply tracks_ticks; [lia|done]. }
  destruct (sweep_peers _ _ _) as [hits ticks] eqn:E. destruct Ht as [H1 H2 H3]. apply sweep_peers_hits in E as [Hle E].
  2: { intros peer all Hp. left. by apply elem_of_map_to_list. }
  assert (Hh : forall peer, default [] (hits !! peer) = hits_of f peer \/
    (default [] (hits !! peer) = [] /\ exists k, (S (S (fl_ticks f)) <= k < ticks)%nat /\ recent (now_at k) (hits_of f peer) = [])).
  { intros peer. unfold hits_of. destruct (E peer) as [->|[-> (all & k & Hk & -> & Hr)]]; [by left|]. right. split; [done|]. by exists k. }
  split; [|split; [cbn; lia|done]]. split; cbn.
  - intros peer. destruct (H1 peer) as [H4 H5]. split; [done|]. unfold hits_of. cbn. destruct (Hh peer) as [->|[-> _]]; [done|constructor].
  - eapply list.Forall_impl; [exact H2|]. intros e (k & Hk & He). exists k. split; [lia|done].
  - intros peer k Hk. rewrite <- H3 by lia. change (hits_of (fl_with f hits (now_at (S (fl_ticks f))) ticks) peer) with (default [] (hits !! peer)).
    destruct (Hh peer) as [->|[-> (j & Hj & Hr)]]; [done|].
    rewrite recent_filter in Hr by apply H1. rewrite <- (in_last_minute_mono (now_at j) (now_at k) (hits_of f peer)) by (apply steady_clock; lia). by rewrite Hr.
Qed.

(** An address is refused exactly when it failed too often: after any sequence of checks and recorded failures,
    and however old entries were dropped or swept, the limiter blocks a peer if and only if the whole history of
    its failures holds as many of the last minute as the configured number; no other peer's failures count. *)
Theorem blocked_exact f log peer : tracks f log ->
  let '(b, f') := blocked f peer in
  tracks f' log /\ fl_perMinute f' = fl_perMinute f /\
  exists k, (fl_ticks f <= k < fl_ticks f')%nat /\
    b = (fl_perMinute f <=? Z.of_nat (length (in_last_minute (now_at k) (failures_of log peer)))).
Proof.
  intros Ht. unfold blocked. apply sweep_tracks in Ht as (Ht & Hlt & Hp). rewrite Hp. split; [|split; [done|]].
  - apply tracks_ticks; [lia|done].
  - exists (fl_ticks (sweepLocked f)). cbn. split; [lia|]. destruct Ht as [H1 H2 H3]. by rewrite recent_filter, H3 by (apply H1 || lia).
Qed.

Lemma failures_of_app log peer p t : failures_of (log ++ [(p, t)]) peer = failures_of log peer ++ if bool_decide (p = peer) then [t] else [].
Proof. unfold failures_of. rewrite omap_app. cbn. by destruct (bool_decide _). Qed.
Lemma sorted_snoc ts t : Sorted Z.le ts -> Forall (fun u => u <= t) ts -> Sorted Z.le (ts ++ [t]).
Proof.
  intros Hs HF. apply StronglySorted_Sorted. apply Sorted_StronglySorted in Hs; [|intros a b c; lia].
  induction Hs as [|u ts Hs IH Hall]; [repeat constructor|]. apply list.Forall_cons in HF as [Hu HF]. cbn. constructor; [by apply IH|].
  apply list.Forall_app. split; [done|]. by repeat constructor.
Qed.
Lemma failures_past f log peer t : tracks f log -> (forall k, (k < fl_ticks f)%nat -> now_at k <= t) -> Forall (fun u => u <= t) (failures_of log peer).
Proof.
  intros [_ H2 _] Hk. apply list.Forall_forall. intros u Hu. unfold failures_of in Hu. apply list_elem_of_omap in Hu as (e & He & Hu).
  destruct (bool_decide _); [|done]. injection Hu as <-. rewrite list.Forall_forall in H2. destruct (H2 e He) as (k & Hlt & ->). by apply Hk.
Qed.

Lemma record_tracks f log peer : tracks f log ->
  tracks (record_failure f peer) (log ++ [(peer, now_at (S (fl_ticks f)))]) /\ fl_perMinute (record_failure f peer) = fl_perMinute f.
Proof.
  intros Ht. split; [|done]. pose proof Ht as [H1 H2 H3]. set (t := now_at (S (fl_ticks f))).
  assert (Hpast : forall p, Forall (fun u => u <= t) (failures_of log p)) by (intros p; eapply failures_past; [done|intros k Hk; apply steady_clock; lia]).
  assert (Hrec : Sorted Z.le (recent (now_at (fl_ticks f)) (hits_of f peer) ++ [t])).
  { destruct (H1 peer) as [Ha Hb]. rewrite recent_filter by done. rewrite H3 by lia. apply sorted_snoc; [by apply in_last_minute_sorted|].
    specialize (Hpast peer). rewrite list.Forall_forall in Hpast |- *. intros u Hu. apply list_elem_of_In, List.filter_In in Hu as [Hu _].
    apply Hpast. by apply list_elem_of_In. }
  split.
  - intros p. rewrite failures_of_app. destruct (H1 p) as [Ha Hb]. unfold record_failure, hits_of. cbn. destruct (decide (peer = p)) as [->|Hne].
    + rewrite bool_decide_true by done. rewrite lookup_insert_eq. cbn. split; [by apply sorted_snoc|exact Hrec].
    + rewrite bool_decide_false by done. rewrite lookup_insert_ne by done. by rewrite app_nil_r.
  - apply list.Forall_app. split; [|repeat constructor; cbn; exists (S (fl_ticks f)); split; [lia|done]].
    eapply list.Forall_impl; [exact H2|]. intros e (k & Hk & He). exists k. cbn. split; [lia|done].
  - intros p k Hk. cbn in Hk. rewrite failures_of_app. unfold record_failure, hits_of. cbn. destruct (decide (peer = p)) as [->|Hne].
    + rewrite bool_decide_true by done. rewrite lookup_insert_eq. cbn. destruct (H1 p) as [Ha Hb]. rewrite recent_filter by done.
      unfold in_last_minute. rewrite !List.filter_app. f_equal. fold (in_last_minute (now_at (fl_ticks f)) (hits_of f p)).
      change (in_last_minute (now_at k) (in_last_minute (now_at (fl_ticks f)) (hits_of f p)) = in_last_minute (now_at k) (failures_of log p)).
      rewrite in_last_minute_mono by (apply steady_clock; lia). apply H3. lia.
    + rewrite bool_decide_false by done. rewrite lookup_insert_ne by done. rewrite app_nil_r. apply H3. lia.
Qed.

Lemma new_tracks perMinute ticks : tracks (NewFailureLimiter perMinute ticks) [].
Proof. split; [|constructor|done]. intros peer. unfold hits_of. cbn. rewrite lookup_empty. split; constructor. Qed.
End failures.

(** ** Budgets per tenant *)
Section rate.
Context `{UU : UUID} {RT : Runtime}.

(** Whether the database answers, by the time of the call; its table of windows; and the readings of the clock. *)
Context (reachable : nat -> bool).
Record Budget : Type := mkBudget { bg_windows : gmap (uuid * time) Z; bg_ticks : nat }.

(** The queries on the table: the count of a window, an [int] column, goes up by one, from none; old windows go. *)
Definition q_BumpTenantRateWindow (id : uuid) (window : time) (ws : gmap (uuid * time) Z) : option Z * gmap (uuid * time) Z :=
  let n := default 0 (ws !! (id, window)) + 1 in
  if n <? 2 ^ 31 then (Some n, <[(id, window) := n]> ws) else (None, ws).
Definition q_PurgeTenantRateWindows (cutoff : time) (ws : gmap (uuid * time) Z) : Z * gmap (uuid * time) Z :=
  let kept := filter (fun e => cutoff <= e.1.2) ws in (Z.of_nat (size ws) - Z.of_nat (size kept), kept).

(** [PGCounter.Bump] and [Purge], an hour back; [None]: the statement failed. *)
Definition Bump (id : uuid) (window : time) (b : Budget) : option Z * Budget :=
  if reachable (bg_ticks b) then
    let '(n, ws) := q_BumpTenantRateWindow id window (bg_windows b) in (n, mkBudget ws (bg_ticks b))
  else (None, b).
Definition Purge (b : Budget) : option Z * Budget :=
  let cutoff := now_at (bg_ticks b) + - Hour in
  if reachable (bg_ticks b) then
    let '(n, ws) := q_PurgeTenantRateWindows cutoff (bg_windows b) in (Some n, mkBudget ws (S (bg_ticks b)))
  else (None, mkBudget (bg_windows b) (S (bg_ticks b))).

(** Seconds until the window turns over, rounded up past it. *)
Definition retry_seconds (window now : time) : Z := Z.quot (window + Minute - now) Second + 1.

(** The verdict on one request: the headers it goes on with, or the refusal. *)
Definition rate_verdict (perMinute : Z) (v : Values) (r : Req) (h : Headers) (b : Budget) : (Headers + Resp) * Budget :=
  match IDFrom (v_ctx v) with
  | None => (inl h, b)
  | Some id =>
      let now := now_at (bg_ticks b) in
      let window := Truncate now Minute in
      let '(n, b) := Bump id window (mkBudget (bg_windows b) (S (bg_ticks b))) in
      match n with
      | None => (inl h, b)
      | Some n =>
          let remaining := Z.max (perMinute - n) 0 in
          let h := <["RateLimit-Remaining" := itoa remaining]> (<["RateLimit-Limit" := itoa perMinute]> h) in
          if perMinute <? n then
            let retry := retry_seconds window now in
            (inr (WriteProblem (<["Retry-After" := itoa retry]> h)
                    (Http.WithRetryAfter (ProblemFrom (v_request_id v) (Path r) (EClass ErrRateLimited)) retry)), b)
          else (inl h, b)
      end
  end.
Definition RateMiddleware {S} (get : S -> Budget) (put : Budget -> S -> S) (perMinute : Z) : Middleware Values S :=
  fun next v r h s =>
  if perMinute <=? 0 then next v r h s
  else
    let '(verdict, b) := rate_verdict perMinute v r h (get s) in
    match verdict with
    | inl h => next v r h (put b s)
    | inr resp => (Wrote resp, put b s)
    end.

(** *** Traffic: requests as they arrive at the budget, and the purges between them *)
Inductive traffic : Type := Arrive (v : Values) (r : Req) (h : Headers) | PurgeRuns.

(** Who was counted in which window, and whether it was let through. *)
Definition entry : Type := uuid * time * bool.
Definition arrive_once (perMinute : Z) (t : traffic) (b : Budget) : list entry * Budget :=
  match t with
  | PurgeRuns => ([], (Purge b).2)
  | Arrive v r h =>
      let '(verdict, b') := rate_verdict perMinute v r h b in
      (match IDFrom (v_ctx v) with
       | None => []
       | Some id => [(id, Truncate (now_at (bg_ticks b)) Minute, match verdict with inl _ => true | inr _ => false end)]
       end, b')
  end.
Fixpoint arrive_all (perMinute : Z) (ts : list traffic) (b : Budget) : list entry * Budget :=
  match ts with
  | [] => ([], b)
  | t :: ts =>
      let '(es, b) := arrive_once perMinute t b in
      let '(rest, b) := arrive_all perMinute ts b in
      (es ++ rest, b)
  end.
Definition arrived (log : list entry) (key : uuid * time) : Z := Z.of_nat (length (List.filter (fun e => bool_decide (e.1 = key)) log)).
Definition admitted (log : list entry) (key : uuid * time) : Z :=
  Z.of_nat (length (List.filter (fun e => bool_decide (e.1 = key) && e.2) log)).
End rate.
Section rate_facts.
Context `{UU : UUID} {RT : Runtime} {SC : SteadyClock}.

Lemma bounded_window now : Truncate now Minute <= now < Truncate now Minute + Minute.
Proof. unfold Truncate. pose proof (Z.mod_pos_bound now Minute). change Minute with 60000000000 in *. lia. Qed.
Lemma retry_reaches now : let retry := retry_seconds (Truncate now Minute) now in
  1 <= retry <= 61 /\ Truncate now Minute + Minute < now + retry * Second /\ now + retry * Second <= Truncate now Minute + Minute + Second.
Proof.
  cbv zeta. unfold retry_seconds. pose proof (bounded_window now) as Hb. rewrite Z.quot_div_nonneg by (change Second with 1000000000; lia).
  pose proof (Z.div_mod (Truncate now Minute + Minute - now) Second) as Hd.
  pose proof (Z.mod_pos_bound (Truncate now Minute + Minute - now) Second) as Hm.
  change Minute with 60000000000 in *. change Second with 1000000000 in *. lia.
Qed.

(** What the table says of the windows that can still be asked for. *)
Record budgeted (perMinute : Z) (log : list entry) (b : Budget) : Prop := {
  bu_admitted : forall key, admitted log key = Z.min perMinute (arrived log key);
  bu_counts : forall id w k, (bg_ticks b <= k)%nat -> Truncate (now_at k) Minute <= w -> default 0 (bg_windows b !! (id, w)) = arrived log (id, w)
}.

Lemma arrived_snoc log key e : arrived (log ++ [e]) key = arrived log key + if bool_decide (e.1 = key) then 1 else 0.
Proof. unfold arrived. rewrite List.filter_app, length_app. rewrite Nat2Z.inj_add. cbn [List.filter]. by destruct (bool_decide _). Qed.
Lemma admitted_snoc log key e : admitted (log ++ [e]) key = admitted log key + if bool_decide (e.1 = key) && e.2 then 1 else 0.
Proof. unfold admitted. rewrite List.filter_app, length_app, Nat2Z.inj_add. cbn [List.filter]. by destruct (_ && _). Qed.
Lemma arrived_bound log key : 0 <= arrived log key <= Z.of_nat (length log).
Proof. unfold arrived. split; [lia|]. apply inj_le, List.filter_length_le. Qed.

Lemma purge_budgeted perMinute log b reachable : budgeted perMinute log b -> budgeted perMinute log (Purge reachable b).2.
Proof.
  intros [H1 H2]. split; [done|]. intros id w k Hk Hw. unfold Purge in *. destruct (reachable _); cbn in *; [|by apply H2 with (k := k); [lia|]].
  rewrite <- (H2 id w k) by (lia || done). f_equal. apply option_eq. intros n. rewrite map_lookup_filter_Some. cbn. split; [by intros []|].
  intros Hn. split; [done|]. pose proof (steady_clock (bg_ticks b) k) as Hc. specialize (Hc ltac:(lia)).
  pose proof (bounded_window (now_at k)). change Hour with 3600000000000. change Minute with 60000000000 in *. lia.
Qed.

Lemma admit_budgeted perMinute log v r h b id : 0 <= perMinute -> Z.of_nat (length log) < 2 ^ 31 - 1 -> IDFrom (v_ctx v) = Some id ->
  budgeted perMinute log b ->
  let '(verdict, b') := rate_verdict (fun _ => true) perMinute v r h b in
  budgeted perMinute (log ++ [(id, Truncate (now_at (bg_ticks b)) Minute, match verdict with inl _ => true | inr _ => false end)]) b'.
Proof.
  intros Hpos Hlen Hid [H1 H2]. unfold rate_verdict, Bump, q_BumpTenantRateWindow. rewrite Hid. cbv beta iota. cbn [bg_windows bg_ticks].
  set (w := Truncate (now_at (bg_ticks b)) Minute). pose proof (arrived_bound log (id, w)) as Hb.
  rewrite (H2 id w (bg_ticks b)) by (subst w; lia). rewrite (proj2 (Z.ltb_lt _ _)) by lia. cbn [andb].
  assert (Hcounts : forall ok id' w' k, (S (bg_ticks b) <= k)%nat -> Truncate (now_at k) Minute <= w' ->
    default 0 (<[(id, w) := arrived log (id, w) + 1]> (bg_windows b) !! (id', w')) = arrived (log ++ [(id, w, ok)]) (id', w')).
  { intros ok id' w' k Hk Hw. rewrite arrived_snoc. cbn. destruct (decide ((id, w) = (id', w'))) as [E|E].
    - rewrite <- E, lookup_insert_eq, bool_decide_true by done. done.
    - rewrite lookup_insert_ne, bool_decide_false by done. rewrite (H2 id' w' k) by (lia || done). lia. }
  destruct (perMinute <? _) eqn:E; to_prop; (split; [|by intros; eapply Hcounts]); intros key; rewrite admitted_snoc, arrived_snoc, H1; cbn;
    destruct (bool_decide ((id, w) = key)) eqn:Ek; to_prop; subst; cbn; lia.
Qed.

End rate_facts.

Module LimitsExamples.
  Import NUuid AuthExamples.

#[export] Instance steady : SteadyClock.
Proof. intros i j H. cbn. lia. Defined.

Definition twice_failed : FailureLimiter := record_failure (record_failure (NewFailureLimiter 2 0) "10.0.0.1") "10.0.0.1".
Definition failed_log : list (string * time) := [("10.0.0.1", 2); ("10.0.0.1", 4)].
Lemma twice_failed_tracks : tracks twice_failed failed_log.
Proof.
  exact (proj1 (record_tracks _ _ "10.0.0.1" (proj1 (record_tracks _ _ "10.0.0.1" (new_tracks 2 0))))).
Qed.

Lemma blocked_exact_witness :
  (blocked twice_failed "10.0.0.1").1 = true /\ (blocked twice_failed "10.0.0.2").1 = false /\ tracks (blocked twice_failed "10.0.0.1").2 failed_log.
Proof.
  split; [vm_compute; reflexivity|]. split; [vm_compute; reflexivity|].
  destruct (blocked twice_failed "10.0.0.1") as [b f] eqn:E.
  pose proof (blocked_exact twice_failed failed_log "10.0.0.1" twice_failed_tracks) as H. rewrite E in H. exact (proj1 H).
Defined.

(** A tenant with a budget of two in a minute, and a third request. *)
Definition member : Values := mkValues (mkCtx _ (Some 7%N) None None) None None false "r-1".
Definition arriving_thrice : list traffic := replicate 3 (Arrive member (with_key "tk_live") ∅).
End LimitsExamples.
