(* ===== verification/Guard.v ===== *)
(** * Guard: the network the internal surface answers to, and the ids of requests
    ([platform/httpserver/internalguard.go] and the [RequestID] of [middleware.go]).

    The addresses are [net/netip]'s: an address is a family, a number and a zone; a prefix an address and a length. *)
From S2P Require Import Prelude Errs Ext Access Text Http Wire Auth Limits.

(** ** [netip.ParseAddr] and [ParsePrefix] *)
Inductive Family : Type := V4 | V6.
#[export] Instance Family_eq_dec : EqDecision Family.
Proof. solve_decision. Defined.
Record Addr : Type := mkAddr { ad_Family : Family; ad_Bits : Z; ad_Zone : string }.
Definition family_bits (f : Family) : Z := match f with V4 => 32 | V6 => 128 end.

(** One field of a dotted quad: one to three digits, no leading zero, at most 255. *)
Definition dec_byte (s : string) : option Z :=
  match s with
  | EmptyString => None
  | String a rest =>
      if (3 <? Z.of_nat (String.length s)) || (Ascii.eqb a "0" && negb (bool_decide (rest = ""))) then None
      else n ← decimal s 0; if n <=? 255 then Some n else None
  end.
Definition parse_v4 (s : string) : option Z :=
  match Split s "." with
  | [a; b; c; d] => a ← dec_byte a; b ← dec_byte b; c ← dec_byte c; d ← dec_byte d; Some (((a * 256 + b) * 256 + c) * 256 + d)
  | _ => None
  end.

Definition hex_value (a : Ascii.ascii) : option Z :=
  let n := byte_of a in
  if (48 <=? n) && (n <=? 57) then Some (n - 48)
  else if (97 <=? n) && (n <=? 102) then Some (n - 87)
  else if (65 <=? n) && (n <=? 70) then Some (n - 55) else None.
(** The hex digits a text starts with: their value, how many, and the rest. *)
Fixpoint hex_run (s : string) (acc : Z) (count : Z) : Z * Z * string :=
  match s with
  | String a s' => match hex_value a with Some d => hex_run s' (acc * 16 + d) (count + 1) | None => (acc, count, s) end
  | EmptyString => (acc, count, s)
  end.
(** The groups of an IPv6 address: those read so far, newest first, and how many stood before the [::]. *)
Fixpoint v6_groups (fuel : nat) (s : string) (groups : list Z) (ellipsis : option nat) : option (list Z * option nat) :=
  match fuel with
  | O => if bool_decide (s = "") then Some (groups, ellipsis) else None
  | S fuel =>
      let '(value, digits, rest) := hex_run s 0 0 in
      if (digits =? 0) || (4 <? digits) then None
      else
        match rest with
        | String "." _ =>
            let n := length groups in
            if (bool_decide (ellipsis = None) && negb (Nat.eqb n 6)) || (Nat.ltb 6 n) then None
            else quad ← parse_v4 s; Some (quad mod 65536 :: quad / 65536 :: groups, ellipsis)
        | EmptyString => Some (value :: groups, ellipsis)
        | String ":" (String ":" rest') =>
            match ellipsis with
            | Some _ => None
            | None =>
                let groups := value :: groups in
                if bool_decide (rest' = "") then Some (groups, Some (length groups))
                else v6_groups fuel rest' groups (Some (length groups))
            end
        | String ":" EmptyString => None
        | String ":" rest' => v6_groups fuel rest' (value :: groups) ellipsis
        | _ => None
        end
  end.
Definition of_groups (l : list Z) : Z := foldl (fun acc g => acc * 65536 + g) 0 l.
Definition parse_v6 (s : string) : option Z :=
  let parsed := match s with
    | String ":" (String ":" rest) => if bool_decide (rest = "") then Some ([], Some O) else v6_groups 8 rest [] (Some O)
    | _ => v6_groups 8 s [] None
    end in
  match parsed with
  | None => None
  | Some (groups, ellipsis) =>
      let groups := rev groups in
      match ellipsis with
      | Some at_ => if Nat.ltb (length groups) 8 then
            Some (of_groups (take at_ groups ++ repeat 0 (8 - length groups) ++ drop at_ groups))
          else None
      | None => if Nat.eqb (length groups) 8 then Some (of_groups groups) else None
      end
  end.

(** The character that tells the families apart. *)
Fixpoint first_mark (s : string) : option Ascii.ascii :=
  match s with
  | EmptyString => None
  | String a s => if Ascii.eqb a "." || Ascii.eqb a ":" || Ascii.eqb a "%" then Some a else first_mark s
  end.
Definition ParseAddr (s : string) : option Addr :=
  match first_mark s with
  | Some "."%char => (fun n => mkAddr V4 n "") <$> parse_v4 s
  | Some ":"%char =>
      match Cut s "%" with
      | (s, None) => (fun n => mkAddr V6 n "") <$> parse_v6 s
      | (s, Some zone) => if bool_decide (zone = "") then None else (fun n => mkAddr V6 n zone) <$> parse_v6 s
      end
  | _ => None
  end.
(** [Addr.Unmap]: an IPv4 address in an IPv6 one. *)
Definition Unmap (a : Addr) : Addr :=
  match ad_Family a with
  | V6 => if ad_Bits a / 2 ^ 32 =? 65535 then mkAddr V4 (ad_Bits a mod 2 ^ 32) "" else a
  | V4 => a
  end.
Record IPPrefix : Type := mkIPPrefix { ip_Addr : Addr; ip_Len : Z }.
Definition prefix_length (s : string) (family : Family) : option Z :=
  match s with
  | EmptyString => None
  | String a rest =>
      if Ascii.eqb a "0" && negb (bool_decide (rest = "")) then None
      else n ← decimal s 0; if n <=? family_bits family then Some n else None
  end.
Definition ParsePrefix (s : string) : option IPPrefix :=
  i ← last_index s "/" 0 None;
  ip ← ParseAddr (String.substring 0 i s);
  if negb (bool_decide (ad_Zone ip = "")) then None
  else n ← prefix_length (sub_from s (S i)) (ad_Family ip); Some (mkIPPrefix ip n).
(** [Prefix.Contains]: the same family, no zone, the same leading bits. *)
Definition Contains (p : IPPrefix) (a : Addr) : bool :=
  bool_decide (ad_Zone a = "") && bool_decide (ad_Family a = ad_Family (ip_Addr p)) &&
  (Z.shiftr (Z.lxor (ad_Bits a) (ad_Bits (ip_Addr p))) (family_bits (ad_Family a) - ip_Len p) =? 0).

(** ** The guard *)
Definition ParseCIDRs (raw : string) : list string := ParseOrigins raw.
Definition nets_of (cidrs : list string) : list IPPrefix := omap (fun c => ParsePrefix (TrimSpace c)) cidrs.
Definition peerAllowed (remote : string) (nets : list IPPrefix) : bool :=
  match ParseAddr (peerOf remote) with
  | None => false
  | Some addr => existsb (fun n => Contains n (Unmap addr)) nets
  end.
Definition HasPrefix (s prefix : string) : bool := match cut_prefix prefix s with Some _ => true | None => false end.
Definition http_NotFound (h : Headers) : Resp := http_Error h "404 page not found" 404.
Definition InternalOnly {V S} (prefix : string) (cidrs : list string) : Middleware V S := fun next v r h s =>
  if HasPrefix (Path r) prefix && negb (peerAllowed (RemoteAddr r) (nets_of cidrs)) then (Wrote (http_NotFound h), s)
  else next v r h s.

Example addresses : map ParseAddr ["10.1.2.3"; "010.1.2.3"; "::1"; "::ffff:10.0.0.1"; "fe80::1%eth0"; "1:2:3:4:5:6:7:8"; "1:2:3"; "::1::"; "10.1.2"; "localhost"] =
  [Some (mkAddr V4 167838211 ""); None; Some (mkAddr V6 1 ""); Some (mkAddr V6 281470849515521 ""); Some (mkAddr V6 338288524927261089654018896841347694593 "eth0");
   Some (mkAddr V6 5192455318486707404433266433261576 ""); None; None; None; None].
Proof. vm_compute. reflexivity. Qed.
Example peers : map (fun remote => peerAllowed remote (nets_of ["10.0.0.0/8"; " 127.0.0.1/32"; "::1/128"; "bad"]))
    ["10.9.8.7:1"; "[::ffff:10.0.0.1]:1"; "127.0.0.1:1"; "127.0.0.2:1"; "[::1]:1"; "192.168.0.1:1"; ""] = [true; true; true; false; true; false; false].
Proof. vm_compute. reflexivity. Qed.

(** ** Request ids *)
Section request_ids.
Context `{UU : UUID}.
(** Eight random bytes in hex; the source of randomness does not fail. *)
Context (request_bytes : nat -> string).
Definition hex_char (n : Z) : Ascii.ascii := of_byte (if n <? 10 then 48 + n else 87 + n).
Definition hex_text (s : string) : string :=
  of_bytes (concat (map (fun n => [byte_of (hex_char (n / 16)); byte_of (hex_char (n mod 16))]) (to_bytes s))).
Definition newRequestID (draws : nat) : string := hex_text (request_bytes draws).
Definition v_with_request_id (v : Values) (id : string) : Values := mkValues (v_ctx v) (v_auth v) (v_analyst v) (v_service v) id.
Definition RequestID {S} (get : S -> nat) (put : nat -> S -> S) : Middleware Values S := fun next v r h s =>
  let id := header r "X-Request-ID" in
  if bool_decide (id = "") then
    let id := newRequestID (get s) in
    next (v_with_request_id v id) r (<["X-Request-ID" := id]> h) (put (1 + get s)%nat s)
  else next (v_with_request_id v id) r (<["X-Request-ID" := id]> h) s.
End request_ids.
