(* ===== verification/Service.v ===== *)
(** * Service: the dispute use cases ([application/service.go], [authorize.go], the reassignment of [routing.go]).

    Metrics, spans and log lines are not modelled. [recordAcceptance] only counts, so it has no part here. *)
From S2P Require Import Prelude Errs GoTime GoJson Ext Types Regimes Lifecycle Deadlines Ledger Questionnaire Risk Notice Access Store Tx.

(** ** Views: what the API answers with *)
Section views.
Context `{DC : Decimal} `{UU : UUID}.

Record RiskHistoryView : Type := mkRiskHistoryView { rh_Seq : Z; rh_Score : Z; rh_Tier : RiskTier; rh_AssessedAt : time }.
Record RiskView : Type := mkRiskView {
  rv_Score : Z; rv_Tier : RiskTier; rv_Signals : list Signal; rv_AssessedAt : time; rv_History : list RiskHistoryView
}.
Record AttachmentView : Type := mkAttachmentView { av_ID : uuid; av_Filename : string; av_ContentType : string; av_Size : Z }.
Record NoticeView : Type := mkNoticeView {
  nv_ID : Z; nv_Seq : Z; nv_Kind : NoticeKind; nv_Channel : Channel; nv_Recipient : string; nv_Subject : string;
  nv_CreatedAt : time; nv_SentAt : option time; nv_Error : option string; nv_Actor : string; nv_ResendOf : option Z;
  nv_Attachments : list AttachmentView
}.
Record QuestionnaireView : Type := mkQuestionnaireView {
  qv_Reason : Reason; qv_Questions : list Question; qv_Answers : Answers; qv_Inconsistencies : list string;
  qv_SentAt : time; qv_ReceivedAt : option time
}.
Record CoreReceiptView : Type := mkCoreReceiptView { cv_RRN : string; cv_ResponseCode : string; cv_LatencyMs : Z }.
Record LedgerView : Type := mkLedgerView {
  lv_Seq : Z; lv_Kind : PostingKind; lv_Debit : Account; lv_Credit : Account; lv_Amount : dec; lv_Currency : string;
  lv_Reference : string; lv_PostedAt : time; lv_Core : option CoreReceiptView
}.
Record DeadlineView : Type := mkDeadlineView {
  dv_Kind : DeadlineKind; dv_Cycle : Z; dv_StartedAt : time; dv_DueAt : time; dv_MetAt : option time;
  dv_Status : DeadlineStatus; dv_Basis : string
}.
Record EventView : Type := mkEventView {
  evv_Seq : Z; evv_Event : Event; evv_FromState : State; evv_ToState : State; evv_Actor : string;
  evv_Payload : RawMessage; evv_TraceID : option string; evv_OccurredAt : time
}.
Record DisputeView : Type := mkDisputeView {
  vw_ID : uuid;
  vw_Regime : Regime;
  vw_Reason : Reason;
  vw_State : State;
  vw_Appeals : Z;
  vw_Version : Z;
  vw_TransactionID : uuid;
  vw_AccountID : uuid;
  vw_DisputedAmount : dec;
  vw_Currency : string;
  vw_OpenedAt : time;
  vw_UpdatedAt : time;
  vw_AllowedEvents : list Event;
  vw_Events : list EventView;
  vw_Deadlines : list DeadlineView;
  vw_Ledger : list LedgerView;
  vw_Balances : Balances;
  vw_Questionnaire : option QuestionnaireView;
  vw_Notices : list NoticeView;
  vw_Risk : option RiskView
}.

Definition deadlineView (d : Deadline) (now : time) : DeadlineView :=
  mkDeadlineView (DlKind d) (DlCycle d) (DlStartedAt d) (DlDueAt d) (DlMetAt d) (Status d now) (DlBasis d).
End views.
Arguments DisputeView {DC UU}.
Arguments AttachmentView {UU}.
Arguments NoticeView {UU}.

(** The JSON of a view. Its ids, amounts and times write and read themselves, so the text is abstract; what the
    replay of a stored response relies on is that a view reads back as it was written. *)
Class ViewCodec `{DC : Decimal} `{UU : UUID} (Body : Type) : Type := {
  marshal_view : DisputeView -> M Body;
  unmarshal_view : Body -> option DisputeView
}.
Class ViewCodecLaws `{DC : Decimal} `{UU : UUID} (Body : Type) (VC : ViewCodec Body) : Prop := {
  view_roundtrip : forall v b, marshal_view v = Ok b -> unmarshal_view b = Some v
}.

(** ** Requests *)

(** What the model offered as the reason, any text; the probability is the JSON text of the number. *)
Record ReasonProposal : Type := mkReasonProposal { rp_Reason : string; rp_Probability : string; rp_Confident : bool }.

Record Idempotency : Type := mkIdempotency { idem_Key : string; idem_RequestBody : string }.

Record CreateDisputeInput `{UU : UUID} : Type := mkCreateDisputeInput {
  cd_TransactionID : uuid;
  cd_Reason : string;
  cd_Idempotency : Idempotency;
  cd_Suggestion : option ReasonProposal
}.
Arguments CreateDisputeInput {UU}.
Arguments mkCreateDisputeInput {UU}.

Record ApplyEventInput `{UU : UUID} : Type := mkApplyEventInput {
  ae_DisputeID : uuid;
  ae_Event : Event;
  ae_Payload : RawMessage;
  ae_Idempotency : Idempotency
}.
Arguments ApplyEventInput {UU}.
Arguments mkApplyEventInput {UU}.

(** The facts an event's payload may carry. *)
Record eventFacts : Type := mkEventFacts {
  ef_Liability : option string;
  ef_Settlement : string;
  ef_Answers : option Answers;
  ef_RiskOverride : string;
  ef_Suggestions : option (gmap string (string * string))
}.
Definition no_facts : eventFacts := mkEventFacts None "" None "" None.
Definition into_suggestion : decoder (string * string) := into_struct
  [("value", field fst (fun p s => (s, p.2)) into_string);
   ("probability", field snd (fun p s => (p.1, s)) into_float)].
Definition into_eventFacts : decoder eventFacts := into_struct
  [("liability", field ef_Liability (fun f x => mkEventFacts x (ef_Settlement f) (ef_Answers f) (ef_RiskOverride f) (ef_Suggestions f))
                   (into_pointer "" into_string));
   ("settlement", field ef_Settlement (fun f x => mkEventFacts (ef_Liability f) x (ef_Answers f) (ef_RiskOverride f) (ef_Suggestions f))
                    into_string);
   ("answers", field ef_Answers (fun f x => mkEventFacts (ef_Liability f) (ef_Settlement f) x (ef_RiskOverride f) (ef_Suggestions f))
                 (into_map "" into_string));
   ("riskOverride", field ef_RiskOverride (fun f x => mkEventFacts (ef_Liability f) (ef_Settlement f) (ef_Answers f) x (ef_Suggestions f))
                      into_string);
   ("suggestions", field ef_Suggestions (fun f x => mkEventFacts (ef_Liability f) (ef_Settlement f) (ef_Answers f) (ef_RiskOverride f) x)
                     (into_map ("", "0") into_suggestion))].

(** The error of a payload that does not decode. *)
Definition malformed : error :=
  EClass (WithFields (sentinel Invalid "malformed-request" "the event payload is not an object")
    [mkFieldError "body.payload" json_error]).
Definition parse_facts (payload : RawMessage) : M eventFacts :=
  match Unmarshal into_eventFacts payload no_facts with
  | Some f => Ok f
  | None => Err malformed
  end.

Definition openedPayload (proposal : option ReasonProposal) (chosen : Reason) : RawMessage :=
  match proposal with
  | Some p =>
      if negb (rp_Confident p) then RawJSON (JObject [])
      else RawJSON (JObject [("suggestion", JObject
             [("accepted", JBool (bool_decide (rp_Reason p = Reason_string chosen))); ("field", JString "reason");
              ("probability", JNumber (rp_Probability p)); ("proposed", JString (rp_Reason p))])])
  | None => RawJSON (JObject [])
  end.

(** [withAuthorizedBy]: [None] is the panic of writing to the nil map a [null] payload leaves behind. *)
Definition policies_json (policies : list string) : json :=
  match policies with [] => JNull | _ => JArray (map JString policies) end.
Definition withAuthorizedBy (payload : RawMessage) (policies : list string) : option (M RawMessage) :=
  match payload with
  | RawJSON JNull => None
  | RawJSON (JObject ms) =>
      match through_any (JObject ms) with
      | Some (JObject ms') => Some (Ok (RawJSON (JObject (insert_member "authorizedBy" (policies_json policies) ms'))))
      | _ => Some (Err (EPlain json_error))
      end
  | _ => Some (Err (EPlain json_error))
  end.

Definition ErrCoreDeclined : Error := sentinel Unprocessable "core-declined" "the banking core declined the posting".
Definition ErrUnknownTeam : Error := sentinel Unprocessable "unknown-team" "no such team in this tenant".
Definition EventReassigned : Event := EventOther "REASSIGNED".
Definition EventOpened : Event := EventOther "OPENED".
Definition UnrecordedInvestigator : string := "?unrecorded".

Definition keyPtr (i : Idempotency) : option string := if bool_decide (idem_Key i = "") then None else Some (idem_Key i).
(** [actorOf]: display name and id, empty without a principal. *)
Definition actorOf `{UU : UUID} (c : Ctx) : string * string :=
  match From_ctx c with Some p => (PDisplay p, PID p) | None => ("", "") end.

Section service.
Context `{DC : Decimal} `{UU : UUID} {Body : Type} {BC : BankingCore} {RT : Runtime} {AZ : Authorizer} {VC : ViewCodec Body}.
(** The request's context. *)
Context (c : Ctx).

Abbreviation PW A := (P Body A).

Record Result : Type := mkResult { res_View : DisputeView; res_Replayed : bool }.

(** ** Authorization *)
Definition authorize (t : memTx) (action : Action) (d : option DisputeFacts) : PW Decision :=
  match From_ctx c with
  | None => throw ErrForbidden
  | Some p =>
      a ← rd (GetAccess t p);
      match Decide (default uuid_Nil (IDFrom c)) p a action d with
      | Err _ => throw ErrForbidden
      | Ok dec =>
          if Allowed_ dec then mret dec
          else match Policies dec with
               | pol :: _ => throwE (Wrap (EClass ErrForbidden) ("denied by " +:+ pol))
               | [] => throwE (Wrap (EClass ErrForbidden) ("no grant allows " +:+ action))
               end
      end
  end.

Definition permitted (t : memTx) (events : list Event) (f : DisputeFacts) : PW (list Event) :=
  match From_ctx c with
  | None => mret []
  | Some p =>
      a ← rd (GetAccess t p);
      mret (List.filter (fun e =>
        match Decide (default uuid_Nil (IDFrom c)) p a (EventAction e) (Some f) with
        | Ok dec => Allowed_ dec
        | Err _ => false
        end) events)
  end.

(** Who opened the investigation, from the log: the last one to. *)
Definition opener_of (events : list EventRecord) : string :=
  foldl (fun opener e =>
    if bool_decide (ev_Event e = EventOpenInvestigation) then
      (if bool_decide (ev_ActorID e = "") then UnrecordedInvestigator else ev_ActorID e)
    else opener) "" events.

(** [facts] of authorize.go. *)
Definition dispute_facts (t : memTx) (rec : DisputeRecord) : PW DisputeFacts :=
  events ← rd (ListEvents (dr_ID rec));
  txn ← rd (GetTransaction t (dr_TransactionID rec));
  mret (mkDisputeFacts (dr_ID rec) (dr_Team rec) (dr_DisputedAmount rec) (dr_Currency rec) (tr_Rail txn) (dr_State rec)
          (opener_of events)).

Definition authorizeDispute (t : memTx) (action : Action) (disputeID : uuid) : PW unit :=
  rec ← rd (GetDispute t disputeID);
  f ← dispute_facts t rec;
  _ ← authorize t action (Some f);
  mret tt.

(** ** The steps of a transition *)
Definition settle_one_deadline (t : memTx) (rec : DisputeRecord) (next : Dispute) (now : time) (d : Deadline) : PW unit :=
  if negb (Open d) then mret tt
  else match Settle (DlKind d) (DState next) with
       | Met => op (SettleDeadline t (dr_ID rec) (DlKind d) (DlCycle d) true now)
       | Void => op (SettleDeadline t (dr_ID rec) (DlKind d) (DlCycle d) false now)
       | Untouched => mret tt
       end.
Definition settleDeadlines (t : memTx) (rec : DisputeRecord) (next : Dispute) (now : time) : PW unit :=
  open ← rd (ListDeadlines t (dr_ID rec));
  _ ← for_each (settle_one_deadline t rec next now) open;
  if dr_Appeals rec <? DAppeals next then
    rules ← lift (RulesFor (dr_Regime rec));
    cal ← rd (TenantCalendar t);
    op (InsertDeadlines t (dr_ID rec) (AppealDeadlines rules (DAppeals next) now cal))
  else mret tt.

Definition assess (t : memTx) (rec : DisputeRecord) (txn : TransactionRecord) (seq : Z) (now : time) : PW unit :=
  '(disputes, lost) ← rd (AccountHistory t (dr_AccountID rec) (dr_ID rec) (AddDate Local now (-1) 0 0));
  q ← try_ (rd (GetQuestionnaire t (dr_ID rec)));
  '(flags, known) ← match q with
    | Ok q => mret (match qr_ReceivedAt q with
                    | Some _ => (Z.of_nat (length (Inconsistencies (qr_Reason q) (qr_Answers q))), true)
                    | None => (0, false)
                    end)
    | Err e => if errors_is e ErrNotFound then mret (0, false) else throwE e
    end;
  let a := Assess (mkRiskInput disputes lost (DaysBetween (tr_OccurredAt txn) (dr_OpenedAt rec))
                     (HighRiskMCC (tr_MCC txn)).2 (dr_DisputedAmount rec)
                     (DaysBetween (tr_AccountOpenedAt txn) (dr_OpenedAt rec)) flags known) in
  op (InsertRisk t (dr_ID rec) (mkRiskRecord seq a now)).

Definition holdCheck (t : memTx) (rec : DisputeRecord) (payload : RawMessage) : PW unit :=
  history ← rd (ListRisk t (dr_ID rec));
  match list.last history with
  | None => mret tt
  | Some latest =>
      facts ← match payload with RawEmpty => mret no_facts | _ => lift (parse_facts payload) end;
      lift (CreditAllowed (Some (rr_Assessment latest)) (TrimSpace (ef_RiskOverride facts)))
  end.

Definition questionnaire (t : memTx) (rec : DisputeRecord) (event : Event) (payload : RawMessage) (now : time) : PW unit :=
  match event with
  | EventSendQuestionnaire =>
      op (SendQuestionnaire t (dr_ID rec) (mkQuestionnaire (dr_Reason rec) (QuestionSet (dr_Reason rec)) ∅ now None))
  | EventReceiveQuestionnaire =>
      facts ← lift (parse_facts payload);
      q ← rd (GetQuestionnaire t (dr_ID rec));
      let answers := default ∅ (ef_Answers facts) in
      _ ← lift (ValidateAnswers (qr_Questions q) answers);
      op (AnswerQuestionnaire t (dr_ID rec) answers now)
  | _ => mret tt
  end.

Definition postingsOf (entries : list LedgerEntry) : list Posting := map le_Posting entries.

Definition instructCore (t : memTx) (rec : DisputeRecord) (e : LedgerEntry) : PW CoreReceipt :=
  cfg ← rd (TenantCore t);
  let p := le_Posting e in
  let ins := mkCoreInstruction (le_Reference e) (dr_ID rec) (dr_AccountID rec) (dr_TransactionID rec) (PKind p)
               (bool_decide (PCredit p = AccountCustomer)) (PAmount p) (PCurrency p) (le_PostedAt e) in
  receipt ← core_post cfg ins;
  match receipt with
  | Err err => throwE (Wrap (EClass ErrUnavailable) ("banking core: " +:+ Error_string err))
  | Ok receipt =>
      if negb (rc_Approved receipt) then
        throw (WithDetail ErrCoreDeclined (rc_ResponseText receipt +:+ " (" +:+ rc_ResponseCode receipt +:+ ")"))
      else mret receipt
  end.

Definition posting_reference (rec : DisputeRecord) (seq : Z) (p : Posting) : string :=
  "dispute:" +:+ uuid_String (dr_ID rec) +:+ ":" +:+ show seq +:+ ":" +:+ PostingKind_string (PKind p).

(** The loop of [post] over the movements. *)
Fixpoint post_entries (t : memTx) (rec : DisputeRecord) (seq : Z) (now : time) (movements : list Posting)
    : PW (list LedgerEntry) :=
  match movements with
  | [] => mret []
  | p :: movements =>
      let entry := mkLedgerEntry seq p (posting_reference rec seq p) now None in
      core ← (if bool_decide (PDebit p = AccountCustomer) || bool_decide (PCredit p = AccountCustomer)
              then (receipt ← instructCore t rec entry; mret (Some receipt)) else mret None);
      rest ← post_entries t rec seq now movements;
      mret (mkLedgerEntry seq p (posting_reference rec seq p) now core :: rest)
  end.

Definition parse_liability (rules : Rules) (rec : DisputeRecord) (facts : eventFacts) : M dec :=
  match ef_Liability facts with
  | None => Ok dec_zero
  | Some text =>
      match NewFromString text with
      | None => fail (WithFields ErrInvalidLiability
          [mkFieldError "body.payload.liability" ("must be a decimal string such as " +:+ quoted "50.00")])
      | Some liability =>
          _ ← CreditAmount rules (dr_DisputedAmount rec) liability;
          Ok liability
      end
  end.

Definition post (t : memTx) (rec : DisputeRecord) (next : Dispute) (seq : Z) (payload : RawMessage) (now : time) : PW unit :=
  rules ← lift (RulesFor (dr_Regime rec));
  facts ← lift (parse_facts payload);
  liability ← lift (parse_liability rules rec facts);
  settlement ← lift (ParseSettlement rules (ef_Settlement facts));
  have ← rd (ListLedger t (dr_ID rec));
  let movements := Postings rules (mkPostingInput (DState next) (dr_DisputedAmount rec) (dr_Currency rec) liability
                                     (SuspenseBalance (postingsOf have)) settlement) in
  match movements with
  | [] => mret tt
  | _ =>
      entries ← post_entries t rec seq now movements;
      op (AppendLedger t (dr_ID rec) entries)
  end.
(** ** Notices *)

(** [facts] of service.go: what a notice may say, and where to send it. *)
Record noticeFacts : Type := mkNoticeFacts { nf_Facts : Facts; nf_Email : string; nf_PostalAddress : string }.

(** The due time of the last open resolution clock. *)
Definition resolution_due (ds : list Deadline) : option time :=
  foldl (fun due d => if bool_decide (DlKind d = DeadlineResolution) && Open d then Some (DlDueAt d) else due) None ds.
(** The last reversal posted. *)
Definition reversal_amount (entries : list LedgerEntry) : dec :=
  foldl (fun amount e => if bool_decide (PKind (le_Posting e) = PostingProvisionalCreditReversal)
                         then PAmount (le_Posting e) else amount) dec_zero entries.
Definition ledger_balances (entries : list LedgerEntry) : Balances :=
  foldl (fun b e => let p := le_Posting e in
    Balances_add (Balances_add b (PDebit p) (PAmount p)) (PCredit p) (dec_neg (PAmount p))) zero_balances entries.
Definition outcome_of (reversal : dec) (bal : Balances) : Outcome :=
  if IsPositive reversal then OutcomeReversed
  else if IsPositive (BCustomer bal) && IsPositive (BRecovery bal) then OutcomeRecovered
  else if IsPositive (BCustomer bal) then OutcomeCredited
  else OutcomeDenied.

Definition notice_facts (t : memTx) (rec : DisputeRecord) (now : time) : PW noticeFacts :=
  bank ← rd (TenantName t);
  account ← rd (GetAccount (dr_AccountID rec));
  txn ← rd (GetTransaction t (dr_TransactionID rec));
  deadlines ← rd (ListDeadlines t (dr_ID rec));
  ledger ← rd (ListLedger t (dr_ID rec));
  let bal := ledger_balances ledger in
  let reversal := reversal_amount ledger in
  q ← try_ (rd (GetQuestionnaire t (dr_ID rec)));
  questions ← match q with
    | Ok q => mret (qr_Questions q)
    | Err e => if errors_is e ErrNotFound then mret [] else throwE e
    end;
  mret (mkNoticeFacts
    (mkFacts bank (ac_Holder account) (uuid_String (dr_ID rec)) (dr_Reason rec) (dr_Regime rec) (tr_Merchant txn)
       (dr_DisputedAmount rec) (dr_Currency rec) (BCustomer bal) (tr_OccurredAt txn) (dr_OpenedAt rec) now
       (resolution_due deadlines) questions (outcome_of reversal bal) reversal)
    (ac_Email account) (ac_PostalAddress account)).

Definition notice_record (rec : DisputeRecord) (seq : Z) (kind : NoticeKind) (doc : Document) (now : time)
    (f : noticeFacts) (ch : Channel) : NoticeRecord :=
  let '(recipient, sent) := match ch with
    | ChannelEmail => (nf_Email f, None)
    | ChannelLetter => (nf_PostalAddress f, Some now)
    end in
  mkNoticeRecord 0 uuid_Nil (dr_ID rec) seq kind ch recipient (Subject doc) (RawJSON (Document_json doc)) now sent 0 None ""
    None "".

Definition notify_channel (t : memTx) (rec : DisputeRecord) (seq : Z) (kind : NoticeKind) (doc : Document) (now : time)
    (f : noticeFacts) (ch : Channel) : PW unit :=
  let n := notice_record rec seq kind doc now f ch in
  if bool_decide (nr_Recipient n = "") then mret tt
  else _ ← op (InsertNotice t n); mret tt.

Definition notify_kind (t : memTx) (rec : DisputeRecord) (rules : Rules) (seq : Z) (now : time) (f : noticeFacts)
    (kind : NoticeKind) : PW unit :=
  let doc := Compose Local kind (nf_Facts f) in
  _ ← for_each (notify_channel t rec seq kind doc now f) (ChannelsFor rules kind);
  if bool_decide (kind = NoticeAcknowledgement) then
    op (SettleDeadline t (dr_ID rec) DeadlineAcknowledge 0 true now)
  else mret tt.

Definition notify (t : memTx) (rec : DisputeRecord) (entered : State) (seq : Z) (now : time) : PW unit :=
  rules ← lift (RulesFor (dr_Regime rec));
  match NoticesFor rules entered with
  | [] => mret tt
  | kinds =>
      f ← notice_facts t rec now;
      for_each (notify_kind t rec rules seq now f) kinds
  end.

(** ** The view of a dispute *)
Definition event_view (e : EventRecord) : EventView :=
  mkEventView (ev_Seq e) (ev_Event e) (ev_FromState e) (ev_ToState e) (ev_Actor e) (ev_Payload e) (ev_TraceID e)
    (ev_OccurredAt e).
Definition ledger_view (e : LedgerEntry) : LedgerView :=
  let p := le_Posting e in
  mkLedgerView (le_Seq e) (PKind p) (PDebit p) (PCredit p) (PAmount p) (PCurrency p) (le_Reference e) (le_PostedAt e)
    ((fun r => mkCoreReceiptView (rc_RRN r) (rc_ResponseCode r) (Z.quot (rc_Latency r) Millisecond)) <$> le_Core e).
Definition attachments_of (files : list Attachment) (id : Z) : list AttachmentView :=
  map (fun f => mkAttachmentView (at_ID f) (at_Filename f) (at_ContentType f) (at_Size f))
    (List.filter (fun f => bool_decide (at_NoticeID f = Some id)) files).
Definition notice_view (files : list Attachment) (n : NoticeRecord) : NoticeView :=
  mkNoticeView (nr_ID n) (nr_Seq n) (nr_Kind n) (nr_Channel n) (nr_Recipient n) (nr_Subject n) (nr_CreatedAt n)
    (nr_SentAt n) (nr_LastError n) (nr_Actor n) (nr_ResendOf n)
    (attachments_of files (default (nr_ID n) (nr_ResendOf n))).
Definition risk_view (history : list RiskRecord) : option RiskView :=
  match list.last history with
  | None => None
  | Some latest =>
      let a := rr_Assessment latest in
      Some (mkRiskView (AScore a) (ATier a) (ASignals a) (rr_AssessedAt latest)
        (map (fun r => mkRiskHistoryView (rr_Seq r) (AScore (rr_Assessment r)) (ATier (rr_Assessment r)) (rr_AssessedAt r))
           (removelast history)))
  end.

Definition viewWith (t : memTx) (rec : DisputeRecord) (f : option DisputeFacts) : PW DisputeView :=
  events ← rd (ListEvents (dr_ID rec));
  f ← match f with Some f => mret f | None => dispute_facts t rec end;
  allowed ← permitted t (Allowed (Lifecycle_of rec)) f;
  deadlines ← rd (ListDeadlines t (dr_ID rec));
  at_ ← now;
  ledger ← rd (ListLedger t (dr_ID rec));
  notices ← rd (ListNotices t (dr_ID rec));
  files ← rd (ListAttachmentMeta (dr_ID rec) (map nr_ID notices));
  history ← rd (ListRisk t (dr_ID rec));
  q ← try_ (rd (GetQuestionnaire t (dr_ID rec)));
  qview ← match q with
    | Ok q => mret (Some (mkQuestionnaireView (qr_Reason q) (qr_Questions q) (qr_Answers q)
                            (Inconsistencies (qr_Reason q) (qr_Answers q)) (qr_SentAt q) (qr_ReceivedAt q)))
    | Err e => if errors_is e ErrNotFound then mret None else throwE e
    end;
  mret (mkDisputeView (dr_ID rec) (dr_Regime rec) (dr_Reason rec) (dr_State rec) (dr_Appeals rec) (dr_Version rec)
          (dr_TransactionID rec) (dr_AccountID rec) (dr_DisputedAmount rec) (dr_Currency rec) (dr_OpenedAt rec)
          (dr_UpdatedAt rec) allowed (map event_view events) (map (fun d => deadlineView d at_) deadlines)
          (map ledger_view ledger) (ledger_balances ledger) qview (map (notice_view files) notices) (risk_view history)).
Definition view (t : memTx) (rec : DisputeRecord) : PW DisputeView := viewWith t rec None.

(** ** Replays *)
Definition storeScope (scope : string) : string :=
  match From_ctx c with
  | Some p => scope +:+ "@" +:+ PrincipalKind_string (PrKind p) +:+ ":" +:+ PID p
  | None => scope
  end.

(** The answer stored for a key, if there is one to replay. *)
Definition replayed (t : memTx) (scope : string) (idem : Idempotency) : PW (option Result) :=
  stored ← try_ (rd (GetIdempotent t (storeScope scope) (idem_Key idem)));
  match stored with
  | Ok r =>
      if negb (bool_decide (sr_RequestHash r = sha256 (idem_RequestBody idem))) then throw ErrIdempotencyReuse
      else match unmarshal_view (sr_Body r) with
           | Some v => mret (Some (mkResult v true))
           | None => throwE (Wrap (EPlain json_error) "application: decode stored response")
           end
  | Err e =>
      if negb (errors_is e ErrNotFound) then throwE e
      else if bool_decide (storeScope scope = scope) then mret None
      else
        bare ← try_ (rd (GetIdempotent t scope (idem_Key idem)));
        match bare with
        | Ok _ => throw ErrIdempotencyReuse
        | Err e => if errors_is e ErrNotFound then mret None else throwE e
        end
  end.

Definition idempotent (scope : string) (idem : Idempotency) (fn : memTx -> PW DisputeView) : PW Result :=
  let keyed := negb (bool_decide (idem_Key idem = "")) in
  out ← WithTx c (fun t =>
    prior ← (if keyed then replayed t scope idem else mret None);
    match prior with
    | Some r => mret r
    | None =>
        v ← fn t;
        _ ← (if keyed then
               body ← lift (marshal_view v);
               at_ ← now;
               op (PutIdempotent t at_ (storeScope scope) (idem_Key idem)
                     (mkStoredResponse (sha256 (idem_RequestBody idem)) 0 body zero_time))
             else mret tt);
        mret (mkResult v false)
    end);
  _ ← (if res_Replayed out then mret tt else kick);
  mret out.

(** ** The use cases *)
Definition CreateDispute_tx (in_ : CreateDisputeInput) (t : memTx) : PW DisputeView :=
  txn ← rd (GetTransaction t (cd_TransactionID in_));
  regime ← lift (RegimeFor (tr_Rail txn) (tr_AccountCurrency txn));
  reason ← lift (ParseReason (cd_Reason in_));
  now ← now;
  let '(display, actorID) := actorOf c in
  id ← new_id;
  match From_ctx c with
  | None => throw ErrForbidden
  | Some p =>
      access ← rd (GetAccess t p);
      let team := Route access (tr_Rail txn) reason "" (tr_Amount txn) in
      _ ← authorize t ActionCreate (Some (team_facts team));
      let rec := mkDisputeRecord id uuid_Nil team regime StateInitiated 0 1 (tr_ID txn) (tr_AccountID txn)
                   (tr_Amount txn) (tr_Currency txn) now now reason in
      _ ← op (InsertDispute t rec);
      _ ← op (AppendEvent id (mkEventRecord 1 EventOpened StateEmpty StateInitiated display actorID
                (openedPayload (cd_Suggestion in_) reason) (keyPtr (cd_Idempotency in_)) (ctx_trace c) now));
      rules ← lift (RulesFor regime);
      cal ← rd (TenantCalendar t);
      _ ← op (InsertDeadlines t id (OpeningDeadlines rules now cal));
      _ ← notify t rec StateInitiated 1 now;
      _ ← assess t rec txn 1 now;
      view t rec
  end.
Definition CreateDispute (in_ : CreateDisputeInput) : PW Result :=
  idempotent "dispute.create" (cd_Idempotency in_) (CreateDispute_tx in_).

(** What a transition writes once it is authorized and accepted, in the order it writes it. *)
Definition apply_steps (t : memTx) (in_ : ApplyEventInput) (rec : DisputeRecord) (next : Dispute) (policies : list string)
    (now : time) : PW unit :=
  _ ← op (UpdateDisputeState t (dr_ID rec) (dr_Version rec) (DState next) (DAppeals next) now);
  let payload := match ae_Payload in_ with RawEmpty => RawJSON (JObject []) | p => p end in
  match withAuthorizedBy payload policies with
  | None => panic "assignment to entry in nil map"
  | Some r =>
      payload ← lift r;
      let '(display, actorID) := actorOf c in
      let seq := dr_Version rec + 1 in
      _ ← op (AppendEvent (dr_ID rec) (mkEventRecord seq (ae_Event in_) (dr_State rec) (DState next) display actorID
                payload (keyPtr (ae_Idempotency in_)) (ctx_trace c) now));
      _ ← questionnaire t rec (ae_Event in_) payload now;
      _ ← settleDeadlines t rec next now;
      _ ← post t rec next seq payload now;
      _ ← notify t rec (DState next) seq now;
      if bool_decide (ae_Event in_ = EventReceiveQuestionnaire) then
        txn ← rd (GetTransaction t (dr_TransactionID rec));
        assess t rec txn seq now
      else mret tt
  end.

Definition facts_after (f : DisputeFacts) (state : State) (event : Event) (actorID : string) : DisputeFacts :=
  mkDisputeFacts (DFID f) (DFTeam f) (DFAmount f) (DFCurrency f) (DFRail f) state
    (if bool_decide (event = EventOpenInvestigation) then actorID else DFInvestigationOpenedBy f).

Definition ApplyEvent_tx (in_ : ApplyEventInput) (t : memTx) : PW DisputeView :=
  rec ← rd (GetDispute t (ae_DisputeID in_));
  f ← dispute_facts t rec;
  dec ← authorize t (EventAction (ae_Event in_)) (Some f);
  next ← lift (Apply (Lifecycle_of rec) (ae_Event in_));
  _ ← when (bool_decide (ae_Event in_ = EventIssueRefund)) (holdCheck t rec (ae_Payload in_));
  now ← now;
  _ ← apply_steps t in_ rec next (Policies dec) now;
  viewWith t (dr_with_state rec (DState next) (DAppeals next) (dr_Version rec + 1) now)
    (Some (facts_after f (DState next) (ae_Event in_) (actorOf c).2)).
Definition ApplyEvent (in_ : ApplyEventInput) : PW Result :=
  idempotent "dispute.apply_event" (ae_Idempotency in_) (ApplyEvent_tx in_).

Definition GetDisputeView (id : uuid) : PW DisputeView :=
  WithTx c (fun t => rec ← rd (GetDispute t id); view t rec).

Definition GetNoticeDocument (disputeID : uuid) (id : Z) : PW (NoticeRecord * Document) :=
  WithTx c (fun t =>
    n ← rd (GetNotice t disputeID id);
    match Unmarshal into_Document (nr_Document n) zero_Document with
    | Some doc => mret (n, doc)
    | None => throwE (EPlain json_error)
    end).

Definition Reassign_tx (disputeID : uuid) (team : string) (t : memTx) : PW unit :=
  rec ← rd (GetDispute t disputeID);
  f ← dispute_facts t rec;
  dec ← authorize t ActionReassign (Some f);
  a ← match From_ctx c with
      | Some p => rd (GetAccess t p)
      | None => throw ErrForbidden
      end;
  if negb (slices_contains (ATeams a) team) then throw ErrUnknownTeam
  else if bool_decide (team = dr_Team rec) then mret tt
  else
    now ← now;
    let payload := RawJSON (JObject [("authorizedBy", policies_json (Policies dec)); ("from", JString (dr_Team rec));
                                     ("to", JString team)]) in
    let '(display, actorID) := actorOf c in
    _ ← op (AppendEvent (dr_ID rec) (mkEventRecord (dr_Version rec + 1) EventReassigned (dr_State rec) (dr_State rec)
              display actorID payload None (ctx_trace c) now));
    op (UpdateDisputeTeam t (dr_ID rec) (dr_Version rec) team now).
Definition Reassign (disputeID : uuid) (team : string) : PW unit := WithTx c (Reassign_tx disputeID team).

(** A tenant-level check outside a dispute ([Service.Authorize]). *)
Definition Authorize (action : Action) : PW unit :=
  WithTx c (fun t => _ ← authorize t action None; mret tt).

(** ** Lists *)
Record DisputeSummary : Type := mkDisputeSummary {
  ds_ID : uuid; ds_Regime : Regime; ds_Reason : Reason; ds_State : State; ds_TransactionID : uuid;
  ds_DisputedAmount : dec; ds_Currency : string; ds_OpenedAt : time; ds_UpdatedAt : time;
  ds_NextDeadline : option DeadlineView; ds_Risk : option Assessment
}.
Record Page : Type := mkPage { pg_Items : list DisputeSummary; pg_Next : option Cursor }.

Definition summary (now : time) (next : gmap uuid Deadline) (risk : gmap uuid Assessment) (r : DisputeRecord) : DisputeSummary :=
  mkDisputeSummary (dr_ID r) (dr_Regime r) (dr_Reason r) (dr_State r) (dr_TransactionID r) (dr_DisputedAmount r)
    (dr_Currency r) (dr_OpenedAt r) (dr_UpdatedAt r) ((fun d => deadlineView d now) <$> next !! dr_ID r) (risk !! dr_ID r).

Definition page_limit (limit : Z) : Z := if (limit <=? 0) || (100 <? limit) then 25 else limit.

Definition ListDisputesPage (q : ListQuery) : PW Page :=
  let limit := page_limit (lq_Limit q) in
  now ← now;
  WithTx c (fun t =>
    recs ← rd (ListDisputes t (mkListQuery (lq_State q) (lq_Reason q) (lq_After q) (limit + 1) (lq_Overdue q) now));
    let more := limit <? Z.of_nat (length recs) in
    let next_cursor := if more then
        (fun r => mkCursor (dr_OpenedAt r) (dr_ID r)) <$> recs !! Z.to_nat (limit - 1)
      else None in
    let recs := if more then take (Z.to_nat limit) recs else recs in
    next ← rd (NextDeadlines t (map dr_ID recs));
    risk ← rd (LatestRisk t (map dr_ID recs));
    mret (mkPage (map (summary now next risk) recs) next_cursor)).
End service.
