(* ===== verification/Correspondence.v ===== *)
(** * Correspondence: the emails analysts write, their files, and the tenant's wording
    ([application/compose.go] and [attachments.go]). *)
From S2P Require Import Prelude Errs GoTime GoJson Ext Types Regimes Lifecycle Deadlines Ledger Questionnaire Risk Notice Access Text Template Store Tx Service.

(** ** Limits and errors *)
Definition MaxAttachmentBytes : Z := Z.shiftl 5 20.
Definition MaxAttachments : Z := 3.
Definition DraftAttachmentTTL : Z := 24 * Hour.
Definition AllowedAttachmentTypes : list string := ["application/pdf"; "image/png"; "image/jpeg"].
Definition ErrAttachmentRefused : Error := sentinel Unprocessable "attachment-refused" "the file cannot be attached".
Definition ErrAttachmentUnknown : Error :=
  sentinel Unprocessable "attachment-unknown" "an attachment is not a draft of this dispute".
Definition ErrNotResendable : Error := sentinel Conflict "not-resendable" "only an email that has been sent can be sent again".

Record UploadInput `{UU : UUID} : Type := mkUploadInput {
  up_DisputeID : uuid;
  up_Filename : string;
  up_ContentType : string;
  up_Content : string;
  up_Actor : string
}.
Arguments UploadInput {UU}.
Arguments mkUploadInput {UU}.
Record ComposeEmailInput `{UU : UUID} : Type := mkComposeEmailInput {
  ce_DisputeID : uuid;
  ce_Template : NoticeKind;
  ce_Fields : Inputs;
  ce_Attachments : list uuid;
  ce_Actor : string
}.
Arguments ComposeEmailInput {UU}.
Arguments mkComposeEmailInput {UU}.
Record ResendInput `{UU : UUID} : Type := mkResendInput { re_DisputeID : uuid; re_NoticeID : Z; re_Actor : string }.
Arguments ResendInput {UU}.
Arguments mkResendInput {UU}.

Record EmailTemplates : Type := mkEmailTemplates { et_Templates : list Template; et_Facts : FactValues }.
Record TemplateSetting : Type := mkTemplateSetting {
  ts_Base : Template;
  ts_Override : option Override;
  ts_Effective : Template;
  ts_UpdatedBy : string;
  ts_UpdatedAt : option time
}.

(** [enclosures]. *)
Definition enclosures `{UU : UUID} (files : list Attachment) : string :=
  match files with
  | [] => ""
  | _ => "Enclosures:" +:+ concat_map (fun f => newline +:+ "- " +:+ at_Filename f) files
  end.

Section correspondence.
Context `{DC : Decimal} `{UU : UUID} {Body : Type} {BC : BankingCore} {RT : Runtime} {AZ : Authorizer}.
Context (c : Ctx).
Abbreviation PW A := (P Body A).

Definition factValues (f : Facts) : FactValues :=
  mkFactValues (FCustomer f) (FBank f) (StringFixed (FAmount f) 2 +:+ " " +:+ FCurrency f) (FMerchant f) (FDisputeID f) (FNow f).

(** ** The catalogue *)
Definition applyStored (base : Template) (stored : option TenantTemplate) : Template :=
  match stored with
  | None => base
  | Some stored =>
      match tt_Override stored with
      | RawEmpty => base
      | raw =>
          match Unmarshal into_Override raw zero_Override with
          | None => base
          | Some o => match ApplyOverride address base o with Ok t => t | Err _ => base end
          end
      end
  end.
(** The overrides by kind; of two for one kind the later counts. *)
Definition by_kind (overrides : list TenantTemplate) (kind : NoticeKind) : option TenantTemplate :=
  foldl (fun found o => if bool_decide (tt_Kind o = kind) then Some o else found) None overrides.

Definition tenantTemplates (t : memTx) : PW (list Template) :=
  overrides ← rd (TenantTemplates t);
  mret (map (fun base => applyStored base (by_kind overrides (TplKind base))) Templates).
Definition tenantTemplate (t : memTx) (kind : NoticeKind) : PW Template :=
  all ← tenantTemplates t;
  match List.find (fun tpl => bool_decide (TplKind tpl = kind)) all with
  | Some tpl => mret tpl
  | None => throw (WithDetail ErrUnknownTemplate (quoted (NoticeKind_string kind)))
  end.

Definition ListEmailTemplates (disputeID : uuid) : PW EmailTemplates := WithTx c (fun t =>
  rec ← rd (GetDispute t disputeID);
  at_ ← now;
  facts ← notice_facts t rec at_;
  resolved ← tenantTemplates t;
  let facts := factValues (nf_Facts facts) in
  mret (mkEmailTemplates (map (fun tpl => Preview Local tpl facts) resolved) facts)).

(** ** Attachments *)
Definition Upload (in_ : UploadInput) : PW Attachment :=
  let size := Z.of_nat (String.length (up_Content in_)) in
  if size =? 0 then throw (WithDetail ErrAttachmentRefused "the file is empty")
  else if MaxAttachmentBytes <? size then
    throw (WithDetail ErrAttachmentRefused ("the file is larger than " +:+ show (Z.shiftr MaxAttachmentBytes 20) +:+ " MB"))
  else if negb (slices_contains AllowedAttachmentTypes (up_ContentType in_)) then
    throw (WithDetail ErrAttachmentRefused (up_ContentType in_ +:+ " is not a PDF, PNG or JPEG"))
  else if bool_decide (up_Filename in_ = "") || (200 <? Z.of_nat (String.length (up_Filename in_))) then
    throw (WithDetail ErrAttachmentRefused "the file needs a name of at most 200 characters")
  else
    id ← new_id;
    at_ ← now;
    let a := mkAttachment id (up_DisputeID in_) None (up_Filename in_) (up_ContentType in_) size (up_Content in_)
               (up_Actor in_) at_ in
    _ ← WithTx c (fun t =>
      _ ← authorizeDispute c t ActionUploadAttachment (up_DisputeID in_);
      op (InsertAttachment t (up_DisputeID in_) a));
    mret (at_without_content a).

Definition GetAttachmentFile (disputeID id : uuid) : PW Attachment := WithTx c (fun t => rd (GetAttachment disputeID id)).

Definition claimAttachments (t : memTx) (disputeID : uuid) (noticeID : Z) (ids : list uuid) : PW (list Attachment) :=
  match ids with
  | [] => mret []
  | _ =>
      if MaxAttachments <? Z.of_nat (length ids) then
        throw (WithDetail ErrAttachmentRefused ("at most " +:+ show MaxAttachments +:+ " attachments per email"))
      else
        n ← op (ClaimAttachments disputeID noticeID ids);
        if negb (n =? Z.of_nat (length ids)) then throw ErrAttachmentUnknown
        else
          metas ← rd (ListAttachmentMeta disputeID [noticeID]);
          mret (List.filter (fun m => bool_decide (at_NoticeID m = Some noticeID)) metas)
  end.

(** ** Sending *)
Definition email_record (rec : DisputeRecord) (kind : NoticeKind) (doc : Document) (to : string) (now : time) (actor : string)
    : NoticeRecord :=
  mkNoticeRecord 0 uuid_Nil (dr_ID rec) (dr_Version rec) kind ChannelEmail to (Subject doc) (RawJSON (Document_json doc)) now
    None 0 None actor None "".
Definition letter_record (rec : DisputeRecord) (kind : NoticeKind) (doc : Document) (to : string) (now : time) (actor : string)
    : NoticeRecord :=
  mkNoticeRecord 0 uuid_Nil (dr_ID rec) (dr_Version rec) kind ChannelLetter to (Subject doc) (RawJSON (Document_json doc)) now
    (Some now) 0 None actor None "".
Definition with_enclosures (doc : Document) (files : list Attachment) : Document :=
  if bool_decide (enclosures files = "") then doc
  else mkDocument (DocBank doc) (Subject doc) (Greeting doc) (Paragraphs doc ++ [enclosures files]) (Closing doc) (Basis doc).

(** The rows an email leaves: its own, its files claimed for it, and a letter where one is owed. *)
Definition enqueue (t : memTx) (rec : DisputeRecord) (rules : Rules) (tpl : Template) (doc : Document) (f : noticeFacts)
    (now : time) (attachments : list uuid) (actor : string) : PW unit :=
  if bool_decide (nf_Email f = "") then throw (WithDetail ErrNotResendable "the account has no email address")
  else
    emailID ← op (InsertNotice t (email_record rec (TplKind tpl) doc (nf_Email f) now actor));
    files ← claimAttachments t (dr_ID rec) emailID attachments;
    if TplLetter tpl && WrittenNotices rules && negb (bool_decide (nf_PostalAddress f = "")) then
      _ ← op (InsertNotice t (letter_record rec (TplKind tpl) (with_enclosures doc files) (nf_PostalAddress f) now actor));
      mret tt
    else mret tt.

Definition ComposeEmail_tx (in_ : ComposeEmailInput) (t : memTx) : PW DisputeView :=
  rec ← rd (GetDispute t (ce_DisputeID in_));
  _ ← authorizeDispute c t ActionComposeEmail (dr_ID rec);
  tpl ← tenantTemplate t (ce_Template in_);
  values ← lift (Validate tpl (ce_Fields in_));
  now ← now;
  facts ← notice_facts t rec now;
  let doc := Fill Local tpl (factValues (nf_Facts facts)) values in
  rules ← lift (RulesFor (dr_Regime rec));
  _ ← enqueue t rec rules tpl doc facts now (ce_Attachments in_) (ce_Actor in_);
  view c t rec.
Definition ComposeEmail (in_ : ComposeEmailInput) : PW DisputeView :=
  match TemplateFor (ce_Template in_) with
  | None => throw (WithDetail ErrUnknownTemplate (quoted (NoticeKind_string (ce_Template in_))))
  | Some _ =>
      v ← WithTx c (ComposeEmail_tx in_);
      _ ← kick;
      mret v
  end.

Definition Resend_tx (in_ : ResendInput) (t : memTx) : PW DisputeView :=
  rec ← rd (GetDispute t (re_DisputeID in_));
  _ ← authorizeDispute c t ActionResendNotice (dr_ID rec);
  orig ← rd (GetNotice t (dr_ID rec) (re_NoticeID in_));
  if negb (bool_decide (nr_Channel orig = ChannelEmail)) || bool_decide (nr_SentAt orig = None) then throw ErrNotResendable
  else
    account ← rd (GetAccount (dr_AccountID rec));
    if bool_decide (ac_Email account = "") then throw (WithDetail ErrNotResendable "the account has no email address")
    else
      now ← now;
      _ ← op (InsertNotice t (mkNoticeRecord 0 uuid_Nil (dr_ID rec) (nr_Seq orig) (nr_Kind orig) ChannelEmail
                (ac_Email account) (nr_Subject orig) (nr_Document orig) now None 0 None (re_Actor in_)
                (Some (default (nr_ID orig) (nr_ResendOf orig))) ""));
      view c t rec.
Definition Resend (in_ : ResendInput) : PW DisputeView :=
  v ← WithTx c (Resend_tx in_);
  _ ← kick;
  mret v.

(** ** The tenant's wording *)
Definition setting_of (base : Template) (stored : option TenantTemplate) : TemplateSetting :=
  match stored with
  | None => mkTemplateSetting base None base "" None
  | Some stored =>
      let o := Unmarshal into_Override (tt_Override stored) zero_Override in
      let effective := match o with
        | Some o => match ApplyOverride address base o with Ok t => t | Err _ => base end
        | None => base
        end in
      mkTemplateSetting base o effective (tt_UpdatedBy stored) (Some (tt_UpdatedAt stored))
  end.
Definition ListTemplateSettings : PW (list TemplateSetting) := WithTx c (fun t =>
  _ ← authorize c t ActionManageTemplates None;
  overrides ← rd (TenantTemplates t);
  mret (map (fun base => setting_of base (by_kind overrides (TplKind base))) Templates)).

Definition PutTemplateSetting (kind : NoticeKind) (o : Override) (actor : string) : PW TemplateSetting :=
  match TemplateFor kind with
  | None => throw (WithDetail ErrUnknownTemplate (quoted (NoticeKind_string kind)))
  | Some base =>
      effective ← lift (ApplyOverride address base o);
      now ← now;
      _ ← WithTx c (fun t =>
        _ ← authorize c t ActionManageTemplates None;
        op (PutTenantTemplate t (mkTenantTemplate kind (RawJSON (Override_json o)) actor now)));
      mret (mkTemplateSetting base (Some o) effective actor (Some now))
  end.

Definition DeleteTemplateSetting (kind : NoticeKind) : PW unit :=
  match TemplateFor kind with
  | None => throw (WithDetail ErrUnknownTemplate (quoted (NoticeKind_string kind)))
  | Some _ => WithTx c (fun t =>
      _ ← authorize c t ActionManageTemplates None;
      found ← op (DeleteTenantTemplate t kind);
      if (found : bool) then mret tt else throw ErrNotFound)
  end.
End correspondence.
