(* ===== verification/Dispatch.v ===== *)
(** * Dispatch: the outbox, the mail it becomes, and the sweeps ([application/mail.go], [purge.go], and
    [RenderMail] of [service.go]).

    The relay is a class: what it answers to a message, and the state it keeps between calls. The dispatcher is the
    one process that has no tenant: it reads the store outside any transaction of a request. Its meters and log
    lines become a log of attempts, one entry per call of [deliver]; spans and their links are left out. *)
From S2P Require Import Prelude Errs GoTime GoJson Ext Types Regimes Lifecycle Deadlines Ledger Questionnaire Risk Notice Access Text Template Store Tx Service Correspondence.

(** ** Mail *)
Record MailFile : Type := mkMailFile { mf_Name : string; mf_ContentType : string; mf_Content : string }.
Record Mail : Type := mkMail { To : string; MSubject : string; MText : string; MHTML : string; Files : list MailFile }.
#[export] Instance MailFile_eq_dec : EqDecision MailFile.
Proof. solve_decision. Defined.
#[export] Instance Mail_eq_dec : EqDecision Mail.
Proof. solve_decision. Defined.

(** [application.Mailer]: an error means not delivered. *)
Class Mailer : Type := {
  relay : Type;
  Send : relay -> Mail -> M unit * relay
}.

Definition mail_with_files (m : Mail) (files : list MailFile) : Mail := mkMail (To m) (MSubject m) (MText m) (MHTML m) files.

Section dispatch.
Context `{DC : Decimal} `{UU : UUID} {Body : Type} {RT : Runtime} {ML : Mailer}.

Definition RenderMail (n : NoticeRecord) : M Mail :=
  match Unmarshal into_Document (nr_Document n) zero_Document with
  | None => Err (Wrap (EPlain json_error) ("notice " +:+ show (nr_ID n)))
  | Some doc => Ok (mkMail (nr_Recipient n) (Subject doc) (DocText doc) (HTML Local doc (nr_CreatedAt n)) [])
  end.

(** What the meters call an attempt. *)
Inductive Delivery : Type :=
| DeliverySent
| DeliveryFailed
| DeliveryRenderFailed.
#[export] Instance Delivery_eq_dec : EqDecision Delivery.
Proof. solve_decision. Defined.
Definition Delivery_string (d : Delivery) : string :=
  match d with DeliverySent => "sent" | DeliveryFailed => "failed" | DeliveryRenderFailed => "render-failed" end.

(** An attempt at a notice, and the mail the relay was given, if any. *)
Record Attempt : Type := mkAttempt { ap_Notice : Z; ap_Outcome : Delivery; ap_Mail : option Mail }.

(** The store the dispatcher works on, the relay, the clock's readings, and the log. *)
Record Outbox : Type := mkOutbox {
  ob_store : MemStore Body;
  ob_relay : relay;
  ob_ticks : nat;
  ob_log : list Attempt
}.

Definition file_of (f : Attachment) : MailFile := mkMailFile (at_Filename f) (at_ContentType f) (at_Content f).
(** A resend carries what the original carried. *)
Definition source_of (n : NoticeRecord) : Z := default (nr_ID n) (nr_ResendOf n).

(** One attempt: the failure to record ([""] when there was none), the outcome, the mail handed over. *)
Definition attempt (n : NoticeRecord) (o : Outbox) : string * Delivery * option Mail * relay :=
  match RenderMail n with
  | Err e => ("render: " +:+ Error_string e, DeliveryRenderFailed, None, ob_relay o)
  | Ok m =>
      let m := mail_with_files m (map file_of (NoticeAttachments (source_of n) (ob_store o))) in
      match Send (ob_relay o) m with
      | (Err e, r) => (Error_string e, DeliveryFailed, Some m, r)
      | (Ok _, r) => ("", DeliverySent, Some m, r)
      end
  end.

Definition deliver (n : NoticeRecord) (o : Outbox) : Outbox :=
  let '(failure, outcome, m, r) := attempt n o in
  mkOutbox (FinishNotice (now_at (ob_ticks o)) (nr_ID n) failure (ob_store o)) r (S (ob_ticks o))
    (ob_log o ++ [mkAttempt (nr_ID n) outcome m]).

Definition batch_size : Z := 20.
Definition pass (o : Outbox) : Z * Outbox :=
  let '(batch, m) := ClaimNotices batch_size (ob_store o) in
  (Z.of_nat (length batch), foldl (fun o n => deliver n o) (mkOutbox m (ob_relay o) (ob_ticks o) (ob_log o)) batch).

(** The inner loop of [Run]: passes until one claims nothing; [None] when [fuel] passes were not enough. *)
Fixpoint drain (fuel : nat) (o : Outbox) : option Outbox :=
  match fuel with
  | O => None
  | S fuel => let '(n, o) := pass o in if n =? 0 then Some o else drain fuel o
  end.

(** ** The sweeps *)

(** How often [RunIdempotencyPurge] runs. *)
Definition purge_every (ttl : Z) : Z := Z.max (Z.quot ttl 24) Minute.
(** One turn of [RunIdempotencyPurge] and of [RunDraftAttachmentPurge]. *)
Definition sweep_responses (now : time) (ttl : Z) (m : MemStore Body) : Z * MemStore Body := PurgeIdempotencyKeys (now + - ttl) m.
Definition sweep_drafts (now : time) (m : MemStore Body) : Z * MemStore Body := PurgeDraftAttachments (now + - DraftAttachmentTTL) m.
End dispatch.
Arguments Outbox {DC UU} Body {ML}.
