(* ===== verification/Gauges.v ===== *)
(** * Gauges: what the service counts for its operators ([memstore.go], [postgres/store.go], the views of the migrations).

    Disputes by state, clocks past due and money in suspense, over all tenants, in both stores. The in-memory store walks
    Go maps, whose order says nothing; every event, clock and entry it keeps is of a dispute it has. *)
From Stdlib Require Import QArith Lqa.
From S2P Require Import Prelude Errs GoTime GoJson Ext Types Regimes Lifecycle Deadlines Ledger Questionnaire Risk Notice Access Store Tx Dispatch Sql PgStore.
Local Open Scope Z_scope.

(** ** Values by key *)
Section keyed.
Context {K V : Type} `{EqDecision K}.
(** What a list of groups says of a key. *)
Definition at_key (k : K) (acc : list (K * V)) : option V := snd <$> List.find (fun a => bool_decide (a.1 = k)) acc.
Lemma at_key_update (f : V -> V) k x acc :
  at_key k (map (fun a => if bool_decide (a.1 = x) then (a.1, f a.2) else a) acc) = if bool_decide (x = k) then f <$> at_key k acc else at_key k acc.
Proof.
  unfold at_key. induction acc as [|[a v] acc IH]; cbn; [by case_bool_decide|].
  destruct (decide (a = x)) as [->|Ha].
  - rewrite (bool_decide_true (x = x)) by done. cbn. destruct (decide (x = k)) as [->|Hk]; [by rewrite !bool_decide_true|].
    rewrite !(bool_decide_false (x = k)) in * by done. done.
  - rewrite (bool_decide_false (a = x)) by done. cbn. destruct (decide (a = k)) as [->|Hk].
    + rewrite (bool_decide_true (k = k)) by done. by rewrite bool_decide_false by congruence.
    + by rewrite !(bool_decide_false (a = k)) by done.
Qed.
Lemma at_key_snoc k x v acc : at_key k (acc ++ [(x, v)]) = match at_key k acc with Some w => Some w | None => if bool_decide (x = k) then Some v else None end.
Proof.
  unfold at_key. induction acc as [|[a w] acc IH]; cbn; [by case_bool_decide|]. by destruct (bool_decide (a = k)).
Qed.
Lemma at_key_exists x acc : existsb (fun a => bool_decide (a.1 = x)) acc = match at_key x acc with Some _ => true | None => false end.
Proof. unfold at_key. induction acc as [|[a v] acc IH]; cbn; [done|]. by destruct (bool_decide (a = x)). Qed.
(** Grouping step by step: a value is changed, or starts as [v0]. *)
Definition group_step (f : V -> V) (v0 : V) (x : K) (acc : list (K * V)) : list (K * V) :=
  if existsb (fun a => bool_decide (a.1 = x)) acc then map (fun a => if bool_decide (a.1 = x) then (a.1, f a.2) else a) acc else acc ++ [(x, v0)].
Lemma at_key_step f v0 k x acc :
  at_key k (group_step f v0 x acc) = if bool_decide (x = k) then Some (match at_key k acc with Some v => f v | None => v0 end) else at_key k acc.
Proof.
  unfold group_step. rewrite at_key_exists. destruct (decide (x = k)) as [->|Hk].
  - rewrite bool_decide_true by done. destruct (at_key k acc) eqn:E; [by rewrite at_key_update, bool_decide_true, E|].
    by rewrite at_key_snoc, E, bool_decide_true.
  - rewrite bool_decide_false by done. destruct (at_key x acc); [by rewrite at_key_update, bool_decide_false|].
    rewrite at_key_snoc, (bool_decide_false (x = k)) by done. by destruct (at_key k acc).
Qed.
End keyed.

Definition times {K} `{EqDecision K} (k : K) (keys : list K) : Z := Z.of_nat (length (List.filter (fun x => bool_decide (x = k)) keys)).
Lemma group_count_at {K} `{EqDecision K} (keys : list K) k : forall acc,
  at_key k (group_count keys acc) = if 0 <? times k keys then Some (default 0 (at_key k acc) + times k keys) else at_key k acc.
Proof.
  induction keys as [|x keys IH]; intros acc; [done|]. cbn [group_count]. rewrite IH. change (if existsb _ acc then _ else _) with (group_step (fun n => n + 1) 1 x acc).
  rewrite at_key_step. assert (E : times k (x :: keys) = (if bool_decide (x = k) then 1 else 0) + times k keys) by (unfold times; cbn; case_bool_decide; cbn; lia).
  assert (0 <= times k keys) by (unfold times; lia). rewrite E. case_bool_decide; [|by rewrite Z.add_0_l].
  rewrite (proj2 (Z.ltb_lt 0 (1 + _))) by lia. destruct (0 <? times k keys) eqn:E0; [destruct (at_key k acc); cbn; f_equal; lia|].
  apply Z.ltb_ge in E0. replace (times k keys) with 0 by lia. destruct (at_key k acc); cbn; f_equal; lia.
Qed.

Section gauges.
Context `{DC : Decimal} `{UU : UUID} {Body : Type}.

(** ** The in-memory store *)
Definition CountByState (m : MemStore Body) : list StateCount :=
  map (fun r => mkStateCount (r : uuid * Regime * State * Z).1.1.1 r.1.1.2 r.1.2 r.2)
    (group_count (map (fun kd => (dr_TenantID kd.2, dr_Regime kd.2, dr_State kd.2)) (map_to_list (mDisputes m))) []).
Definition overdue_keys (now : time) (m : MemStore Body) : list (uuid * Regime * DeadlineKind) :=
  concat (map (fun kds => match mDisputes m !! kds.1 with
                          | Some d => map (fun dl => (dr_TenantID d, dr_Regime d, DlKind dl)) (List.filter (fun dl => bool_decide (Status dl now = DeadlineBreached)) kds.2)
                          | None => []
                          end) (map_to_list (mDeadlines m))).
Definition CountOverdue (now : time) (m : MemStore Body) : list OverdueCount :=
  map (fun r => mkOverdueCount (r : uuid * Regime * DeadlineKind * Z).1.1.1 r.1.1.2 r.1.2 r.2) (group_count (overdue_keys now m) []).
(** [sums[k] = sums[k].Add(...)]: a key that is not there holds zero. *)
Fixpoint group_sum {K} `{EqDecision K} (entries : list (K * dec)) (acc : list (K * dec)) : list (K * dec) :=
  match entries with
  | [] => acc
  | (k, d) :: entries => group_sum entries (group_step (fun v => dec_add v d) (dec_add dec_zero d) k acc)
  end.
Definition suspense_postings (m : MemStore Body) : list (uuid * Regime * string * Posting) :=
  concat (map (fun kes => match mDisputes m !! kes.1 with
                          | Some d => map (fun e => (dr_TenantID d, dr_Regime d, PCurrency (le_Posting e), le_Posting e)) kes.2
                          | None => []
                          end) (map_to_list (mLedger m))).
Definition suspense_entries (m : MemStore Body) : list (uuid * Regime * string * dec) :=
  map (fun kp => (kp.1, SuspenseBalance [kp.2])) (suspense_postings m).
Definition SuspenseBalances (m : MemStore Body) : list SuspenseBalanceRow :=
  map (fun r => mkSuspenseBalanceRow (r : uuid * Regime * string * dec).1.1.1 r.1.1.2 r.1.2 r.2) (group_sum (suspense_entries m) []).

(** ** PostgreSQL *)
(** The two sums of the view [suspense_by_regime], of the rows of each group. *)
Definition sides (p : Posting) : dec * dec :=
  (if bool_decide (PDebit p = AccountSuspense) then PAmount p else dec_zero, if bool_decide (PCredit p = AccountSuspense) then PAmount p else dec_zero).
Fixpoint group_sides {K} `{EqDecision K} (rows : list (K * Posting)) (acc : list (K * (dec * dec))) : list (K * (dec * dec)) :=
  match rows with
  | [] => acc
  | (k, p) :: rows => group_sides rows (group_step (fun v => (dec_add v.1 (sides p).1, dec_add v.2 (sides p).2)) (sides p) k acc)
  end.
Definition suspense_rows (db : DB Body) : list (uuid * Regime * string * Posting) :=
  omap (fun r => (fun d => ((ch_TenantID r, dr_Regime d, PCurrency (lw_Posting (ch_row r))), lw_Posting (ch_row r))) <$> db_disputes db !! ch_DisputeID r) (db_ledger db).
Definition q_SuspenseByRegime (db : DB Body) : sql (list (uuid * Regime * string * dec)) * DB Body :=
  (Ok (map (fun g => (g.1, dec_sub g.2.1 g.2.2)) (group_sides (suspense_rows db) [])), db).
Definition pg_SuspenseBalances (fault : nat -> option driver_error) (db : DB Body) (n : nat) : M (list SuspenseBalanceRow) * DB Body * nat :=
  match pool fault q_SuspenseByRegime db n with
  | (Ok rows, db, n) => (Ok (map (fun r => mkSuspenseBalanceRow (r : uuid * Regime * string * dec).1.1.1 r.1.1.2 r.1.2 r.2) rows), db, n)
  | (Err e, db, n) => (Err e, db, n)
  end.

(** ** The two stores agree *)
Context `{!DecimalLaws DC}.
Section sums.
Context {K : Type} `{EqDecision K}.
(** What entered suspense under a key, less what left it. *)
Definition entered (k : K) (rows : list (K * Posting)) : Q :=
  foldr Qplus 0%Q (map (fun kp => dval (SuspenseBalance [kp.2])) (List.filter (fun kp => bool_decide (kp.1 = k)) rows)).
Definition mentioned (k : K) (rows : list (K * Posting)) : bool := existsb (fun kp => bool_decide (kp.1 = k)) rows.
Lemma entered_cons k x p rows : (entered k ((x, p) :: rows) == (if bool_decide (x = k) then dval (SuspenseBalance [p]) else 0) + entered k rows)%Q.
Proof. unfold entered. cbn. case_bool_decide; cbn; [reflexivity|ring]. Qed.
Lemma entered_perm k rows rows' : rows ≡ₚ rows' -> (entered k rows == entered k rows')%Q.
Proof.
  induction 1 as [|[x p] l l' _ IH|[x p] [y q] l|l1 l2 l3 _ I1 _ I2]; [reflexivity| |rewrite !entered_cons; ring|by rewrite I1].
  by rewrite !entered_cons, IH.
Qed.
Lemma mentioned_perm k rows rows' : rows ≡ₚ rows' -> mentioned k rows = mentioned k rows'.
Proof.
  induction 1 as [|[x p] l l' _ IH|[x p] [y q] l|l1 l2 l3 _ I1 _ I2]; [done|cbn; by f_equal|cbn; by rewrite !orb_assoc, (orb_comm (bool_decide (y = k)))|congruence].
Qed.
Lemma one_posting p : (dval (SuspenseBalance [p]) == dval (sides p).1 - dval (sides p).2)%Q.
Proof.
  unfold SuspenseBalance, sides. cbn [foldl fst snd]. do 2 case_bool_decide; rewrite ?dval_sub, ?dval_add, ?dval_zero; ring.
Qed.

(** Both ways to add up: the running sum and the two sums. *)
Lemma group_sum_at k rows : forall acc,
  match at_key k (group_sum (map (fun kp : K * Posting => (kp.1, SuspenseBalance [kp.2])) rows) acc) with
  | Some v => (dval v == match at_key k acc with Some w => dval w | None => 0 end + entered k rows)%Q /\ (at_key k acc <> None \/ mentioned k rows = true)
  | None => at_key k acc = None /\ mentioned k rows = false
  end.
Proof.
  induction rows as [|[x p] rows IH]; intros acc; cbn [map group_sum].
  - destruct (at_key k acc); [split; [unfold entered; cbn; ring|by left]|done].
  - specialize (IH (group_step (fun v => dec_add v (SuspenseBalance [p])) (dec_add dec_zero (SuspenseBalance [p])) x acc)). cbn [fst snd].
    rewrite at_key_step in IH. destruct (at_key k (group_sum _ _)) as [v|].
    + destruct IH as [E Hm]. rewrite entered_cons. cbn [mentioned existsb fst]. case_bool_decide as Ex.
      * split; [rewrite E; destruct (at_key k acc); rewrite dval_add, ?dval_zero; ring|by right].
      * split; [rewrite E; ring|done].
    + destruct IH as [E Hm]. cbn [mentioned existsb fst]. by case_bool_decide.
Qed.
Lemma group_sides_at k rows : forall acc,
  match at_key k (group_sides rows acc) with
  | Some v => (dval v.1 - dval v.2 == match at_key k acc with Some w => dval w.1 - dval w.2 | None => 0 end + entered k rows)%Q /\ (at_key k acc <> None \/ mentioned k rows = true)
  | None => at_key k acc = None /\ mentioned k rows = false
  end.
Proof.
  induction rows as [|[x p] rows IH]; intros acc; cbn [group_sides].
  - destruct (at_key k acc); [split; [unfold entered; cbn; ring|by left]|done].
  - specialize (IH (group_step (fun v => (dec_add v.1 (sides p).1, dec_add v.2 (sides p).2)) (sides p) x acc)).
    rewrite at_key_step in IH. destruct (at_key k (group_sides _ _)) as [v|].
    + destruct IH as [E Hm]. rewrite entered_cons. cbn [mentioned existsb fst]. case_bool_decide as Ex.
      * split; [rewrite E, one_posting; destruct (at_key k acc); cbn [fst snd]; rewrite ?dval_add; ring|by right].
      * split; [rewrite E; ring|done].
    + destruct IH as [E Hm]. cbn [mentioned existsb fst]. by case_bool_decide.
Qed.
End sums.

(** The suspense gauge reads the same off either store: where the two keep the same ledger - in whatever order - they
    report the same tenants, regimes and currencies, and for each the same balance, which is exactly what entered the
    suspense account under it less what left; so money advanced and not cleared is never hidden by how it is added up. *)
Theorem suspense_gauges_agree (m : MemStore Body) (db : DB Body) : suspense_postings m ≡ₚ suspense_rows db -> forall k,
  match at_key k (group_sum (suspense_entries m) []), at_key k (map (fun g => (g.1, dec_sub g.2.1 g.2.2)) (group_sides (suspense_rows db) [])) with
  | Some a, Some b => deq a b /\ (dval a == entered k (suspense_rows db))%Q
  | None, None => mentioned k (suspense_rows db) = false
  | _, _ => False
  end.
Proof.
  intros Hp k. pose proof (group_sum_at k (suspense_postings m) []) as Hm. pose proof (group_sides_at k (suspense_rows db) []) as Hd.
  assert (Hmap : forall l : list (uuid * Regime * string * (dec * dec)), at_key k (map (fun g => (g.1, dec_sub g.2.1 g.2.2)) l) = (fun v => dec_sub v.1 v.2) <$> at_key k l).
  { unfold at_key. induction l as [|[a v] l IH]; cbn; [done|]. by destruct (bool_decide (a = k)). }
  rewrite Hmap. unfold suspense_entries. rewrite (mentioned_perm k _ _ Hp) in Hm.
  destruct (at_key k (group_sum _ [])) as [a|], (at_key k (group_sides _ [])) as [b|]; cbn in Hm, Hd |- *.
  - destruct Hm as [Em _], Hd as [Ed _]. rewrite (entered_perm k _ _ Hp) in Em. split; [|rewrite Em; ring].
    unfold deq. rewrite dval_sub, Em, Ed. ring.
  - destruct Hm as [_ [Hm|Hm]], Hd as [_ Hd]; congruence.
  - destruct Hm as [_ Hm], Hd as [_ [Hd|Hd]]; congruence.
  - by destruct Hd.
Qed.
End gauges.

#[export] Instance Posting_eq_dec `{DC : Decimal} : EqDecision Posting.
Proof. solve_decision. Defined.

(** ** Played out *)
Module GaugesExamples.
  Import QDec NUuid.
Local Open Scope Q_scope.
Definition bank : uuid := 1%N.
Definition disputed (id : uuid) : DisputeRecord := mkDisputeRecord id bank "general" RegimeUSRegE StateInvestigating 0 0 11%N 21%N (100 : dec) "USD" 0 0 ReasonDuplicate.
Definition credit : Posting := mkPosting PostingProvisionalCredit AccountSuspense AccountCustomer (100 : dec) "USD".
Definition reversal : Posting := mkPosting PostingProvisionalCreditReversal AccountCustomer AccountSuspense (60 : dec) "USD".
Definition fee : Posting := mkPosting PostingWriteOff AccountLoss AccountSuspense (5 # 2 : dec) "EUR".
Definition entry (p : Posting) : LedgerEntry := mkLedgerEntry 1 p "ref" 0 None.
Definition row (id : uuid) (p : Posting) : Child LedgerRow := mkChild bank id (mkLedgerRow 1 p "ref" 0 None None None).
Definition mem : MemStore string :=
  mkMemStore ∅ {[7%N := disputed 7%N; 8%N := disputed 8%N]} ∅ ∅ ∅ {[7%N := [entry credit; entry reversal]; 8%N := [entry fee]]} ∅ [] ∅ ∅ ∅ ∅ ∅ ∅ ∅ ∅ 0 ∅ ∅ ∅.
Definition tables : DB string :=
  mkDB ∅ ∅ ∅ {[7%N := disputed 7%N; 8%N := disputed 8%N]} [] ∅ [] [row 8%N fee; row 7%N reversal; row 7%N credit] ∅ [] 0 [] ∅ ∅ ∅ ∅ [] [] [] [] ∅.
Lemma same_ledger : suspense_postings mem ≡ₚ suspense_rows tables.
Proof.
  assert (E : suspense_postings mem = [(bank, RegimeUSRegE, "EUR", fee); (bank, RegimeUSRegE, "USD", credit); (bank, RegimeUSRegE, "USD", reversal)]) by by_eval.
  assert (E2 : suspense_rows tables = [(bank, RegimeUSRegE, "EUR", fee); (bank, RegimeUSRegE, "USD", reversal); (bank, RegimeUSRegE, "USD", credit)]) by by_eval.
  rewrite E, E2. generalize (bank, RegimeUSRegE, "USD", credit), (bank, RegimeUSRegE, "USD", reversal), (bank, RegimeUSRegE, "EUR", fee). intros a b c.
  apply perm_skip, perm_swap.
Qed.

Lemma suspense_gauges_agree_witness : exists a b,
  at_key (bank, RegimeUSRegE, "USD") (group_sum (suspense_entries mem) []) = Some a /\
  at_key (bank, RegimeUSRegE, "USD") (map (fun g => (g.1, dec_sub g.2.1 g.2.2)) (group_sides (suspense_rows tables) [])) = Some b /\
  deq a b /\ dval a == 40.
Proof.
  pose proof (suspense_gauges_agree mem tables same_ledger (bank, RegimeUSRegE, "USD")) as H.
  destruct (at_key _ (group_sum _ _)) as [a|] eqn:Ea, (at_key _ (map _ _)) as [b|] eqn:Eb; try (by destruct H).
  exists a, b. split_and!; [done|done|by destruct H|]. destruct H as [_ ->]. vm_compute. reflexivity.
Defined.
End GaugesExamples.
