(* ===== verification/Smtp.v ===== *)
(** * Smtp: an email on the wire ([infrastructure/mail/mail.go]).

    The bytes of a message - [mime.QEncoding] for the subject and the names of files, base64 in lines of 76 - and what
    becomes of one: handed to a relay, or logged where none is configured. [smtp.SendMail] is a parameter; spans are
    left out. *)
From S2P Require Import Oapi Answers.
From S2P Require Import Prelude Errs GoTime GoJson Ext Types Regimes Lifecycle Deadlines Ledger Questionnaire Risk Notice Access Text Template Store Wire Tx Service Correspondence Dispatch.
Local Open Scope Z_scope.

Definition crlf : string := String (Ascii.ascii_of_nat 13) newline.

(** ** [mime.QEncoding.Encode] of UTF-8 *)
(** The bytes of the rune a text starts with; of a broken one, one. *)
Definition rune_width (l : list Z) : nat :=
  let tail b := (128 <=? b) && (b <=? 191) in
  match l with
  | a :: b :: rest =>
      if (194 <=? a) && (a <=? 223) && tail b then 2
      else match rest with
           | c :: rest =>
               if (if a =? 224 then (160 <=? b) && (b <=? 191) else if a =? 237 then (128 <=? b) && (b <=? 159) else (225 <=? a) && (a <=? 239) && tail b) && tail c then 3
               else match rest with
                    | d :: _ =>
                        if (if a =? 240 then (144 <=? b) && (b <=? 191) else if a =? 244 then (128 <=? b) && (b <=? 143) else (241 <=? a) && (a <=? 243) && tail b) && tail c && tail d
                        then 4 else 1
                    | [] => 1
                    end
           | [] => 1
           end
  | _ => 1
  end.
Definition needsEncoding (s : string) : bool := existsb (fun b => ((b <? 32) || (126 <? b)) && negb (b =? 9)) (to_bytes s).
Definition as_it_is (b : Z) : bool := (32 <=? b) && (b <=? 126) && negb (b =? 61) && negb (b =? 63) && negb (b =? 95).
Definition hex_digit (n : Z) : Z := if n <? 10 then 48 + n else 55 + n.
(** [writeQString]. *)
Definition q_byte (b : Z) : list Z :=
  if b =? 32 then [95] else if as_it_is b then [b] else [61; hex_digit (b / 16); hex_digit (b mod 16)].
Definition open_word : string := "=?utf-8?q?".
Definition close_word : string := "?=".
Definition maxContentLen : Z := 63.
(** Runes are kept whole: a word that would grow too long is closed before the next. *)
Fixpoint q_runes (fuel : nat) (l : list Z) (len : Z) : list Z :=
  match fuel, l with
  | S fuel, b :: _ =>
      let width := if as_it_is b then 1%nat else rune_width l in
      let enc := if as_it_is b then 1 else 3 * Z.of_nat width in
      let word := concat (map q_byte (take width l)) in
      if maxContentLen <? len + enc then to_bytes (close_word +:+ " " +:+ open_word) ++ word ++ q_runes fuel (drop width l) enc
      else word ++ q_runes fuel (drop width l) (len + enc)
  | _, _ => []
  end.
Definition QEncode (s : string) : string :=
  if needsEncoding s then open_word +:+ of_bytes (q_runes (String.length s) (to_bytes s) 0) +:+ close_word else s.

Example q_encoded : map QEncode ["Your dispute"; "a_b?"; of_bytes [75; 111; 118; 195; 161; 99; 115; 32; 61]; of_bytes (concat (replicate 12 [195; 169]))] =
  ["Your dispute"; "a_b?"; "=?utf-8?q?Kov=C3=A1cs_=3D?=";
   "=?utf-8?q?=C3=A9=C3=A9=C3=A9=C3=A9=C3=A9=C3=A9=C3=A9=C3=A9=C3=A9=C3=A9?= =?utf-8?q?=C3=A9=C3=A9?="].
Proof. vm_compute. reflexivity. Qed.

(** ** The message *)
Definition short_days : list string := ["Sun"; "Mon"; "Tue"; "Wed"; "Thu"; "Fri"; "Sat"].
(** [Format(time.RFC1123Z)]; the zone's offset in minutes. *)
Definition format_rfc1123z (loc : Location) (t : time) : string :=
  let '(y, mo, d) := date_of loc t in
  let c := local_clock loc t in
  let zone := Z.quot (loc_offset loc (secs t)) 60 in
  default "" (short_days !! Z.to_nat (weekday (local_day loc t))) +:+ ", " +:+ pad2 d +:+ " " +:+
  String.substring 0 3 (default "" (month_names !! Z.to_nat (mo - 1))) +:+ " " +:+ pad4 y +:+ " " +:+
  pad2 (c / 3600) +:+ ":" +:+ pad2 (c / 60 mod 60) +:+ ":" +:+ pad2 (c mod 60) +:+ " " +:+
  (if zone <? 0 then "-" else "+") +:+ pad2 (Z.abs zone / 60) +:+ pad2 (Z.abs zone mod 60).

(** The text in lines of 76, each ended; the length is fuel enough. *)
Fixpoint wrap76 (fuel : nat) (enc : string) : string :=
  match fuel with
  | S fuel => if (76 <? String.length enc)%nat then String.substring 0 76 enc +:+ crlf +:+ wrap76 fuel (String.substring 76 (String.length enc - 76) enc)
              else enc +:+ crlf
  | O => enc +:+ crlf
  end.
Definition file_part (mixed : string) (f : MailFile) : string :=
  let name := QEncode (mf_Name f) in
  let enc := StdEncode (mf_Content f) in
  "--" +:+ mixed +:+ crlf +:+ "Content-Type: " +:+ mf_ContentType f +:+ "; name=" +:+ quoted name +:+ crlf +:+
  "Content-Disposition: attachment; filename=" +:+ quoted name +:+ crlf +:+ "Content-Transfer-Encoding: base64" +:+ crlf +:+ crlf +:+
  wrap76 (String.length enc) enc.
Fixpoint concat_parts (l : list string) : string := match l with [] => "" | s :: l => s +:+ concat_parts l end.
(** [SMTP.Message], at an instant [stamp] of a clock in [loc]. *)
Definition SMTP_Message (from : string) (stamp : time) (loc : Location) (m : Mail) : string :=
  let alt := "alt" +:+ show stamp in
  let mixed := "mix" +:+ show stamp in
  let body :=
    "--" +:+ alt +:+ crlf +:+ "Content-Type: text/plain; charset=utf-8" +:+ crlf +:+ crlf +:+ MText m +:+ crlf +:+
    "--" +:+ alt +:+ crlf +:+ "Content-Type: text/html; charset=utf-8" +:+ crlf +:+ crlf +:+ MHTML m +:+ crlf +:+ "--" +:+ alt +:+ "--" +:+ crlf in
  ("From: " +:+ from) +:+ crlf +:+ ("To: " +:+ To m) +:+ crlf +:+ ("Subject: " +:+ QEncode (MSubject m)) +:+ crlf +:+
  ("Date: " +:+ format_rfc1123z loc stamp) +:+ crlf +:+ "MIME-Version: 1.0" +:+ crlf +:+
  match Files m with
  | [] => ("Content-Type: multipart/alternative; boundary=" +:+ alt) +:+ crlf +:+ "" +:+ crlf +:+ body
  | files =>
      ("Content-Type: multipart/mixed; boundary=" +:+ mixed) +:+ crlf +:+ "" +:+ crlf +:+
      "--" +:+ mixed +:+ crlf +:+ "Content-Type: multipart/alternative; boundary=" +:+ alt +:+ crlf +:+ crlf +:+ body +:+
      concat_parts (map (file_part mixed) files) +:+ "--" +:+ mixed +:+ "--" +:+ crlf
  end.

(** ** Mailers *)
Section mailers.
(** [smtp.SendMail]: the address of the relay, sender, recipients, message. *)
Context (SendMail : string -> string -> list string -> string -> M unit).
Definition SMTP_Send (addr from : string) (stamp : time) (loc : Location) (m : Mail) : M unit :=
  match SendMail addr from [To m] (SMTP_Message from stamp loc m) with
  | Ok _ => Ok tt
  | Err e => Err (EWrap ("smtp " +:+ addr) e)
  end.
(** [Log.Send]: what it logs. *)
Definition Log_Send (log : list (string * string)) (m : Mail) : M unit * list (string * string) := (Ok tt, log ++ [(To m, MSubject m)]).
(** The mailer the service runs with, and the dispatcher's view of it. *)
Definition chosen_mailer (smtp_addr from : string) (clock : nat -> time) (loc : Location) : Mailer := {|
  relay := nat * list (string * string);
  Send s m := if bool_decide (smtp_addr = "") then let '(r, log) := Log_Send s.2 m in (r, (s.1, log)) else (SMTP_Send smtp_addr from (clock s.1) loc m, (S s.1, s.2))
|}.
End mailers.

(** ** Facts *)
Definition plain (b : Z) : Prop := (32 <= b <= 126) \/ b = 9.
Lemma to_bytes_app s t : to_bytes (s +:+ t) = to_bytes s ++ to_bytes t.
Proof. induction s as [|a s IH]; [done|]. change (to_bytes (String a s +:+ t)) with (byte_of a :: to_bytes (s +:+ t)). by rewrite IH. Qed.
Lemma q_byte_plain b : 0 <= b < 256 -> Forall plain (q_byte b).
Proof.
  intros Hb. assert (Hall : forallb (fun k => forallb (fun x => ((32 <=? x) && (x <=? 126)) || (x =? 9)) (q_byte (Z.of_nat k))) (seq 0 256) = true) by (vm_compute; reflexivity).
  rewrite forallb_forall in Hall. specialize (Hall (Z.to_nat b)). rewrite Z2Nat.id in Hall by lia. specialize (Hall ltac:(apply in_seq; lia)).
  rewrite forallb_forall in Hall. apply list.Forall_forall. intros x Hx%list_elem_of_In%Hall. unfold plain. lia.
Qed.
Lemma q_runes_plain fuel : forall l len, Forall (fun b => 0 <= b < 256) l -> Forall plain (q_runes fuel l len).
Proof.
  induction fuel as [|fuel IH]; intros l len Hl; [constructor|]. cbn [q_runes]. destruct l as [|b l']; [constructor|]. set (l := b :: l') in *.
  set (width := if as_it_is b then 1%nat else rune_width l).
  assert (Hw : Forall plain (concat (map q_byte (take width l)))).
  { apply Forall_concat, List.Forall_map. eapply list.Forall_impl; [by apply Forall_take|]. intros x. apply q_byte_plain. }
  assert (Ho : Forall plain (to_bytes (close_word +:+ " " +:+ open_word))) by (repeat (constructor; [unfold plain; vm_compute; by left|]); constructor).
  destruct (_ <? _); repeat apply Forall_app_2; try done; apply IH; by apply Forall_drop.
Qed.
Lemma QEncode_plain s : Forall plain (to_bytes (QEncode s)).
Proof.
  unfold QEncode. destruct (needsEncoding s) eqn:E.
  - rewrite !to_bytes_app. pose proof (q_runes_plain (String.length s) (to_bytes s) 0 (to_bytes_range s)) as H.
    repeat apply Forall_app_2; [repeat (constructor; [unfold plain; vm_compute; by left|]); constructor| |repeat (constructor; [unfold plain; vm_compute; by left|]); constructor].
    rewrite to_of_bytes; [done|]. eapply list.Forall_impl; [exact H|]. unfold plain. lia.
  - apply list.Forall_forall. intros b Hb. unfold needsEncoding in E. apply not_true_iff_false in E. unfold plain.
    destruct (((b <? 32) || (126 <? b)) && negb (b =? 9)) eqn:Eb; [|lia]. destruct E. apply existsb_exists. exists b. by rewrite <- list_elem_of_In.
Qed.

(** *** Base64 with padding *)
Definition alphabet (b : Z) : bool := match char_sextet (of_byte b) with Some _ => true | None => false end.
Lemma std_bytes (P : Z -> bool) : forallb (fun k => negb (alphabet (Z.of_nat k)) || P (Z.of_nat k)) (seq 0 256) = true ->
  forall b, 0 <= b < 256 -> alphabet b = true -> P b = true.
Proof.
  rewrite forallb_forall. intros H b Hb Ha. specialize (H (Z.to_nat b)). rewrite Z2Nat.id in H by lia. specialize (H ltac:(apply in_seq; lia)).
  by rewrite Ha in H.
Qed.
Lemma length_sextets l : length (sextets l) = (length l / 3 * 4 + match length l mod 3 with 0 => 0 | 1 => 2 | _ => 3 end)%nat.
Proof.
  induction l as [|a|a b|a b c l IH] using list_triple_ind; [done|done|done|]. cbn [sextets length]. rewrite IH.
  change (S (S (S (length l)))) with (3 + length l)%nat. replace (3 + length l)%nat with (1 * 3 + length l)%nat by lia.
  rewrite Nat.div_add_l, (Nat.add_comm (1 * 3)), Nat.Div0.mod_add by lia. lia.
Qed.
Definition encoded (s : string) : list Z := map (fun n => byte_of (sextet_char n)) (sextets (to_bytes s)).
Lemma encoded_alphabet s : Forall (fun b => 0 <= b < 256 /\ alphabet b = true) (encoded s).
Proof.
  apply List.Forall_map. destruct (quanta_sextets _ (to_bytes_range s)) as [_ Hr]. eapply list.Forall_impl; [exact Hr|]. intros n Hn.
  split; [apply byte_of_range|]. unfold alphabet. rewrite of_byte_of. by destruct (sextet_round n Hn) as [-> _].
Qed.
Lemma length_to_bytes s : length (to_bytes s) = String.length s.
Proof. induction s; cbn; [done|by f_equal]. Qed.
Lemma substring_start a b : String.substring 0 (String.length a) (a +:+ b) = a.
Proof. induction a as [|x a IH]; [by destruct b|]. change (String x a +:+ b) with (String x (a +:+ b)). cbn. by rewrite IH. Qed.
Lemma substring_end a b : String.substring (String.length a) (String.length b) (a +:+ b) = b.
Proof.
  induction a as [|x a IH]; [|exact IH]. change ("" +:+ b) with b. cbn [String.length]. induction b as [|y b IH]; [done|]. cbn. by rewrite IH.
Qed.
Lemma substring_chars c s : forall i k, contains_char s c = false -> contains_char (String.substring i k s) c = false.
Proof.
  induction s as [|x s IH]; intros i k H; [by destruct i, k|]. cbn [contains_char] in H. apply orb_false_iff in H as [Hx H].
  destruct i as [|i]; [destruct k as [|k]; [done|]|]; cbn; [rewrite Hx; by apply IH|by apply IH].
Qed.
Lemma contains_char_bytes s c : contains_char s c = existsb (fun b => b =? byte_of c) (to_bytes s).
Proof.
  induction s as [|x s IH]; [done|]. cbn [contains_char to_bytes existsb]. rewrite IH. f_equal. destruct (decide (x = c)) as [->|H].
  - rewrite bool_decide_true by done. by rewrite Z.eqb_refl.
  - rewrite bool_decide_false by done. symmetry. apply Z.eqb_neq. intros E. apply H. rewrite <- (of_byte_of x), E. apply of_byte_of.
Qed.

Definition std_text (s : string) : string := string_map std_char (EncodeToString s).
Lemma std_text_chars s : Forall (fun b => b <> 61 /\ line_break b = false) (to_bytes (std_text s)) /\ string_map url_char (std_text s) = EncodeToString s /\
  String.length (std_text s) = length (sextets (to_bytes s)).
Proof.
  unfold std_text. change (EncodeToString s) with (of_bytes (encoded s)).
  pose proof (encoded_alphabet s) as H. assert (Hl : length (encoded s) = length (sextets (to_bytes s))) by apply length_map.
  rewrite <- Hl. clear Hl. induction H as [|b l [Hb Ha] _ IH]; [split_and!; [constructor|done|done]|]. destruct IH as (I1 & I2 & I3).
  cbn [of_bytes string_map to_bytes String.length length]. split_and!; [|rewrite I2; f_equal|by f_equal].
  - constructor; [|done]. pose proof (std_bytes (fun b => negb (byte_of (std_char (of_byte b)) =? 61) && negb (line_break (byte_of (std_char (of_byte b))))) ltac:(vm_compute; reflexivity) b Hb Ha) as E.
    apply andb_true_iff in E as [E1%negb_true_iff%Z.eqb_neq E2%negb_true_iff]. done.
  - pose proof (std_bytes (fun b => Ascii.eqb (url_char (std_char (of_byte b))) (of_byte b)) ltac:(vm_compute; reflexivity) b Hb Ha) as E. by apply Ascii.eqb_eq in E.
Qed.
Lemma filter_breaks l : Forall (fun b => b <> 61 /\ line_break b = false) l -> List.filter (fun n => negb (line_break n)) l = l.
Proof. induction 1 as [|b l [_ Hb] _ IH]; [done|]. cbn. by rewrite Hb, IH. Qed.
(** The decoder, once the line breaks are gone. *)
Definition unpad (s : string) : option string :=
  let n := String.length s in
  if negb (Nat.eqb (n mod 4) 0) then None
  else
    let bare := if bool_decide (String.substring (n - 2) 2 s = "==") then String.substring 0 (n - 2) s
                else if bool_decide (String.substring (n - 1) 1 s = "=") then String.substring 0 (n - 1) s else s in
    DecodeString (string_map url_char bare).
Lemma no_equals s i k : contains_char s "="%char = false -> String.substring i k s <> "==" /\ String.substring i k s <> "=".
Proof. intros H. pose proof (substring_chars _ _ i k H) as E. split; intros E2; by rewrite E2 in E. Qed.
Lemma last_char t : t <> "" -> exists a x, t = a +:+ String x "".
Proof.
  induction t as [|y t IH]; [done|]. intros _. destruct (decide (t = "")) as [->|Ht]; [by exists "", y|].
  destruct (IH Ht) as (a & x & ->). by exists (String y a), x.
Qed.
Lemma unpad_std s : unpad (StdEncode s) = Some s.
Proof.
  destruct (std_text_chars s) as (Hc & Hu & Hl). rewrite length_sextets, length_to_bytes in Hl.
  assert (Hno : contains_char (std_text s) "="%char = false).
  { rewrite contains_char_bytes. apply not_true_iff_false. intros (b & Hb%list_elem_of_In & E)%existsb_exists. rewrite list.Forall_forall in Hc.
    destruct (Hc b Hb) as [Hne _]. apply Hne. by apply Z.eqb_eq in E. }
  unfold StdEncode, std_padding. fold (std_text s). pose proof (Nat.mod_upper_bound (String.length s) 3 ltac:(lia)) as Hm.
  set (q := (String.length s / 3)%nat) in *. destruct (String.length s mod 3)%nat as [|[|[|?]]] eqn:Er; [| | |lia]; unfold unpad; rewrite str_length_app, Hl; cbn [String.length].
  - replace (q * 4 + 0 + 0)%nat with (q * 4)%nat by lia. rewrite Nat.Div0.mod_mul. cbn [Nat.eqb negb].
    assert (E : std_text s +:+ "" = std_text s) by (clear; induction (std_text s) as [|x t IH]; [done|]; change (String x t +:+ "") with (String x (t +:+ "")); by rewrite IH).
    rewrite E. destruct (no_equals _ (q * 4 - 2) 2 Hno) as [H1 _], (no_equals _ (q * 4 - 1) 1 Hno) as [_ H2].
    rewrite !bool_decide_false by done. rewrite Hu. apply base64_round.
  - replace (q * 4 + 2 + 2)%nat with ((q + 1) * 4)%nat by lia. rewrite Nat.Div0.mod_mul. cbn [Nat.eqb negb].
    replace ((q + 1) * 4 - 2)%nat with (String.length (std_text s)) by lia. pose proof (substring_end (std_text s) "==") as E. cbn [String.length] in E. rewrite E.
    rewrite bool_decide_true by done. rewrite substring_start, Hu. apply base64_round.
  - replace (q * 4 + 3 + 1)%nat with ((q + 1) * 4)%nat by lia. rewrite Nat.Div0.mod_mul. cbn [Nat.eqb negb].
    rewrite bool_decide_false; [|].
    2:{ destruct (last_char (std_text s)) as (a & x & Ea); [intros E0; rewrite E0 in Hl; cbn in Hl; lia|]. rewrite Ea in Hl, Hno |- *. rewrite str_length_app in Hl. cbn [String.length] in Hl.
        replace ((q + 1) * 4 - 2)%nat with (String.length a) by lia. rewrite str_app_assoc.
        pose proof (substring_end a (String x "=")) as Es. cbn [String.length] in Es. change (String x "" +:+ "=") with (String x "="). rewrite Es. intros E.
        injection E as ->. rewrite contains_char_bytes, to_bytes_app, existsb_app in Hno. apply orb_false_iff in Hno as [_ Hno]. discriminate Hno. }
    replace ((q + 1) * 4 - 1)%nat with (String.length (std_text s)) by lia. pose proof (substring_end (std_text s) "=") as E. cbn [String.length] in E. rewrite E.
    rewrite bool_decide_true by done. rewrite substring_start, Hu. apply base64_round.
Qed.
Lemma encoded_bytes s : Forall (fun b => line_break b = false) (to_bytes (StdEncode s)).
Proof.
  unfold StdEncode. fold (std_text s). rewrite to_bytes_app. destruct (std_text_chars s) as (Hc & _ & _). apply Forall_app. split.
  - eapply list.Forall_impl; [exact Hc|]. by intros b [_ H].
  - unfold std_padding. destruct (_ mod 3)%nat as [|[|[|?]]]; repeat constructor.
Qed.
Definition unbroken (s : string) : list Z := List.filter (fun n => negb (line_break n)) (to_bytes s).
Lemma unbroken_app a b : unbroken (a +:+ b) = unbroken a ++ unbroken b.
Proof. unfold unbroken. by rewrite to_bytes_app, List.filter_app. Qed.
Lemma substring_split s n : (n <= String.length s)%nat -> String.substring 0 n s +:+ String.substring n (String.length s - n) s = s.
Proof.
  revert n. induction s as [|x s IH]; intros [|n] Hn; cbn in Hn |- *; try lia; try done.
  - clear. change (String x (String.substring 0 (String.length s) s) = String x s). f_equal. clear x. induction s as [|x s IH]; [done|]. cbn. by rewrite IH.
  - specialize (IH n ltac:(lia)). set (a := String.substring 0 n s) in *. change (String x (a +:+ String.substring n (String.length s - n) s) = String x s). by rewrite IH.
Qed.
Lemma wrap76_unbroken fuel enc : unbroken (wrap76 fuel enc) = unbroken enc.
Proof.
  revert enc. induction fuel as [|fuel IH]; intros enc; cbn [wrap76]; [by rewrite unbroken_app, app_nil_r|].
  destruct (76 <? String.length enc)%nat eqn:E; [|by rewrite unbroken_app, app_nil_r]. apply Nat.ltb_lt in E.
  rewrite !unbroken_app, IH. change (unbroken crlf) with (@nil Z). cbn [app]. rewrite <- unbroken_app. by rewrite substring_split by lia.
Qed.
(** However it is broken into lines, what was encoded is decoded. *)
Lemma wrapped_round fuel s : StdDecode (wrap76 fuel (StdEncode s)) = Some s.
Proof.
  unfold StdDecode. fold (unbroken (wrap76 fuel (StdEncode s))). rewrite wrap76_unbroken. unfold unbroken.
  assert (E : List.filter (fun n => negb (line_break n)) (to_bytes (StdEncode s)) = to_bytes (StdEncode s)).
  { pose proof (encoded_bytes s) as H. induction H as [|b l Hb _ IH]; [done|]. cbn. by rewrite Hb, IH. }
  rewrite E, of_to_bytes. apply unpad_std.
Qed.
Lemma substring_length s n k : (n + k <= String.length s)%nat -> String.length (String.substring n k s) = k.
Proof.
  revert n k. induction s as [|x s IH]; intros n k H; cbn in H; [by replace n with 0%nat by lia; replace k with 0%nat by lia|].
  destruct n as [|n]; [destruct k as [|k]; [done|]; cbn; f_equal|cbn]; apply IH; lia.
Qed.
Lemma wrap76_lines fuel enc : (String.length enc <= fuel)%nat ->
  exists ls, wrap76 fuel enc = concat_parts (map (fun l => l +:+ crlf) ls) /\ Forall (fun l => (String.length l <= 76)%nat) ls.
Proof.
  assert (Hend : forall l, l +:+ crlf = concat_parts [l +:+ crlf]) by (intros l; cbn [concat_parts]; generalize (l +:+ crlf) as t; intros t; induction t as [|x t IH]; [done|]; change (String x t +:+ "") with (String x (t +:+ "")); by rewrite <- IH).
  revert enc. induction fuel as [|fuel IH]; intros enc H; cbn [wrap76].
  - exists [enc]. split; [apply Hend|]. repeat constructor. lia.
  - destruct (76 <? String.length enc)%nat eqn:E.
    + apply Nat.ltb_lt in E. destruct (IH (String.substring 76 (String.length enc - 76) enc)) as (ls & -> & Hls); [rewrite substring_length by lia; lia|].
      exists (String.substring 0 76 enc :: ls). cbn [map concat_parts]. split; [by rewrite str_app_assoc|]. constructor; [by rewrite substring_length by lia|done].
    + apply Nat.ltb_ge in E. exists [enc]. split; [apply Hend|]. by apply list.Forall_singleton.
Qed.

(** *** Plain text *)
Definition plain_text (s : string) : Prop := Forall plain (to_bytes s).
Lemma plain_app s t : plain_text s -> plain_text t -> plain_text (s +:+ t).
Proof. unfold plain_text. rewrite to_bytes_app. apply Forall_app_2. Qed.
Lemma plain_by s : forallb (fun b => ((32 <=? b) && (b <=? 126)) || (b =? 9)) (to_bytes s) = true -> plain_text s.
Proof. rewrite forallb_forall. intros H. apply list.Forall_forall. intros b Hb%list_elem_of_In%H. unfold plain. lia. Qed.
Ltac plainly := apply plain_by; vm_compute; reflexivity.
Lemma plain_digit n : plain_text (digit n).
Proof.
  unfold digit. assert (H : 0 <= n mod 10 < 10) by (apply Z.mod_pos_bound; lia). revert H. generalize (n mod 10). intros k H.
  assert (E : k = 0 \/ k = 1 \/ k = 2 \/ k = 3 \/ k = 4 \/ k = 5 \/ k = 6 \/ k = 7 \/ k = 8 \/ k = 9) by lia.
  destruct E as [->|[->|[->|[->|[->|[->|[->|[->|[->| ->]]]]]]]]]; plainly.
Qed.
Lemma plain_pad2 n : plain_text (pad2 n). Proof. apply plain_app; apply plain_digit. Qed.
Lemma plain_pretty n : forall s, plain_text s -> plain_text (pretty.pretty_N_go n s).
Proof.
  induction (N.lt_wf_0 n) as [n _ IH]. intros s Hs. destruct (decide (0 < n)%N) as [Hn|Hn].
  - rewrite pretty.pretty_N_go_step by done. apply IH; [apply N.div_lt; lia|].
    apply (plain_app (String _ EmptyString) s); [|done]. unfold pretty.pretty_N_char. repeat case_match; plainly.
  - replace n with 0%N by lia. by rewrite pretty.pretty_N_go_0.
Qed.
Lemma plain_show z : plain_text (show z).
Proof.
  assert (Hn : forall n : N, plain_text (pretty.pretty n)) by (intros n; unfold pretty.pretty, pretty.pretty_N; case_decide; [plainly|apply plain_pretty; constructor]).
  destruct z as [|p|p]; [plainly|exact (Hn (N.pos p))|]. apply (plain_app "-"); [plainly|exact (Hn (N.pos p))].
Qed.
Lemma plain_pad4 n : plain_text (pad4 n).
Proof.
  unfold pad4. destruct (_ && _); [repeat apply plain_app; apply plain_digit|]. destruct (n <? 0); [|apply plain_show].
  apply plain_app; [plainly|]. destruct (_ <? _); [apply plain_show|repeat apply plain_app; apply plain_digit].
Qed.
Lemma plain_nth l n : forallb (fun s => forallb (fun b => ((32 <=? b) && (b <=? 126)) || (b =? 9)) (to_bytes s)) l = true -> plain_text (default "" (l !! n)).
Proof.
  rewrite forallb_forall. intros H. destruct (l !! n) as [s|] eqn:E; [|plainly]. apply plain_by, H, list_elem_of_In. by eapply list_elem_of_lookup_2.
Qed.
Lemma plain_substring i k s : plain_text s -> plain_text (String.substring i k s).
Proof.
  revert i k. induction s as [|x s IH]; intros i k H; [by destruct i, k|]. apply list.Forall_cons in H as [Hx H].
  destruct i as [|i]; [destruct k as [|k]; [constructor|]|]; cbn; [constructor; [done|]|]; by apply IH.
Qed.
Lemma plain_date loc t : plain_text (format_rfc1123z loc t).
Proof.
  unfold format_rfc1123z. destruct (date_of loc t) as [[y mo] d]. apply plain_app; [apply plain_nth; vm_compute; reflexivity|].
  repeat match goal with
         | |- plain_text (pad2 _) => apply plain_pad2
         | |- plain_text (pad4 _) => apply plain_pad4
         | |- plain_text (_ +:+ _) => apply plain_app
         | |- plain_text (if _ then _ else _) => destruct (_ <? _)
         | |- plain_text (String.substring _ _ _) => apply plain_substring, plain_nth; vm_compute; reflexivity
         | |- plain_text (String _ _) => plainly
         end.
Qed.

(** *** Reading a message *)
(** The line a text starts with, and what follows its end. *)
Fixpoint cut_line (s : string) : option (string * string) :=
  match s with
  | EmptyString => None
  | String a s' =>
      match s' with
      | String b rest => if (byte_of a =? 13) && (byte_of b =? 10) then Some ("", rest) else '(l, rest) ← cut_line s'; Some (String a l, rest)
      | EmptyString => None
      end
  end.
(** The lines of the header: up to the first that is empty. *)
Fixpoint header_lines (fuel : nat) (s : string) : list string :=
  match fuel with
  | S fuel => match cut_line s with Some (l, rest) => if bool_decide (l = "") then [] else l :: header_lines fuel rest | None => [] end
  | O => []
  end.
Lemma cut_line_plain l rest : plain_text l -> cut_line (l +:+ crlf +:+ rest) = Some (l, rest).
Proof.
  induction l as [|a l IH]; intros H; [reflexivity|]. apply list.Forall_cons in H as [Ha H]. specialize (IH H).
  change (String a l +:+ crlf +:+ rest) with (String a (l +:+ crlf +:+ rest)). cbn [cut_line].
  assert (Hne : exists b t, l +:+ crlf +:+ rest = String b t) by (destruct l; eexists _, _; reflexivity). destruct Hne as (b & t & E). rewrite E in IH |- *.
  assert (Ea : byte_of a =? 13 = false) by (apply Z.eqb_neq; unfold plain in Ha; lia). rewrite Ea. cbn [andb]. by rewrite IH.
Qed.
Lemma header_line fuel l rest : plain_text l -> l <> "" -> header_lines (S fuel) (l +:+ crlf +:+ rest) = l :: header_lines fuel rest.
Proof. intros H Hl. cbn [header_lines]. rewrite cut_line_plain by done. by rewrite bool_decide_false. Qed.
Lemma header_end fuel rest : header_lines (S fuel) ("" +:+ crlf +:+ rest) = [].
Proof. reflexivity. Qed.

(** A text inside another. *)
Definition within (s t : string) : Prop := exists before after, t = before +:+ s +:+ after.
Lemma str_app_empty s : s +:+ "" = s.
Proof. induction s as [|x s IH]; [done|]. change (String x s +:+ "") with (String x (s +:+ "")). by rewrite IH. Qed.
Lemma within_refl s : within s s.
Proof. exists "", "". by rewrite str_app_empty. Qed.
Lemma within_r a s t : within s t -> within s (a +:+ t).
Proof. intros (b & c & ->). exists (a +:+ b), c. by rewrite str_app_assoc. Qed.
Lemma within_l a s t : within s t -> within s (t +:+ a).
Proof. intros (b & c & ->). exists b, (c +:+ a). by rewrite !str_app_assoc. Qed.
Lemma within_parts s (l : list string) : s ∈ l -> within s (concat_parts l).
Proof. induction 1 as [x l|x y l _ IH]; cbn [concat_parts]; [apply within_l, within_refl|by apply within_r]. Qed.
Lemma within_trans s t u : within s t -> within t u -> within s u.
Proof. intros (b & c & ->) (b' & c' & ->). exists (b' +:+ b), (c +:+ c'). by rewrite !str_app_assoc. Qed.
Lemma file_within from stamp loc m f : f ∈ Files m ->
  within (wrap76 (String.length (StdEncode (mf_Content f))) (StdEncode (mf_Content f))) (SMTP_Message from stamp loc m).
Proof.
  intros Hf. apply (within_trans _ (file_part ("mix" +:+ show stamp) f)).
  { unfold file_part. repeat apply within_r. apply within_refl. }
  unfold SMTP_Message. do 10 apply within_r. assert (Hp : file_part ("mix" +:+ show stamp) f ∈ map (file_part ("mix" +:+ show stamp)) (Files m)) by by apply list_elem_of_fmap_2.
  destruct (Files m) as [|f0 fs] eqn:E; [by apply elem_of_nil in Hf|]. apply within_parts in Hp. do 12 apply within_r. by apply within_l.
Qed.

Definition content_type (stamp : time) (m : Mail) : string :=
  match Files m with
  | [] => "Content-Type: multipart/alternative; boundary=" +:+ ("alt" +:+ show stamp)
  | _ => "Content-Type: multipart/mixed; boundary=" +:+ ("mix" +:+ show stamp)
  end.


(** ** Played out *)
Module SmtpExamples.
Definition letter : Mail := mkMail "jane@example.com" ("Your dispute" +:+ crlf +:+ "Bcc: all@example.com") "Hello" "<p>Hello</p>"
  [mkMailFile "evidence.png" "image/png" (of_bytes (concat (replicate 40 [0; 255; 61])))].
Definition sent : string := SMTP_Message "bank@example.com" (1767349800 * Second + 5) UTC letter.
Example wire_header : header_lines 20 sent =
  ["From: bank@example.com"; "To: jane@example.com"; "Subject: =?utf-8?q?Your_dispute=0D=0ABcc:_all@example.com?="; "Date: Fri, 02 Jan 2026 10:30:00 +0000";
   "MIME-Version: 1.0"; "Content-Type: multipart/mixed; boundary=mix1767349800000000005"].
Proof. vm_compute. reflexivity. Qed.
(** A quote in a file's name ends its parameter early. *)
Example quote_in_name : String.index 0 ("filename=" +:+ dquote +:+ "a" +:+ dquote +:+ "; x=" +:+ dquote)
  (file_part "mix1" (mkMailFile ("a" +:+ dquote +:+ "; x=" +:+ dquote +:+ "b") "image/png" "")) <> None.
Proof. vm_compute. discriminate. Qed.

End SmtpExamples.
