(* ===== verification/PgRefine.v ===== *)
(** * PgRefine: what commits on PostgreSQL, the in-memory store would have done.

    [Call] is the port, one constructor per method of a transaction; [pg_call] runs it on PostgreSQL and [mem_call] on
    the in-memory store the other files prove the use cases on. A program is anything written against the port. *)
From S2P Require Import Prelude Errs GoTime GoJson Ext Types Regimes Lifecycle Deadlines Ledger Questionnaire Risk Notice Access Store Sql PgStore PgMirror.

Section port.
Context `{DC : Decimal} `{UU : UUID} {UL : UUIDLaws UU} {Body : Type} {NU : Numeric}.
Context (fault : nat -> option driver_error) (load : string -> option Location).
Context (t : memTx) (now : time) (traceparent : string).
Abbreviation ss := (session t now).

Inductive Call : Type -> Type :=
| CAccess (p : Principal) : Call Access
| CGetTransaction (id : uuid) : Call TransactionRecord
| CGetAccount (id : uuid) : Call AccountRecord
| CTenantName : Call string
| CTenantCalendar : Call Calendar
| CTenantCore : Call CoreConfig
| CInsertDispute (d : DisputeRecord) : Call unit
| CGetDispute (id : uuid) : Call DisputeRecord
| CUpdateDisputeState (id : uuid) (expected : Z) (state : State) (appeals : Z) (at_ : time) : Call unit
| CUpdateDisputeTeam (id : uuid) (expected : Z) (team : string) (at_ : time) : Call unit
| CListDisputes (q : ListQuery) : Call (list DisputeRecord)
| CAccountHistory (account exclude : uuid) (since : time) : Call (Z * Z)
| CAppendEvent (id : uuid) (e : EventRecord) : Call unit
| CListEvents (id : uuid) : Call (list EventRecord)
| CGetIdempotent (scope key : string) : Call (StoredResponse Body)
| CPutIdempotent (scope key : string) (r : StoredResponse Body) : Call unit
| CInsertDeadlines (id : uuid) (ds : list Deadline) : Call unit
| CListDeadlines (id : uuid) : Call (list Deadline)
| CSettleDeadline (id : uuid) (kind : DeadlineKind) (cycle : Z) (met : bool) (at_ : time) : Call unit
| CNextDeadlines (ids : list uuid) : Call (gmap uuid Deadline)
| CAppendLedger (id : uuid) (es : list LedgerEntry) : Call unit
| CListLedger (id : uuid) : Call (list LedgerEntry)
| CSendQuestionnaire (id : uuid) (q : Questionnaire) : Call unit
| CAnswerQuestionnaire (id : uuid) (answers : Answers) (at_ : time) : Call unit
| CGetQuestionnaire (id : uuid) : Call Questionnaire
| CInsertNotice (n : NoticeRecord) : Call Z
| CListNotices (id : uuid) : Call (list NoticeRecord)
| CGetNotice (id : uuid) (nid : Z) : Call NoticeRecord
| CInsertRisk (id : uuid) (r : RiskRecord) : Call unit
| CListRisk (id : uuid) : Call (list RiskRecord)
| CLatestRisk (ids : list uuid) : Call (gmap uuid Assessment)
| CInsertAttachment (id : uuid) (a : Attachment) : Call unit
| CClaimAttachments (id : uuid) (nid : Z) (ids : list uuid) : Call Z
| CListAttachmentMeta (id : uuid) (nids : list Z) : Call (list Attachment)
| CGetAttachment (id aid : uuid) : Call Attachment
| CTenantTemplates : Call (list TenantTemplate)
| CPutTenantTemplate (r : TenantTemplate) : Call unit
| CDeleteTenantTemplate (kind : NoticeKind) : Call bool
| CGetTenantMetadata : Call TenantMetadata
| CGetTenantLogo : Call Image
| CPutTenantLogo (img : Image) (at_ : time) : Call unit
| CGetAnalystAvatar (subject : string) : Call Image
| CPutAnalystAvatar (subject : string) (img : Image) (at_ : time) : Call unit.

Definition pg_call {A} (c : Call A) : Pg (Body := Body) A :=
  match c in Call A return Pg A with
  | CAccess p => pg_Access fault ss p
  | CGetTransaction id => pg_GetTransaction fault ss id
  | CGetAccount id => pg_GetAccount fault ss id
  | CTenantName => pg_TenantName fault ss
  | CTenantCalendar => pg_TenantCalendar fault load ss
  | CTenantCore => pg_TenantCore fault ss
  | CInsertDispute d => pg_InsertDispute fault ss d
  | CGetDispute id => pg_GetDispute fault ss id
  | CUpdateDisputeState id v s a at_ => pg_UpdateDisputeState fault ss id v s a at_
  | CUpdateDisputeTeam id v team at_ => pg_UpdateDisputeTeam fault ss id v team at_
  | CListDisputes q => pg_ListDisputes fault ss q
  | CAccountHistory a e s => pg_AccountHistory fault ss a e s
  | CAppendEvent id e => pg_AppendEvent fault ss id e
  | CListEvents id => pg_ListEvents fault ss id
  | CGetIdempotent s k => pg_GetIdempotent fault ss s k
  | CPutIdempotent s k r => pg_PutIdempotent fault ss s k r
  | CInsertDeadlines id ds => pg_InsertDeadlines fault ss id ds
  | CListDeadlines id => pg_ListDeadlines fault ss id
  | CSettleDeadline id k c m at_ => pg_SettleDeadline fault ss id k c m at_
  | CNextDeadlines ids => pg_NextDeadlines fault ss ids
  | CAppendLedger id es => pg_AppendLedger fault ss id es
  | CListLedger id => pg_ListLedger fault ss id
  | CSendQuestionnaire id q => pg_SendQuestionnaire fault ss id q
  | CAnswerQuestionnaire id a at_ => pg_AnswerQuestionnaire fault ss id a at_
  | CGetQuestionnaire id => pg_GetQuestionnaire fault ss id
  | CInsertNotice n => pg_InsertNotice fault ss traceparent n
  | CListNotices id => pg_ListNotices fault ss id
  | CGetNotice id nid => pg_GetNotice fault ss id nid
  | CInsertRisk id r => pg_InsertRisk fault ss id r
  | CListRisk id => pg_ListRisk fault ss id
  | CLatestRisk ids => pg_LatestRisk fault ss ids
  | CInsertAttachment id a => pg_InsertAttachment fault ss id a
  | CClaimAttachments id nid ids => pg_ClaimAttachments fault ss id nid ids
  | CListAttachmentMeta id nids => pg_ListAttachmentMeta fault ss id nids
  | CGetAttachment id aid => pg_GetAttachment fault ss id aid
  | CTenantTemplates => pg_TenantTemplates fault ss
  | CPutTenantTemplate r => pg_PutTenantTemplate fault ss r
  | CDeleteTenantTemplate k => pg_DeleteTenantTemplate fault ss k
  | CGetTenantMetadata => pg_GetTenantMetadata fault ss
  | CGetTenantLogo => pg_GetTenantLogo fault ss
  | CPutTenantLogo img at_ => pg_PutTenantLogo fault ss img at_
  | CGetAnalystAvatar s => pg_GetAnalystAvatar fault ss s
  | CPutAnalystAvatar s img at_ => pg_PutAnalystAvatar fault ss s img at_
  end.

Abbreviation MemOp A := (MemStore Body -> M A * MemStore Body).
Definition reading {A} (f : MemStore Body -> M A) : MemOp A := fun m => (f m, m).
Definition mem_call {A} (c : Call A) : MemOp A :=
  match c in Call A return MemOp A with
  | CAccess p => reading (GetAccess t p)
  | CGetTransaction id => reading (GetTransaction t id)
  | CGetAccount id => reading (GetAccount id)
  | CTenantName => reading (TenantName t)
  | CTenantCalendar => reading (TenantCalendar t)
  | CTenantCore => reading (TenantCore t)
  | CInsertDispute d => InsertDispute t d
  | CGetDispute id => reading (GetDispute t id)
  | CUpdateDisputeState id v s a at_ => UpdateDisputeState t id v s a at_
  | CUpdateDisputeTeam id v team at_ => UpdateDisputeTeam t id v team at_
  | CListDisputes q => reading (ListDisputes t q)
  | CAccountHistory a e s => reading (AccountHistory t a e s)
  | CAppendEvent id e => AppendEvent id e
  | CListEvents id => reading (ListEvents id)
  | CGetIdempotent s k => reading (GetIdempotent t s k)
  | CPutIdempotent s k r => PutIdempotent t now s k r
  | CInsertDeadlines id ds => InsertDeadlines t id ds
  | CListDeadlines id => reading (ListDeadlines t id)
  | CSettleDeadline id k c m at_ => SettleDeadline t id k c m at_
  | CNextDeadlines ids => reading (NextDeadlines t ids)
  | CAppendLedger id es => AppendLedger t id es
  | CListLedger id => reading (ListLedger t id)
  | CSendQuestionnaire id q => SendQuestionnaire t id q
  | CAnswerQuestionnaire id a at_ => AnswerQuestionnaire t id a at_
  | CGetQuestionnaire id => reading (GetQuestionnaire t id)
  | CInsertNotice n => InsertNotice t n
  | CListNotices id => reading (ListNotices t id)
  | CGetNotice id nid => reading (GetNotice t id nid)
  | CInsertRisk id r => InsertRisk t id r
  | CListRisk id => reading (ListRisk t id)
  | CLatestRisk ids => reading (LatestRisk t ids)
  | CInsertAttachment id a => InsertAttachment t id a
  | CClaimAttachments id nid ids => ClaimAttachments id nid ids
  | CListAttachmentMeta id nids => reading (ListAttachmentMeta id nids)
  | CGetAttachment id aid => reading (GetAttachment id aid)
  | CTenantTemplates => reading (TenantTemplates t)
  | CPutTenantTemplate r => PutTenantTemplate t r
  | CDeleteTenantTemplate k => DeleteTenantTemplate t k
  | CGetTenantMetadata => reading (GetTenantMetadata t)
  | CGetTenantLogo => reading (GetTenantLogo t)
  | CPutTenantLogo img at_ => PutTenantLogo t img at_
  | CGetAnalystAvatar s => reading (GetAnalystAvatar t s)
  | CPutAnalystAvatar s img at_ => PutAnalystAvatar t s img
  end.

(** *** What a program is told *)
(** PostgreSQL sorts the log and the clocks, and leaves out of an answer what its queries do not read. *)
Definition without_signals (a : Assessment) : Assessment := mkAssessment (AScore a) (ATier a) [].
Definition seen {A} (c : Call A) : A -> A :=
  match c in Call A return A -> A with
  | CGetTransaction _ => hide_transaction
  | CListDisputes _ => map listed
  | CListEvents _ => order_by (fun a b => ev_Seq a <? ev_Seq b)
  | CListDeadlines _ => order_by deadline_before
  | CListLedger _ => map (fun e => ledger_of (ledger_row e))
  | CListNotices _ => map hide_notice
  | CGetNotice _ _ => hide_notice
  | CLatestRisk _ => fmap without_signals
  | _ => id
  end.
(** Of an error a program is told the class. *)
Definition told {A} (f : A -> A) (r : M A) : M A :=
  match r with
  | Ok a => Ok (f a)
  | Err e => Err (match errors_as e with Some c => EClass c | None => e end)
  end.

(** *** What a call must be for its columns to hold it, and whom it may ask about *)
Definition exact (at_ : time) : Prop := timestamptz at_ = at_.
Definition fits (n : Z) : Prop := 0 <= n <= MaxInt32.
Definition amount (d : dec) : Prop := numeric_19_4 d = Some d.
Definition visible_to (db : DB Body) (id : uuid) : Prop := sees_id ss db id = true.
Definition admissible {A} (c : Call A) (db : DB Body) : Prop :=
  match c with
  | CAccess p => PrKind p = Analyst -> PID p <> ""
  | CGetAccount id => exists a, (q_GetAccount ss id db).1 = Ok a
  | CInsertDispute d => exact (dr_OpenedAt d) /\ dr_UpdatedAt d = dr_OpenedAt d /\ amount (dr_DisputedAmount d) /\ fits (dr_Appeals d)
  | CUpdateDisputeState id _ _ appeals at_ => visible_to db id /\ exact at_ /\ fits appeals
  | CUpdateDisputeTeam id _ _ at_ => visible_to db id /\ exact at_
  | CListDisputes q => fits (lq_Limit q) /\ exact (lq_Now q) /\ match lq_After q with Some c => exact (cu_OpenedAt c) | None => True end
  | CAccountHistory account _ since => exact since /\
      forall id d, db_disputes db !! id = Some d -> dr_AccountID d = account -> dr_TenantID d = t_tenant t -> visible_to db id
  | CAppendEvent _ e => exact (ev_OccurredAt e) /\ fits (ev_Seq e)
  | CPutIdempotent _ _ r => sr_CreatedAt r = zero_time /\ fits (sr_StatusCode r) /\ exact now
  | CInsertDeadlines id ds => visible_to db id /\ Forall (fun d => exact (DlStartedAt d) /\ exact (DlDueAt d) /\ fits (DlCycle d) /\ DlMetAt d = None /\ DlVoidedAt d = None) ds
  | CSettleDeadline id _ cycle _ at_ => visible_to db id /\ exact at_ /\ fits cycle
  | CNextDeadlines ids | CLatestRisk ids => Forall (visible_to db) ids
  | CAppendLedger id es => visible_to db id /\ Forall (fun e => exact (le_PostedAt e) /\ amount (PAmount (le_Posting e)) /\ fits (le_Seq e)) es
  | CSendQuestionnaire _ q => exact (qr_SentAt q)
  | CAnswerQuestionnaire id _ at_ => visible_to db id /\ exact at_
  | CInsertNotice n => exact (nr_CreatedAt n) /\ match nr_SentAt n with Some at_ => exact at_ | None => True end /\ fits (nr_Seq n) /\
      nr_Attempts n = 0 /\ nr_LastError n = None
  | CInsertRisk _ r => exact (rr_AssessedAt r) /\ fits (rr_Seq r) /\ fits (AScore (rr_Assessment r))
  | CInsertAttachment _ a => exact (at_UploadedAt a) /\ fits (at_Size a) /\ at_NoticeID a = None
  | CPutTenantTemplate r => exact (tt_UpdatedAt r)
  | CPutTenantLogo img at_ => exact at_ /\ im_Content img <> ""
  | CListEvents id | CListDeadlines id | CListLedger id | CGetQuestionnaire id | CListNotices id | CGetNotice id _ | CListRisk id
  | CClaimAttachments id _ _ | CListAttachmentMeta id _ | CGetAttachment id _ => visible_to db id
  | _ => True
  end.

(** ** The simulation *)
Abbreviation mirrored := (mirrors (Body := Body) load t now).
Definition cached (x : PgTx (Body := Body)) : Prop := forall s a, px_access x !! s = Some a -> a = access_of (access_row ss (px_db x) s).
Record related (x : PgTx (Body := Body)) (m : MemStore Body) : Prop := {
  rl_open : px_aborted x = false;
  rl_mirrors : mirrored (px_db x) m;
  rl_cached : cached x
}.
Definition simulates {A} (c : Call A) : Prop := forall x m r x',
  related x m -> admissible c (px_db x) -> pg_call c x = (r, x') -> px_aborted x' = false ->
  exists r0 m', mem_call c m = (r0, m') /\ told (seen c) r0 = told (fun a => a) r /\ related x' m'.
Context (Hnamed : named t).

(** What a statement that did not fail the transaction did. *)
Lemma run_query_ok {A} (q : DB Body -> sql A * DB Body) x r x' : px_aborted x = false -> run_query fault q x = (r, x') -> px_aborted x' = false ->
  px_access x' = px_access x /\
  ((exists a, q (px_db x) = (Ok a, px_db x') /\ r = Ok a) \/ (q (px_db x) = (Err ErrNoRows, px_db x') /\ r = fail ErrNotFound)).
Proof.
  intros Hx H Hx'. unfold run_query, send in H. rewrite Hx in H. destruct (fault _).
  { injection H as <- <-. done. }
  destruct (q (px_db x)) as [[a|e] db] eqn:E; [injection H as <- <-; split; [done|]; left; by exists a|].
  destruct e; injection H as <- <-; try done. split; [done|]. by right.
Qed.
Lemma run_aborted {A} (q : DB Body -> sql A * DB Body) x r x' : run_query fault q x = (r, x') -> px_aborted x = true -> px_aborted x' = true.
Proof. intros H Hx. unfold run_query, send in H. rewrite Hx in H. by injection H as <- <-. Qed.
(** A reading statement leaves the transaction as it was, one statement on. *)
Lemma run_select {A} (f : DB Body -> sql A) x r x' m : related x m -> run_query fault (select f) x = (r, x') -> px_aborted x' = false ->
  related x' m /\ ((exists a, f (px_db x) = Ok a /\ r = Ok a) \/ (f (px_db x) = Err ErrNoRows /\ r = fail ErrNotFound)).
Proof.
  intros [H1 H2 H3] H Hx'. apply run_query_ok in H as [Ha H]; [|done..]. unfold select in H.
  assert (Hdb : px_db x' = px_db x) by (by destruct H as [(a & [=] & _)|[[=] _]]).
  split; [split; [done|by rewrite Hdb|intros s a; rewrite Ha, Hdb; apply H3]|].
  destruct H as [(a & [= H _] & ->)|[[= H _] ->]]; eauto.
Qed.
Lemma related_after x x' m' : px_aborted x' = false -> px_access x' = px_access x -> mirrored (px_db x') m' -> cached x ->
  (forall s, access_row ss (px_db x') s = access_row ss (px_db x) s) -> related x' m'.
Proof. intros H1 H2 H3 H4 H5. split; [done|done|]. intros s a. rewrite H2, H5. apply H4. Qed.
Lemma run_exec {A} (f : DB Body -> sql (A * DB Body)) x r x' : px_aborted x = false -> run_query fault (exec f) x = (r, x') -> px_aborted x' = false ->
  px_access x' = px_access x /\
  ((exists a, f (px_db x) = Ok (a, px_db x') /\ r = Ok a) \/ (f (px_db x) = Err ErrNoRows /\ px_db x' = px_db x /\ r = fail ErrNotFound)).
Proof.
  intros Hx H Hx'. apply run_query_ok in H as [Ha H]; [|done..]. split; [done|]. unfold exec in H.
  destruct (f (px_db x)) as [[a db]|e]; destruct H as [(b & H & ->)|[H ->]]; try done.
  - injection H as <- <-. left. by exists a.
  - injection H as -> <-. by right.
Qed.

(** Closing a read: the in-memory store's answer, seen through the queries, is PostgreSQL's. *)
Lemma sim_reads {A} (c : Call A) (g : MemStore Body -> M A) m (r : M A) x' : mem_call c = reading g -> related x' m -> told (seen c) (g m) = told (fun a => a) r ->
  exists r0 m', mem_call c m = (r0, m') /\ told (seen c) r0 = told (fun a => a) r /\ related x' m'.
Proof. intros -> H1 H2. by exists (g m), m. Qed.
Lemma told_id {A} (r : M A) : told id r = told (fun a => a) r.
Proof. by destruct r. Qed.

(** A binding whose continuation only shapes the answer. *)
Lemma pg_shape {A B} (f : A -> B) (p : Pg (Body := Body) A) x r x' : (a ← p; mret (f a)) x = (r, x') ->
  exists r0, p x = (r0, x') /\ r = match r0 with Ok a => Ok (f a) | Err e => Err e end.
Proof. unfold mbind, Pg_bind. destruct (p x) as [[a|e] x1]; intros [= <- <-]; eauto. Qed.

(** *** Reference data *)
Lemma sim_Access p : simulates (CAccess p).
Proof.
  intros x m r x' Hr Ha H Hx'. pose proof Hr as [H1 H2 H3]. cbn [pg_call] in H. unfold pg_Access in H.
  set (subject := match PrKind p with Analyst => PID p | Key => "" end) in *.
  assert (Hmem : GetAccess t p m = Ok (access_of (access_row ss (px_db x) subject))).
  { unfold GetAccess. destruct (rd_access _ _ _ _ _ (mi_reference _ _ _ _ _ H2)) as (members & -> & Hs & H0). cbn. unfold access_of. f_equal. f_equal.
    subst subject. destruct (PrKind p) eqn:Ek; [apply Hs; by apply Ha|]. symmetry. exact H0. }
  clearbody subject.
  assert (Hdone : forall x', related x' m -> exists r0 m', mem_call (CAccess p) m = (r0, m') /\
    told (seen (CAccess p)) r0 = told (fun a => a) (Ok (access_of (access_row ss (px_db x) subject))) /\ related x' m').
  { intros y Hy. apply (sim_reads _ (GetAccess t p)); [done|done|]. by rewrite Hmem. }
  destruct (px_access x !! subject) as [a|] eqn:E.
  - injection H as <- <-. apply H3 in E as ->. by apply Hdone.
  - destruct (run_query _ _ _) as [[row|e] y] eqn:Eq; injection H as <- <-.
    + unfold q_GetAccess in Eq. destruct (run_select _ _ _ _ _ Hr Eq Hx') as [[H4 H5 H6] [(a & [= <-] & [= ->])|[[=] _]]].
      apply Hdone. split; [done|done|]. intros s a. cbn [px_access px_db]. destruct (decide (s = subject)) as [->|Hne].
      * rewrite lookup_insert_eq. intros [= <-]. f_equal. apply run_query_ok in Eq as [_ [(b & [= _ <-] & _)|[[=] _]]]; done.
      * rewrite lookup_insert_ne by done. apply H6.
    + unfold q_GetAccess in Eq. destruct (run_select _ _ _ _ _ Hr Eq Hx') as [_ [(a & _ & [=])|[[=] _]]].
Qed.
Lemma sim_GetTransaction id : simulates (CGetTransaction id).
Proof.
  intros x m r x' Hr _ H Hx'. cbn [pg_call] in H. unfold pg_GetTransaction in H. apply pg_shape in H as (r0 & H & ->).
  pose proof (rd_transactions _ _ _ _ _ (mi_reference _ _ _ _ _ (rl_mirrors _ _ Hr)) id) as Hq. unfold q_GetTransaction, select in Hq, H. cbn [fst] in Hq.
  apply (run_select _ _ _ _ m) in H as [Hr' H]; [|done..]. apply (sim_reads _ (GetTransaction t id)); [done|done|]. cbn [seen].
  destruct H as [(a & Ef & ->)|[Ef ->]]; rewrite Ef in Hq; destruct (GetTransaction t id m) as [b|e] eqn:E; try done.
  - injection Hq as Hq. cbn. by rewrite Hq.
  - assert (He : e = EClass ErrNotFound); [|by rewrite He]. unfold GetTransaction, fail in E. destruct (mTransactions m !! id); [destruct (decide _)|]; congruence.
Qed.
Lemma sim_GetAccount id : simulates (CGetAccount id).
Proof.
  intros x m r x' Hr [a Ha] H Hx'. cbn [pg_call] in H. unfold pg_GetAccount in H. apply pg_shape in H as (r0 & H & ->).
  pose proof (rd_accounts _ _ _ _ _ (mi_reference _ _ _ _ _ (rl_mirrors _ _ Hr)) id _ Ha) as Hq. unfold q_GetAccount, select in Ha, H. cbn [fst] in Ha.
  apply (run_select _ _ _ _ m) in H as [Hr' H]; [|done..]. apply (sim_reads _ (GetAccount id)); [done|done|].
  unfold GetAccount. rewrite Hq. rewrite Ha in H. by destruct H as [(b & [= <-] & ->)|[[=] _]].
Qed.
Ltac tenant_row Hr row Hrow Hn Hc cal Hl Hcal :=
  destruct (rd_tenant _ _ _ _ _ (mi_reference _ _ _ _ _ (rl_mirrors _ _ Hr))) as (row & Hrow & Hn & Hc & cal & Hl & Hcal).
Lemma sim_TenantName : simulates CTenantName.
Proof.
  intros x m r x' Hr _ H Hx'. cbn [pg_call] in H. unfold pg_TenantName, q_GetTenantName in H. apply (run_select _ _ _ _ m) in H as [Hr' H]; [|done..].
  apply (sim_reads _ (TenantName t)); [done|done|]. tenant_row Hr row Hrow Hn Hc cal Hl Hcal. unfold TenantName. rewrite Hn.
  cbn in H. rewrite Hrow in H. by destruct H as [(b & [= <-] & ->)|[[=] _]].
Qed.
Lemma sim_TenantCore : simulates CTenantCore.
Proof.
  intros x m r x' Hr _ H Hx'. cbn [pg_call] in H. unfold pg_TenantCore, q_GetTenantCore in H. apply pg_shape in H as (r0 & H & ->).
  apply (run_select _ _ _ _ m) in H as [Hr' H]; [|done..]. apply (sim_reads _ (TenantCore t)); [done|done|]. tenant_row Hr row Hrow Hn Hc cal Hl Hcal.
  unfold TenantCore. rewrite Hc. cbn in H. rewrite Hrow in H. destruct H as [(b & [= <-] & ->)|[[=] _]]. cbn. by destruct (tw_Core row) as [[kind settings]|].
Qed.
Lemma sim_TenantCalendar : simulates CTenantCalendar.
Proof.
  intros x m r x' Hr _ H Hx'. cbn [pg_call] in H. unfold pg_TenantCalendar, mbind, Pg_bind in H.
  tenant_row Hr row Hrow Hn Hc cal Hl Hcal. destruct (run_query _ _ _) as [[a|e] y] eqn:Eq; unfold q_GetTenantCalendar in Eq.
  - assert (Hy : px_aborted y = false) by (destruct (NewCalendar _ _ _); by injection H as _ <-).
    apply (run_select _ _ _ _ m) in Eq as [Hr' Eq]; [|done..]. cbn in Eq. rewrite Hrow in Eq. destruct Eq as [(b & [= <-] & [= ->])|[[=] _]]. cbn in H.
    rewrite Hl in H. injection H as <- <-. apply (sim_reads _ (TenantCalendar t)); [done|done|]. unfold TenantCalendar. by rewrite Hcal.
  - injection H as <- <-. apply (run_select _ _ _ _ m) in Eq as [Hr' Eq]; [|done..]. cbn in Eq. rewrite Hrow in Eq. by destruct Eq as [(b & [= <-] & [=])|[[=] _]].
Qed.

(** *** Disputes *)
Lemma check_bind {B} b c (k : unit -> sql B) : mbind k (check b c) = if b then k tt else Err (check_violation c).
Proof. by destruct b. Qed.
Lemma unique_bind {B} b c (k : unit -> sql B) : mbind k (unique b c) = if b then k tt else Err (unique_violation c).
Proof. by destruct b. Qed.
Lemma references_bind {B} b c (k : unit -> sql B) : mbind k (references b c) = if b then k tt else Err (foreign_key_violation c).
Proof. by destruct b. Qed.
Lemma may_write_bind {B} s (db : DB Body) id (k : unit -> sql B) : mbind k (may_write s db id) = if sees_id s db id then k tt else Err rls_violation.
Proof. unfold may_write. by destruct (sees_id s db id). Qed.
Lemma to_numeric_bind {B} d (k : dec -> sql B) : amount d -> mbind k (to_numeric d) = k d.
Proof. unfold amount, to_numeric. by intros ->. Qed.
Lemma to_text_bind {B} s (k : string -> sql B) : mbind k (to_text s) = if no_nul s then k s else Err (PgError "22021" "").
Proof. unfold to_text. by destruct (no_nul s). Qed.
(** Passes the checks of an insert that did not fail. *)
Ltac unguard H :=
  repeat first [rewrite check_bind in H | rewrite unique_bind in H | rewrite references_bind in H | rewrite may_write_bind in H
               | rewrite to_text_bind in H | rewrite to_numeric_bind in H by done];
  repeat match type of H with (if ?b then _ else _) = _ => let E := fresh "Hg" in destruct b eqn:E; [|discriminate H];
    repeat first [rewrite check_bind in H | rewrite unique_bind in H | rewrite references_bind in H | rewrite may_write_bind in H
                 | rewrite to_text_bind in H | rewrite to_numeric_bind in H by done] end.
Lemma int32_fits n : fits n -> int32Of n = n.
Proof. unfold fits, int32Of. intros H. rewrite (proj2 (Z.ltb_ge _ _)) by lia. by rewrite (proj2 (Z.ltb_ge _ _)) by lia. Qed.

(** A write of PostgreSQL and the write of the in-memory store. *)
Lemma sim_wrote {A} (c : Call A) (x x' : PgTx (Body := Body)) m m' (r0 r : M A) : px_aborted x' = false -> px_access x' = px_access x -> cached x ->
  mem_call c m = (r0, m') -> told (seen c) r0 = told (fun a => a) r -> mirrored (px_db x') m' ->
  (forall s, access_row ss (px_db x') s = access_row ss (px_db x) s) ->
  exists r0 m', mem_call c m = (r0, m') /\ told (seen c) r0 = told (fun a => a) r /\ related x' m'.
Proof. intros. exists r0, m'. split_and!; [done|done|]. by apply (related_after x). Qed.

Lemma sim_InsertDispute d : simulates (CInsertDispute d).
Proof.
  intros x m r x' [H1 H2 H3] (Ht & Hu & Ha & Hf) H Hx'. cbn [pg_call] in H. unfold pg_InsertDispute, q_InsertDispute in H.
  apply run_exec in H as [Hc H]; [|done..]. cbn [dr_ID dr_DisputedAmount dr_OpenedAt dr_Team dr_Regime dr_State dr_Appeals dr_Version dr_TransactionID dr_AccountID dr_Currency dr_Reason] in H.
  rewrite Ht, int32_fits in H by done. destruct H as [(a & H & ->)|[H _]]; unguard H; [|..].
  - destruct (sees _ _ _) in H; [|discriminate H]. cbn [mbind res_bind] in H. unguard H. injection H as <- H.
    eapply (sim_wrote _ x); [done|done|done|reflexivity|done| |by rewrite <- H].
    rewrite <- H. replace (mkDisputeRecord _ _ _ _ _ _ _ _ _ _ _ _ _ _) with (dr_with_tenant d (t_tenant t)).
    2: { unfold dr_with_tenant. f_equal. by rewrite Hu. }
    apply put_dispute_mirrors; [done|done|]. intros d0 Hd0. exfalso. to_prop. congruence.
  - exfalso. destruct (sees _ _ _) in H; [|discriminate H]. cbn [mbind res_bind] in H. unguard H. discriminate H.
Qed.
Lemma sim_GetDispute id : simulates (CGetDispute id).
Proof.
  intros x m r x' Hr _ H Hx'. cbn [pg_call] in H. unfold pg_GetDispute in H. apply (sim_reads _ (GetDispute t id)); [done| |].
  - by apply (run_select _ _ _ _ m) in H as [Hr' _].
  - rewrite (GetDispute_mirror load t now (px_db x)) by (apply Hr || done). unfold q_GetDispute, select in H |- *.
    apply (run_select _ _ _ _ m) in H as [_ H]; [|done..]. cbn [fst]. by destruct H as [(a & -> & ->)|[-> ->]].
Qed.

Lemma pg_moved_on (q : DB Body -> sql (Z * DB Body)) (x : PgTx (Body := Body)) r x' : px_aborted x = false -> (n ← run_query fault (exec q) ; moved_on n) x = (r, x') -> px_aborted x' = false ->
  px_access x' = px_access x /\
  ((exists n, q (px_db x) = Ok (n, px_db x') /\ r = (if n =? 0 then fail ErrConflict else Ok tt)) \/ (q (px_db x) = Err ErrNoRows)).
Proof.
  intros Hx H Hx'. unfold mbind, Pg_bind in H. destruct (run_query _ _ _) as [[n|e] y] eqn:E.
  - assert (Hy : y = x' /\ r = (if n =? 0 then fail ErrConflict else Ok tt)) by (unfold moved_on in H; destruct (n =? 0); by injection H as <- <-).
    destruct Hy as [-> ->]. apply run_exec in E as [Hc E]; [|done..]. split; [done|]. destruct E as [(a & E & [= ->])|[E _]]; [left; by exists a|by right].
  - injection H as <- <-. apply run_exec in E as [Hc E]; [|done..]. split; [done|]. destruct E as [(a & E & [=])|[E _]]. by right.
Qed.
Lemma sim_UpdateDisputeState id expected state appeals at_ : simulates (CUpdateDisputeState id expected state appeals at_).
Proof.
  intros x m r x' [H1 H2 H3] (Hv & Ht & Hf) H Hx'. cbn [pg_call] in H. unfold pg_UpdateDisputeState, q_UpdateDisputeState in H.
  apply pg_moved_on in H as [Hc H]; [|done..]. apply sees_id_some in Hv as (d & Hd & Hs & Htn). rewrite Hd, Hs, Ht, int32_fits in H by done. cbn [andb] in H.
  destruct (dr_Version d =? expected) eqn:Ev.
  - destruct H as [(n & H & ->)|H]; unguard H; [|discriminate H]. injection H as <- H. to_prop. subst expected.
    eapply (sim_wrote _ x x' m _ (Ok tt)); [done|done|done| |by cbn| |by rewrite <- H].
    { cbn [mem_call]. unfold UpdateDisputeState. rewrite (mi_disputes _ _ _ _ _ H2), Hd. rewrite bool_decide_true, Z.eqb_refl by done. reflexivity. }
    rewrite <- H, <- (mi_disputes _ _ _ _ _ H2). rewrite (mi_disputes _ _ _ _ _ H2) at 1. apply put_dispute_mirrors; [done| |].
    + apply (wt_disputes _ (mi_tenanted _ _ _ _ _ H2) _ _ Hd).
    + intros d0. rewrite Hd. by intros [= <-].
  - destruct H as [(n & [= <- H] & ->)|[=]]. eapply (sim_wrote _ x x' m m (fail ErrConflict)); [done|done|done| |by cbn|by rewrite <- H|by rewrite <- H].
    cbn [mem_call]. unfold UpdateDisputeState. by rewrite (mi_disputes _ _ _ _ _ H2), Hd, Ev, andb_false_r.
Qed.
Lemma sim_UpdateDisputeTeam id expected team at_ : simulates (CUpdateDisputeTeam id expected team at_).
Proof.
  intros x m r x' [H1 H2 H3] (Hv & Ht) H Hx'. cbn [pg_call] in H. unfold pg_UpdateDisputeTeam, q_UpdateDisputeTeam in H.
  apply pg_moved_on in H as [Hc H]; [|done..]. apply sees_id_some in Hv as (d & Hd & Hs & Htn).
  unfold sees in Hs. apply andb_true_iff in Hs as [Hs1 Hs2]. cbn [ss_tenant session] in Hs1. rewrite Hd, Ht in H. cbn [ss_tenant session] in H. rewrite Hs1, Hs2, !andb_true_r in H.
  destruct (dr_Version d =? expected) eqn:Ev.
  - destruct H as [(n & H & ->)|H]; unguard H; [|discriminate H]. injection H as <- H. to_prop. subst expected.
    eapply (sim_wrote _ x x' m _ (Ok tt)); [done|done|done| |by cbn| |by rewrite <- H].
    { cbn [mem_call]. unfold UpdateDisputeTeam. rewrite (mi_disputes _ _ _ _ _ H2), Hd. rewrite bool_decide_true, Z.eqb_refl by done. reflexivity. }
    rewrite <- H, <- (mi_disputes _ _ _ _ _ H2). rewrite (mi_disputes _ _ _ _ _ H2) at 1. apply put_dispute_mirrors; [done| |].
    + apply (wt_disputes _ (mi_tenanted _ _ _ _ _ H2) _ _ Hd).
    + intros d0. rewrite Hd. by intros [= <-].
  - destruct H as [(n & [= <- H] & ->)|[=]]. eapply (sim_wrote _ x x' m m (fail ErrConflict)); [done|done|done| |by cbn|by rewrite <- H|by rewrite <- H].
    cbn [mem_call]. unfold UpdateDisputeTeam. by rewrite (mi_disputes _ _ _ _ _ H2), Hd, Ev, andb_false_r.
Qed.

(** *** Pages and counts *)
Lemma overdue_row_mirror db m d now' : mirrored db m -> sees_id ss db (dr_ID d) = true -> overdue_row ss db (dr_ID d) now' = overdue m (dr_ID d) now'.
Proof.
  intros Hm Hs. unfold overdue_row, overdue. rewrite (of_dispute_seen t now) by (apply Hs || apply (wt_deadlines _ (mi_tenanted _ _ _ _ _ Hm))).
  by rewrite (mi_deadlines _ _ _ _ _ Hm).
Qed.
Lemma disputes_Forall db m (p q : uuid * DisputeRecord -> bool) : mirrored db m ->
  (forall id d, db_disputes db !! id = Some d -> p (id, d) = q (id, d)) ->
  List.filter p (map_to_list (db_disputes db)) = List.filter q (map_to_list (mDisputes m)).
Proof.
  intros Hm H. rewrite (mi_disputes _ _ _ _ _ Hm). apply filter_ext_in. apply list.Forall_forall. intros [id d] Hin. apply H. by apply elem_of_map_to_list.
Qed.
Lemma list_where_mirror db m q id d : mirrored db m -> db_disputes db !! id = Some d -> exact (lq_Now q) ->
  match lq_After q with Some c => exact (cu_OpenedAt c) | None => True end -> list_where ss db q d = list_keeps t m q d.
Proof.
  intros Hm Hd Hn Ha. pose proof (wt_disputes _ (mi_tenanted _ _ _ _ _ Hm) _ _ Hd) as Hid. unfold list_where, list_keeps. rewrite Hn.
  destruct (decide (dr_TenantID d = t_tenant t)) as [Ht|Ht].
  2: { unfold sees. cbn. by rewrite bool_decide_false. }
  rewrite (sees_visible load t now db m) by done. rewrite (bool_decide_true (dr_TenantID d = _)) by done. destruct (visible t m d) eqn:Ev; [|done]. cbn.
  rewrite (overdue_row_mirror db m) by (try done; unfold sees_id; rewrite Hid, Hd, (sees_visible load t now db m) by done; done).
  destruct (lq_State q) as [s|]; [destruct (bool_decide (dr_State d = s)); [|done]|]; cbn;
  (destruct (lq_Reason q) as [r|]; [destruct (bool_decide (dr_Reason d = r)); [|done]|]; cbn);
  (destruct (lq_Overdue q); [destruct (overdue m (dr_ID d) (lq_Now q)); [|done]|]; cbn);
  (destruct (lq_After q) as [c|]; [|done]; rewrite Ha; destruct (bool_decide (String.compare _ _ = Lt));
   destruct (Z.ltb_spec (dr_OpenedAt d) (cu_OpenedAt c)), (Z.ltb_spec (cu_OpenedAt c) (dr_OpenedAt d)), (Z.eqb_spec (dr_OpenedAt d) (cu_OpenedAt c)); cbn; try done; lia).
Qed.
Lemma sim_ListDisputes q : simulates (CListDisputes q).
Proof.
  intros x m r x' Hr (Hl & Hn & Ha) H Hx'. cbn [pg_call] in H. unfold pg_ListDisputes, q_ListDisputes in H. apply pg_shape in H as (r0 & H & ->).
  apply (run_select _ _ _ _ m) in H as [Hr' H]; [|done..]. apply (sim_reads _ (ListDisputes t q)); [done|done|]. rewrite int32_fits in H by done.
  destruct H as [(a & [= <-] & ->)|[[=] _]]. unfold ListDisputes. cbn [told seen]. f_equal. f_equal.
  rewrite !filter_map, (disputes_Forall _ m _ (fun kd => list_keeps t m q kd.2)); [|apply Hr|intros id d Hd; eapply list_where_mirror; [apply Hr|done..]].
  set (sorted := foldl _ _ _). destruct (lq_Limit q <? Z.of_nat (length sorted)) eqn:E; to_prop; [done|]. symmetry. apply firstn_all2. unfold fits in Hl. lia.
Qed.

Lemma count_filter {A} (p q : A -> bool) (l : list A) : Forall (fun a => p a = q a) l ->
  Z.of_nat (length (List.filter p l)) = sumZ (fun a => if q a then 1 else 0) l.
Proof. induction 1 as [|a l H _ IH]; [done|]. cbn [List.filter]. rewrite sumZ_cons, H. destruct (q a); cbn [length]; lia. Qed.
Lemma sim_AccountHistory account exclude since : simulates (CAccountHistory account exclude since).
Proof.
  intros x m r x' Hr (Hs & Hv) H Hx'. pose proof (rl_mirrors _ _ Hr) as Hm. cbn [pg_call] in H. unfold pg_AccountHistory in H.
  unfold mbind, Pg_bind in H. destruct (run_query _ (q_CountAccountDisputesSince _ _ _ _) x) as [[n|e] y] eqn:E1.
  2: { injection H as <- <-. unfold q_CountAccountDisputesSince in E1. apply (run_select _ _ _ _ m) in E1 as [_ [(a & [= <-] & [=])|[[=] _]]]; done. }
  assert (E2 : exists r0, run_query fault (q_CountAccountLostChargebacks ss account exclude) y = (r0, x') /\ r = match r0 with Ok l => Ok (n, l) | Err e => Err e end).
  { destruct (run_query _ _ y) as [[l|e] z]; injection H as <- <-; eauto. }
  clear H. destruct E2 as (r0 & E2 & ->).
  assert (Hy : px_aborted y = false) by (destruct (px_aborted y) eqn:Ey; [|done]; apply run_aborted in E2; [congruence|done]).
  unfold q_CountAccountDisputesSince in E1. unfold q_CountAccountLostChargebacks in E2.
  assert (Hdb : px_db y = px_db x) by (apply run_query_ok in E1 as [_ [(a & [= _ ->] & _)|[[=] _]]]; [done|apply Hr|done]).
  apply (run_select _ _ _ _ m) in E1 as [Hry [(a & [= <-] & [= ->])|[[=] _]]]; [|done..].
  apply (run_select _ _ _ _ m) in E2 as [Hrx [(a & [= <-] & ->)|[[=] _]]]; [|done..]. rewrite Hdb.
  apply (sim_reads _ (AccountHistory t account exclude since)); [done|done|]. unfold AccountHistory. cbn [told seen id]. f_equal. rewrite (mi_disputes _ _ _ _ _ Hm).
  set (mine_ := fun kd : uuid * DisputeRecord => bool_decide (dr_TenantID kd.2 = t_tenant t) && bool_decide (dr_AccountID kd.2 = account) && negb (bool_decide (kd.1 = exclude))).
  rewrite (count_filter _ (fun kd => mine_ kd && negb (dr_OpenedAt kd.2 <? since))), (count_filter _ (fun kd => mine_ kd && existsb (fun e => bool_decide (ev_ToState e = StateChargebackLost)) (at_key (mEvents m) kd.1))).
  - induction (map_to_list (db_disputes (px_db x))) as [|[id d] l IH]; [done|]. cbn [foldr]. rewrite !sumZ_cons, IH. unfold mine_. cbn.
    destruct (bool_decide (dr_TenantID d = t_tenant t)), (bool_decide (dr_AccountID d = account)), (bool_decide (id = exclude)); cbn; try (f_equal; lia).
  - apply list.Forall_forall. intros [id d] Hin. apply elem_of_map_to_list in Hin. cbn. unfold mine_. cbn.
    destruct (decide (dr_TenantID d = t_tenant t)) as [Ht|Ht]; [|unfold sees; cbn; by rewrite bool_decide_false].
    rewrite (bool_decide_true (dr_TenantID d = _)) by done. destruct (decide (dr_AccountID d = account)) as [Hac|Hac]; [|by rewrite (bool_decide_false (dr_AccountID d = _)), !andb_false_r by done].
    pose proof (Hv _ _ Hin Hac Ht) as Hvi. rewrite (of_dispute_seen t now) by (apply Hvi || apply (wt_events _ (mi_tenanted _ _ _ _ _ Hm))).
    rewrite (mi_events _ _ _ _ _ Hm). unfold visible_to, sees_id in Hvi. rewrite Hin in Hvi. rewrite Hvi.
    rewrite (bool_decide_true (dr_AccountID d = _)) by done. cbn. f_equal. by induction (children id (db_events (px_db x))) as [|e l IH]; cbn; [|rewrite IH].
  - apply list.Forall_forall. intros [id d] Hin. apply elem_of_map_to_list in Hin. cbn. unfold mine_. cbn. rewrite Hs.
    destruct (decide (dr_TenantID d = t_tenant t)) as [Ht|Ht]; [|unfold sees; cbn; by rewrite bool_decide_false].
    rewrite (bool_decide_true (dr_TenantID d = _)) by done. destruct (decide (dr_AccountID d = account)) as [Hac|Hac]; [|by rewrite (bool_decide_false (dr_AccountID d = _)), !andb_false_r by done].
    pose proof (Hv _ _ Hin Hac Ht) as Hvi. unfold visible_to, sees_id in Hvi. rewrite Hin in Hvi. rewrite Hvi.
    rewrite (bool_decide_true (dr_AccountID d = _)) by done. cbn. by rewrite andb_comm.
Qed.

(** *** The log and the stored responses *)
Lemma event_of_row e : fits (ev_Seq e) -> event_of (event_row e) = e.
Proof. intros H. destruct e. unfold event_of, event_row, nonEmpty. cbn in *. rewrite int32_fits by done. f_equal. by case_bool_decide. Qed.
Lemma existsb_children {A} (p : A -> bool) id (rows : list (Child A)) :
  existsb p (children id rows) = existsb (fun r => bool_decide (ch_DisputeID r = id) && p (ch_row r)) rows.
Proof.
  unfold children. induction rows as [|r rows IH]; [done|]. cbn. destruct (bool_decide (ch_DisputeID r = id)); cbn; by rewrite IH.
Qed.
Lemma existsb_map {A B} (f : A -> B) (p : B -> bool) l : existsb p (map f l) = existsb (fun a => p (f a)) l.
Proof. induction l as [|a l IH]; [done|]. cbn. by rewrite IH. Qed.
Lemma at_key_put {A} (f : gmap uuid (list A)) id l j : at_key (<[id := l]> f) j = if bool_decide (id = j) then l else at_key f j.
Proof. unfold at_key. case_bool_decide as H; [subst; by rewrite lookup_insert_eq|by rewrite lookup_insert_ne]. Qed.

Lemma sim_AppendEvent id e : simulates (CAppendEvent id e).
Proof.
  intros x m r x' [H1 H2 H3] (Ht & Hf) H Hx'. cbn [pg_call] in H. unfold pg_AppendEvent, q_InsertDisputeEvent in H.
  apply run_exec in H as [Hc H]; [|done..]. cbn [event_row ew_Seq ew_Event ew_FromState ew_ToState ew_Actor ew_Payload ew_IdempotencyKey ew_TraceID ew_OccurredAt ew_ActorID] in H.
  rewrite Ht in H. fold (event_row e) in H. destruct H as [(a & H & ->)|[H _]]; unguard H; [|discriminate H]. injection H as <- H.
  rewrite int32_fits in * by done.
  eapply (sim_wrote _ x x' m _ (Ok tt)); [done|done|done| |done| |by rewrite <- H].
  - cbn [mem_call]. unfold AppendEvent. rewrite (mi_events _ _ _ _ _ H2), existsb_map, existsb_children. cbn [event_of ev_Seq]. apply negb_true_iff in Hg1. rewrite Hg1. reflexivity.
  - rewrite <- H. change (mkEventRow _ _ _ _ _ _ _ _ _ _) with (event_row e). apply put_events_mirrors; [done| |].
    + intros j. rewrite at_key_put, children_own, !(mi_events _ _ _ _ _ H2). case_bool_decide as E; [|done].
      subst j. rewrite map_app. cbn [map]. by rewrite event_of_row.
    + apply list.Forall_app. split; [apply (mi_tenanted _ _ _ _ _ H2)|]. constructor; [|constructor]. by apply (tenanted_own t now).
Qed.
Lemma sim_ListEvents id : simulates (CListEvents id).
Proof.
  intros x m r x' Hr Hv H Hx'. pose proof (rl_mirrors _ _ Hr) as Hm. cbn [pg_call] in H. unfold pg_ListEvents, q_ListDisputeEvents in H. apply pg_shape in H as (r0 & H & ->).
  apply (run_select _ _ _ _ m) in H as [Hr' H]; [|done..]. apply (sim_reads _ (ListEvents id)); [done|done|].
  destruct H as [(a & [= <-] & ->)|[[=] _]]. cbn [told seen ListEvents]. rewrite (mi_events _ _ _ _ _ Hm), (of_dispute_seen t now) by (apply Hv || apply (mi_tenanted _ _ _ _ _ Hm)).
  f_equal. by apply order_by_map.
Qed.
Lemma sim_GetIdempotent scope key : simulates (CGetIdempotent scope key).
Proof.
  intros x m r x' Hr _ H Hx'. pose proof (rl_mirrors _ _ Hr) as Hm. cbn [pg_call] in H. unfold pg_GetIdempotent, q_GetIdempotencyKey in H.
  apply (run_select _ _ _ _ m) in H as [Hr' H]; [|done..]. apply (sim_reads _ (GetIdempotent t scope key)); [done|done|].
  unfold GetIdempotent. cbn [ss_tenant session] in H.
  destruct H as [(a & H & ->)|[H ->]]; unguard H; change (idempotent_key t scope key) with (idempotent_key (mkMemTx (t_tenant t) None) scope key);
    rewrite (mi_idempotency _ _ _ _ _ Hm) by done; destruct (db_idempotency _ !! _); try discriminate H; cbn in H; [by injection H as ->|done].
Qed.
Lemma sim_PutIdempotent scope key resp : simulates (CPutIdempotent scope key resp).
Proof.
  intros x m r x' [H1 H2 H3] (Hz & Hf & Hn) H Hx'. cbn [pg_call] in H. unfold pg_PutIdempotent, q_InsertIdempotencyKey in H.
  apply run_exec in H as [Hc H]; [|done..]. cbn [ss_now session] in H. rewrite Hn, int32_fits in H by done.
  destruct H as [(a & H & ->)|[H _]]; unguard H; [|discriminate H]. injection H as <- H. to_prop.
  eapply (sim_wrote _ x x' m _ (Ok tt)); [done|done|done|reflexivity|done| |by rewrite <- H]. rewrite <- H. unfold IsZero. rewrite Hz. cbn [bool_decide].
  change (idempotent_key t scope key) with (idempotent_key (mkMemTx (t_tenant t) None) scope key). by apply (put_idempotency_mirrors load t now).
Qed.

(** *** Loops of inserts *)
(** A loop of statements related to a loop of the in-memory store, element by element. *)
Lemma each_aborted {A} (f : A -> Pg (Body := Body) unit) l x r x' :
  (forall a x r x', f a x = (r, x') -> px_aborted x = true -> px_aborted x' = true) -> pg_each f l x = (r, x') -> px_aborted x = true -> px_aborted x' = true.
Proof.
  intros Hf. revert x r. induction l as [|a l IH]; intros x r H Hx; [by injection H as <- <-|]. cbn in H. unfold mbind, Pg_bind in H.
  destruct (f a x) as [[u|e] y] eqn:E; [|injection H as <- <-; by eapply Hf]. eapply IH; [exact H|by eapply Hf].
Qed.
(** What is left of a loop after a statement that did not fail the transaction. *)
Lemma each_cons {A} (f : A -> Pg (Body := Body) unit) a l x r x' :
  (forall a x r x', f a x = (r, x') -> px_aborted x = true -> px_aborted x' = true) ->
  pg_each f (a :: l) x = (r, x') -> px_aborted x' = false ->
  exists r0 y, f a x = (r0, y) /\ px_aborted y = false /\ match r0 with Ok _ => pg_each f l y = (r, x') | Err e => r = Err e /\ y = x' end.
Proof.
  intros Hf H Hx'. cbn in H. unfold mbind, Pg_bind in H. destruct (f a x) as [r0 y] eqn:E. exists r0, y. split; [done|].
  destruct r0 as [u|e]; [|injection H as <- <-; done]. split; [|done]. destruct (px_aborted y) eqn:Ey; [|done]. eapply each_aborted in H; [congruence|done..].
Qed.

(** *** Deadlines *)
Lemma deadline_exact d : exact (DlStartedAt d) /\ exact (DlDueAt d) /\ fits (DlCycle d) /\ DlMetAt d = None /\ DlVoidedAt d = None ->
  mkDeadline (DlKind d) (int32Of (DlCycle d)) (timestamptz (DlStartedAt d)) (timestamptz (DlDueAt d)) None None (DlBasis d) = d.
Proof. intros (H1 & H2 & H3 & H4 & H5). rewrite H1, H2, int32_fits by done. destruct d; cbn in *. by subst. Qed.

(** One insert of the loop, from related states. *)
Lemma insert_deadline_step id d x m r x' : related x m -> visible_to (px_db x) id ->
  exact (DlStartedAt d) /\ exact (DlDueAt d) /\ fits (DlCycle d) /\ DlMetAt d = None /\ DlVoidedAt d = None ->
  run_query fault (q_InsertDeadline ss id (DlKind d) (int32Of (DlCycle d)) (DlStartedAt d) (DlDueAt d) (DlBasis d)) x = (r, x') -> px_aborted x' = false ->
  r = Ok tt /\ related x' (set_Deadlines (<[id := at_key (mDeadlines m) id ++ [d]]> (mDeadlines m)) m) /\ visible_to (px_db x') id.
Proof.
  intros [H1 H2 H3] Hv Hd H Hx'. unfold q_InsertDeadline in H. apply run_exec in H as [Hc H]; [|done..]. rewrite (deadline_exact d Hd) in H.
  destruct H as [(a & H & ->)|[H _]]; unguard H; [|discriminate H]. injection H as <- H. split; [done|]. split; [|by rewrite <- H].
  apply (related_after x); [done|done| |done|by rewrite <- H]. rewrite <- H. apply put_deadlines_mirrors; [done| |].
  - intros j. rewrite at_key_put, children_own, !(mi_deadlines _ _ _ _ _ H2). by case_bool_decide; subst.
  - apply list.Forall_app. split; [apply (mi_tenanted _ _ _ _ _ H2)|]. constructor; [|constructor]. by apply (tenanted_own t now).
Qed.
Lemma insert_deadlines_loop id ds x m r x' : related x m -> visible_to (px_db x) id ->
  Forall (fun d => exact (DlStartedAt d) /\ exact (DlDueAt d) /\ fits (DlCycle d) /\ DlMetAt d = None /\ DlVoidedAt d = None) ds ->
  pg_InsertDeadlines fault ss id ds x = (r, x') -> px_aborted x' = false ->
  r = Ok tt /\ related x' (set_Deadlines (<[id := at_key (mDeadlines m) id ++ ds]> (mDeadlines m)) m).
Proof.
  intros Hr Hv Hds. unfold pg_InsertDeadlines. revert x m Hr Hv. induction Hds as [|d ds Hd _ IH]; intros x m Hr Hv H Hx'.
  - injection H as <- <-. split; [done|]. destruct Hr as [H1 H2 H3]. rewrite app_nil_r. split; [done| |done].
    apply no_clocks_mirrors; [|done]. intros j. rewrite at_key_put. by case_bool_decide; subst.
  - apply each_cons in H as (r0 & y & E & Hy & H); [|intros ? ? ? ?; apply run_aborted|done].
    destruct (insert_deadline_step id d x m r0 y Hr Hv Hd E Hy) as (-> & Hr' & Hv'). destruct (IH _ _ Hr' Hv' H Hx') as [-> Hr'']. split; [done|].
    cbn [set_Deadlines mDeadlines] in Hr''. by rewrite at_key_put, bool_decide_true, insert_insert_eq, <- app_assoc in Hr'' by done.
Qed.
Lemma sim_InsertDeadlines id ds : simulates (CInsertDeadlines id ds).
Proof.
  intros x m r x' Hr (Hv & Hds) H Hx'. destruct (insert_deadlines_loop id ds x m r x' Hr Hv Hds H Hx') as [-> Hr'].
  eexists (Ok tt), _. split; [|split; [done|exact Hr']]. cbn [mem_call]. unfold InsertDeadlines, seeing.
  destruct (seen_dispute load t now _ m id (rl_mirrors _ _ Hr) Hnamed Hv) as [d ->]. reflexivity.
Qed.

(** A read of a dispute the session sees. *)
Lemma sim_seeing_read {A} (c : Call A) id (g : MemStore Body -> M A) x m (r : M A) x' : mem_call c = reading (seeing_read t id g) ->
  related x m -> visible_to (px_db x) id -> related x' m -> told (seen c) (g m) = told (fun a => a) r ->
  exists r0 m', mem_call c m = (r0, m') /\ told (seen c) r0 = told (fun a => a) r /\ related x' m'.
Proof.
  intros Hc Hr Hv Hr' H. apply (sim_reads _ (seeing_read t id g)); [done|done|]. unfold seeing_read.
  by destruct (seen_dispute load t now _ m id (rl_mirrors _ _ Hr) Hnamed Hv) as [d ->].
Qed.
Lemma sim_ListDeadlines id : simulates (CListDeadlines id).
Proof.
  intros x m r x' Hr Hv H Hx'. pose proof (rl_mirrors _ _ Hr) as Hm. cbn [pg_call] in H. unfold pg_ListDeadlines, q_ListDeadlines in H.
  apply (run_select _ _ _ _ m) in H as [Hr' H]; [|done..]. eapply (sim_seeing_read _ id _ x); [reflexivity|done..|].
  destruct H as [(a & [= <-] & ->)|[[=] _]]. cbn [told seen]. by rewrite (mi_deadlines _ _ _ _ _ Hm), (of_dispute_seen t now) by (apply Hv || apply (mi_tenanted _ _ _ _ _ Hm)).
Qed.
Lemma sim_SettleDeadline id kind cycle met at_ : simulates (CSettleDeadline id kind cycle met at_).
Proof.
  intros x m r x' [H1 H2 H3] (Hv & Ht & Hf) H Hx'. cbn [pg_call] in H. unfold pg_SettleDeadline, q_SettleDeadline in H. apply (pg_shape (fun _ => tt)) in H as (r0 & H & ->).
  apply run_exec in H as [Hc H]; [|done..]. rewrite Ht, int32_fits in H by done. destruct H as [(a & H & ->)|[[=] _]]. injection H as <- H.
  set (settled := map (settle_deadline kind cycle met at_)).
  assert (Hm : mirrored (px_db x') (set_Deadlines (<[id := settled (at_key (mDeadlines m) id)]> (mDeadlines m)) m)).
  { rewrite <- H. apply put_deadlines_mirrors; [done| |].
    - intros j. rewrite at_key_put, !(mi_deadlines _ _ _ _ _ H2). unfold children, settled. pose proof (wt_deadlines _ (mi_tenanted _ _ _ _ _ H2)) as Hw.
      clear H. induction Hw as [|d rows (d0 & Hd0 & Htn) Hw IH]; [by destruct (bool_decide _)|]. cbn [List.filter map].
      assert (Hset : settles ss (px_db x) id kind cycle d = bool_decide (ch_DisputeID d = id) && (bool_decide (DlKind (ch_row d) = kind) && (DlCycle (ch_row d) =? cycle) && Open (ch_row d))).
      { unfold settles. destruct (decide (ch_DisputeID d = id)) as [E|E]; [|by rewrite (bool_decide_false _ E), andb_false_r].
        rewrite (bool_decide_true _ E), !andb_true_l. rewrite andb_true_r. unfold readable. rewrite E. unfold visible_to in Hv. rewrite Hv, andb_true_r.
        apply sees_id_some in Hv as (d1 & Hd1 & _ & Ht1). rewrite bool_decide_true; [done|]. cbn. congruence. }
      rewrite Hset. destruct (decide (ch_DisputeID d = id)) as [E|E].
      + rewrite (bool_decide_true _ E). cbn [andb].
        pose proof (eq_refl : settle_deadline kind cycle met at_ (ch_row d) = if bool_decide (DlKind (ch_row d) = kind) && (DlCycle (ch_row d) =? cycle) && Open (ch_row d) then (if met then _ else _) else _) as Hsd.
        set (hit := bool_decide _ && _ && _) in *.
        destruct (decide (id = j)) as [Ej|Ej].
        * rewrite (bool_decide_true _ Ej) in IH |- *. subst j. destruct hit; cbn [ch_DisputeID]; rewrite (bool_decide_true _ E); cbn [map ch_row]; by rewrite Hsd, IH.
        * rewrite (bool_decide_false _ Ej) in IH |- *. assert (Hne : ch_DisputeID d <> j) by congruence. rewrite (bool_decide_false _ Hne).
          destruct hit; cbn [ch_DisputeID]; by rewrite (bool_decide_false _ Hne).
      + rewrite (bool_decide_false _ E). cbn [andb]. destruct (bool_decide (id = j)) eqn:Ej.
        * to_prop. subst j. by rewrite (bool_decide_false _ E).
        * destruct (bool_decide (ch_DisputeID d = j)); cbn [map]; [by rewrite IH|done].
    - apply List.Forall_map. eapply list.Forall_impl; [apply (wt_deadlines _ (mi_tenanted _ _ _ _ _ H2))|]. intros d (d0 & Hd & Htn). cbn.
      destruct (settles _ _ _ _ _ d); by exists d0. }
  destruct (seen_dispute load t now _ m id H2 Hnamed Hv) as [d0 Hd0].
  destruct (mDeadlines m !! id) as [ds|] eqn:Ed.
  - eapply (sim_wrote _ x x' m _ (Ok tt)); [done|done|done| |done|exact Hm|by rewrite <- H]. cbn [mem_call]. unfold SettleDeadline, seeing. rewrite Hd0, Ed.
    unfold ok_store. do 3 f_equal. unfold at_key. by rewrite Ed.
  - eapply (sim_wrote _ x x' m m (Ok tt)); [done|done|done| |done| |by rewrite <- H].
    + cbn [mem_call]. unfold SettleDeadline, seeing. by rewrite Hd0, Ed.
    + eapply no_clocks_mirrors; [|exact Hm]. intros j. rewrite at_key_put. case_bool_decide; [|done]. subst. unfold settled, at_key. by rewrite Ed.
Qed.
Lemma sim_NextDeadlines ids : simulates (CNextDeadlines ids).
Proof.
  intros x m r x' Hr Hv H Hx'. pose proof (rl_mirrors _ _ Hr) as Hm. cbn [pg_call] in H. unfold pg_NextDeadlines, q_NextDeadlines in H. apply pg_shape in H as (r0 & H & ->).
  apply (run_select _ _ _ _ m) in H as [Hr' H]; [|done..]. apply (sim_reads _ (NextDeadlines t ids)); [done|done|].
  destruct H as [(a & [= <-] & ->)|[[=] _]]. cbn [told seen id NextDeadlines]. f_equal.
  rewrite (fold_keys (fun id => first_due (of_dispute ss (px_db x) id (db_deadlines (px_db x)))) ids). generalize (∅ : gmap uuid Deadline) as acc.
  induction Hv as [|id ids Hv _ IH]; intros acc; [done|]. cbn [foldl]. rewrite IH. f_equal. unfold visible_to in Hv. pose proof Hv as Hs. apply sees_id_some in Hv as (d & Hd & _ & Htn).
  rewrite (mi_disputes _ _ _ _ _ Hm), Hd, bool_decide_true by done.
  by rewrite first_due_next, (of_dispute_seen t now), (mi_deadlines _ _ _ _ _ Hm) by (apply Hs || apply (mi_tenanted _ _ _ _ _ Hm)).
Qed.

(** *** The ledger *)
Lemma insert_ledger_step id e x m r x' : related x m -> visible_to (px_db x) id ->
  exact (le_PostedAt e) /\ amount (PAmount (le_Posting e)) /\ fits (le_Seq e) ->
  run_query fault (q_InsertLedgerEntry ss id (ledger_row e)) x = (r, x') -> px_aborted x' = false ->
  r = Ok tt /\ existsb (fun h => bool_decide (le_Reference h = le_Reference e)) (at_key (mLedger m) id) = false /\
  related x' (set_Ledger (<[id := at_key (mLedger m) id ++ [e]]> (mLedger m)) m) /\ visible_to (px_db x') id.
Proof.
  intros [H1 H2 H3] Hv (Ht & Ha & Hf) H Hx'. unfold q_InsertLedgerEntry in H. apply run_exec in H as [Hc H]; [|done..].
  cbn [ledger_row lw_Posting lw_Seq lw_Reference lw_PostedAt lw_CoreRrn lw_CoreResponseCode lw_CoreLatencyMs] in H. rewrite Ht in H.
  assert (Hrow : mkPosting (PKind (le_Posting e)) (PDebit (le_Posting e)) (PCredit (le_Posting e)) (PAmount (le_Posting e)) (PCurrency (le_Posting e)) = le_Posting e) by (by destruct (le_Posting e)).
  destruct H as [(a & H & ->)|[H _]]; unguard H; [|discriminate H]. injection H as <- H. split; [done|]. split.
  { pose proof (existsb_map ledger_row (fun h => bool_decide (lw_Reference h = le_Reference e)) (at_key (mLedger m) id)) as Hex.
    rewrite (mi_ledger _ _ _ _ _ H2), existsb_children in Hex. etransitivity; [symmetry; exact Hex|].
    apply not_true_iff_false. intros E. apply existsb_exists in E as (r0 & Hin & Er). apply andb_true_iff in Er as [Er1 Er2]. to_prop.
    assert (Hx : existsb (fun r => mine ss (ch_TenantID r) && bool_decide (lw_Reference (ch_row r) = le_Reference e)) (db_ledger (px_db x)) = true); [|congruence].
    apply existsb_exists. exists r0. split; [done|]. rewrite (bool_decide_true _ Er2), andb_true_r.
    pose proof (wt_ledger _ (mi_tenanted _ _ _ _ _ H2)) as Hw. rewrite list.Forall_forall in Hw. destruct (Hw r0) as (d & Hd & Htn); [by apply list_elem_of_In|].
    rewrite Er1 in Hd. apply sees_id_some in Hv as (d' & Hd' & _ & Ht'). apply bool_decide_true. cbn. congruence. }
  split; [|by rewrite <- H]. apply (related_after x); [done|done| |done|by rewrite <- H]. rewrite <- H, Hrow. change (mkLedgerRow _ _ _ _ _ _ _) with (ledger_row e).
  apply put_ledger_mirrors; [done| |].
  - intros j. rewrite at_key_put, children_own. destruct (decide (id = j)) as [->|Hne]; [rewrite !bool_decide_true, map_app by done|rewrite !bool_decide_false by done]; by rewrite (mi_ledger _ _ _ _ _ H2).
  - apply list.Forall_app. split; [apply (mi_tenanted _ _ _ _ _ H2)|]. constructor; [|constructor]. by apply (tenanted_own t now).
Qed.
Lemma append_ledger_loop id es x m r x' : related x m -> visible_to (px_db x) id ->
  Forall (fun e => exact (le_PostedAt e) /\ amount (PAmount (le_Posting e)) /\ fits (le_Seq e)) es ->
  pg_AppendLedger fault ss id es x = (r, x') -> px_aborted x' = false ->
  r = Ok tt /\ exists m', append_ledger id es m = (Ok tt, m') /\ related x' m'.
Proof.
  intros Hr Hv Hes. unfold pg_AppendLedger. revert x m Hr Hv. induction Hes as [|e es He _ IH]; intros x m Hr Hv H Hx'.
  - injection H as <- <-. split; [done|]. by exists m.
  - apply each_cons in H as (r0 & y & E & Hy & H); [|intros ? ? ? ?; apply run_aborted|done].
    destruct (insert_ledger_step id e x m r0 y Hr Hv He E Hy) as (-> & Hno & Hr' & Hv'). destruct (IH _ _ Hr' Hv' H Hx') as [-> (m' & Hm & Hr'')].
    split; [done|]. exists m'. split; [|done]. cbn [append_ledger]. by rewrite Hno.
Qed.
Lemma sim_AppendLedger id es : simulates (CAppendLedger id es).
Proof.
  intros x m r x' Hr (Hv & Hes) H Hx'. destruct (append_ledger_loop id es x m r x' Hr Hv Hes H Hx') as [-> (m' & Hm & Hr')].
  exists (Ok tt), m'. split; [|done]. cbn [mem_call]. unfold AppendLedger, seeing.
  by destruct (seen_dispute load t now _ m id (rl_mirrors _ _ Hr) Hnamed Hv) as [d ->].
Qed.
Lemma sim_ListLedger id : simulates (CListLedger id).
Proof.
  intros x m r x' Hr Hv H Hx'. pose proof (rl_mirrors _ _ Hr) as Hm. cbn [pg_call] in H. unfold pg_ListLedger, q_ListLedgerEntries in H. apply pg_shape in H as (r0 & H & ->).
  apply (run_select _ _ _ _ m) in H as [Hr' H]; [|done..]. eapply (sim_seeing_read _ id _ x); [reflexivity|done..|].
  destruct H as [(a & [= <-] & ->)|[[=] _]]. cbn [told seen]. rewrite (of_dispute_seen t now) by (apply Hv || apply (mi_tenanted _ _ _ _ _ Hm)).
  by rewrite <- (mi_ledger _ _ _ _ _ Hm), map_map.
Qed.

(** *** Questionnaires *)
Lemma sim_SendQuestionnaire id q : simulates (CSendQuestionnaire id q).
Proof.
  intros x m r x' [H1 H2 H3] Ht H Hx'. cbn [pg_call] in H. unfold pg_SendQuestionnaire, q_UpsertQuestionnaire in H.
  apply run_exec in H as [Hc H]; [|done..]. cbn [admissible] in Ht. rewrite Ht in H.
  assert (Hok : r = Ok tt /\ sees_id ss (px_db x) id = true /\ put_questionnaires (<[id := own ss id (mkQuestionnaireRow (qr_Reason q) (qr_Questions q) None (qr_SentAt q) None)]>
      (db_questionnaires (px_db x))) (px_db x) = px_db x').
  { destruct H as [(a & H & ->)|[H _]]; unguard H; (destruct (db_questionnaires _ !! id) as [row|]; [destruct (readable _ _ row)|]); try discriminate H.
    all: by injection H as <- H. }
  clear H. destruct Hok as (-> & Hg & H).
  eapply (sim_wrote _ x x' m _ (Ok tt)); [done|done|done| |done| |by rewrite <- H].
  - cbn [mem_call]. unfold SendQuestionnaire, seeing. destruct (seen_dispute load t now _ m id H2 Hnamed Hg) as [d ->]. reflexivity.
  - rewrite <- H. apply put_questionnaires_mirrors; [done| |].
    + intros j. destruct (decide (id = j)) as [<-|Hne]; [by rewrite !lookup_insert_eq|]. rewrite !lookup_insert_ne by done. apply (mi_questions _ _ _ _ _ H2).
    + intros j row. destruct (decide (id = j)) as [<-|Hne]; [rewrite lookup_insert_eq; intros [= <-]; split; [done|by apply (tenanted_own t now)]|].
      rewrite lookup_insert_ne by done. apply (wt_questionnaires _ (mi_tenanted _ _ _ _ _ H2)).
Qed.
(** The questionnaire of a dispute the session sees is readable. *)
Lemma questionnaire_readable db m id row : mirrored db m -> visible_to db id -> db_questionnaires db !! id = Some row -> readable ss db row = true.
Proof.
  intros Hm Hv Hrow. destruct (wt_questionnaires _ (mi_tenanted _ _ _ _ _ Hm) _ _ Hrow) as [Hid (d & Hd & Ht)]. unfold readable.
  unfold visible_to in Hv. rewrite Hid, Hv, andb_true_r. rewrite Hid in Hd. apply sees_id_some in Hv as (d' & Hd' & _ & Ht'). apply bool_decide_true. cbn. congruence.
Qed.
Lemma sim_GetQuestionnaire id : simulates (CGetQuestionnaire id).
Proof.
  intros x m r x' Hr Hv H Hx'. pose proof (rl_mirrors _ _ Hr) as Hm. cbn [pg_call] in H. unfold pg_GetQuestionnaire, q_GetQuestionnaire in H. apply pg_shape in H as (r0 & H & ->).
  apply (run_select _ _ _ _ m) in H as [Hr' H]; [|done..]. eapply (sim_seeing_read _ id _ x); [reflexivity|done..|]. cbn beta. rewrite (mi_questions _ _ _ _ _ Hm).
  destruct (db_questionnaires (px_db x) !! id) as [row|] eqn:E; cbn in H |- *.
  - rewrite (questionnaire_readable _ m id) in H by done. by destruct H as [(a & [= <-] & ->)|[[=] _]].
  - by destruct H as [(a & [=] & _)|[_ ->]].
Qed.
Lemma sim_AnswerQuestionnaire id answers at_ : simulates (CAnswerQuestionnaire id answers at_).
Proof.
  intros x m r x' Hr (Hv & Ht) H Hx'. pose proof Hr as [H1 H2 H3]. cbn [pg_call] in H. unfold pg_AnswerQuestionnaire, q_AnswerQuestionnaire in H.
  assert (Hq : exists r0, run_query fault (q_AnswerQuestionnaire ss id answers at_) x = (r0, x') /\
    r = match r0 with Ok n => if n =? 0 then Err no_questionnaire else Ok tt | Err e => Err e end).
  { unfold mbind, Pg_bind, q_AnswerQuestionnaire in *. destruct (run_query _ _ x) as [[n|e] y]; [destruct (n =? 0) eqn:E|]; injection H as <- <-; eexists; (split; [reflexivity|]); cbn; by rewrite ?E. }
  clear H. destruct Hq as (r0 & H & ->). unfold q_AnswerQuestionnaire in H. apply run_exec in H as [Hc H]; [|done..]. rewrite Ht in H.
  destruct (seen_dispute load t now _ m id H2 Hnamed Hv) as [d Hd]. pose proof (mi_questions _ _ _ _ _ H2 id) as Hq.
  destruct (db_questionnaires (px_db x) !! id) as [row|] eqn:E; cbn [fmap option_fmap option_map] in Hq.
  - rewrite (questionnaire_readable _ m id) in H by done. cbn [andb] in H. destruct (qw_ReceivedAt (ch_row row)) as [rcv|] eqn:Er.
    + rewrite bool_decide_false in H by done. destruct H as [(a & [= <- H] & ->)|[[=] _]].
      eapply (sim_wrote _ x x' m m (fail ErrNotFound)); [done|done|done| |done|by rewrite <- H|by rewrite <- H].
      cbn [mem_call]. unfold AnswerQuestionnaire, GetQuestionnaire, seeing_read. rewrite Hd, Hq. cbn. by rewrite Er.
    + rewrite bool_decide_true in H by done. destruct H as [(a & [= <- H] & ->)|[[=] _]].
      eapply (sim_wrote _ x x' m _ (Ok tt)); [done|done|done| |done| |by rewrite <- H].
      { cbn [mem_call]. unfold AnswerQuestionnaire, GetQuestionnaire, seeing_read. rewrite Hd, Hq. cbn. rewrite Er. reflexivity. }
      rewrite <- H. destruct (wt_questionnaires _ (mi_tenanted _ _ _ _ _ H2) _ _ E) as [Hid Htn]. apply put_questionnaires_mirrors; [done| |].
      * intros j. destruct (decide (id = j)) as [<-|Hne]; [by rewrite !lookup_insert_eq|]. rewrite !lookup_insert_ne by done. apply (mi_questions _ _ _ _ _ H2).
      * intros j row'. destruct (decide (id = j)) as [<-|Hne]; [rewrite lookup_insert_eq; by intros [= <-]|].
        rewrite lookup_insert_ne by done. apply (wt_questionnaires _ (mi_tenanted _ _ _ _ _ H2)).
  - destruct H as [(a & [= <- H] & ->)|[[=] _]]. eapply (sim_wrote _ x x' m m (fail ErrNotFound)); [done|done|done| |done|by rewrite <- H|by rewrite <- H].
    cbn [mem_call]. unfold AnswerQuestionnaire, GetQuestionnaire, seeing_read. by rewrite Hd, Hq.
Qed.

(** *** Notices *)
Lemma deref_nonEmpty s : derefString (nonEmpty s) = s.
Proof. unfold nonEmpty. destruct (decide (s = "")) as [->|H]; [done|]. by rewrite bool_decide_false. Qed.
Lemma sim_InsertNotice n : simulates (CInsertNotice n).
Proof.
  intros x m r x' [H1 H2 H3] (Ht & Hs & Hf & Ha & He) H Hx'. cbn [pg_call] in H. unfold pg_InsertNotice in H.
  apply run_query_ok in H as [Hc H]; [|done..]. unfold q_InsertNotice, exec in H. cbv beta zeta in H.
  cbn [nw_Seq nw_Kind nw_Channel nw_Recipient nw_Subject nw_Document nw_CreatedAt nw_SentAt nw_Actor nw_ResendOf nw_TraceContext notice_row] in H.
  rewrite int32_fits, Ht in H by done. assert (Hsent : timestamptz <$> nr_SentAt n = nr_SentAt n) by (destruct (nr_SentAt n); cbn; [by f_equal|done]). rewrite Hsent in H.
  set (db1 := put_notice_seq (db_notice_seq (px_db x) + 1) (px_db x)) in H.
  match type of H with context [match ?b with Ok _ => _ | Err _ => _ end] => set (body := b) in H end.
  assert (Hb : exists nid, body = Ok (nid, px_db x') /\ r = Ok nid).
  { destruct body as [[a db]|e] eqn:E.
    - destruct H as [(b & [= <- <-] & ->)|[[=] _]]. by exists a.
    - destruct H as [(b & [=] & _)|[[= -> _] _]]. exfalso. unfold body in E. unguard E. discriminate E. }
  clear H. destruct Hb as (nid & H & ->). unfold body in H. unguard H. injection H as <- H.
  assert (Hv : sees_id ss (px_db x) (nr_DisputeID n) = true) by done.
  eapply (sim_wrote _ x x' m _ (Ok (mnextNotice m + 1))); [done|done|done| | | |by rewrite <- H].
  { cbn [mem_call]. unfold InsertNotice, seeing. destruct (seen_dispute load t now _ m _ H2 Hnamed Hv) as [d ->]. reflexivity. }
  { cbn. by rewrite (mi_notice_seq _ _ _ _ _ H2). }
  rewrite <- H, (mi_notice_seq _ _ _ _ _ H2). apply put_notices_mirrors; [done| |].
  - rewrite !map_app, (mi_notices _ _ _ _ _ H2). f_equal. cbn. unfold hide_notice, notice_here, noticeOf. cbn. by rewrite deref_nonEmpty, Ha, He.
  - apply list.Forall_app. split; [apply (mi_tenanted _ _ _ _ _ H2)|]. constructor; [|constructor]. by apply (tenanted_own t now).
Qed.
(** The notices of a dispute, as either side lists them. *)
Lemma notices_of db m id : mirrored db m -> visible_to db id ->
  map hide_notice (List.filter (fun n => bool_decide (nr_DisputeID n = id)) (mNotices m)) = map (noticeOf id) (of_dispute ss db id (db_notices db)).
Proof.
  intros Hm Hv. rewrite (of_dispute_seen t now) by (apply Hv || apply (mi_tenanted _ _ _ _ _ Hm)).
  transitivity (List.filter (fun n => bool_decide (nr_DisputeID n = id)) (map hide_notice (mNotices m))); [by rewrite filter_map|].
  rewrite (mi_notices _ _ _ _ _ Hm), filter_map. unfold children. rewrite map_map.
  apply map_ext_in. intros r Hr. apply filter_In in Hr as [_ Hr]. unfold notice_here. by to_prop; subst.
Qed.
Lemma sim_ListNotices id : simulates (CListNotices id).
Proof.
  intros x m r x' Hr Hv H Hx'. pose proof (rl_mirrors _ _ Hr) as Hm. cbn [pg_call] in H. unfold pg_ListNotices, q_ListNotices in H. apply pg_shape in H as (r0 & H & ->).
  apply (run_select _ _ _ _ m) in H as [Hr' H]; [|done..]. eapply (sim_seeing_read _ id _ x); [reflexivity|done..|].
  destruct H as [(a & [= <-] & ->)|[[=] _]]. cbn [told seen]. by rewrite (notices_of (px_db x)).
Qed.
Lemma find_map {A B} (f : A -> B) (p : B -> bool) (l : list A) : List.find p (map f l) = f <$> List.find (fun a => p (f a)) l.
Proof. induction l as [|a l IH]; [done|]. cbn. by destruct (p (f a)). Qed.
Lemma sim_GetNotice id nid : simulates (CGetNotice id nid).
Proof.
  intros x m r x' Hr Hv H Hx'. pose proof (rl_mirrors _ _ Hr) as Hm. cbn [pg_call] in H. unfold pg_GetNotice, q_GetNotice in H. apply pg_shape in H as (r0 & H & ->).
  apply (run_select _ _ _ _ m) in H as [Hr' H]; [|done..]. apply (sim_reads _ (GetNotice t id nid)); [done|done|].
  unfold GetNotice, ListNotices, seeing_read. destruct (seen_dispute load t now _ m id Hm Hnamed Hv) as [d ->]. cbn [mbind res_bind].
  pose proof (f_equal (List.find (fun n => nr_ID n =? nid)) (notices_of _ m id Hm Hv)) as Hf. rewrite !find_map in Hf. cbn [nr_ID hide_notice noticeOf] in Hf.
  destruct (List.find (fun n => nw_ID n =? nid) _) as [row|]; cbn in H |- *; cbn [fmap option_fmap option_map] in Hf;
    destruct (List.find (fun n => nr_ID n =? nid) (List.filter (fun n => bool_decide (nr_DisputeID n = id)) (mNotices m))) as [n|]; try discriminate Hf.
  - apply (inj Some) in Hf. destruct H as [(a & [= <-] & ->)|[[=] _]]. cbn [told seen]. by rewrite Hf.
  - by destruct H as [(a & [=] & _)|[_ ->]].
Qed.

(** *** Risk *)
Lemma sim_InsertRisk id k : simulates (CInsertRisk id k).
Proof.
  intros x m r x' [H1 H2 H3] (Ht & Hf & Hs) H Hx'. cbn [pg_call] in H. unfold pg_InsertRisk, q_InsertRiskAssessment in H.
  apply run_exec in H as [Hc H]; [|done..]. cbn [kw_Seq kw_Score kw_Tier kw_Signals kw_AssessedAt risk_row] in H. rewrite Ht, !int32_fits in H by done.
  destruct H as [(a & H & ->)|[H _]]; unguard H; [|discriminate H]. injection H as <- H.
  assert (Hv : sees_id ss (px_db x) id = true) by done.
  eapply (sim_wrote _ x x' m _ (Ok tt)); [done|done|done| |done| |by rewrite <- H].
  { cbn [mem_call]. unfold InsertRisk, seeing. destruct (seen_dispute load t now _ m _ H2 Hnamed Hv) as [d ->]. reflexivity. }
  rewrite <- H. apply put_risk_mirrors; [done| |].
  - intros j. rewrite at_key_put, children_own, !(mi_risk _ _ _ _ _ H2). case_bool_decide; [|done]. subst. rewrite map_app. f_equal. cbn. by destruct k as [? [? ? ?] ?].
  - apply list.Forall_app. split; [apply (mi_tenanted _ _ _ _ _ H2)|]. constructor; [|constructor]. by apply (tenanted_own t now).
Qed.
Lemma sim_ListRisk id : simulates (CListRisk id).
Proof.
  intros x m r x' Hr Hv H Hx'. pose proof (rl_mirrors _ _ Hr) as Hm. cbn [pg_call] in H. unfold pg_ListRisk, q_ListRiskAssessments in H. apply pg_shape in H as (r0 & H & ->).
  apply (run_select _ _ _ _ m) in H as [Hr' H]; [|done..]. eapply (sim_seeing_read _ id _ x); [reflexivity|done..|].
  destruct H as [(a & [= <-] & ->)|[[=] _]]. cbn [told seen]. by rewrite (mi_risk _ _ _ _ _ Hm), (of_dispute_seen t now) by (apply Hv || apply (mi_tenanted _ _ _ _ _ Hm)).
Qed.
Lemma fold_values {K A B} `{Countable K} (g : A -> B) (l : list (K * A)) (acc : gmap K A) :
  foldl (fun out r => <[(r : K * A).1 := g r.2]> out) (g <$> acc) l = g <$> foldl (fun out r => <[(r : K * A).1 := r.2]> out) acc l.
Proof. revert acc. induction l as [|r l IH]; intros acc; [done|]. cbn [foldl]. by rewrite <- fmap_insert, IH. Qed.
Lemma foldl_same {A B} (f g : A -> B -> A) l a : (forall a b, f a b = g a b) -> foldl f a l = foldl g a l.
Proof. intros E. revert a. induction l as [|b l IH]; intros a; [done|]. cbn. by rewrite E. Qed.
Lemma fold_related {K A B C} `{Countable K} (p : A -> C) (q : B -> C) (f : K -> option A) (g : K -> option B) ids (acc : gmap K A) (acc' : gmap K B) :
  Forall (fun i => p <$> f i = q <$> g i) ids -> p <$> acc = q <$> acc' ->
  p <$> foldl (fun out i => match f i with Some a => <[i := a]> out | None => out end) acc ids =
  q <$> foldl (fun out i => match g i with Some b => <[i := b]> out | None => out end) acc' ids.
Proof.
  intros Hids. revert acc acc'. induction Hids as [|i ids Hi _ IH]; intros acc acc' Hacc; [done|]. cbn [foldl]. apply IH.
  destruct (f i), (g i); try discriminate Hi; [|done]. injection Hi as Hi. by rewrite !fmap_insert, Hacc, Hi.
Qed.
Lemma sim_LatestRisk ids : simulates (CLatestRisk ids).
Proof.
  intros x m r x' Hr Hv H Hx'. pose proof (rl_mirrors _ _ Hr) as Hm. cbn [pg_call] in H. unfold pg_LatestRisk, q_LatestRiskTiers in H. apply pg_shape in H as (r0 & H & ->).
  apply (run_select _ _ _ _ m) in H as [Hr' H]; [|done..]. apply (sim_reads _ (LatestRisk t ids)); [done|done|].
  destruct H as [(a & [= <-] & ->)|[[=] _]]. cbn [told seen LatestRisk]. f_equal.
  set (rows := omap _ _).
  pose proof (fold_values (fun k : Z * RiskTier => mkAssessment k.1 k.2 []) rows ∅) as Hg. rewrite fmap_empty in Hg. cbn [fst snd] in Hg. rewrite Hg. unfold rows. clear Hg rows.
  assert (Hq : omap (fun id => (fun k => (id, (kw_Score k, kw_Tier k))) <$> list.last (of_dispute ss (px_db x) id (db_risk (px_db x)))) (remove_dups ids) =
    omap (fun id => pair id <$> ((fun k => (kw_Score k, kw_Tier k)) <$> list.last (of_dispute ss (px_db x) id (db_risk (px_db x))))) (remove_dups ids)).
  { apply list_omap_ext, Forall_Forall2_diag, list.Forall_forall. intros i _. by destruct (list.last _). }
  rewrite Hq, fold_keys. clear Hq.
  set (f := fun i => d ← mDisputes m !! i; if bool_decide (dr_TenantID d = t_tenant t) then rr_Assessment <$> list.last (at_key (mRisk m) i) else None).
  transitivity (without_signals <$> foldl (fun out i => match f i with Some a => <[i := a]> out | None => out end) (∅ : gmap uuid Assessment) ids).
  { f_equal. apply foldl_same. intros out i. unfold f. destruct (mDisputes m !! i) as [d|]; [|done]. cbn. destruct (bool_decide _); [|done]. by destruct (list.last _). }
  apply fold_related; [|by rewrite !fmap_empty]. eapply list.Forall_impl; [exact Hv|]. intros i Hi. unfold visible_to in Hi. pose proof Hi as Hs. apply sees_id_some in Hi as (d & Hd & _ & Htn).
  unfold f. rewrite (mi_disputes _ _ _ _ _ Hm), Hd. cbn [mbind option_bind]. rewrite bool_decide_true, (mi_risk _ _ _ _ _ Hm), (of_dispute_seen t now) by (done || apply (mi_tenanted _ _ _ _ _ Hm)).
  rewrite fmap_last. by destruct (list.last _).
Qed.

(** *** Attachments *)
Lemma sim_InsertAttachment id a : simulates (CInsertAttachment id a).
Proof.
  intros x m r x' [H1 H2 H3] (Ht & Hf & Hn) H Hx'. cbn [pg_call] in H. unfold pg_InsertAttachment, q_InsertAttachment in H.
  apply run_exec in H as [Hc H]; [|done..]. cbn [at_ID at_DisputeID at_Filename at_ContentType at_Size at_Content at_UploadedBy at_UploadedAt] in H. rewrite Ht, int32_fits in H by done.
  destruct H as [(u & H & ->)|[H _]]; unguard H; [|discriminate H]. injection H as <- H.
  assert (Hv : sees_id ss (px_db x) id = true) by done.
  eapply (sim_wrote _ x x' m _ (Ok tt)); [done|done|done| |done| |by rewrite <- H].
  { cbn [mem_call]. unfold InsertAttachment, seeing. destruct (seen_dispute load t now _ m _ H2 Hnamed Hv) as [d ->]. reflexivity. }
  rewrite <- H. rewrite (mi_attachments _ _ _ _ _ H2). replace (at_with_dispute a id) with (snd (t_tenant t, at_with_dispute a id)) by done.
  rewrite <- fmap_insert. replace (mkAttachment (at_ID a) id None _ _ _ _ _ _) with (at_with_dispute a id) by (unfold at_with_dispute; by rewrite Hn).
  apply put_attachments_mirrors; [done|]. intros i f. destruct (decide (at_ID a = i)) as [<-|Hne].
  - rewrite lookup_insert_eq. intros [= <-]. apply sees_id_some in Hv as (d & Hd & _ & Htn). by exists d.
  - rewrite lookup_insert_ne by done. apply (wt_attachments _ (mi_tenanted _ _ _ _ _ H2)).
Qed.
(** A file of a dispute the session sees is readable. *)
Lemma file_seen db m i f : mirrored db m -> db_attachments db !! i = Some f -> visible_to db (at_DisputeID f.2) -> file_readable ss db f = true.
Proof.
  intros Hm Hf Hv. destruct (wt_attachments _ (mi_tenanted _ _ _ _ _ Hm) _ _ Hf) as (d & Hd & Ht). unfold file_readable. unfold visible_to in Hv. rewrite Hv, andb_true_r.
  apply sees_id_some in Hv as (d' & Hd' & _ & Ht'). apply bool_decide_true. cbn. congruence.
Qed.
Lemma file_readable_of db m id i f : mirrored db m -> visible_to db id -> db_attachments db !! i = Some f ->
  file_readable ss db f && bool_decide (at_DisputeID f.2 = id) = bool_decide (at_DisputeID f.2 = id).
Proof.
  intros Hm Hv Hf. destruct (decide (at_DisputeID f.2 = id)) as [E|E]; [|by rewrite (bool_decide_false _ E), andb_false_r].
  by rewrite (file_seen db m i f) by (done || by rewrite E).
Qed.
Lemma sim_GetAttachment id aid : simulates (CGetAttachment id aid).
Proof.
  intros x m r x' Hr Hv H Hx'. pose proof (rl_mirrors _ _ Hr) as Hm. cbn [pg_call] in H. unfold pg_GetAttachment, q_GetAttachment in H.
  apply (run_select _ _ _ _ m) in H as [Hr' H]; [|done..]. apply (sim_reads _ (GetAttachment id aid)); [done|done|].
  unfold GetAttachment. rewrite (mi_attachments _ _ _ _ _ Hm), lookup_fmap. destruct (db_attachments (px_db x) !! aid) as [f|] eqn:E; cbn in H |- *.
  - rewrite (file_readable_of _ m id aid) in H by done. destruct (decide (at_DisputeID f.2 = id)) as [Ed|Ed].
    + rewrite (bool_decide_true _ Ed) in H. by destruct H as [(a & [= <-] & ->)|[[=] _]].
    + rewrite (bool_decide_false _ Ed) in H. by destruct H as [(a & [=] & _)|[_ ->]].
  - by destruct H as [(a & [=] & _)|[_ ->]].
Qed.
Lemma sim_ListAttachmentMeta id nids : simulates (CListAttachmentMeta id nids).
Proof.
  intros x m r x' Hr Hv H Hx'. pose proof (rl_mirrors _ _ Hr) as Hm. cbn [pg_call] in H. unfold pg_ListAttachmentMeta, q_ListAttachmentMeta in H.
  apply (run_select _ _ _ _ m) in H as [Hr' H]; [|done..]. apply (sim_reads _ (ListAttachmentMeta id nids)); [done|done|].
  destruct H as [(a & [= <-] & ->)|[[=] _]]. unfold ListAttachmentMeta. cbn [told seen]. f_equal. f_equal.
  rewrite (mi_attachments _ _ _ _ _ Hm), map_to_list_fmap, map_map. cbn [snd prod_map].
  change (fun r0 : uuid * (uuid * Attachment) => _) with (fun r0 : uuid * (uuid * Attachment) => snd (snd r0)).
  rewrite <- (map_map snd snd), filter_map, map_map. unfold Datatypes.id at 1. do 2 f_equal. apply filter_ext_in. apply List.Forall_map, list.Forall_forall.
  intros [i f] Hi. apply elem_of_map_to_list in Hi. cbn [snd]. by rewrite (file_readable_of _ m id i) by done.
Qed.
(** The loop of the in-memory store claims, of the ids, the distinct ones it may. *)
Definition free_of (id : uuid) (a : Attachment) : bool := bool_decide (at_NoticeID a = None) && bool_decide (at_DisputeID a = id).
Definition claim_all (id : uuid) (nid : Z) (ids : list uuid) (files : gmap uuid Attachment) : gmap uuid Attachment :=
  map_imap (fun k a => Some (if free_of id a && slices_contains ids k then at_with_notice a nid else a)) files.
Definition free_at (id : uuid) (files : gmap uuid Attachment) (k : uuid) : bool := match files !! k with Some a => free_of id a | None => false end.
Lemma count_drop (p : uuid -> bool) k l : NoDup l ->
  length (List.filter p l) = ((if p k && bool_decide (k ∈ l) then 1 else 0) + length (List.filter (fun j => p j && negb (bool_decide (j = k))) l))%nat.
Proof.
  induction 1 as [|j l Hj Hl IH]; [by rewrite bool_decide_false, andb_false_r by apply not_elem_of_nil|]. cbn [List.filter]. rewrite (bool_decide_ext (k ∈ j :: l) (k = j \/ k ∈ l)) by apply elem_of_cons.
  destruct (decide (j = k)) as [->|Hne].
  - rewrite (bool_decide_true (k = k)), (bool_decide_true (k = k \/ _)) by auto. rewrite andb_false_r, andb_true_r. rewrite (bool_decide_false (k ∈ l)), andb_false_r in IH by done.
    destruct (p k); cbn [length]; lia.
  - rewrite (bool_decide_false (j = k)), andb_true_r, (bool_decide_ext (k = j \/ k ∈ l) (k ∈ l)) by (done || naive_solver). destruct (p j); cbn [length]; lia.
Qed.
Lemma contains_ne (k j : uuid) ids : k <> j -> slices_contains (k :: ids) j = slices_contains ids j.
Proof. intros Hne. apply bool_decide_ext. rewrite elem_of_cons. naive_solver. Qed.
Lemma contains_head (k : uuid) ids : slices_contains (k :: ids) k = true.
Proof. apply bool_decide_true. by left. Qed.
Lemma claim_all_nil id nid files : claim_all id nid [] files = files.
Proof. apply map_eq. intros k. unfold claim_all. rewrite map_lookup_imap. destruct (files !! k) as [a|]; [|done]. cbn [mbind option_bind]. unfold slices_contains. by rewrite (bool_decide_false (k ∈ [])), andb_false_r by apply not_elem_of_nil. Qed.
(** Once claimed, a file is no longer free. *)
Lemma claim_all_cons id nid k ids files a : files !! k = Some a -> free_of id a = true ->
  claim_all id nid ids (<[k := at_with_notice a nid]> files) = claim_all id nid (k :: ids) files.
Proof.
  intros Ha Hf. apply map_eq. intros j. unfold claim_all. rewrite !map_lookup_imap. destruct (decide (k = j)) as [<-|Hne].
  - rewrite lookup_insert_eq, Ha, contains_head. cbn [mbind option_bind]. by rewrite Hf, andb_true_r.
  - by rewrite lookup_insert_ne, contains_ne.
Qed.
Lemma claim_all_skip id nid k ids files : free_at id files k = false -> claim_all id nid ids files = claim_all id nid (k :: ids) files.
Proof.
  intros Hf. apply map_eq. intros j. unfold claim_all. rewrite !map_lookup_imap. destruct (decide (k = j)) as [<-|Hne].
  - unfold free_at in Hf. destruct (files !! k) as [a|]; [|done]. cbn [mbind option_bind]. by rewrite Hf.
  - by rewrite contains_ne.
Qed.
Lemma count_skip (p : uuid -> bool) k ids : p k = false -> length (List.filter p (remove_dups (k :: ids))) = length (List.filter p (remove_dups ids)).
Proof. intros Hp. cbn [remove_dups]. destruct (decide_rel _ _ _); [done|]. cbn [List.filter]. by rewrite Hp. Qed.
Lemma count_claimed id nid k ids files a : files !! k = Some a -> free_of id a = true ->
  length (List.filter (free_at id files) (remove_dups (k :: ids))) =
  S (length (List.filter (free_at id (<[k := at_with_notice a nid]> files)) (remove_dups ids))).
Proof.
  intros Ha Hf. rewrite (count_drop (free_at id files) k) by apply NoDup_remove_dups. unfold free_at at 1. rewrite Ha, Hf, bool_decide_true by (apply elem_of_remove_dups; by left).
  cbn [andb Nat.add]. f_equal.
  assert (E : forall l, List.filter (fun j => free_at id files j && negb (bool_decide (j = k))) l = List.filter (free_at id (<[k := at_with_notice a nid]> files)) l).
  { intros l. apply filter_ext. intros j. unfold free_at. destruct (decide (j = k)) as [->|Hne]; [by rewrite lookup_insert_eq, bool_decide_true, andb_false_r|].
    by rewrite lookup_insert_ne, bool_decide_false, andb_true_r. }
  rewrite !E. apply count_skip. unfold free_at. by rewrite lookup_insert_eq.
Qed.
Lemma claim_loop id nid ids n (m : MemStore Body) : claim_attachments id nid ids n m =
  (n + Z.of_nat (length (List.filter (free_at id (mAttachments m)) (remove_dups ids))), set_Attachments (claim_all id nid ids (mAttachments m)) m).
Proof.
  revert n m. induction ids as [|k ids IH]; intros n m.
  - cbn. rewrite claim_all_nil, Z.add_0_r. by destruct m.
  - cbn [claim_attachments]. destruct (free_at id (mAttachments m) k) eqn:E.
    + unfold free_at in E. destruct (mAttachments m !! k) as [a|] eqn:Ha; [|done]. unfold free_of in E. rewrite <- negb_andb, E. cbn [negb].
      rewrite IH, (count_claimed id nid k ids _ a) by done. cbn [mAttachments set_Attachments]. rewrite (claim_all_cons id nid k ids _ a) by done. apply (f_equal2 pair); [lia|done].
    + rewrite (count_skip _ k) by done. rewrite <- (claim_all_skip id nid k ids) by done.
      unfold free_at in E. destruct (mAttachments m !! k) as [a|] eqn:Ha; [|by rewrite IH]. unfold free_of in E. rewrite <- negb_andb, E. cbn [negb]. by rewrite IH.
Qed.
Lemma sim_ClaimAttachments id nid ids : simulates (CClaimAttachments id nid ids).
Proof.
  intros x m r x' [H1 H2 H3] Hv H Hx'. cbn [pg_call] in H. unfold pg_ClaimAttachments, q_ClaimAttachments in H.
  apply run_exec in H as [Hc H]; [|done..].
  assert (Hclaim : forall k f, db_attachments (px_db x) !! k = Some f -> claimable ss (px_db x) id ids k f = free_of id f.2 && slices_contains ids k).
  { intros k f Hf. unfold claimable, free_of. rewrite (file_readable_of _ m id k) by done. f_equal. apply andb_comm. }
  assert (Hcount : forall l, List.filter (fun k => match db_attachments (px_db x) !! k with Some f => claimable ss (px_db x) id ids k f | None => false end) l =
    List.filter (fun k => free_at id (mAttachments m) k && slices_contains ids k) l).
  { intros l. apply filter_ext. intros k. unfold free_at. rewrite (mi_attachments _ _ _ _ _ H2), lookup_fmap.
    destruct (db_attachments (px_db x) !! k) as [f|] eqn:E; [|done]. by rewrite (Hclaim k f E). }
  assert (Hin : List.filter (fun k => free_at id (mAttachments m) k && slices_contains ids k) (remove_dups ids) = List.filter (free_at id (mAttachments m)) (remove_dups ids)).
  { apply filter_ext_in, list.Forall_forall. intros k Hk. apply (proj1 (elem_of_remove_dups _ _)) in Hk. rewrite (proj2 (slices_contains_spec ids k) Hk). apply andb_true_r. }
  rewrite Hcount, Hin in H. destruct H as [(a & H & ->)|[H _]]; unguard H; [|discriminate H]. injection H as <- H.
  eapply (sim_wrote _ x x' m); [done|done|done| |reflexivity| |by rewrite <- H].
  { cbn [mem_call]. unfold ClaimAttachments. rewrite claim_loop, Z.add_0_l. reflexivity. }
  rewrite <- H. set (rows := map_imap _ _).
  replace (claim_all id nid ids (mAttachments m)) with (snd <$> rows).
  2: { apply map_eq. intros k. unfold claim_all, rows. rewrite lookup_fmap, !map_lookup_imap, (mi_attachments _ _ _ _ _ H2), lookup_fmap.
       destruct (db_attachments (px_db x) !! k) as [f|] eqn:E; [|done]. cbn. rewrite (Hclaim k f) by done. by destruct (_ && _). }
  apply put_attachments_mirrors; [done|]. intros k f Hf. unfold rows in Hf. rewrite map_lookup_imap in Hf. destruct (db_attachments (px_db x) !! k) as [f0|] eqn:E; [|done].
  cbn in Hf. injection Hf as <-. pose proof (wt_attachments _ (mi_tenanted _ _ _ _ _ H2) _ _ E) as Hw. by destruct (claimable _ _ _ _ _ _).
Qed.

(** *** What a tenant keeps of its own *)
Lemma sim_TenantTemplates : simulates CTenantTemplates.
Proof.
  intros x m r x' Hr _ H Hx'. pose proof (rl_mirrors _ _ Hr) as Hm. cbn [pg_call] in H. unfold pg_TenantTemplates, q_ListTenantTemplates in H.
  apply (run_select _ _ _ _ m) in H as [Hr' H]; [|done..]. apply (sim_reads _ (TenantTemplates t)); [done|done|].
  destruct H as [(a & [= <-] & ->)|[[=] _]]. unfold TenantTemplates, tenant_templates, tenant_rows. by rewrite (mi_templates _ _ _ _ _ Hm).
Qed.
Lemma sim_PutTenantTemplate row : simulates (CPutTenantTemplate row).
Proof.
  intros x m r x' [H1 H2 H3] Ht H Hx'. cbn [pg_call] in H. unfold pg_PutTenantTemplate, q_UpsertTenantTemplate in H. apply run_exec in H as [Hc H]; [|done..].
  destruct H as [(a & H & ->)|[H _]]; [|discriminate H]. injection H as <- H. rewrite Ht in H.
  eapply (sim_wrote _ x x' m _ (Ok tt)); [done|done|done|reflexivity|done| |by rewrite <- H]. rewrite <- H.
  unfold tenant_templates, tenant_rows. rewrite (mi_templates _ _ _ _ _ H2). destruct row. by apply put_templates_mirrors.
Qed.
Lemma sim_DeleteTenantTemplate kind : simulates (CDeleteTenantTemplate kind).
Proof.
  intros x m r x' [H1 H2 H3] _ H Hx'. cbn [pg_call] in H. unfold pg_DeleteTenantTemplate, q_DeleteTenantTemplate in H. apply pg_shape in H as (r0 & H & ->).
  apply run_exec in H as [Hc H]; [|done..]. destruct H as [(a & H & ->)|[H _]]; [|discriminate H]. injection H as <- H. unfold tenant_rows in *. cbn [ss_tenant session] in *.
  assert (Hm : mTemplates m !! t_tenant t = db_templates (px_db x) !! t_tenant t) by (by rewrite (mi_templates _ _ _ _ _ H2)).
  destruct (db_templates (px_db x) !! t_tenant t) as [ts|] eqn:E; cbn [default].
  - eapply (sim_wrote _ x x' m _ (Ok (bool_decide (ts !! NoticeKind_string kind <> None)))); [done|done|done| | | |by rewrite <- H].
    + cbn [mem_call]. unfold DeleteTenantTemplate. rewrite Hm. reflexivity.
    + cbn. destruct (ts !! NoticeKind_string kind); [by rewrite !bool_decide_true|by rewrite !bool_decide_false by (by intros [? ?] || tauto)].
    + rewrite <- H, (mi_templates _ _ _ _ _ H2). replace (<[t_tenant t := delete (NoticeKind_string kind) ts]> (db_templates (px_db x))) with (alter (delete (NoticeKind_string kind)) (t_tenant t) (db_templates (px_db x))).
      2: { apply map_eq. intros j. destruct (decide (t_tenant t = j)) as [<-|Hj]; [by rewrite lookup_alter_eq, lookup_insert_eq, E|by rewrite lookup_alter_ne, lookup_insert_ne]. }
      by apply put_templates_mirrors.
  - eapply (sim_wrote _ x x' m m (Ok false)); [done|done|done| | | |by rewrite <- H].
    + cbn [mem_call]. unfold DeleteTenantTemplate. by rewrite Hm.
    + cbn. by rewrite bool_decide_false by (intros [? [=]]).
    + rewrite <- H. replace (alter _ _ _) with (db_templates (px_db x)) by (apply map_eq; intros j; destruct (decide (t_tenant t = j)) as [<-|Hj]; [by rewrite lookup_alter_eq, E|by rewrite lookup_alter_ne]).
      rewrite <- (mi_templates _ _ _ _ _ H2). replace m with (set_Templates (mTemplates m) m) at 2 by (by destruct m). by apply put_templates_mirrors.
Qed.
Lemma sim_GetTenantLogo : simulates CGetTenantLogo.
Proof.
  intros x m r x' Hr _ H Hx'. pose proof (rl_mirrors _ _ Hr) as Hm. cbn [pg_call] in H. unfold pg_GetTenantLogo, q_GetTenantLogo in H. apply pg_shape in H as (r0 & H & ->).
  apply (run_select _ _ _ _ m) in H as [Hr' H]; [|done..]. apply (sim_reads _ (GetTenantLogo t)); [done|done|]. unfold GetTenantLogo.
  pose proof (mi_logo _ _ _ _ _ Hm (t_tenant t)) as Hl. cbn [ss_tenant session] in H. destruct (db_metadata (px_db x) !! t_tenant t) as [row|]; cbn in H.
  - destruct Hl as (logo & ct & at_ & E1 & E2 & E3 & Hne & -> & _). rewrite E1, E2 in H. cbn in H. by destruct H as [(a & [= <-] & ->)|[[=] _]].
  - rewrite Hl. by destruct H as [(a & [=] & _)|[_ ->]].
Qed.
Lemma sim_GetTenantMetadata : simulates CGetTenantMetadata.
Proof.
  intros x m r x' [H1 H2 H3] _ H Hx'. cbn [pg_call] in H. unfold pg_GetTenantMetadata, send, q_GetTenantMetadata, select in H. rewrite H1 in H. cbn [ss_tenant session] in H.
  pose proof (mi_logo _ _ _ _ _ H2 (t_tenant t)) as Hl. apply (sim_reads _ (GetTenantMetadata t)); [done| |].
  - destruct (fault _) as [[]|]; try by (injection H as <- <-; discriminate Hx'). destruct (db_metadata (px_db x) !! t_tenant t); cbn in H; injection H as <- <-; by split.
  - unfold GetTenantMetadata. destruct (fault _) as [[]|]; try by (injection H as <- <-; discriminate Hx'). destruct (db_metadata (px_db x) !! t_tenant t) as [row|]; cbn in H; injection H as <- <-.
    + destruct Hl as (logo & ct & at_ & E1 & E2 & E3 & Hne & -> & ->). cbn [im_Content]. by rewrite bool_decide_false, E2, E3 by done.
    + by rewrite Hl.
Qed.
Lemma sim_PutTenantLogo img at_ : simulates (CPutTenantLogo img at_).
Proof.
  intros x m r x' [H1 H2 H3] (Ht & Hne) H Hx'. cbn [pg_call] in H. unfold pg_PutTenantLogo, q_PutTenantLogo in H. apply run_exec in H as [Hc H]; [|done..].
  destruct H as [(a & H & ->)|[H _]]; unguard H; [|discriminate H]. injection H as <- H. rewrite Ht in H.
  eapply (sim_wrote _ x x' m _ (Ok tt)); [done|done|done|reflexivity|done| |by rewrite <- H]. rewrite <- H. by apply put_logo_mirrors.
Qed.
Lemma sim_GetAnalystAvatar subject : simulates (CGetAnalystAvatar subject).
Proof.
  intros x m r x' Hr _ H Hx'. pose proof (rl_mirrors _ _ Hr) as Hm. cbn [pg_call] in H. unfold pg_GetAnalystAvatar, q_GetAnalystAvatar in H.
  apply (run_select _ _ _ _ m) in H as [Hr' H]; [|done..]. apply (sim_reads _ (GetAnalystAvatar t subject)); [done|done|]. unfold GetAnalystAvatar.
  rewrite (mi_profiles _ _ _ _ _ Hm). cbn [ss_tenant session] in H. destruct (db_profiles (px_db x) !! _) as [img|]; cbn in H.
  - by destruct H as [(a & [= <-] & ->)|[[=] _]].
  - by destruct H as [(a & [=] & _)|[_ ->]].
Qed.
Lemma sim_PutAnalystAvatar subject img at_ : simulates (CPutAnalystAvatar subject img at_).
Proof.
  intros x m r x' [H1 H2 H3] _ H Hx'. cbn [pg_call] in H. unfold pg_PutAnalystAvatar, q_PutAnalystAvatar in H. apply run_exec in H as [Hc H]; [|done..].
  destruct H as [(a & H & ->)|[H _]]; unguard H; [|discriminate H]. injection H as <- H.
  eapply (sim_wrote _ x x' m _ (Ok tt)); [done|done|done|reflexivity|done| |by rewrite <- H]. rewrite <- H, (mi_profiles _ _ _ _ _ H2). destruct img. by apply put_profiles_mirrors.
Qed.

(** *** Every method *)
Lemma call_simulated {A} (c : Call A) : simulates c.
Proof.
  destruct c;
    auto using sim_Access, sim_GetTransaction, sim_GetAccount, sim_TenantName, sim_TenantCalendar, sim_TenantCore, sim_InsertDispute, sim_GetDispute,
    sim_UpdateDisputeState, sim_UpdateDisputeTeam, sim_ListDisputes, sim_AccountHistory, sim_AppendEvent, sim_ListEvents, sim_GetIdempotent,
    sim_PutIdempotent, sim_InsertDeadlines, sim_ListDeadlines, sim_SettleDeadline, sim_NextDeadlines, sim_AppendLedger, sim_ListLedger,
    sim_SendQuestionnaire, sim_AnswerQuestionnaire, sim_GetQuestionnaire, sim_InsertNotice, sim_ListNotices, sim_GetNotice, sim_InsertRisk,
    sim_ListRisk, sim_LatestRisk, sim_InsertAttachment, sim_ClaimAttachments, sim_ListAttachmentMeta, sim_GetAttachment, sim_TenantTemplates,
    sim_PutTenantTemplate, sim_DeleteTenantTemplate, sim_GetTenantMetadata, sim_GetTenantLogo, sim_PutTenantLogo, sim_GetAnalystAvatar, sim_PutAnalystAvatar.
Qed.

(** *** A failed transaction stays failed *)
Definition fails_on (x x' : PgTx (Body := Body)) : Prop := px_aborted x = true -> px_aborted x' = true.
#[export] Instance fails_on_preorder : PreOrder fails_on.
Proof. split; [intros x H; exact H|]. intros x y z H1 H2 H. exact (H2 (H1 H)). Qed.
Lemma pg_call_aborted {A} (c : Call A) : walks fails_on (pg_call c).
Proof.
  destruct c; cbn [pg_call];
    try (pg_unfold; pg_walk; intros ? ? ? H; exact (run_aborted _ _ _ _ H)).
  - intros x r x' H Hx. unfold pg_Access in H. set (s := match PrKind p with Analyst => _ | _ => _ end) in H. cbv zeta in H. destruct (px_access x !! s) as [a|]; [by injection H as <- <-|]. destruct (run_query _ _ x) as [[a|e] y] eqn:E; apply run_aborted in E; try done; by injection H as <- <-.
  - unfold pg_TenantCalendar. apply walks_bind; [apply _|intros x r x' H; exact (run_aborted _ _ _ _ H)|]. intros [z h]. destruct (NewCalendar _ _ _); pg_walk.
  - intros x r x' H Hx. unfold pg_GetTenantMetadata, send in H. rewrite Hx in H. by injection H as <- <-.
Qed.

(** *** Programs *)
(** Anything written against the port: calls, each chosen by what the program was told before, then a result. *)
Inductive Prog (B : Type) : Type :=
| Return (r : M B)
| Do (A : Type) (c : Call A) (k : M A -> Prog B).
#[global] Arguments Return {B} r.
#[global] Arguments Do {B A} c k.
Definition hear {A} (r : M A) : M A := told (fun a => a) r.
Fixpoint run_pg {B} (p : Prog B) : Pg (Body := Body) B :=
  match p with
  | Return r => fun x => (r, x)
  | Do c k => fun x => let (r, x) := pg_call c x in run_pg (k (hear r)) x
  end.
Fixpoint run_mem {B} (p : Prog B) : MemOp B :=
  match p with
  | Return r => fun m => (r, m)
  | Do c k => fun m => let (r, m) := mem_call c m in run_mem (k (told (seen c) r)) m
  end.
(** Along the run, every call is one its columns hold. *)
Fixpoint careful {B} (p : Prog B) (x : PgTx (Body := Body)) : Prop :=
  match p with
  | Return _ => True
  | Do c k => admissible c (px_db x) /\ let (r, x) := pg_call c x in careful (k (hear r)) x
  end.
Lemma run_pg_aborted {B} (p : Prog B) : walks fails_on (run_pg p).
Proof.
  induction p as [r|A c k IH]; intros x r0 x' H Hx; [by injection H as <- <-|]. cbn in H. destruct (pg_call c x) as [r y] eqn:E.
  eapply IH; [exact H|]. by eapply pg_call_aborted.
Qed.
Lemma run_simulated {B} (p : Prog B) x m r x' : related x m -> careful p x -> run_pg p x = (r, x') -> px_aborted x' = false ->
  exists m', run_mem p m = (r, m') /\ related x' m'.
Proof.
  revert x m. induction p as [r0|A c k IH]; intros x m Hr Hc H Hx'; [injection H as <- <-; by exists m|]. cbn in H, Hc |- *. destruct Hc as [Ha Hc].
  destruct (pg_call c x) as [r1 y] eqn:E. assert (Hy : px_aborted y = false) by (destruct (px_aborted y) eqn:Ey; [|done]; pose proof (run_pg_aborted _ _ _ _ H Ey); congruence).
  destruct (call_simulated c x m r1 y Hr Ha E Hy) as (r2 & m2 & Hm & Ht & Hr'). rewrite Hm, Ht. by apply (IH _ y).
Qed.
End port.
