(* ===== verification/PgContract.v ===== *)
(** * PgContract: what a transaction on PostgreSQL promises, whatever the program in it.

    It commits only when no statement of it failed, and otherwise leaves the tables as they were; it never changes a row of
    another tenant; and what it commits and answers, the in-memory store commits and answers. *)
From Stdlib Require Import QArith.
From S2P Require Import Prelude Errs GoTime GoJson Ext Types Regimes Lifecycle Deadlines Ledger Questionnaire Risk Notice Access Store Tx Dispatch Sql PgStore PgMirror PgRefine.

(** ** The rows of the other tenants *)
Section isolation.
Context `{DC : Decimal} `{UU : UUID} {Body : Type} {NU : Numeric}.

Definition foreign {A} (tenant : uuid) (rows : list (Child A)) : list (Child A) :=
  List.filter (fun r => negb (bool_decide (ch_TenantID r = tenant))) rows.
#[local] Arguments foreign : simpl never.
(** The database without the rows of one tenant, and without the counter of the notices' ids. *)
Definition others (tenant : uuid) (db : DB Body) : DB Body :=
  mkDB (db_tenants db) (db_accounts db) (db_transactions db)
    (filter (fun kd => dr_TenantID kd.2 <> tenant) (db_disputes db))
    (foreign tenant (db_events db))
    (filter (fun kr => kr.1.1.1 <> tenant) (db_idempotency db))
    (foreign tenant (db_deadlines db)) (foreign tenant (db_ledger db))
    (filter (fun kr => ch_TenantID kr.2 <> tenant) (db_questionnaires db))
    (foreign tenant (db_notices db)) 0 (foreign tenant (db_risk db))
    (filter (fun kf => kf.2.1 <> tenant) (db_attachments db))
    (delete tenant (db_templates db)) (delete tenant (db_metadata db))
    (filter (fun kp => kp.1.1 <> tenant) (db_profiles db))
    (db_teams db) (db_members db) (db_grants db) (db_routing db) (db_versions db).

Lemma foreign_own {A} (ss : Session) id (rows : list (Child A)) a : foreign (ss_tenant ss) (rows ++ [own ss id a]) = foreign (ss_tenant ss) rows.
Proof. unfold foreign. rewrite List.filter_app. cbn. by rewrite bool_decide_true, app_nil_r. Qed.
(** Rewriting one's own rows in place. *)
Lemma foreign_map {A} tenant (f : Child A -> Child A) rows : (forall r, ch_TenantID (f r) = ch_TenantID r) -> (forall r, ch_TenantID r <> tenant -> f r = r) ->
  foreign tenant (map f rows) = foreign tenant rows.
Proof.
  intros H1 H2. unfold foreign. induction rows as [|r rows IH]; [done|]. cbn [map List.filter]. rewrite H1. destruct (decide (ch_TenantID r = tenant)) as [E|E].
  - by rewrite bool_decide_true.
  - rewrite bool_decide_false by done. cbn [negb]. by rewrite IH, H2.
Qed.

Context (ss : Session).
Abbreviation tenant := (ss_tenant ss).
Definition isolated {A} (q : DB Body -> sql A * DB Body) : Prop := forall db, others tenant (q db).2 = others tenant db.
Lemma isolated_select {A} (f : DB Body -> sql A) : isolated (select f).
Proof. by intros db. Qed.
Lemma isolated_exec {A} (f : DB Body -> sql (A * DB Body)) : (forall db a db', f db = Ok (a, db') -> others tenant db' = others tenant db) -> isolated (exec f).
Proof. intros H db. unfold exec. destruct (f db) as [[a db']|e] eqn:E; [|done]. by eapply H. Qed.

Lemma sees_tenant (db : DB Body) d : sees ss db d = true -> dr_TenantID d = tenant.
Proof. unfold sees. intros [H _]%andb_true_iff. by to_prop. Qed.
Lemma readable_tenant {A} (db : DB Body) (r : Child A) : readable ss db r = true -> ch_TenantID r = tenant.
Proof. unfold readable. intros [H _]%andb_true_iff. by to_prop. Qed.
Lemma claimable_tenant (db : DB Body) id ids k f : claimable ss db id ids k f = true -> f.1 = tenant.
Proof. unfold claimable, file_readable, mine. intros [[[[H _]%andb_true_iff _]%andb_true_iff _]%andb_true_iff _]%andb_true_iff. by to_prop. Qed.

Ltac own_rows H := apply isolated_exec; intros db ? ? H; cbv zeta in H; unguard_all H
with unguard_all H :=
  repeat first [rewrite check_bind in H | rewrite unique_bind in H | rewrite references_bind in H | rewrite may_write_bind in H | rewrite to_text_bind in H];
  repeat match type of H with (if ?b then _ else _) = _ => let E := fresh "Hg" in destruct b eqn:E; [|discriminate H];
    repeat first [rewrite check_bind in H | rewrite unique_bind in H | rewrite references_bind in H | rewrite may_write_bind in H | rewrite to_text_bind in H] end.
(** Replacing a row of one's own, or adding one. *)
Lemma own_dispute db id d : dr_TenantID d = tenant -> (forall d0, db_disputes db !! id = Some d0 -> dr_TenantID d0 = tenant) ->
  others tenant (put_disputes (<[id := d]> (db_disputes db)) db) = others tenant db.
Proof.
  intros Hd Hold. unfold others. cbn. f_equal. apply map_filter_insert_not'; [by intros H|]. intros d0 Hd0 H. by apply H, Hold.
Qed.
Lemma own_questionnaire db id r : ch_TenantID r = tenant -> (forall r0, db_questionnaires db !! id = Some r0 -> ch_TenantID r0 = tenant) ->
  others tenant (put_questionnaires (<[id := r]> (db_questionnaires db)) db) = others tenant db.
Proof.
  intros Hr Hold. unfold others. cbn. f_equal. apply map_filter_insert_not'; [by intros H|]. intros r0 Hr0 H. by apply H, Hold.
Qed.

Lemma InsertDispute_isolated d : isolated (q_InsertDispute ss d).
Proof.
  apply isolated_exec. intros db a db' H. destruct (to_numeric _) as [amt|e]; [|discriminate H]. cbn [mbind res_bind] in H.
  destruct (sees ss db _); [|discriminate H]. cbn [mbind res_bind] in H. unguard_all H. injection H as _ <-. apply own_dispute; [done|].
  intros d0 Hd0. to_prop. congruence.
Qed.
Lemma UpdateDisputeState_isolated id s n at_ v : isolated (q_UpdateDisputeState ss id s n at_ v).
Proof.
  own_rows H. destruct (db_disputes db !! id) as [d|] eqn:E; [|by injection H as _ <-]. destruct (_ && _) eqn:Hs; [|by injection H as _ <-].
  unguard_all H. injection H as _ <-. apply andb_true_iff in Hs as [Hs _]. apply sees_tenant in Hs. apply own_dispute; [done|]. intros d0. rewrite E. by intros [= <-].
Qed.
Lemma UpdateDisputeTeam_isolated id v team at_ : isolated (q_UpdateDisputeTeam ss id v team at_).
Proof.
  own_rows H. destruct (db_disputes db !! id) as [d|] eqn:E; [|by injection H as _ <-]. destruct (_ && _ && _) eqn:Hs; [|by injection H as _ <-].
  unguard_all H. injection H as _ <-. apply andb_true_iff in Hs as [[_ Hs]%andb_true_iff _]. to_prop. apply own_dispute; [done|]. intros d0. rewrite E. by intros [= <-].
Qed.
Lemma InsertDisputeEvent_isolated id e : isolated (q_InsertDisputeEvent ss id e).
Proof. own_rows H. injection H as _ <-. unfold others. cbn. f_equal. apply foreign_own. Qed.
Lemma InsertIdempotencyKey_isolated scope key hash status response : isolated (q_InsertIdempotencyKey ss scope key hash status response).
Proof. own_rows H. injection H as _ <-. unfold others. cbn. f_equal. apply map_filter_insert_not. intros r H. by apply H. Qed.
Lemma InsertDeadline_isolated id kind cycle started due basis : isolated (q_InsertDeadline ss id kind cycle started due basis).
Proof. own_rows H. injection H as _ <-. unfold others. cbn. f_equal. apply foreign_own. Qed.
Lemma SettleDeadline_isolated met at_ id kind cycle : isolated (q_SettleDeadline ss met at_ id kind cycle).
Proof.
  own_rows H. injection H as _ <-. unfold others. cbn. f_equal. apply foreign_map; intros r; destruct (settles ss db id kind cycle r) eqn:E; try done.
  intros Hne. unfold settles in E. apply andb_true_iff in E as [[E _]%andb_true_iff _]. by apply readable_tenant in E.
Qed.
Lemma InsertLedgerEntry_isolated id l : isolated (q_InsertLedgerEntry ss id l).
Proof.
  apply isolated_exec. intros db a db' H. cbv zeta in H. destruct (to_numeric _) as [amt|e]; [|discriminate H]. cbn [mbind res_bind] in H. unguard_all H.
  injection H as _ <-. unfold others. cbn. f_equal. apply foreign_own.
Qed.
Lemma UpsertQuestionnaire_isolated id reason questions sent : isolated (q_UpsertQuestionnaire ss id reason questions sent).
Proof.
  own_rows H. destruct (db_questionnaires db !! id) as [r|] eqn:E; [destruct (readable ss db r) eqn:Er; [|discriminate H]|];
    injection H as _ <-; apply own_questionnaire; try done; intros r0; rewrite E; intros [= <-]. by apply readable_tenant in Er.
Qed.
Lemma AnswerQuestionnaire_isolated id answers received : isolated (q_AnswerQuestionnaire ss id answers received).
Proof.
  own_rows H. destruct (db_questionnaires db !! id) as [r|] eqn:E; [|by injection H as _ <-]. destruct (readable ss db r && _) eqn:Er; [|by injection H as _ <-].
  apply andb_true_iff in Er as [Er _]. apply readable_tenant in Er. injection H as _ <-. apply own_questionnaire; [done|]. intros r0. rewrite E. by intros [= <-].
Qed.
Lemma InsertNotice_isolated id n : isolated (q_InsertNotice ss id n).
Proof.
  intros db. unfold q_InsertNotice, exec. cbv zeta. match goal with |- context [match ?b with Ok _ => _ | Err _ => _ end] => destruct b as [[a db']|e] eqn:H end; [|done].
  unguard_all H. injection H as _ <-. unfold others. cbn. f_equal. apply foreign_own.
Qed.
Lemma InsertRiskAssessment_isolated id k : isolated (q_InsertRiskAssessment ss id k).
Proof. own_rows H. injection H as _ <-. unfold others. cbn. f_equal. apply foreign_own. Qed.
Lemma InsertAttachment_isolated a : isolated (q_InsertAttachment ss a).
Proof.
  own_rows H. injection H as _ <-. unfold others. cbn. f_equal. apply map_filter_insert_not'; [by intros H|]. intros f Hf. to_prop. congruence.
Qed.
Lemma ClaimAttachments_isolated nid id ids : isolated (q_ClaimAttachments ss nid id ids).
Proof.
  own_rows H. injection H as _ <-. unfold others. cbn. f_equal. apply map_eq. intros k. rewrite !map_lookup_filter, map_lookup_imap.
  destruct (db_attachments db !! k) as [f|]; [|done]. cbn. destruct (claimable ss db id ids k f) eqn:E; [|done]. apply claimable_tenant in E.
  by rewrite !option_guard_False by (cbn; tauto).
Qed.
Lemma UpsertTenantTemplate_isolated r : isolated (q_UpsertTenantTemplate ss r).
Proof. own_rows H. injection H as _ <-. unfold others. cbn. by rewrite delete_insert_eq. Qed.
Lemma DeleteTenantTemplate_isolated kind : isolated (q_DeleteTenantTemplate ss kind).
Proof.
  own_rows H. injection H as _ <-. unfold others. cbn. f_equal. apply map_eq. intros i. destruct (decide (tenant = i)) as [<-|Hi]; [by rewrite !lookup_delete_eq|].
  by rewrite !lookup_delete_ne, lookup_alter_ne.
Qed.
Lemma PutTenantLogo_isolated logo ct at_ : isolated (q_PutTenantLogo ss logo ct at_).
Proof. own_rows H. injection H as _ <-. unfold others. cbn. by rewrite delete_insert_eq. Qed.
Lemma PutAnalystAvatar_isolated subject avatar ct : isolated (q_PutAnalystAvatar ss subject avatar ct).
Proof. own_rows H. injection H as _ <-. unfold others. cbn. f_equal. apply map_filter_insert_not. intros r H. by apply H. Qed.
End isolation.
Create HintDb isolation.
#[export] Hint Resolve isolated_select InsertDispute_isolated UpdateDisputeState_isolated UpdateDisputeTeam_isolated InsertDisputeEvent_isolated
  InsertIdempotencyKey_isolated InsertDeadline_isolated SettleDeadline_isolated InsertLedgerEntry_isolated UpsertQuestionnaire_isolated
  AnswerQuestionnaire_isolated InsertNotice_isolated InsertRiskAssessment_isolated InsertAttachment_isolated ClaimAttachments_isolated
  UpsertTenantTemplate_isolated DeleteTenantTemplate_isolated PutTenantLogo_isolated PutAnalystAvatar_isolated : isolation.

(** ** Programs in a transaction *)
Section contract.
Context `{DC : Decimal} `{UU : UUID} {UL : UUIDLaws UU} {Body : Type} {NU : Numeric} {BC : BankingCore} {RT : Runtime}.
Context (fault : nat -> option driver_error) (load : string -> option Location) (traceparent : string).
Abbreviation DBt := (DB Body).
Abbreviation PgTxt := (PgTx (Body := Body)).

(** The transaction a context binds, and a program run in it on PostgreSQL. *)
Definition tx_of (c : Ctx) : memTx := mkMemTx (default uuid_Nil (IDFrom c)) (From_ctx c).
Definition on_postgres {B} (c : Ctx) (now : time) (p : Prog (Body := Body) B) (db : DBt) (n : nat) : M B * DBt * nat :=
  pg_WithTx fault c now (fun _ => run_pg fault load (tx_of c) now traceparent p) db n.
(** The same program as a use case of the in-memory store. *)
Fixpoint run_P {B} (t : memTx) (now : time) (p : Prog (Body := Body) B) : P Body B :=
  match p with
  | Return r => lift r
  | Do c k => r ← try_ (op (mem_call t now c)); run_P t now (k (told (seen c) r))
  end.
Definition in_memory {B} (c : Ctx) (now : time) (p : Prog (Body := Body) B) : P Body B := WithTx c (fun t => run_P t now p).
Lemma run_P_mem {B} t now (p : Prog (Body := Body) B) w : run_P t now p w = (of_M (run_mem t now p (w_store w)).1, with_store w (run_mem t now p (w_store w)).2).
Proof.
  revert w. induction p as [r|A c k IH]; intros w; [by destruct w|]. cbn [run_P run_mem]. unfold mbind, P_bind, try_, op.
  destruct (mem_call t now c (w_store w)) as [[a|e] m] eqn:E; cbn [of_M]; rewrite IH; by destruct w.
Qed.

(** Committing and rolling back. *)
Lemma on_postgres_cases {A} c now (fn : Session -> Pg (Body := Body) A) (db : DBt) n r db' n' : pg_WithTx fault c now fn db n = (r, db', n') ->
  match r with
  | Ok a => exists id x, IDFrom c = Some id /\ fn (session_of c now id) (mkPgTx db false (S (S n)) ∅) = (Ok a, x) /\ px_aborted x = false /\ px_db x = db'
  | Err _ => db' = put_notice_seq (db_notice_seq db') db
  end.
Proof.
  intros H. unfold pg_WithTx in H. assert (Hid : db = put_notice_seq (db_notice_seq db) db) by (by destruct db).
  destruct (IDFrom c) as [id|]; [|by injection H as <- <- <-]. destruct (fault n); [by injection H as <- <- <-|].
  unfold run_query, send, begin in H. cbn [px_aborted px_statements px_db px_access] in H.
  destruct (fault (S n)); [by injection H as <- <- <-|]. cbv zeta in H. destruct (fn _ _) as [[a|e] x] eqn:E; [|by injection H as <- <- <-; cbn].
  destruct (fault _); [by injection H as <- <- <-; cbn|]. destruct (px_aborted x) eqn:Ex; injection H as <- <- <-; [done|]. by exists id, x.
Qed.

(** Rows of other tenants. *)
Definition keeps_others (t : memTx) (x x' : PgTxt) : Prop := others (t_tenant t) (px_db x') = others (t_tenant t) (px_db x).
#[local] Instance keeps_others_preorder t : PreOrder (keeps_others t).
Proof. split; [by intros x|]. intros x y z H1 H2. unfold keeps_others in *. congruence. Qed.
Lemma run_query_others {A} t now (q : DBt -> sql A * DBt) : isolated (session t now) q -> walks (keeps_others t) (run_query fault q).
Proof.
  intros Hq x r x' H. unfold run_query, send in H. unfold keeps_others. destruct (px_aborted x); [by injection H as <- <-|]. destruct (fault _); [by injection H as <- <-|].
  specialize (Hq (px_db x)). destruct (q (px_db x)) as [[a|e] db]; [by injection H as <- <-|]. by destruct e; injection H as <- <-.
Qed.
Lemma pg_call_others {A} t now (c : Call A) : walks (keeps_others t) (pg_call (Body := Body) fault load t now traceparent c).
Proof.
  destruct c; cbn [pg_call]; try (pg_unfold; pg_walk; apply (run_query_others t now); auto with isolation; apply isolated_select).
  - intros x r x' H. unfold pg_Access in H. set (s := match PrKind p with Analyst => _ | _ => _ end) in H. cbv zeta in H.
    destruct (px_access x !! s) as [a|]; [by injection H as <- <-|]. destruct (run_query _ _ x) as [[a|e] y] eqn:E;
      apply (run_query_others t now) in E; try apply isolated_select; by injection H as <- <-.
  - unfold pg_TenantCalendar. apply walks_bind; [apply _|apply (run_query_others t now), isolated_select|]. intros [z h]. destruct (NewCalendar _ _ _); pg_walk.
  - intros x r x' H. unfold pg_GetTenantMetadata, send, q_GetTenantMetadata, select in H. unfold keeps_others. destruct (px_aborted x); [by injection H as <- <-|].
    destruct (fault _) as [[]|]; try by injection H as <- <-. destruct (one _) as [[ct u]|[]]; by injection H as <- <-.
Qed.
Lemma run_pg_others {B} t now (p : Prog (Body := Body) B) : walks (keeps_others t) (run_pg fault load t now traceparent p).
Proof.
  induction p as [r|A c k IH]; intros x r0 x' H; [by injection H as <- <-|]. cbn in H. destruct (pg_call _ _ _ _ _ c x) as [r y] eqn:E.
  etransitivity; [by eapply pg_call_others|by eapply IH].
Qed.
Lemma others_put_seq tenant k (db : DBt) : others tenant (put_notice_seq k db) = others tenant db.
Proof. done. Qed.

(** C4: a program run in a transaction bound to a tenant, whatever it calls with whatever arguments, and whether it
    commits, fails or is cut off by the server, leaves every row of every other tenant as it was. *)
Theorem pg_isolated {B} c now (p : Prog (Body := Body) B) (db : DBt) n :
  others (t_tenant (tx_of c)) (on_postgres c now p db n).1.2 = others (t_tenant (tx_of c)) db.
Proof.
  destruct (on_postgres c now p db n) as [[r db'] n'] eqn:H. cbn [fst snd]. apply on_postgres_cases in H. destruct r as [a|e].
  - destruct H as (id & x & _ & H & _ & <-). exact (run_pg_others _ _ _ _ _ _ H).
  - by rewrite H.
Qed.


End contract.

(** ** Where PostgreSQL and the in-memory store part *)
Section parting.
Context `{DC : Decimal} `{UU : UUID} {Body : Type} {NU : Numeric}.
Context (fault : nat -> option driver_error).
Abbreviation DBt := (DB Body).
(** [disputes.sql] does not select [resend_of] when it claims, so a claimed repeat of a notice no longer says what it
    repeats, and the dispatcher looks for its files under its own id, where there are none. *)
Lemma claimed_forget_original now batch (db : DBt) n ns db' n' :
  pg_ClaimNotices fault now batch db n = (Ok ns, db', n') -> Forall (fun nt => nr_ResendOf nt = None /\ source_of nt = nr_ID nt) ns.
Proof.
  unfold pg_ClaimNotices. destruct (pool _ _ _ _) as [[[rows|e] db1] n1]; intros H; [|discriminate H]. apply (f_equal (fun x => x.1.1)) in H. cbn in H.
  injection H as <-. apply List.Forall_map, list.Forall_forall. by intros r _.
Qed.
(** A server that cannot be reached is unavailable to a statement, and an internal error to the transaction's own
    beginning: [WithTx] returns what the driver said. *)
Lemma begin_not_mapped {A} c now (fn : Session -> Pg (Body := Body) A) (db : DBt) n id msg : IDFrom c = Some id -> fault n = Some (NetError msg) ->
  pg_WithTx fault c now fn db n = (Err (EPlain msg), db, S n) /\ errors_as (mapErr (NetError msg)) = Some ErrUnavailable /\ errors_as (EPlain msg) = None.
Proof. intros Hid Hf. split; [|done]. unfold pg_WithTx. by rewrite Hid, Hf. Qed.
End parting.

(** ** A database and the store that mirrors it *)
Module PgScenario.
  Import QDec NUuid.
#[export] Instance numeric : Numeric := Some.
#[export] Instance core : BankingCore := {| core_state := unit; Post s _ ins := (Err (EClass ErrUnavailable), s) |}.
#[export] Instance runtime : Runtime := {
  now_at n := Date 2026 3 2 9 0 0 0 UTC + Z.of_nat n * Hour;
  NewV7 n := Ok (N.of_nat (101 + n));
  Local := UTC;
  sha256 s := s;
  address _ := "0xc000012345"
}.
Definition bank : uuid := 1%N.
Definition other_bank : uuid := 2%N.
Definition alice : Principal := mkPrincipal Analyst "alice" "Alice" false.
Definition ctx : Ctx := mkCtx _ (Some bank) (Some alice) None.
Definition clock : time := Date 2026 3 2 9 0 0 0 UTC.
Definition since : time := Date 2020 1 1 0 0 0 0 UTC.
Definition no_zones : string -> option Location := fun _ => None.
Definition calm : nat -> option driver_error := fun _ => None.
(** The third statement of the program is refused by the server. *)
Definition rough : nat -> option driver_error := fun n => if bool_decide (n = 4%nat) then Some (PgError "57P01" "") else None.

Definition db0 : DB string := mkDB
  {[bank := mkTenantRow "First Bank" None None None]}
  {[20%N := mkAccountRow bank "Jane Doe" "USD" since (Some "jane@example.com") None]}
  {[10%N := mkTransactionRow bank 20%N RailCard (inject_Z 100) "USD" "Shop" since (Some "5999")]}
  {[77%N := mkDisputeRecord 77%N other_bank "general" RegimeUSRegE StateInitiated 0 0 11%N 21%N (inject_Z 5) "USD" since since ReasonDuplicate]}
  [] ∅ [] [] ∅ [] 0 [] ∅ ∅ ∅ ∅
  [mkTeamRow bank "general" true] [mkMemberRow bank "alice" (mkMembership "general" RoleSenior)] [] [] ∅.
Definition m0 : MemStore string := mkMemStore
  {[10%N := mkTransactionRecord 10%N bank 20%N RailCard (inject_Z 100) "USD" "USD" since "Shop" "5999" since]}
  (db_disputes db0) ∅ ∅ ∅ ∅ ∅ [] ∅ ∅ ∅
  {[20%N := mkAccountRecord 20%N "Jane Doe" "USD" "jane@example.com" "" since]}
  {[bank := "First Bank"]} ∅ ∅ ∅ 0 {[bank := mkCalendar (Some UTC) ∅]} {[bank := mkCoreConfig "" (RawJSON (JObject []))]}
  {[bank := mkMemAccess 0 ["general"] "general" [] [] {["alice" := [mkMembership "general" RoleSenior]]}]}.
Definition w0 : World string := mkWorld m0 tt 0 0 0.

(** Opening a case by hand: read the transaction, insert the dispute, log it, and answer with the length of the log. *)
Definition filed : EventRecord := mkEventRecord 1 EventOpenInvestigation StateInitiated StateInvestigating "Alice" "alice" RawEmpty None None clock.
Definition filing (txn : TransactionRecord) : DisputeRecord :=
  mkDisputeRecord 101%N bank "general" RegimeUSRegE StateInitiated 0 0 (tr_ID txn) (tr_AccountID txn) (tr_Amount txn) (tr_Currency txn) clock clock ReasonDuplicate.
Definition call {A B} (c : Call (Body := string) A) (k : A -> Prog (Body := string) B) : Prog B :=
  Do c (fun r => match r with Ok a => k a | Err e => Return (Err e) end).
Definition open_case : Prog (Body := string) Z :=
  call (CGetTransaction 10%N) (fun txn =>
  call (CInsertDispute (filing txn)) (fun _ =>
  call (CAppendEvent 101%N filed) (fun _ =>
  call (CListEvents 101%N) (fun log => Return (Ok (Z.of_nat (length log))))))).
Lemma well_tenanted0 : well_tenanted db0.
Proof.
  split; try apply List.Forall_nil; cbn [db0 db_disputes db_questionnaires db_attachments]; try (intros ? ? H; rewrite lookup_empty in H; discriminate H).
  - intros id d H. apply lookup_singleton_Some in H as [<- <-]. reflexivity.
Qed.
Lemma reference_data0 : reference_data no_zones (tx_of ctx) clock db0 m0.
Proof.
  split.
  - intros id. destruct (decide (id = 10%N)) as [->|Hid]; [reflexivity|].
    unfold GetTransaction, q_GetTransaction, select, one. cbn [m0 db0 mTransactions db_transactions fst]. by rewrite !lookup_singleton_ne.
  - intros id a. unfold q_GetAccount, select, one. cbn [m0 db0 mAccounts db_accounts fst]. destruct (decide (id = 20%N)) as [->|Hid].
    + intros H. vm_compute in H. injection H as <-. vm_compute. reflexivity.
    + by rewrite lookup_singleton_ne.
  - eexists. split; [reflexivity|]. split; [reflexivity|]. split; [reflexivity|]. eexists. split; reflexivity.
  - eexists. split; [reflexivity|]. split; [|vm_compute; reflexivity]. intros s Hs. unfold access_row. cbn [cw_Members db0 db_members List.filter].
    destruct (decide (s = "alice")) as [->|Hne]; [reflexivity|]. rewrite (bool_decide_false ("alice" = s)) by done. cbn. by rewrite andb_false_r, lookup_singleton_ne.
Qed.
Lemma careful_call {A B} (c : Call A) (k : A -> Prog (Body := string) B) t now x a y :
  admissible t now c (px_db x) -> pg_call calm no_zones t now "" c x = (Ok a, y) ->
  careful calm no_zones t now "" (k a) y -> careful calm no_zones t now "" (call c k) x.
Proof. intros Ha E Hk. cbn. split; [done|]. by rewrite E. Qed.
Lemma mirrors0 : mirrors no_zones (tx_of ctx) clock db0 m0.
Proof. split; try reflexivity; try (intros; reflexivity); [apply reference_data0|apply well_tenanted0]. Qed.
Definition read : TransactionRecord := mkTransactionRecord 10%N 0%N 20%N RailCard (inject_Z 100) "USD" "USD" since "Shop" "5999" since.
Lemma careful0 : careful calm no_zones (tx_of ctx) clock "" open_case (mkPgTx db0 false 2 ∅).
Proof.
  eapply (careful_call _ _ _ _ _ read); [exact I|reflexivity|]. eapply careful_call; [by repeat split|reflexivity|].
  eapply careful_call; [by repeat split|reflexivity|]. eapply careful_call; [|reflexivity|exact I]. unfold admissible, visible_to. vm_compute. reflexivity.
Qed.

Definition filed_on_postgres := on_postgres calm no_zones "" ctx clock open_case db0 0.
(** The server drops the transaction at its third statement: nothing of it stays. *)
Example dropped :
  let after := on_postgres rough no_zones "" ctx clock open_case db0 0 in
  after.1.1 = Err (EClass ErrUnavailable) /\ after.2 = 6%nat /\
  after.1.2 = put_notice_seq (db_notice_seq after.1.2) db0.
Proof.
  intros after. split; [vm_compute; reflexivity|]. split; [vm_compute; reflexivity|].
  assert (E : after.1.1 = Err (EClass ErrUnavailable)) by (vm_compute; reflexivity).
  destruct after as [[[a|e] db] n] eqn:H; [discriminate E|]. exact (on_postgres_cases _ _ _ _ _ _ _ _ _ H).
Qed.
End PgScenario.
