(* ===== verification/ServiceFacts.v ===== *)
(** * ServiceFacts: what each step of a use case does to the store.

    For every step of [ApplyEvent] and [CreateDispute] that ends with a value: which fields of the store it
    changed, that only the dispute at hand was touched in them, and what is there now. *)
From S2P Require Import Prelude Errs GoTime GoJson Ext Types Regimes Lifecycle Deadlines Ledger Questionnaire Risk Notice Access Store Tx Service.

Section steps.
Context `{DC : Decimal} `{UU : UUID} {Body : Type} {BC : BankingCore} {RT : Runtime}.
Implicit Types (m : MemStore Body) (w : World Body) (t : memTx) (id : uuid).

(** Two maps that agree except at one key. *)
Definition same_except {A} (id : uuid) (f g : gmap uuid A) : Prop := forall j, j <> id -> g !! j = f !! j.

#[export] Instance same_except_preorder {A} id : PreOrder (@same_except A id).
Proof. split; [by intros f j|]. intros f g h H1 H2 j Hj. by rewrite H2, H1. Qed.

Lemma same_except_insert {A} id (a : A) f : same_except id f (<[id := a]> f).
Proof. intros j Hj. by rewrite lookup_insert_ne. Qed.

Lemma at_key_insert {A} id (l : list A) f : at_key (<[id := l]> f) id = l.
Proof. unfold at_key. by rewrite lookup_insert_eq. Qed.

Lemma at_key_other {A} id (f g : gmap uuid (list A)) j : same_except id f g -> j <> id -> at_key g j = at_key f j.
Proof. intros H Hj. unfold at_key. by rewrite H. Qed.

Lemma GetDispute_ok t id m r : GetDispute t id m = Ok r <->
  mDisputes m !! id = Some r /\ dr_TenantID r = t_tenant t /\ visible t m r = true.
Proof.
  unfold GetDispute. destruct (mDisputes m !! id) as [r'|]; [|split; [done|by intros ([=] & _)]].
  destruct (bool_decide _ && visible t m r') eqn:E; to_prop.
  - split; [intros [= <-]; auto|by intros ([= <-] & _)].
  - split; [done|]. intros ([= <-] & H1 & H2). exfalso. destruct E as [E|E]; to_prop; congruence.
Qed.

Lemma seeing_ok {A} t id (f : MemStore Body -> M A * MemStore Body) m a m' :
  seeing t id f m = (Ok a, m') -> f m = (Ok a, m').
Proof. unfold seeing. by destruct (GetDispute t id m). Qed.
Lemma seeing_read_ok {A} t id (f : MemStore Body -> M A) m a :
  seeing_read t id f m = Ok a -> f m = Ok a.
Proof. unfold seeing_read. by destruct (GetDispute t id m). Qed.

Lemma set_Deadlines_id m : set_Deadlines (mDeadlines m) m = m.
Proof. by destruct m. Qed.
Lemma set_Ledger_id m : set_Ledger (mLedger m) m = m.
Proof. by destruct m. Qed.
Lemma set_Questions_id m : set_Questions (mQuestions m) m = m.
Proof. by destruct m. Qed.
Lemma set_Risk_id m : set_Risk (mRisk m) m = m.
Proof. by destruct m. Qed.

(** ** Loops *)
Lemma for_each_ind {A} (f : A -> P Body unit) (R : World Body -> World Body -> Prop) l w w' :
  Reflexive R -> Transitive R -> (forall a w w', a ∈ l -> f a w = (Done tt, w') -> R w w') ->
  for_each f l w = (Done tt, w') -> R w w'.
Proof.
  intros Hr Ht. revert w. induction l as [|a l IH]; cbn [for_each]; intros w Hf H; [inv_P; reflexivity|].
  inv_P. destruct a0. etransitivity; [apply (Hf a); [by left|exact H0]|].
  apply IH; [|done]. intros; eapply Hf; [by right|done].
Qed.

(** ** Clocks *)

(** The deadlines changed, those of one dispute only. *)
Definition deadlines_step id (R : list Deadline -> list Deadline -> Prop) m m' : Prop :=
  exists D, m' = set_Deadlines D m /\ same_except id (mDeadlines m) D /\
            R (at_key (mDeadlines m) id) (at_key D id).

Lemma deadlines_step_trans id (R1 R2 R3 : list Deadline -> list Deadline -> Prop) m1 m2 m3 :
  deadlines_step id R1 m1 m2 -> deadlines_step id R2 m2 m3 ->
  (forall a b d, R1 a b -> R2 b d -> R3 a d) -> deadlines_step id R3 m1 m3.
Proof.
  intros (D1 & -> & H1 & HR1) (D2 & -> & H2 & HR2) HR. exists D2. split; [done|]. split.
  - etransitivity; [exact H1|exact H2].
  - eapply HR; [exact HR1|exact HR2].
Qed.

Lemma deadlines_step_refl id (R : list Deadline -> list Deadline -> Prop) m :
  R (at_key (mDeadlines m) id) (at_key (mDeadlines m) id) -> deadlines_step id R m m.
Proof. intros H. exists (mDeadlines m). by rewrite set_Deadlines_id. Qed.

Lemma SettleDeadline_done t id kind cycle met at_ m m' :
  SettleDeadline t id kind cycle met at_ m = (Ok tt, m') ->
  deadlines_step id (fun a b => b = map (settle_deadline kind cycle met at_) a) m m'.
Proof.
  intros H%seeing_ok. destruct (mDeadlines m !! id) as [ds|] eqn:E; injection H as <-.
  - eexists. split; [done|]. split; [apply same_except_insert|]. rewrite at_key_insert. unfold at_key. by rewrite E.
  - apply deadlines_step_refl. unfold at_key. by rewrite E.
Qed.

(** A list of clocks after some were settled: each is as it was, or was open and is not any more. *)
Definition settled_some (a b : list Deadline) : Prop :=
  Forall2 (fun d d' => d' = d \/ (Open d = true /\ Open d' = false /\ DlKind d' = DlKind d /\ DlCycle d' = DlCycle d)) a b.

#[export] Instance settled_some_preorder : PreOrder settled_some.
Proof.
  split.
  - intros a. unfold settled_some. induction a; constructor; auto.
  - intros a b d H1. revert d. induction H1 as [|x y a b Hxy H1 IH]; intros d H2; inversion H2; subst; constructor; [|by apply IH].
    destruct Hxy as [->|(H & Hy & Hk & Hc)]; [done|]. right.
    match goal with H : _ \/ _ |- _ => destruct H as [->|(H' & _)] end; [done|congruence].
Qed.

Lemma settle_deadline_settles kind cycle met at_ d :
  DlKind d = kind -> DlCycle d = cycle -> Open (settle_deadline kind cycle met at_ d) = false.
Proof.
  intros <- <-. unfold settle_deadline. rewrite bool_decide_true, Z.eqb_refl by done. cbn.
  destruct (Open d) eqn:E; [|done]. by destruct met, (DlMetAt d).
Qed.

Lemma settle_deadline_step kind cycle met at_ d :
  let d' := settle_deadline kind cycle met at_ d in
  d' = d \/ (Open d = true /\ Open d' = false /\ DlKind d' = DlKind d /\ DlCycle d' = DlCycle d).
Proof.
  cbn. unfold settle_deadline.
  destruct (bool_decide (DlKind d = kind) && (DlCycle d =? cycle) && Open d) eqn:E; [|by left].
  to_prop. right. split; [done|]. destruct met; cbn; (split; [|done]); unfold Open; cbn; [done|].
  by destruct (DlMetAt d).
Qed.

Lemma map_settle_some kind cycle met at_ ds : settled_some ds (map (settle_deadline kind cycle met at_) ds).
Proof.
  induction ds as [|d ds IH]; cbn; constructor; [apply settle_deadline_step|done].
Qed.

Lemma settled_some_open a b d : settled_some a b -> d ∈ b -> Open d = true -> d ∈ a.
Proof.
  induction 1 as [|x y a b Hxy _ IH]; intros Hin Ho; [done|].
  apply elem_of_cons in Hin as [->|Hin]; [|right; by apply IH].
  destruct Hxy as [->|(_ & H & _)]; [by left|congruence].
Qed.

Lemma not_in_settled x met at_ ds :
  Open x = true -> x ∉ map (settle_deadline (DlKind x) (DlCycle x) met at_) ds.
Proof.
  intros Ho (y & Hy & _)%list_elem_of_fmap.
  pose proof (settle_deadline_step (DlKind x) (DlCycle x) met at_ y) as Hs. cbn in Hs. rewrite <- Hy in Hs.
  destruct Hs as [->|(_ & E & _)]; [|congruence].
  pose proof (settle_deadline_settles (DlKind y) (DlCycle y) met at_ y eq_refl eq_refl). congruence.
Qed.

(** The loop of [settleDeadlines]: it only settles, and every clock it was given that the new state meets or voids
    is settled at the end. *)
Lemma settle_loop_done t rec next now l w w' :
  for_each (settle_one_deadline t rec next now) l w = (Done tt, w') ->
  deadlines_step (dr_ID rec) (fun a b => settled_some a b /\
    forall d, d ∈ b -> d ∈ l -> Settle (DlKind d) (DState next) <> Untouched -> Open d = false)
    (w_store w) (w_store w').
Proof.
  revert w. induction l as [|x l IH]; cbn [for_each]; intros w H.
  { inv_P. apply deadlines_step_refl. split; [done|]. by intros d _ ?%not_elem_of_nil. }
  inv_P. destruct a. specialize (IH _ H).
  assert (Hx : deadlines_step (dr_ID rec) (fun a b => settled_some a b /\
     (Open x = true -> Settle (DlKind x) (DState next) <> Untouched -> ~ (x ∈ b))) (w_store w) (w_store w0)).
  { unfold settle_one_deadline in H0. destruct (Open x) eqn:Ox; cbn in H0.
    2:{ inv_P. apply deadlines_step_refl. done. }
    destruct (Settle (DlKind x) (DState next)) eqn:Es; inv_P; cbn.
    1: apply deadlines_step_refl; done.
    all: apply SettleDeadline_done in H0 as (D & -> & Hs & Hk); exists D; split; [done|]; split; [done|].
    all: rewrite Hk; split; [apply map_settle_some|]; intros _ _; by apply not_in_settled. }
  eapply deadlines_step_trans; [exact Hx|exact IH|]. cbn. intros a b d [H1 H2] [H3 H4]. split; [by etransitivity|].
  intros y Hy [->|Hin]%elem_of_cons Hset; [|by apply H4].
  destruct (Open x) eqn:Ox; [|done]. exfalso. apply (H2 eq_refl Hset). by eapply settled_some_open.
Qed.

Lemma settleDeadlines_done t rec next now w w' :
  settleDeadlines t rec next now w = (Done tt, w') ->
  deadlines_step (dr_ID rec) (fun a b => exists b0 extra, b = b0 ++ extra /\ settled_some a b0 /\
    (forall d, d ∈ b0 -> Settle (DlKind d) (DState next) <> Untouched -> Open d = false) /\
    (DAppeals next <= dr_Appeals rec -> extra = []))
    (w_store w) (w_store w').
Proof.
  unfold settleDeadlines. intros H. inv_P. destruct a0. apply seeing_read_ok in H0. injection H0 as Ha.
  apply settle_loop_done in H1 as (D & Hw & Hs & Hset & Hopen).
  assert (Hno : forall d, d ∈ at_key D (dr_ID rec) -> Settle (DlKind d) (DState next) <> Untouched -> Open d = false).
  { intros d Hd Hne. destruct (Open d) eqn:E; [|done].
    rewrite <- E. apply Hopen; [done| |done]. rewrite <- Ha. by eapply settled_some_open. }
  destruct (dr_Appeals rec <? DAppeals next) eqn:E; to_prop.
  - inv_P. apply seeing_ok in H. injection H as <-. eexists. cbn. rewrite Hw. split; [done|]. cbn. split.
    + etransitivity; [exact Hs|]. apply same_except_insert.
    + rewrite at_key_insert. eexists _, _. split_and!; [done|done|done|lia].
  - inv_P. exists D. split; [done|]. split; [done|]. exists (at_key D (dr_ID rec)), []. by rewrite app_nil_r.
Qed.

(** ** Scoring *)
Lemma assess_done t rec txn seq now w w' :
  assess t rec txn seq now w = (Done tt, w') ->
  exists r, rr_Seq r = seq /\ rr_AssessedAt r = now /\
    w_store w' = set_Risk (<[dr_ID rec := at_key (mRisk (w_store w)) (dr_ID rec) ++ [r]]> (mRisk (w_store w))) (w_store w).
Proof.
  unfold assess. intros H. inv_P. destruct a as [disputes lost]. inv_P.
  assert (Hq : w0 = w) by (apply try_done in H1 as [(? & _ & H1)|(? & _ & H1)]; unfold rd in H1; injection H1; congruence).
  subst. assert (H2' : w1 = w) by (destruct a as [q|e]; [by inv_P|destruct (errors_is e ErrNotFound); inv_P; done]).
  subst. destruct a0 as [flags known]. inv_P. apply seeing_ok in H. injection H as <-. eexists; split_and!; [..|reflexivity]; reflexivity.
Qed.

(** ** The questionnaire *)
Lemma questionnaire_done t rec event payload now w w' :
  questionnaire t rec event payload now w = (Done tt, w') ->
  exists Q, w_store w' = set_Questions Q (w_store w) /\ same_except (dr_ID rec) (mQuestions (w_store w)) Q.
Proof.
  unfold questionnaire. intros H.
  assert (Hsame : exists Q, w_store w = set_Questions Q (w_store w) /\ same_except (dr_ID rec) (mQuestions (w_store w)) Q)
    by (exists (mQuestions (w_store w)); by rewrite set_Questions_id).
  destruct event; inv_P; try done.
  - apply seeing_ok in H. injection H as <-. eexists. split; [done|]. apply same_except_insert.
  - unfold AnswerQuestionnaire in H. destruct (GetQuestionnaire _ _ _) as [q|]; [|done].
    destruct (qr_ReceivedAt q); [done|]. injection H as <-. eexists. split; [done|]. apply same_except_insert.
Qed.

(** ** The ledger *)

(** What the log of the bank's books says about one entry: which event caused it, the reference the core was given,
    and that a movement on the customer's account was approved by the core. *)
Record entry_ok (rec : DisputeRecord) (seq : Z) (e : LedgerEntry) : Prop := {
  eo_seq : le_Seq e = seq;
  eo_reference : le_Reference e = posting_reference rec seq (le_Posting e);
  eo_core : PDebit (le_Posting e) = AccountCustomer \/ PCredit (le_Posting e) = AccountCustomer ->
    exists r, le_Core e = Some r /\ rc_Approved r = true;
  eo_books : PDebit (le_Posting e) <> AccountCustomer -> PCredit (le_Posting e) <> AccountCustomer -> le_Core e = None
}.

Lemma instructCore_done t rec e w r w' :
  instructCore t rec e w = (Done r, w') -> w_store w' = w_store w /\ rc_Approved r = true.
Proof.
  unfold instructCore. intros H. inv_P. unfold core_post in H1. destruct (Post _ _ _) as [res cs]. inv_P.
  destruct a0 as [rc|e']; [|by inv_P]. destruct (rc_Approved rc) eqn:E; cbn in H; by inv_P.
Qed.

Lemma post_entries_done t rec seq now ms w es w' :
  post_entries t rec seq now ms w = (Done es, w') ->
  w_store w' = w_store w /\ map le_Posting es = ms /\ Forall (entry_ok rec seq) es.
Proof.
  revert w es. induction ms as [|p ms IH]; cbn [post_entries]; intros w es H; [by inv_P|].
  inv_P. apply IH in H1 as (Hs & <- & Hf). cbn [map le_Posting].
  destruct (bool_decide (PDebit p = AccountCustomer) || bool_decide (PCredit p = AccountCustomer)) eqn:E.
  - inv_P. match goal with H : instructCore _ _ _ _ = _ |- _ => apply instructCore_done in H as [Hs0 Hap] end. split_and!; [congruence|done|]. constructor; [|done].
    split; cbn; [done|done|eauto|]. intros H1 H2. apply orb_true_iff in E as [E|E]; to_prop; done.
  - inv_P. split_and!; [done|done|]. constructor; [|done]. to_prop. split; cbn; [done|done| |done].
    intros [?|?]; done.
Qed.

Lemma append_ledger_done id es m m' :
  append_ledger id es m = (Ok tt, m') ->
  exists L, m' = set_Ledger L m /\ same_except id (mLedger m) L /\ at_key L id = at_key (mLedger m) id ++ es.
Proof.
  revert m. induction es as [|e es IH]; cbn [append_ledger]; intros m H.
  - injection H as <-. exists (mLedger m). by rewrite set_Ledger_id, app_nil_r.
  - destruct (existsb _ _); [done|]. apply IH in H as (L & -> & Hs & Hk). exists L. split; [done|]. split.
    + etransitivity; [|exact Hs]. apply same_except_insert.
    + rewrite Hk. cbn [mLedger set_Ledger]. by rewrite at_key_insert, <- app_assoc.
Qed.

Lemma parse_liability_ok rules rec facts l :
  parse_liability rules rec facts = Ok l -> liability_ok rules (dr_DisputedAmount rec) l.
Proof.
  unfold parse_liability. destruct (ef_Liability facts) as [text|]; [|intros [= <-]; by left].
  destruct (NewFromString text) as [d|]; [|done].
  intros H. apply bind_ok in H as (x & Hx & [= <-]). right. eauto.
Qed.

Lemma post_done t rec next seq payload now w w' :
  post t rec next seq payload now w = (Done tt, w') ->
  exists cfg l st L es,
    RulesFor (dr_Regime rec) = Ok cfg /\ liability_ok cfg (dr_DisputedAmount rec) l /\
    w_store w' = set_Ledger L (w_store w) /\ same_except (dr_ID rec) (mLedger (w_store w)) L /\
    at_key L (dr_ID rec) = at_key (mLedger (w_store w)) (dr_ID rec) ++ es /\
    postingsOf es = Postings cfg (mkPostingInput (DState next) (dr_DisputedAmount rec) (dr_Currency rec) l
                      (SuspenseBalance (postingsOf (at_key (mLedger (w_store w)) (dr_ID rec)))) st) /\
    Forall (entry_ok rec seq) es.
Proof.
  unfold post. intros H. inv_P. apply seeing_read_ok in H4. injection H4 as <-. apply parse_liability_ok in H2.
  destruct (Postings a _) as [|p ms] eqn:Ep.
  - injection H as <-. exists a, a1, a2, (mLedger (w_store w)), []. rewrite set_Ledger_id, app_nil_r, Ep. split_and!; auto; done.
  - inv_P. match goal with H : post_entries _ _ _ _ _ _ = _ |- _ => apply post_entries_done in H as (Hs & Hm & Hf) end.
    apply seeing_ok in H. rewrite Hs in H. apply append_ledger_done in H as (L & -> & Hex & Hk).
    eexists a, a1, a2, L, _. unfold postingsOf at 1. rewrite Ep, Hm. split_and!; done.
Qed.

(** ** Notices *)

(** What [notify] may change for a dispute: notices are added to it, and its clocks may be settled. *)
Definition notify_step id m m' : Prop :=
  exists D ns n, m' = set_Deadlines D (set_Notices (mNotices m ++ ns) (set_nextNotice n m)) /\
    same_except id (mDeadlines m) D /\ settled_some (at_key (mDeadlines m) id) (at_key D id) /\
    Forall (fun x => nr_DisputeID x = id) ns.

Lemma notify_step_refl id m : notify_step id m m.
Proof.
  exists (mDeadlines m), [], (mnextNotice m). rewrite app_nil_r. split; [by destruct m|]. done.
Qed.

Lemma notify_step_trans id m1 m2 m3 : notify_step id m1 m2 -> notify_step id m2 m3 -> notify_step id m1 m3.
Proof.
  intros (D1 & ns1 & n1 & -> & Hs1 & Hk1 & Hf1) (D2 & ns2 & n2 & -> & Hs2 & Hk2 & Hf2).
  exists D2, (ns1 ++ ns2), n2. cbn in *. rewrite app_assoc. split_and!; [done| | |by apply Forall_app].
  - by etransitivity.
  - by etransitivity.
Qed.

Lemma notify_channel_done t rec seq kind doc now f ch w w' :
  notify_channel t rec seq kind doc now f ch w = (Done tt, w') -> notify_step (dr_ID rec) (w_store w) (w_store w').
Proof.
  unfold notify_channel. intros H. destruct (bool_decide _); [injection H as <-; apply notify_step_refl|].
  inv_P. unfold InsertNotice in H0. apply seeing_ok in H0. injection H0 as <- <-. cbn.
  eexists (mDeadlines _), [_], _. split; [done|]. split; [done|]. split; [done|].
  constructor; [|done]. by destruct ch.
Qed.

Lemma notify_done t rec entered seq now w w' :
  notify t rec entered seq now w = (Done tt, w') -> notify_step (dr_ID rec) (w_store w) (w_store w').
Proof.
  assert (Hfacts : forall a w1, notice_facts t rec now w = (Done a, w1) -> w1 = w).
  { unfold notice_facts. intros a w1 H. inv_P.
    match goal with H : try_ _ _ = _ |- _ => apply try_done in H as [(? & -> & H)|(? & -> & H)]; unfold rd in H; injection H as _ <- end;
    [by inv_P|]. destruct (errors_is _ ErrNotFound); by inv_P. }
  unfold notify. intros H. inv_P. destruct (NoticesFor a entered) as [|k ks]; [injection H as <-; apply notify_step_refl|].
  inv_P. apply Hfacts in H1 as ->. revert H.
  apply (for_each_ind _ (fun w w' => notify_step (dr_ID rec) (w_store w) (w_store w'))).
  - intros x. apply notify_step_refl.
  - intros x y z. apply notify_step_trans.
  - intros kind x y _ Hk. unfold notify_kind in Hk. inv_P. destruct a1.
    eapply notify_step_trans.
    + revert Hk0. apply (for_each_ind _ (fun w w' => notify_step (dr_ID rec) (w_store w) (w_store w'))).
      * intros u. apply notify_step_refl.
      * intros u v z. apply notify_step_trans.
      * intros ch u v _. apply notify_channel_done.
    + destruct (bool_decide _); [|injection Hk as <-; apply notify_step_refl].
      inv_P. apply SettleDeadline_done in Hk as (D & -> & Hs & Hkk). cbn.
      match goal with |- notify_step _ ?m _ => exists D, [], (mnextNotice m); rewrite app_nil_r; split; [by destruct m|] end.
      split; [done|]. split; [|done].
      rewrite Hkk. apply map_settle_some.
Qed.
End steps.

(** ** Steps that only read *)
Section reads.
Context `{DC : Decimal} `{UU : UUID} {Body : Type} {BC : BankingCore} {RT : Runtime} {AZ : Authorizer}.
Implicit Types (w : World Body) (t : memTx).

Lemma dispute_facts_done t rec w f w' :
  dispute_facts t rec w = (Done f, w') ->
  w' = w /\ exists txn, GetTransaction t (dr_TransactionID rec) (w_store w) = Ok txn /\
    f = mkDisputeFacts (dr_ID rec) (dr_Team rec) (dr_DisputedAmount rec) (dr_Currency rec) (tr_Rail txn) (dr_State rec)
          (opener_of (at_key (mEvents (w_store w)) (dr_ID rec))).
Proof.
  unfold dispute_facts. intros H. inv_P. unfold ListEvents in H0. injection H0 as <-. split; [done|]. eauto.
Qed.

Lemma authorize_done c t action d w dec w' :
  authorize c t action d w = (Done dec, w') ->
  w' = w /\ exists p a, From_ctx c = Some p /\ GetAccess t p (w_store w) = Ok a /\
    Decide (default uuid_Nil (IDFrom c)) p a action d = Ok dec /\ Allowed_ dec = true.
Proof.
  unfold authorize. intros H. destruct (From_ctx c) as [p|]; [|by inv_P]. inv_P.
  destruct (Decide _ p a action d) as [dec'|] eqn:E; [|by inv_P].
  destruct (Allowed_ dec') eqn:Ea; [|destruct (Policies dec'); by inv_P].
  injection H as <- <-. split; [done|]. exists p, a. auto.
Qed.

Lemma holdCheck_done t rec payload w w' :
  holdCheck t rec payload w = (Done tt, w') ->
  w' = w /\ forall r, list.last (at_key (mRisk (w_store w)) (dr_ID rec)) = Some r ->
    exists facts, match payload with RawEmpty => facts = no_facts | _ => parse_facts payload = Ok facts end /\
      CreditAllowed (Some (rr_Assessment r)) (TrimSpace (ef_RiskOverride facts)) = Ok tt.
Proof.
  unfold holdCheck. intros H. inv_P. apply seeing_read_ok in H0. injection H0 as <-.
  destruct (list.last _) as [r|] eqn:E; [|injection H as <-; done].
  inv_P. destruct payload; inv_P; (split; [done|]); intros r' [= <-]; eauto.
Qed.

Lemma viewWith_done c t rec f w v w' :
  viewWith c t rec f w = (Done v, w') ->
  w_store w' = w_store w /\ w_core w' = w_core w /\ w_kicks w' = w_kicks w /\
  vw_ID v = dr_ID rec /\ vw_State v = dr_State rec /\ vw_Version v = dr_Version rec /\
  vw_Appeals v = dr_Appeals rec.
Proof.
  unfold viewWith. intros H. inv_P.
  match goal with H : (match f with _ => _ end) ?x = (Done _, ?y) |- _ => assert (y = x) as -> end.
  { destruct f as [f|]; [by injection H1|]. by apply dispute_facts_done in H1 as [-> _]. }
  match goal with H : permitted _ _ _ _ ?x = (Done _, ?y) |- _ => assert (y = x) as -> end.
  { match goal with H : permitted _ _ _ _ _ = _ |- _ => unfold permitted in H; destruct (From_ctx c); revert H end;
      intros HH; inv_P; done. }
  match goal with H : try_ _ _ = _ |- _ => apply try_done in H as [(? & -> & H)|(? & -> & H)]; unfold rd in H; injection H as _ <- end.
  - inv_P. done.
  - destruct (errors_is _ ErrNotFound); inv_P; done.
Qed.
End reads.
