(* ===== verification/Frames.v ===== *)
(** * Frames: what a computation leaves alone, whatever it ends with.

    [frames R p]: however [p] ends, the store it started from and the store it leaves are related by [R]. One rule
    per construct of the monad, for any preorder; [readonly] is the instance at equality. *)
From S2P Require Import Prelude Errs GoTime GoJson Ext Types Regimes Lifecycle Deadlines Ledger Questionnaire Risk Notice Access Text Template Store Tx Service Correspondence ServiceFacts.

Section frames.
Context `{DC : Decimal} `{UU : UUID} {Body : Type} {BC : BankingCore} {RT : Runtime}.
Implicit Types (m : MemStore Body) (w : World Body) (R : relation (MemStore Body)).

Definition frames R {A} (p : P Body A) : Prop := forall w r w', p w = (r, w') -> R (w_store w) (w_store w').

Section rules.
Context (R : relation (MemStore Body)) {HR : PreOrder R}.

Lemma frames_same {A} (p : P Body A) : (forall w r w', p w = (r, w') -> w_store w' = w_store w) -> frames R p.
Proof. intros H w r w' Hp. by rewrite (H _ _ _ Hp). Qed.
Lemma frames_ret {A} (a : A) : frames R (mret a).
Proof. apply frames_same. by intros w r w' [= _ <-]. Qed.
Lemma frames_lift {A} (r : M A) : frames R (lift r).
Proof. apply frames_same. by intros w o w' [= _ <-]. Qed.
Lemma frames_rd {A} (f : MemStore Body -> M A) : frames R (rd f).
Proof. apply frames_same. by intros w o w' [= _ <-]. Qed.
Lemma frames_throw {A} e : frames R (throw (A := A) e).
Proof. apply frames_lift. Qed.
Lemma frames_throwE {A} e : frames R (throwE (A := A) e).
Proof. apply frames_lift. Qed.
Lemma frames_panic {A} msg : frames R (panic (A := A) msg).
Proof. apply frames_same. by intros w o w' [= _ <-]. Qed.
Lemma frames_now : frames R now.
Proof. apply frames_same. by intros w o w' [= _ <-]. Qed.
Lemma frames_new_id : frames R new_id.
Proof. apply frames_same. by intros w o w' [= _ <-]. Qed.
Lemma frames_kick : frames R kick.
Proof. apply frames_same. by intros w o w' [= _ <-]. Qed.
Lemma frames_core cfg ins : frames R (core_post cfg ins).
Proof. apply frames_same. intros w o w'. unfold core_post. destruct (Post _ _ _). by intros [= _ <-]. Qed.

Lemma frames_bind {A B} (p : P Body A) (f : A -> P Body B) :
  frames R p -> (forall a, frames R (f a)) -> frames R (mbind f p).
Proof.
  intros Hp Hf w r w' H. unfold mbind, P_bind in H. destruct (p w) as [o w1] eqn:E. apply Hp in E.
  destruct o as [a|e|msg]; [|by injection H as _ <-..]. apply Hf in H. by transitivity (w_store w1).
Qed.
Lemma frames_op {A} (f : MemStore Body -> M A * MemStore Body) :
  (forall m r m', f m = (r, m') -> R m m') -> frames R (op f).
Proof.
  intros Hf w r w' H. unfold op in H. destruct (f (w_store w)) as [o m] eqn:E. injection H as _ <-. by eapply Hf.
Qed.
Lemma frames_seeing t id {A} (f : MemStore Body -> M A * MemStore Body) :
  (forall m r m', f m = (r, m') -> R m m') -> frames R (op (seeing t id f)).
Proof.
  intros Hf. apply frames_op. intros m r m'. unfold seeing. destruct (GetDispute t id m); [apply Hf|by intros [= _ <-]].
Qed.
Lemma frames_try {A} (p : P Body A) : frames R p -> frames R (try_ p).
Proof.
  intros Hp w r w' H. unfold try_ in H. destruct (p w) as [[a|e|msg] w1] eqn:E; apply Hp in E; by injection H as _ <-.
Qed.
Lemma frames_for_each {A} (f : A -> P Body unit) l : (forall a, frames R (f a)) -> frames R (for_each f l).
Proof. intros Hf. induction l as [|a l IH]; [apply frames_ret|]. cbn [for_each]. apply frames_bind; auto. Qed.
(** A relation a rollback cannot break: what the snapshot misses, it does not look at. *)
Class Restorable : Prop := restorable m m' : R m m' -> R m (restore (snapshot m) m').
Lemma frames_WithTx {A} c (fn : memTx -> P Body A) : Restorable -> (forall t, frames R (fn t)) -> frames R (WithTx c fn).
Proof.
  intros Hr Hf w r w' H. unfold WithTx in H. destruct (IDFrom c); [|by injection H as _ <-].
  destruct (fn _ w) as [[a|e|msg] w1] eqn:E; apply Hf in E; injection H as _ <-; [done|cbn|done]. by apply restorable.
Qed.
End rules.

Definition readonly {A} (p : P Body A) : Prop := frames eq p.
Lemma readonly_done {A} (p : P Body A) w r w' : readonly p -> p w = (r, w') -> w_store w' = w_store w.
Proof. intros H Hp. symmetry. by apply H in Hp. Qed.
End frames.

Create HintDb frames.
#[export] Hint Resolve frames_ret frames_lift frames_rd frames_throw frames_throwE frames_panic frames_now frames_new_id
  frames_kick frames_core frames_bind frames_try frames_for_each frames_panic : frames.
#[export] Hint Extern 1 (PreOrder _) => apply _ : frames.

(** Framed all the way down: each bind and each branch; what is left are the store operations. *)
Ltac frame_step := first
  [ progress intros
  | progress cbv zeta
  | progress unfold readonly
  | solve [apply frames_ret; apply _ | apply frames_lift; apply _ | apply frames_rd; apply _ | apply frames_throw; apply _
          | apply frames_throwE; apply _ | apply frames_now; apply _ | apply frames_new_id; apply _ | apply frames_kick; apply _
          | apply frames_core; apply _ | apply frames_panic; apply _ | auto 2 with frames nocore]
  | apply frames_bind; [apply _| |]
  | apply frames_for_each; [apply _|]
  | apply frames_try
  | apply frames_WithTx; [apply _|apply _|]
  | match goal with |- frames _ (match ?x with _ => _ end) => destruct x end ].
Ltac frame_tac := repeat frame_step.

Section readers.
Context `{DC : Decimal} `{UU : UUID} {Body : Type} {BC : BankingCore} {RT : Runtime} {AZ : Authorizer}.
Context (R : relation (MemStore Body)) {HR : PreOrder R}.

Lemma frames_authorize c t action d : frames R (authorize c t action d).
Proof. unfold authorize. frame_tac. Qed.
Lemma frames_dispute_facts t rec : frames R (dispute_facts t rec).
Proof. unfold dispute_facts. frame_tac. Qed.
#[local] Hint Resolve frames_authorize frames_dispute_facts : frames.
Lemma frames_authorizeDispute c t action id : frames R (authorizeDispute c t action id).
Proof. unfold authorizeDispute. frame_tac. Qed.
Lemma frames_notice_facts t rec at_ : frames R (notice_facts t rec at_).
Proof. unfold notice_facts. frame_tac. Qed.
Lemma frames_permitted c t es f : frames R (permitted c t es f).
Proof. unfold permitted. frame_tac. Qed.
#[local] Hint Resolve frames_permitted : frames.
Lemma frames_viewWith c t rec f : frames R (viewWith c t rec f).
Proof. unfold viewWith. frame_tac. Qed.
Lemma frames_view c t rec : frames R (view c t rec).
Proof. apply frames_viewWith. Qed.
Lemma frames_tenantTemplates t : frames R (tenantTemplates t).
Proof. unfold tenantTemplates. frame_tac. Qed.
#[local] Hint Resolve frames_tenantTemplates : frames.
Lemma frames_tenantTemplate t kind : frames R (tenantTemplate t kind).
Proof. unfold tenantTemplate. frame_tac. Qed.
End readers.
#[export] Hint Resolve frames_authorize frames_dispute_facts frames_authorizeDispute frames_notice_facts frames_permitted
  frames_viewWith frames_view frames_tenantTemplates frames_tenantTemplate : frames.

(** ** The use cases

    What a relation must put up with, one store operation at a time; whatever does, the use cases keep. *)
Section use_cases.
Context `{DC : Decimal} `{UU : UUID} {Body : Type} {BC : BankingCore} {RT : Runtime} {AZ : Authorizer} {VC : ViewCodec Body}.
Context (R : relation (MemStore Body)) {HR : PreOrder R} {HT : Restorable R}.
Implicit Types (t : memTx) (id : uuid) (rec : DisputeRecord) (c : Ctx).

Class CaseOps : Prop := {
  fr_InsertDispute t d : frames R (op (InsertDispute t d));
  fr_UpdateDisputeState t id v st ap at_ : frames R (op (UpdateDisputeState t id v st ap at_));
  fr_UpdateDisputeTeam t id v team at_ : frames R (op (UpdateDisputeTeam t id v team at_));
  fr_AppendEvent id e : frames R (op (AppendEvent id e));
  fr_PutIdempotent t at_ scope key r : frames R (op (PutIdempotent t at_ scope key r));
  fr_InsertDeadlines t id ds : frames R (op (InsertDeadlines t id ds));
  fr_SettleDeadline t id k cy met at_ : frames R (op (SettleDeadline t id k cy met at_));
  fr_AppendLedger t id es : frames R (op (AppendLedger t id es));
  fr_SendQuestionnaire t id q : frames R (op (SendQuestionnaire t id q));
  fr_AnswerQuestionnaire t id a at_ : frames R (op (AnswerQuestionnaire t id a at_));
  fr_InsertNotice t n : frames R (op (InsertNotice t n));
  fr_InsertRisk t id r : frames R (op (InsertRisk t id r))
}.
Context {SO : CaseOps}.
#[local] Hint Resolve fr_InsertDispute fr_UpdateDisputeState fr_UpdateDisputeTeam fr_AppendEvent fr_PutIdempotent
  fr_InsertDeadlines fr_SettleDeadline fr_AppendLedger fr_SendQuestionnaire fr_AnswerQuestionnaire fr_InsertNotice
  fr_InsertRisk : frames.

Lemma frames_assess t rec txn seq at_ : frames R (assess t rec txn seq at_).
Proof. unfold assess. frame_tac. Qed.
Lemma frames_notify t rec entered seq at_ : frames R (notify t rec entered seq at_).
Proof. unfold notify, notify_kind, notify_channel. frame_tac. Qed.
Lemma frames_questionnaire t rec e payload at_ : frames R (questionnaire t rec e payload at_).
Proof. unfold questionnaire. frame_tac. Qed.
Lemma frames_settleDeadlines t rec next at_ : frames R (settleDeadlines t rec next at_).
Proof. unfold settleDeadlines, settle_one_deadline. frame_tac. Qed.
Lemma frames_post_entries t rec seq at_ ps : frames R (post_entries t rec seq at_ ps).
Proof. induction ps; cbn [post_entries]; unfold instructCore; frame_tac. Qed.
#[local] Hint Resolve frames_assess frames_notify frames_questionnaire frames_settleDeadlines frames_post_entries : frames.
Lemma frames_post t rec next seq payload at_ : frames R (post t rec next seq payload at_).
Proof. unfold post. frame_tac. Qed.
Lemma frames_holdCheck t rec payload : frames R (holdCheck t rec payload).
Proof. unfold holdCheck. frame_tac. Qed.
#[local] Hint Resolve frames_post frames_holdCheck : frames.
Lemma frames_idempotent c scope idem fn : (forall t, frames R (fn t)) -> frames R (idempotent c scope idem fn).
Proof. intros Hf. unfold idempotent, replayed. frame_tac. Qed.

Lemma frames_CreateDispute c in_ : frames R (CreateDispute c in_).
Proof. apply frames_idempotent. intros t. unfold CreateDispute_tx. frame_tac. Qed.
Lemma frames_apply_steps c t in_ rec next policies at_ : frames R (apply_steps c t in_ rec next policies at_).
Proof. unfold apply_steps. frame_tac. Qed.
#[local] Hint Resolve frames_apply_steps : frames.
Lemma frames_ApplyEvent c in_ : frames R (ApplyEvent c in_).
Proof. apply frames_idempotent. intros t. unfold ApplyEvent_tx, when. frame_tac. Qed.
Lemma frames_Reassign c id team : frames R (Reassign c id team).
Proof. unfold Reassign, Reassign_tx. frame_tac. Qed.
End use_cases.

Section correspondence.
Context `{DC : Decimal} `{UU : UUID} {Body : Type} {BC : BankingCore} {RT : Runtime} {AZ : Authorizer}.
Context (R : relation (MemStore Body)) {HR : PreOrder R} {HT : Restorable R}.
Implicit Types (t : memTx) (id : uuid) (c : Ctx).

Class MailOps : Prop := {
  fr_Insert_mail t n : frames R (op (InsertNotice t n));
  fr_InsertAttachment t id a : frames R (op (InsertAttachment t id a));
  fr_ClaimAttachments d nid ids : frames R (op (ClaimAttachments d nid ids))
}.
Class WordingOps : Prop := {
  fr_PutTenantTemplate t tpl : frames R (op (PutTenantTemplate t tpl));
  fr_DeleteTenantTemplate t kind : frames R (op (DeleteTenantTemplate t kind))
}.
Context {MO : MailOps} {WO : WordingOps}.
#[local] Hint Resolve fr_Insert_mail fr_InsertAttachment fr_ClaimAttachments fr_PutTenantTemplate fr_DeleteTenantTemplate : frames.

Lemma frames_enqueue t rec rules tpl doc f at_ files actor : frames R (enqueue t rec rules tpl doc f at_ files actor).
Proof. unfold enqueue, claimAttachments. frame_tac. Qed.
#[local] Hint Resolve frames_enqueue : frames.
Lemma frames_ComposeEmail c in_ : frames R (ComposeEmail c in_).
Proof. unfold ComposeEmail, ComposeEmail_tx. frame_tac. Qed.
Lemma frames_Resend c in_ : frames R (Resend c in_).
Proof. unfold Resend, Resend_tx. frame_tac. Qed.
Lemma frames_Upload c in_ : frames R (Upload c in_).
Proof. unfold Upload. frame_tac. Qed.
Lemma frames_PutTemplateSetting c kind o actor : frames R (PutTemplateSetting c kind o actor).
Proof. unfold PutTemplateSetting. frame_tac. Qed.
Lemma frames_DeleteTemplateSetting c kind : frames R (DeleteTemplateSetting c kind).
Proof. unfold DeleteTemplateSetting. frame_tac. Qed.
End correspondence.
