(* ===== verification/Profile.v ===== *)
(** * Profile: an organisation's name and logo, an analyst's picture ([application/identity.go]). *)
From S2P Require Import Prelude Errs GoTime GoJson Ext Types Regimes Lifecycle Deadlines Ledger Questionnaire Risk Notice Access Text Template Store Tx Service Correspondence ServiceFacts Frames.

Definition MaxImageBytes : Z := Z.shiftl 256 10.
Definition AllowedImageTypes : list string := ["image/png"; "image/jpeg"; "image/webp"].
Definition ErrImageRefused : Error := sentinel Unprocessable "image-refused" "the image cannot be stored".

Record TenantProfile : Type := mkTenantProfile { tp_Name : string; tp_HasLogo : bool; tp_LogoUpdatedAt : option time }.

Definition checkImage (img : Image) : M unit :=
  let size := Z.of_nat (String.length (im_Content img)) in
  if size =? 0 then fail (WithDetail ErrImageRefused "the file is empty")
  else if MaxImageBytes <? size then
    fail (WithDetail ErrImageRefused ("the image is larger than " +:+ show (Z.shiftr MaxImageBytes 10) +:+ " kB"))
  else if negb (slices_contains AllowedImageTypes (im_ContentType img)) then
    fail (WithDetail ErrImageRefused (im_ContentType img +:+ " is not a PNG, JPEG or WebP"))
  else Ok tt.

Section profile.
Context `{DC : Decimal} `{UU : UUID} {Body : Type} {BC : BankingCore} {RT : Runtime} {AZ : Authorizer}.
Context (c : Ctx).
Abbreviation PW A := (P Body A).

Definition Tenant : PW TenantProfile := WithTx c (fun t =>
  name ← rd (TenantName t);
  meta ← rd (GetTenantMetadata t);
  mret (mkTenantProfile name (tm_HasLogo meta) (tm_LogoUpdatedAt meta))).

Definition TenantLogo : PW Image := WithTx c (fun t => rd (GetTenantLogo t)).

Definition Service_PutTenantLogo (img : Image) : PW TenantProfile :=
  _ ← lift (checkImage img);
  WithTx c (fun t =>
    _ ← authorize c t ActionManageBranding None;
    now ← now;
    _ ← op (PutTenantLogo t img now);
    name ← rd (TenantName t);
    mret (mkTenantProfile name true (Some now))).

Definition AnalystAvatar (subject : string) : PW Image := WithTx c (fun t => rd (GetAnalystAvatar t subject)).

Definition Service_PutAnalystAvatar (subject : string) (img : Image) : PW unit :=
  _ ← lift (checkImage img);
  WithTx c (fun t => op (PutAnalystAvatar t subject img)).
End profile.

(** What is stored is a picture of an accepted type, of one byte to 256 kB. *)
Definition image_ok (img : Image) : Prop :=
  0 < Z.of_nat (String.length (im_Content img)) <= 256 * 1024 /\ im_ContentType img ∈ AllowedImageTypes.

Lemma checkImage_exact img : checkImage img = Ok tt <-> image_ok img.
Proof.
  unfold checkImage, image_ok. change MaxImageBytes with (256 * 1024). cbv zeta.
  destruct (_ =? 0) eqn:E0; to_prop; [by split; [|lia]|]. destruct (_ <? _) eqn:E1; to_prop; [by split; [|lia]|].
  destruct (slices_contains AllowedImageTypes (im_ContentType img)) eqn:E2; cbn.
  - apply slices_contains_spec in E2. split; [|done]. intros _. split; [lia|done].
  - split; [done|]. intros [_ H]. apply slices_contains_spec in H. congruence.
Qed.

Section facts.
Context `{DC : Decimal} `{UU : UUID} {Body : Type} {BC : BankingCore} {RT : Runtime} {AZ : Authorizer}.
Implicit Types (m : MemStore Body) (w : World Body) (c : Ctx).

(** The pictures apart, nothing moves: no dispute, and no notice waiting to be sent. *)
Record same_but_pictures m m' : Prop := {
  sp_tx : snapshot m' = snapshot m;
  sp_rest : mTransactions m' = mTransactions m /\ mTemplates m' = mTemplates m /\ mAccounts m' = mAccounts m /\
    mNames m' = mNames m /\ mnextNotice m' = mnextNotice m /\ mCalendars m' = mCalendars m /\ mCores m' = mCores m /\
    mAccessData m' = mAccessData m
}.

(** A logo that was accepted is the logo the tenant gets back, and its profile says so with the time of the
    change; only a picture of an accepted type and size was; a tenant sees only its own; and no other tenant's
    logo, no analyst's picture and no dispute changes. *)
Theorem logo_roundtrip c img w p w' : Service_PutTenantLogo c img w = (Done p, w') ->
  exists tid, IDFrom c = Some tid /\ image_ok img /\
    TenantLogo c w' = (Done img, w') /\ Tenant c w' = (Done p, w') /\ tp_HasLogo p = true /\
    (forall d img1, IDFrom d = IDFrom c -> TenantLogo d w' = (Done img1, w') -> img1 = img) /\
    (forall d tid', IDFrom d = Some tid' -> tid' <> tid ->
       (TenantLogo d w').1 = (TenantLogo d w).1 /\ (Tenant d w').1 = (Tenant d w).1) /\
    mAvatars (w_store w') = mAvatars (w_store w) /\ same_but_pictures (w_store w) (w_store w').
Proof.
  unfold Service_PutTenantLogo. intros H. apply P_bind_done in H as ([] & w1 & H1 & H).
  apply lift_done in H1 as [Hc%checkImage_exact ->]. apply WithTx_done in H as (tid & Ht & H).
  apply P_bind_done in H as (dec & w1 & H1 & H). apply (readonly_done _ _ _ _ (frames_authorize eq _ _ _ _)) in H1 as Es.
  apply P_bind_done in H as (at_ & w2 & H2 & H). injection H2 as <- <-.
  apply P_bind_done in H as ([] & w2 & H2 & H). apply op_done in H2 as (m & H2 & ->). injection H2 as <-.
  apply P_bind_done in H as (name & w2 & H2 & H). apply rd_done in H2 as [Hn ->]. injection Hn as <-.
  apply ret_done in H as [<- ->]. exists tid. cbn [w_store with_store]. rewrite Es. split; [done|]. split; [done|].
  assert (Hl : forall d : Ctx, IDFrom d = Some tid -> GetTenantLogo (mkMemTx tid (From_ctx d))
    (set_TenantLogoAt (<[tid := now_at (w_ticks w1)]> (mTenantLogoAt (w_store w)))
       (set_TenantLogos (<[tid := img]> (mTenantLogos (w_store w))) (w_store w))) = Ok img).
  { intros d _. unfold GetTenantLogo. cbn. by rewrite lookup_insert_eq. }
  split_and!.
  - unfold TenantLogo, WithTx. rewrite Ht. unfold rd. cbn [w_store with_store]. by rewrite Hl.
  - unfold Tenant, WithTx. rewrite Ht. unfold mbind, P_bind, rd. cbn. unfold GetTenantMetadata. cbn. rewrite !lookup_insert_eq.
    destruct Hc as [Hc _]. rewrite bool_decide_false by (intros E; rewrite E in Hc; cbn in Hc; lia). done.
  - done.
  - intros d img1 Hd. unfold TenantLogo, WithTx. rewrite Hd, Ht. unfold rd. cbn [w_store with_store].
    rewrite Hl by congruence. by intros [= <-].
  - intros d tid' Hd Hne. unfold TenantLogo, Tenant, WithTx. rewrite Hd. unfold mbind, P_bind, rd. cbn.
    unfold GetTenantLogo, GetTenantMetadata. cbn. rewrite !lookup_insert_ne by done. split.
    + by destruct (mTenantLogos (w_store w) !! tid').
    + destruct (mTenantLogos (w_store w) !! tid') as [i|]; [|done]. by destruct (bool_decide _).
  - done.
  - done.
Qed.
End facts.
