(* ===== verification/Suggest.v ===== *)
(** * Suggest: values a model proposes and a person confirms ([application/decisions.go] and [suggestions.go]).

    The model behind the port is a parameter: an answer for some of the questions it was asked, or an error. A
    probability is a float64. The counters are left out. *)
From Stdlib Require Import SpecFloat.
From S2P Require Import Prelude Errs GoTime GoJson Ext Types Regimes Lifecycle Deadlines Ledger Questionnaire Risk Notice Access Text Template Store Tx Service Correspondence ServiceFacts Frames.

(** 0.75, exactly: 3 * 2^-2. *)
Definition MinConfidence : spec_float := SFdiv 53 1024 (float_of_Z 3) (float_of_Z 4).

Inductive QuestionKind : Type := KindChoice | KindYesNo.
Definition QuestionKind_string (k : QuestionKind) : string := match k with KindChoice => "choice" | KindYesNo => "yesno" end.
Record ModelQuestion : Type := mkModelQuestion { MKind : QuestionKind; MAsk : string; MOptions : gmap string string }.
Record Answer : Type := mkAnswer { AValue : string; AProbability : spec_float }.
Definition Confident (a : Answer) : bool := SFleb MinConfidence (AProbability a).

(** [Decisions]; [None] in its place is the nil interface, the supported case. *)
Definition Decisions : Type := gmap string string -> gmap string ModelQuestion -> M (gmap string Answer).
Definition ErrDecisionsUnavailable : Error :=
  sentinel Unavailable "unavailable" "the suggestion service is temporarily unavailable".

(** What the counter of proposals is told of one question. *)
Inductive ProposalOutcome : Type := outcomeShown | outcomeUnsure | outcomeNoAnswer | outcomeUnavailable | outcomeDisabled.
Definition ProposalOutcome_string (o : ProposalOutcome) : string :=
  match o with
  | outcomeShown => "shown" | outcomeUnsure => "dropped_low_confidence" | outcomeNoAnswer => "no_answer"
  | outcomeUnavailable => "unavailable" | outcomeDisabled => "disabled"
  end.

(** The proposal for a question, if there is one to show, and what is counted. *)
Definition Propose (d : option Decisions) (state : gmap string string) (id : string) (q : ModelQuestion)
    : option Answer * ProposalOutcome :=
  match d with
  | None => (None, outcomeDisabled)
  | Some decide =>
      match decide state {[id := q]} with
      | Err _ => (None, outcomeUnavailable)
      | Ok answers =>
          match answers !! id with
          | None => (None, outcomeNoAnswer)
          | Some a => if negb (Confident a) then (None, outcomeUnsure) else (Some a, outcomeShown)
          end
      end
  end.

Definition ProposeAll (d : option Decisions) (state : gmap string string) (questions : gmap string ModelQuestion) : gmap string Answer :=
  match d with
  | None => ∅
  | Some decide =>
      match decide state questions with
      | Err _ => ∅
      | Ok answers =>
          map_imap (fun id _ => match answers !! id with Some a => if Confident a then Some a else None | None => None end) questions
      end
  end.

(** ** The vocabularies *)
Definition anyOption : string := "any".
Definition noneOption : string := "none".
Definition relevanceGate : string := "__is_about_this_dispute".

(** [strings.ToLower] and [strings.ReplaceAll(_, "_", " ")] on the ASCII names of states. *)
Definition lower (a : Ascii.ascii) : Ascii.ascii :=
  let n := Ascii.nat_of_ascii a in if (Nat.leb 65 n && Nat.leb n 90)%bool then Ascii.ascii_of_nat (n + 32) else a.
Fixpoint state_words (s : string) : string :=
  match s with
  | EmptyString => EmptyString
  | String a s => String (if Ascii.eqb a "_" then " " else lower a)%char (state_words s)
  end.
Definition options_of (first meaning : string) {A} (l : list A) (key mean : A -> string) : gmap string string :=
  foldl (fun out a => <[key a := mean a]> out) {[first := meaning]} l.
Definition stateOptions : gmap string string :=
  options_of anyOption "no particular state" AllStates State_string (fun s => state_words (State_string s)).
Definition reasonOptions : gmap string string :=
  options_of anyOption "no particular reason" AllReasons Reason_string ReasonMeaning.
Definition intakeOptions : gmap string string :=
  options_of noneOption "the text does not describe a disputed payment at all" AllReasons Reason_string ReasonMeaning.

(** ** The suggestions *)
Definition parsed {A} (r : M A) : option A := match r with Ok a => Some a | Err _ => None end.

(** [None] is the proposal of nothing: the zero value, which says it is not confident. *)
Definition SuggestDisputeReason (d : option Decisions) (description : string) : option (Reason * spec_float) :=
  match (Propose d {["complaint" := description]} "reason"
          (mkModelQuestion KindChoice "Why is the customer disputing this payment?" intakeOptions)).1 with
  | None => None
  | Some a =>
      if bool_decide (AValue a = noneOption) then None
      else match ParseReason (AValue a) with Ok r => Some (r, AProbability a) | Err _ => None end
  end.

Record SearchFilters : Type := mkSearchFilters { SState : option State; SReason : option Reason; SOverdue : option bool }.
Definition search_questions : gmap string ModelQuestion :=
  {["state" := mkModelQuestion KindChoice "Which dispute state is the analyst asking for?" stateOptions;
    "reason" := mkModelQuestion KindChoice "Which dispute reason is the analyst asking for?" reasonOptions;
    "overdue" := mkModelQuestion KindYesNo "Is the analyst asking only for disputes that are past a deadline?" ∅]}.
Definition SuggestSearchFilters (d : option Decisions) (query : string) : SearchFilters :=
  let answers := ProposeAll d {["query" := query]} search_questions in
  mkSearchFilters
    (match answers !! "state" with
     | Some a => if bool_decide (AValue a = anyOption) then None else parsed (ParseState (AValue a))
     | None => None end)
    (match answers !! "reason" with
     | Some a => if bool_decide (AValue a = anyOption) then None else parsed (ParseReason (AValue a))
     | None => None end)
    (match answers !! "overdue" with
     | Some a => if bool_decide (AValue a = "yes") then Some true else None
     | None => None end).

(** The yes and no questions of a list, by id. *)
Definition asked_of (qs : list Question) : gmap string ModelQuestion :=
  foldl (fun asked q => if bool_decide (QType q = AnswerYesNo) then <[ID q := mkModelQuestion KindYesNo (Text q) ∅]> asked else asked) ∅ qs.
Definition gate_question : ModelQuestion :=
  mkModelQuestion KindYesNo "Is this message a customer answering questions about a disputed card payment?" ∅.

(** What is proposed of the answers to the questions asked with the gate. *)
Definition gated (answers : gmap string Answer) : gmap string Answer :=
  match answers !! relevanceGate with
  | Some g => if bool_decide (AValue g = "yes") then delete relevanceGate answers else ∅
  | None => ∅
  end.

Section suggest.
Context `{DC : Decimal} `{UU : UUID} {Body : Type} {BC : BankingCore} {RT : Runtime}.

(** The questions actually sent, or those the reason would produce today. *)
Definition questions_to_ask (t : memTx) (disputeID : uuid) : P Body (list Question) :=
  rec ← rd (GetDispute t disputeID);
  q ← try_ (rd (GetQuestionnaire t disputeID));
  mret (match q with
        | Ok q => if bool_decide (qr_Questions q = []) then QuestionSet (dr_Reason rec) else qr_Questions q
        | Err _ => QuestionSet (dr_Reason rec)
        end).
Definition SuggestQuestionnaireAnswers (c : Ctx) (d : option Decisions) (disputeID : uuid) (reply : string)
    : P Body (gmap string Answer) :=
  questions ← WithTx c (fun t => questions_to_ask t disputeID);
  let asked := asked_of questions in
  mret (if bool_decide (asked = ∅) then ∅
        else gated (ProposeAll d {["reply" := reply]} (<[relevanceGate := gate_question]> asked))).

(** ** What may be shown *)

Lemma ProposeAll_exact d state qs id a : ProposeAll d state qs !! id = Some a <->
  qs !! id <> None /\ exists decide answers, d = Some decide /\ decide state qs = Ok answers /\ answers !! id = Some a /\ Confident a = true.
Proof.
  unfold ProposeAll. destruct d as [decide|]; [|rewrite lookup_empty; split; [done|by intros (_ & f & l & [=] & _)]].
  destruct (decide state qs) as [answers|e] eqn:E.
  2: { rewrite lookup_empty. split; [done|]. intros (_ & f & l & [= <-] & E' & _). by rewrite E in E'. }
  rewrite map_lookup_imap. destruct (qs !! id) as [q|] eqn:Eq; cbn; [|by split; [|intros []]].
  split.
  - destruct (answers !! id) as [b|] eqn:Ea; [|done]. destruct (Confident b) eqn:Ec; [|done]. intros [= <-].
    split; [done|]. by exists decide, answers.
  - intros (_ & d' & answers' & [= <-] & E' & Ha & Hc). rewrite E in E'. injection E' as <-. by rewrite Ha, Hc.
Qed.

Lemma Propose_some d state id q a : (Propose d state id q).1 = Some a ->
  exists decide answers, d = Some decide /\ decide state {[id := q]} = Ok answers /\ answers !! id = Some a /\ Confident a = true.
Proof.
  unfold Propose. destruct d as [decide|]; [|done]. destruct (decide state _) as [answers|e] eqn:E; [|done].
  destruct (answers !! id) as [b|] eqn:Ea; [|done]. destruct (Confident b) eqn:Ec; [|done]. intros [= <-]. by exists decide, answers.
Qed.

Lemma asked_of_some qs id : asked_of qs !! id <> None -> exists q, q ∈ qs /\ ID q = id /\ QType q = AnswerYesNo.
Proof.
  unfold asked_of. set (step := fun asked q => _).
  assert (H : forall acc, foldl step acc qs !! id <> None -> acc !! id <> None \/ exists q, q ∈ qs /\ ID q = id /\ QType q = AnswerYesNo).
  { induction qs as [|q qs IH]; intros acc H; cbn in H; [by left|]. apply IH in H as [H|(q' & Hq' & H)].
    - unfold step in H. case_bool_decide as Ht; [|by left]. destruct (decide (ID q = id)) as [He|He].
      + right. exists q. split; [by apply elem_of_cons; left|done].
      + left. by rewrite lookup_insert_ne in H.
    - right. exists q'. split; [by apply elem_of_cons; right|done]. }
  intros Hn. apply H in Hn as [Hn|Hn]; [|done]. by rewrite lookup_empty in Hn.
Qed.

(** C40: A proposal is shown only when it may be: reading a customer's reply changes nothing in the store, answers only
    yes and no questions of this dispute, each with a probability of at least 0.75, and proposes nothing at all
    unless the model is as sure that the reply is about this dispute. *)
Theorem suggestions_guarded c d disputeID reply w out w' :
  SuggestQuestionnaireAnswers c d disputeID reply w = (Done out, w') ->
  w_store w' = w_store w /\ out !! relevanceGate = None /\
  exists tid qs, IDFrom c = Some tid /\ questions_to_ask (mkMemTx tid (From_ctx c)) disputeID w = (Done qs, w') /\
  forall id a, out !! id = Some a ->
    (exists q, q ∈ qs /\ ID q = id /\ QType q = AnswerYesNo) /\ SFleb MinConfidence (AProbability a) = true /\
    exists decide answers gate, d = Some decide /\
      decide {["reply" := reply]} (<[relevanceGate := gate_question]> (asked_of qs)) = Ok answers /\
      answers !! id = Some a /\ answers !! relevanceGate = Some gate /\ AValue gate = "yes" /\ Confident gate = true.
Proof.
  intros H. unfold SuggestQuestionnaireAnswers in H. apply P_bind_done in H as (qs & w1 & H1 & H).
  apply WithTx_done in H1 as (tid & Htid & H1). apply ret_done in H as [<- ->].
  assert (Hro : readonly (questions_to_ask (mkMemTx tid (From_ctx c)) disputeID)) by (unfold questions_to_ask; frame_tac).
  split; [by apply (readonly_done _ _ _ _ Hro H1)|]. set (asked := asked_of qs) in *.
  set (answers := ProposeAll d _ _). destruct (bool_decide (asked = ∅)).
  { split; [apply lookup_empty|]. exists tid, qs. split_and!; [done|done|]. intros id a Ha. by rewrite lookup_empty in Ha. }
  unfold gated. destruct (answers !! relevanceGate) as [gate|] eqn:Eg.
  2: { split; [apply lookup_empty|]. exists tid, qs. split_and!; [done|done|]. intros id a Ha. by rewrite lookup_empty in Ha. }
  case_bool_decide as Hyes.
  2: { split; [apply lookup_empty|]. exists tid, qs. split_and!; [done|done|]. intros id a Ha. by rewrite lookup_empty in Ha. }
  split; [apply lookup_delete_eq|]. exists tid, qs. split_and!; [done|done|].
  intros id a Ha. apply lookup_delete_Some in Ha as [Hne Ha]. apply ProposeAll_exact in Eg as (_ & f & l & Hd & Hl & Hg & Hcg).
  apply ProposeAll_exact in Ha as (Hin & f' & l' & Hd' & Hl' & Ha & Hca). rewrite Hd in Hd'. injection Hd' as <-. rewrite Hl in Hl'. injection Hl' as <-.
  split; [|split; [exact Hca|]].
  - apply asked_of_some. rewrite lookup_insert_ne in Hin; [done|by intros E; apply Hne].
  - exists f, l, gate. done.
Qed.
End suggest.
