(* ===== verification/TypedModel.v ===== *)
(** * TypedModel: the hosted model behind the suggestions ([infrastructure/typedmodel/typedmodel.go]).

    The request it is sent and the reading of its answer. The HTTP client is a parameter: the status and the body of an
    answer, or why there was none; a body is a JSON text or not. Spans are left out. *)
From Stdlib Require Import SpecFloat.
From S2P Require Import Oapi Answers.
From S2P Require Import Prelude Errs GoTime GoJson Ext Types Regimes Lifecycle Deadlines Ledger Questionnaire Risk Notice Access Text Template Store Wire Tx Service Correspondence ServiceFacts Frames Suggest.
Local Open Scope Z_scope.

Definition DefaultEndpoint : string := "https://openrouter.ai/api/alpha/decisions".
Definition DefaultModel : string := "typesafe/jev-1.13".
Record Client : Type := mkClient { cl_endpoint : string; cl_model : string; cl_key : string; cl_timeout : Z }.
(** [New]: nothing without a key. *)
Definition New_client (endpoint model key : string) (timeout : Z) : option Client :=
  if bool_decide (key = "") then None
  else Some (mkClient (if bool_decide (endpoint = "") then DefaultEndpoint else endpoint) (if bool_decide (model = "") then DefaultModel else model) key timeout).

(** ** What is sent *)
Record wireQuestion : Type := mkWireQuestion { wq_Type : string; wq_Instructions : string; wq_Criteria : gmap string string }.
Definition wireQuestion_json (q : wireQuestion) : M json := struct_json
  [required "type" string_json (wq_Type q); required "instructions" string_json (wq_Instructions q);
   optional "criteria" (map_json string_json) (if bool_decide (wq_Criteria q = ∅) then None else Some (Some (wq_Criteria q)))].
Definition wire_question (q : ModelQuestion) : wireQuestion :=
  match MKind q with
  | KindChoice => mkWireQuestion "choice" (MAsk q) (MOptions q)
  | KindYesNo => mkWireQuestion "noul" (MAsk q) ∅
  end.
(** A map is written with its keys in order. *)
Definition request_json (model : string) (state : gmap string string) (questions : gmap string ModelQuestion) : M json := struct_json
  [required "model" string_json model; required "questions" (map_json wireQuestion_json) (Some (wire_question <$> questions));
   required "state" (map_json string_json) (Some state)].
Record ModelRequest : Type := mkModelRequest { mr_URL : string; mr_Authorization : string; mr_ContentType : string; mr_Body : json }.

(** ** What comes back *)
Record wireAnswer : Type := mkWireAnswer { wa_Type : string; wa_Choice : string; wa_Noul : spec_float; wa_Confidence : spec_float }.
Definition zero_float : spec_float := S754_zero false.
Definition zero_answer : wireAnswer := mkWireAnswer "" "" zero_float zero_float.
Definition into_wireAnswer : decoder wireAnswer := into_struct
  [("type", field wa_Type (fun a t => mkWireAnswer t (wa_Choice a) (wa_Noul a) (wa_Confidence a)) into_string);
   ("choice", field wa_Choice (fun a c => mkWireAnswer (wa_Type a) c (wa_Noul a) (wa_Confidence a)) into_string);
   ("noul", field wa_Noul (fun a n => mkWireAnswer (wa_Type a) (wa_Choice a) n (wa_Confidence a)) into_float64);
   ("confidence", field wa_Confidence (fun a c => mkWireAnswer (wa_Type a) (wa_Choice a) (wa_Noul a) c) into_float64)].
Definition into_answers : decoder (option (gmap string wireAnswer)) := into_struct [("answers", into_map zero_answer into_wireAnswer)].
Definition one : spec_float := float_of_Z 1.
Definition half : spec_float := SFdiv 53 1024 one (float_of_Z 2).
(** The answer of one question; of a kind that is not known, none. *)
Definition answer_of (a : wireAnswer) : option Answer :=
  if bool_decide (wa_Type a = "choice") then Some (mkAnswer (wa_Choice a) (wa_Confidence a))
  else if bool_decide (wa_Type a = "noul") then
    Some (if SFleb half (wa_Noul a) then mkAnswer "yes" (wa_Noul a) else mkAnswer "no" (SFsub 53 1024 one (wa_Noul a)))
  else None.

Section decide.
(** [http.Client.Do] and the reading of the body. *)
Context (Do : ModelRequest -> M (Z * RawMessage)).
Definition unavailable {A} (why : string) : M A := Err (EWrap ("decisions: " +:+ why) (EClass ErrDecisionsUnavailable)).
Definition Decide (c : Client) : Decisions := fun state questions =>
  body ← request_json (cl_model c) state questions;
  match Do (mkModelRequest (cl_endpoint c) ("Bearer " +:+ cl_key c) "application/json" body) with
  | Err e => unavailable (Error_string e)
  | Ok (status, raw) =>
      if negb (status =? 200) then unavailable ("status " +:+ show status)
      else match Unmarshal into_answers raw None with
           | None => unavailable json_error
           | Some answers => Ok (omap answer_of (default ∅ answers))
           end
  end.

(** ** Facts *)
Lemma map_writes {A} (enc : A -> M json) (m : gmap string A) : (forall a, exists j, enc a = Ok j) -> exists j, map_json enc (Some m) = Ok j.
Proof.
  intros H. unfold map_json, write_member. generalize (sort_Slice fst (map_to_list m)). intros l.
  match goal with |- context [mapM ?f l] => assert (Hl : exists ms, mapM f l = Ok ms) end.
  { induction l as [|[k a] l [ms IH]]; [by eexists|]. cbn. destruct (H a) as [j ->]. cbn in IH |- *. rewrite IH. by eexists. }
  destruct Hl as [ms ->]. by eexists.
Qed.
Lemma question_writes q : exists j, wireQuestion_json q = Ok j.
Proof.
  unfold wireQuestion_json. destruct (bool_decide _); [by eexists|]. destruct (map_writes string_json (wq_Criteria q)) as [j Hj]; [by eexists|].
  change (optional "criteria" (map_json string_json) (Some (Some (wq_Criteria q)))) with (Some ("criteria", map_json string_json (Some (wq_Criteria q)))).
  rewrite Hj. by eexists.
Qed.
Lemma request_ok model state questions : exists j, request_json model state questions = Ok j.
Proof.
  destruct (map_writes string_json state) as [j1 H1]; [by eexists|]. destruct (map_writes wireQuestion_json (wire_question <$> questions) question_writes) as [j2 H2].
  unfold request_json, required. rewrite H2, H1. by eexists.
Qed.
(** Whatever goes wrong on the way, the error is the one class the suggestions know. *)
Lemma Decide_errors c state questions e : Decide c state questions = Err e -> errors_is e ErrDecisionsUnavailable = true.
Proof.
  unfold Decide. destruct (request_ok (cl_model c) state questions) as [j ->]. cbn.
  destruct (Do _) as [[status raw]|e0]; [|intros [= <-]; reflexivity]. destruct (negb _); [intros [= <-]; reflexivity|].
  destruct (Unmarshal _ _ _); [done|intros [= <-]; reflexivity].
Qed.
End decide.

(** ** Played out *)
Module TypedModelExamples.
Definition answered (members : list (string * json)) : option Answer := let '(a, ok) := into_wireAnswer (JObject members) zero_answer in if (ok : bool) then answer_of a else None.
Definition shown (members : list (string * json)) : option (string * string * bool) :=
  (fun a => (AValue a, FormatFloat (AProbability a), Confident a)) <$> answered members.
Definition kind (k : string) : string * json := ("type", JString k).
Example answers_read :
  map shown [[kind "choice"; ("choice", JString "FRAUD"); ("confidence", JNumber "0.8")]; [kind "noul"; ("noul", JNumber "0.9")]; [kind "noul"; ("noul", JNumber "0.125")];
             [kind "noul"; ("noul", JNumber "0.5")]; [kind "essay"]] =
  [Some ("FRAUD", "0.8", true); Some ("yes", "0.9", true); Some ("no", "0.875", true); Some ("yes", "0.5", false); None].
Proof. vm_compute. reflexivity. Qed.
(** An answer that does not say its probability is taken for a certain no. *)
Example silence_is_no : shown [kind "noul"] = Some ("no", "1", true).
Proof. vm_compute. reflexivity. Qed.
End TypedModelExamples.
