(* ===== verification/Handlers.v ===== *)
(** * Handlers: what each operation of the API does with a request ([ports/http/handler.go]).

    The state is the world of the use cases and, beside it, the tables and caches of keys, tenants and sessions. A
    handler is given the values of the request's context and the bound parameters; it ends with one of the answers
    of its operation, with an error for [fail] to answer, or with a panic. [GetDispute] of the service is
    [GetDisputeView], [GetNotice] is [GetNoticeDocument], [GetAttachment] is [GetAttachmentFile] and [ListDisputes] is
    [ListDisputesPage]. *)
From Stdlib Require Import SpecFloat.
From S2P Require Import Oapi Answers Prelude Errs GoTime GoJson Ext Types Regimes Lifecycle Deadlines Ledger Questionnaire Risk Notice Access Text Http Template Store Wire Tx Sql PgStore Directory Auth Keys Sessions Service Correspondence Profile Suggest.

Definition errMalformed : Error := sentinel Invalid "malformed-request" "the request could not be parsed".
Definition errContract : Error := sentinel Invalid "contract-violation" "the request does not match the API contract".
(** [detailed]: the kind and code of a sentinel with the text of a cause. *)
Definition detailed (base : Error) (cause : string) : error := Wrap (EClass (mkError (EKind base) (ECode base) cause [])) (EMsg base).

(** ** Failures of the contract's validator: what [contractViolation] looks at *)
Record RequestViolation : Type := mkRequestViolation {
  rv_Parameter : option (string * string);         (* where it is, its name *)
  rv_Reason : string;
  rv_Schema : option (list (list string * string)) (* the schema errors, outermost first: a pointer and a reason each *)
}.
Record Violation : Type := mkViolation { vi_Text : string; vi_Request : option RequestViolation }.
Definition violation_fields (r : RequestViolation) : list FieldError :=
  let at_parameter p := p.1 +:+ "." +:+ p.2 in
  match rv_Schema r with
  | Some es =>
      map (fun e => mkFieldError (match rv_Parameter r with Some p => at_parameter p | None => "/" +:+ String.concat "/" e.1 end) e.2) es
  | None => match rv_Parameter r with Some p => [mkFieldError (at_parameter p) (rv_Reason r)] | None => [] end
  end.
Definition contractViolation (err : Violation) : error :=
  match default [] (violation_fields <$> vi_Request err) with
  | [] => detailed errContract (vi_Text err)
  | fields => Wrap (EClass (WithFields errContract fields)) (vi_Text err)
  end.

Definition idempotency (key : option string) (body : string) : Idempotency :=
  match key with
  | Some key => if bool_decide (key = "") then mkIdempotency "" "" else mkIdempotency key body
  | None => mkIdempotency "" ""
  end.

(** [mime.FormatMediaType] of a type without a slash and one parameter. *)
Definition tspecial (a : Ascii.ascii) : bool := contains_char "()<>@,;:\/[]?=" a || Ascii.eqb a (of_byte 34).
Fixpoint all_chars (p : Ascii.ascii -> bool) (s : string) : bool :=
  match s with EmptyString => true | String a s => p a && all_chars p s end.
Definition token_char (a : Ascii.ascii) : bool := (32 <? byte_of a) && (byte_of a <? 127) && negb (tspecial a).
Definition is_token (s : string) : bool := negb (bool_decide (s = "")) && all_chars token_char s.
Definition printable (a : Ascii.ascii) : bool := ((32 <=? byte_of a) && (byte_of a <=? 126)) || (byte_of a =? 9).
Definition upper_hex (n : Z) : Ascii.ascii := of_byte (if n <? 10 then 48 + n else 55 + n).
Fixpoint concat_chars (f : Ascii.ascii -> string) (s : string) : string :=
  match s with EmptyString => EmptyString | String a s => f a +:+ concat_chars f s end.
Definition percent_char (a : Ascii.ascii) : string :=
  if negb (token_char a) || Ascii.eqb a "*" || Ascii.eqb a "'" || Ascii.eqb a "%" then
    String "%" (String (upper_hex (byte_of a / 16)) (String (upper_hex (byte_of a mod 16)) EmptyString))
  else String a EmptyString.
Definition quote_char (a : Ascii.ascii) : string :=
  if (byte_of a =? 34) || (byte_of a =? 92) then String backslash (String a EmptyString) else String a EmptyString.
Definition FormatMediaType (kind attribute value : string) : string :=
  kind +:+ "; " +:+ attribute +:+
  (if negb (all_chars printable value) then "*=utf-8''" +:+ concat_chars percent_char value
   else "=" +:+ (if is_token value then value else dquote +:+ concat_chars quote_char value +:+ dquote)).

(** ** Uploads *)
Definition malformed_form (msg : string) : error :=
  EClass (WithFields (sentinel Invalid "malformed-request" "the upload is not a valid multipart form") [mkFieldError "body" msg]).
(** [io.ReadAll(io.LimitReader(part, limit))]. *)
Definition read_limited (limit : Z) (p : Part) : M string :=
  match PartError p with
  | Some e => if limit <=? Z.of_nat (String.length (PartContent p)) then Ok (str_take limit (PartContent p)) else Err e
  | None => Ok (str_take limit (PartContent p))
  end.
(** The loops over the parts: the last one named [file] counts. *)
Fixpoint read_file_parts {A} (limit : Z) (take_part : Part -> string -> A -> A) (parts : list Part) (acc : A) : M A :=
  match parts with
  | [] => Ok acc
  | p :: parts =>
      if negb (bool_decide (FormName p = "file")) then read_file_parts limit take_part parts acc
      else
        content ← read_limited limit p;
        read_file_parts limit take_part parts (take_part p content acc)
  end.
Definition read_form {A} (limit : Z) (take_part : Part -> string -> A -> A) (form : Multipart) (acc : A) : M A :=
  a ← read_file_parts limit take_part (Parts form) acc;
  match FormError form with Some msg => Err (malformed_form msg) | None => Ok a end.
Definition readImagePart (form : Multipart) : M Image :=
  read_form (MaxImageBytes + 1) (fun p content _ => mkImage content (PartType p)) form (mkImage "" "").

(** What the process gets from outside, beside the run time's: the reading of a UUID's text, what befalls the n-th
    statement on the pool and the database's clock at it, and the n-th draw of random bytes. *)
Class Platform `{UU : UUID} : Type := {
  uuid_Parse : string -> option uuid;
  fault : nat -> option driver_error;
  db_now : nat -> time;
  rand_Read : nat -> M string
}.

(** ** The state and the computations of the handlers *)
Section handlers.
Context `{DC : Decimal} `{UU : UUID} {Body : Type} {BC : BankingCore} {RT : Runtime} {AZ : Authorizer} {VC : ViewCodec Body} {CO : Collation}.

Record Site : Type := mkSite { st_world : World Body; st_keys : KeyWorld }.
Definition A (T : Type) : Type := Site -> outcome T * Site.
#[export] Instance A_ret : MRet A := fun T a s => (Done a, s).
#[export] Instance A_bind : MBind A := fun T U f p s =>
  match p s with
  | (Done a, s) => f a s
  | (Fails e, s) => (Fails e, s)
  | (Panics msg, s) => (Panics msg, s)
  end.
(** A call of the service, of the tables of keys and sessions, a value or an error. *)
Definition svc {T} (p : P Body T) : A T := fun s => let '(r, w) := p (st_world s) in (r, mkSite w (st_keys s)).
Definition dir {T} (k : K T) : A T := fun s => let '(r, kw) := k (st_keys s) in (of_M r, mkSite (st_world s) kw).
Definition answer {T} (r : M T) : A T := fun s => (of_M r, s).
Definition raise {T} (e : error) : A T := answer (Err e).
Definition attempt {T} (p : A T) : A (M T) := fun s =>
  match p s with
  | (Done a, s) => (Done (Ok a), s)
  | (Fails e, s) => (Done (Err e), s)
  | (Panics msg, s) => (Panics msg, s)
  end.

(** [fail]: the problem of an error, written. *)
Definition fail_with (v : Values) (r : Req) (h : Headers) (err : error) : Resp := WriteProblem h (ProblemFrom (v_request_id v) (Path r) err).

(** ** Values of the contract *)
Definition toDeadline (d : DeadlineView) : Oapi.Deadline :=
  Oapi.mkDeadline (dv_Basis d) (dv_Cycle d) (dv_DueAt d) (DeadlineKind_string (dv_Kind d)) (dv_MetAt d) (dv_StartedAt d)
    (DeadlineStatus_string (dv_Status d)).
(** A tree as a [map[string]any] or a value in one holds it: a number that overflows a [float64] is nil. *)
Fixpoint any_value (j : json) : json :=
  match j with
  | JNumber lit => match float_text lit with Some t => JNumber t | None => JNull end
  | JArray l => JArray (map any_value l)
  | JObject ms => JObject (sorted_members (map (fun m => (m.1, any_value m.2)) ms))
  | j => j
  end.
Definition event_payload (raw : RawMessage) : list (string * json) :=
  match raw with RawJSON (JObject ms) => map (fun m => (m.1, any_value m.2)) ms | _ => [] end.
Definition toLoggedEvent (e : EventView) : LoggedEvent :=
  mkLoggedEvent (evv_Actor e) (Event_string (evv_Event e)) (State_string (evv_FromState e)) (evv_OccurredAt e)
    (Some (event_payload (evv_Payload e))) (evv_Seq e) (State_string (evv_ToState e)) (evv_TraceID e).
Definition toLedgerEntry (l : LedgerView) : Oapi.LedgerEntry :=
  Oapi.mkLedgerEntry (Format (lv_Amount l) (lv_Currency l))
    ((fun c => Oapi.mkCoreReceipt (cv_LatencyMs c) (cv_ResponseCode c) (cv_RRN c)) <$> lv_Core l)
    (Account_string (lv_Credit l)) (lv_Currency l) (Account_string (lv_Debit l)) (PostingKind_string (lv_Kind l)) (lv_PostedAt l)
    (lv_Reference l) (lv_Seq l).
Definition toAttachment (a : AttachmentView) : Oapi.Attachment := Oapi.mkAttachment (av_ContentType a) (av_Filename a) (av_ID a) (av_Size a).
Definition some_text (s : string) : option string := if bool_decide (s = "") then None else Some s.
Definition toNotice (n : NoticeView) : Notice :=
  mkNotice (some_text (nv_Actor n)) (made (map toAttachment (nv_Attachments n))) (Channel_string (nv_Channel n)) (nv_CreatedAt n)
    (nv_Error n) (nv_ID n) (NoticeKind_string (nv_Kind n)) (nv_Recipient n) (nv_ResendOf n) (nv_SentAt n) (nv_Seq n) (nv_Subject n).
Definition toRisk (r : RiskView) : Oapi.Risk :=
  mkRisk (rv_AssessedAt r)
    (made (map (fun h => mkRiskHistory (rh_AssessedAt h) (rh_Score h) (rh_Seq h) (RiskTier_string (rh_Tier h))) (rv_History r)))
    (rv_Score r) (made (map (fun s => mkRiskSignal (SDetail s) (SName s) (SPoints s) (SWeight s)) (rv_Signals r)))
    (RiskTier_string (rv_Tier r)).
(** The answers are nil until there are some; some question is required, so an answered questionnaire has some. *)
Definition toQuestionnaire (q : QuestionnaireView) : Oapi.Questionnaire :=
  Oapi.mkQuestionnaire (if bool_decide (qv_Answers q = ∅) then None else Some (Some (qv_Answers q))) (made (qv_Inconsistencies q))
    (made (map (fun x => Oapi.mkQuestion (ID x) (Required x) (Text x) (AnswerType_string (QType x))) (qv_Questions q)))
    (Reason_string (qv_Reason q)) (qv_ReceivedAt q) (qv_SentAt q).
Definition toAPI (v : DisputeView) : Oapi.Dispute :=
  let money d := Format d (vw_Currency v) in
  Oapi.mkDispute (vw_AccountID v) (made (map Event_string (vw_AllowedEvents v))) (vw_Appeals v)
    (Oapi.mkBalances (money (BCustomer (vw_Balances v))) (money (BLoss (vw_Balances v))) (money (BRecovery (vw_Balances v)))
       (money (BSuspense (vw_Balances v))))
    (vw_Currency v) (made (map toDeadline (vw_Deadlines v))) (money (vw_DisputedAmount v)) (made (map toLoggedEvent (vw_Events v)))
    (vw_ID v) (made (map toLedgerEntry (vw_Ledger v))) (made (map toNotice (vw_Notices v))) (vw_OpenedAt v)
    (toQuestionnaire <$> vw_Questionnaire v) (Reason_string (vw_Reason v)) (Regime_string (vw_Regime v)) (toRisk <$> vw_Risk v)
    (State_string (vw_State v)) (vw_TransactionID v) (vw_UpdatedAt v) (vw_Version v).

Definition templateField (f : FormField) : TemplateField :=
  mkTemplateField (some_text (FldDefault f)) (FldID f) (FldLabel f) (if FldList f then Some true else None) (FldMax f) (FldMin f)
    (match FldOptions f with [] => None | os => Some (made (map (fun o => mkTemplateOption (OptKey o) (OptLabel o) (OptText o)) os)) end)
    (FldRequired f) (FieldType_string (FldType f)).
(** The paragraphs of a template are never nil: a form needs one, and a preview makes its own. *)
Definition templateOf (t : Template) : EmailTemplate :=
  mkEmailTemplate (TplDescription t) (made (map templateField (TplFields t))) (NoticeKind_string (TplKind t)) (TplLabel t) (TplLetter t)
    (made (TplParagraphs t)) (TplSubject t).
Definition overrideOf (o : option Override) : option TemplateOverride :=
  (fun o => mkTemplateOverride (some_text (OvDescription o)) (some_text (OvLabel o))
              (if bool_decide (OvOptionTexts o = ∅) then None else Some (Some (OvOptionTexts o)))
              (match OvParagraphs o with [] => None | ps => Some (made ps) end) (some_text (OvSubject o))) <$> o.
Definition settingOf (s : Correspondence.TemplateSetting) : Oapi.TemplateSetting :=
  Oapi.mkTemplateSetting (templateOf (ts_Base s)) (templateOf (ts_Effective s)) (overrideOf (ts_Override s)) (ts_UpdatedAt s)
    (some_text (ts_UpdatedBy s)).
Definition keyView (r : KeyRecord) (now : time) : TenantKey :=
  mkTenantKey (ky_CreatedAt r) (ky_ExpiresAt r) (ky_ID r) (ky_Label r) (ky_LastUsedAt r) (ky_Prefix r) (ky_RevokedAt r)
    (KeyRecord_Status r now).
Definition toSummary (d : DisputeSummary) : Oapi.DisputeSummary :=
  Oapi.mkDisputeSummary (ds_Currency d) (Format (ds_DisputedAmount d) (ds_Currency d)) (ds_ID d) (toDeadline <$> ds_NextDeadline d)
    (ds_OpenedAt d) (Reason_string (ds_Reason d)) (Regime_string (ds_Regime d)) (AScore <$> ds_Risk d)
    ((fun r => RiskTier_string (ATier r)) <$> ds_Risk d) (State_string (ds_State d)) (ds_TransactionID d) (ds_UpdatedAt d).
Definition toTenant (t : TenantProfile) : Oapi.Tenant := mkTenant (tp_HasLogo t) (tp_LogoUpdatedAt t) (tp_Name t).

(** ** Problems *)
(** [Handler]: [nil] stores disable their operations; the service's model for suggestions is beside it. *)
Class Handler : Type := {
  h_sessions : bool;
  h_tenants : bool;
  h_keys : bool;
  h_ready : Site -> M unit;
  h_decisions : option Decisions
}.
Context {PF : Platform} {HC : Handler}.

(** [Handler.problem]. *)
Definition problem (v : Values) (inst : string) (err : error) (disputeID : uuid) : A Oapi.Problem :=
  let p := ProblemFrom (v_request_id v) inst err in
  allowed ← (if errors_is err ErrInvalidTransition && negb (bool_decide (disputeID = uuid_Nil)) then
      view ← attempt (svc (GetDisputeView (v_ctx v) disputeID));
      mret (match view with Ok view => Some (made (map Event_string (vw_AllowedEvents view))) | Err _ => None end)
    else mret None);
  mret (Oapi.mkProblem allowed (PCode p) (some_text (PDetail p))
          (match PErrors p with [] => None | es => Some (made (map (fun f => Oapi.mkFieldError (Field f) (Message f)) es)) end)
          (Some (PInstance p)) (PRequestID p) (PRetryAfter p) (PRetryable p) (PStatus p) (PTitle p) (PType p)).

(** The failure of a call as the declared response of its problem's status; otherwise as it is. *)
Definition declared {T R} (v : Values) (inst : string) (disputeID : uuid) (responses : list (Z * (Oapi.Problem -> R))) (ok : T -> R)
    (p : A T) : A R :=
  r ← attempt p;
  match r with
  | Ok a => mret (ok a)
  | Err err =>
      p ← problem v inst err disputeID;
      match List.find (fun e => e.1 =? Problem_Status p) responses with
      | Some e => mret (e.2 p)
      | None => raise err
      end
  end.
(** Only a resource that does not exist has a declared response. *)
Definition or_not_found {T R} (v : Values) (inst : string) (disputeID : uuid) (not_found : Oapi.Problem -> R) (ok : T -> R) (p : A T) : A R :=
  r ← attempt p;
  match r with
  | Ok a => mret (ok a)
  | Err err =>
      if errors_is err ErrNotFound then
        p ← problem v inst err disputeID;
        mret (not_found p)
      else raise err
  end.
(** A store that is not configured. *)
Definition enabled_or_404 (on : bool) : A unit := if on then mret tt else raise (EClass ErrNotFound).

Definition actor_name (p : Analyst_) : string := if bool_decide (an_Email p = "") then an_Subject p else an_Email p.
Definition analyst_or (v : Values) (detail : string) : A Analyst_ :=
  match PrincipalFrom v with Some p => mret p | None => raise (EClass (WithDetail ErrAuthForbidden detail)) end.
Definition at_dispute (id : uuid) (rest : string) : string := "/disputes/" +:+ uuid_String id +:+ rest.

(** ** Sessions of the frontend server *)
Definition Handler_PutSession (sessionId : uuid) (body : SessionBlob) : A PutSessionResponseObject :=
  _ ← enabled_or_404 h_sessions;
  let blob := mkBlob (SessionBlob_TenantId body) (default "" (SessionBlob_Subject body)) (default "" (SessionBlob_Sid body))
                (SessionBlob_Ciphertext body) (SessionBlob_ExpiresAt body) in
  _ ← dir (session_Put fault db_now sessionId blob);
  mret PutSession204Response.
Definition Handler_GetSession (sessionId : uuid) : A GetSessionResponseObject :=
  _ ← enabled_or_404 h_sessions;
  b ← dir (session_Get fault db_now sessionId);
  mret (GetSession200JSONResponse (mkSessionBlob (bl_Ciphertext b) (bl_ExpiresAt b) (some_text (bl_Sid b)) (some_text (bl_Subject b))
          (bl_TenantID b))).
Definition Handler_DeleteSessions (sid : option string) (tenantId : option uuid) (subject : option string) : A DeleteSessionsResponseObject :=
  _ ← enabled_or_404 h_sessions;
  let sel := mkSelector (default "" sid) tenantId (default "" subject) in
  if bool_decide (sl_Sid sel = "") && bool_decide (sl_TenantID sel = None) then
    raise (EClass (sentinel Invalid "contract-violation" "give sid, or tenantId with an optional subject"))
  else
    n ← dir (DeleteMatching fault db_now sel);
    mret (DeleteSessions200JSONResponse n).
Definition Handler_DeleteSession (sessionId : uuid) : A DeleteSessionResponseObject :=
  _ ← enabled_or_404 h_sessions;
  _ ← dir (session_Delete fault db_now sessionId);
  mret DeleteSession204Response.

(** ** Tenants and keys *)
Definition toTenantSummary (t : TenantSummary) : Oapi.TenantSummary :=
  Oapi.mkTenantSummary (made (tsm_EmailDomains t)) (tsm_ID t) (some_text (tsm_Issuer t)) (tsm_Name t) (tsm_Slug t).
Definition Handler_ListTenants : A ListTenantsResponseObject :=
  _ ← enabled_or_404 h_tenants;
  list ← dir (ActiveTenants fault db_now);
  mret (ListTenants200JSONResponse (made (map toTenantSummary list))).

Definition tenantAdmin (v : Values) : A uuid :=
  _ ← enabled_or_404 h_keys;
  _ ← svc (Authorize (v_ctx v) ActionManageKeys);
  match IDFrom (v_ctx v) with Some id => mret id | None => raise (EClass ErrMissing) end.
Definition Handler_ListTenantKeys (v : Values) : A ListTenantKeysResponseObject :=
  tid ← tenantAdmin v;
  recs ← dir (ListForTenant fault db_now tid);
  now ← dir k_now;
  mret (ListTenantKeys200JSONResponse (made (map (fun r => keyView r now) recs))).
Definition past_expiry : error :=
  EClass (WithFields (sentinel Invalid "contract-violation" "expiresAt must be in the future")
            [mkFieldError "/expiresAt" "must be in the future"]).
Definition Handler_CreateTenantKey (v : Values) (body : CreateTenantKeyRequest) : A CreateTenantKeyResponseObject :=
  tid ← tenantAdmin v;
  _ ← (match CreateTenantKeyRequest_ExpiresAt body with
       | Some at_ => now ← dir k_now; if now <? at_ then mret tt else raise past_expiry
       | None => mret tt
       end);
  '(rec, secret) ← dir (Issue fault db_now rand_Read tid (TrimSpace (CreateTenantKeyRequest_Label body)) (CreateTenantKeyRequest_ExpiresAt body));
  now ← dir k_now;
  let k := keyView rec now in
  mret (CreateTenantKey201JSONResponse (mkIssuedTenantKey (TenantKey_CreatedAt k) (TenantKey_ExpiresAt k) (TenantKey_Id k)
          (TenantKey_Label k) (TenantKey_LastUsedAt k) (TenantKey_Prefix k) (TenantKey_RevokedAt k) secret (TenantKey_Status k))).
Definition Handler_RevokeTenantKey (v : Values) (keyId : uuid) : A RevokeTenantKeyResponseObject :=
  tid ← tenantAdmin v;
  _ ← dir (Revoke fault db_now tid keyId);
  mret RevokeTenantKey204Response.

(** ** Health *)
Definition Handler_GetHealthz : A GetHealthzResponseObject := mret (GetHealthz200JSONResponse (mkHealth None "ok")).
Definition Handler_GetReadyz : A GetReadyzResponseObject := fun s =>
  match h_ready s with
  | Err _ => (Done (GetReadyz503JSONResponse (mkHealth (Some (Some {["postgres" := "unavailable"]})) "unavailable")), s)
  | Ok _ => (Done (GetReadyz200JSONResponse (mkHealth (Some (Some {["postgres" := "ok"]})) "ok")), s)
  end.

(** ** Disputes *)
(** The probability of a suggestion that was decoded is a number JSON can write. *)
Definition proposal_of (s : AcceptedSuggestion) : ReasonProposal :=
  mkReasonProposal (AcceptedSuggestion_Reason s) (FormatFloat (AcceptedSuggestion_Probability s)) true.
Definition Handler_CreateDispute (v : Values) (key : option string) (body : CreateDisputeRequest) : A CreateDisputeResponseObject :=
  declared v "/disputes" uuid_Nil
    [(404, CreateDispute404ApplicationProblemPlusJSONResponse); (422, CreateDispute422ApplicationProblemPlusJSONResponse);
     (400, CreateDispute400ApplicationProblemPlusJSONResponse)]
    (fun res => CreateDispute201JSONResponse (toAPI (res_View res)))
    (svc (CreateDispute (v_ctx v)
       (mkCreateDisputeInput (CreateDisputeRequest_TransactionId body) (default "" (CreateDisputeRequest_Reason body))
          (idempotency key (body_text (CreateDisputeRequest_json body))) (proposal_of <$> CreateDisputeRequest_Suggestion body)))).
Definition Handler_GetDispute (v : Values) (disputeId : uuid) : A GetDisputeResponseObject :=
  or_not_found v (at_dispute disputeId "") uuid_Nil GetDispute404ApplicationProblemPlusJSONResponse
    (fun view => GetDispute200JSONResponse (toAPI view))
    (svc (GetDisputeView (v_ctx v) disputeId)).

(** A state or a reason of the contract; one the validator would not let through matches no dispute. *)
Definition known {T} (name : T -> string) (all : list T) (filter : option string) : option (option T) :=
  match filter with
  | None => Some None
  | Some s => Some <$> List.find (fun t => bool_decide (name t = s)) all
  end.
Definition invalid_cursor : error :=
  EClass (WithFields (sentinel Invalid "contract-violation" "cursor is not one this API issued")
            [mkFieldError "query.cursor" "invalid cursor"]).
Definition Handler_ListDisputes (v : Values) (state reason : option string) (limit : option Z) (cursor : option string) (overdue : option bool)
    : A ListDisputesResponseObject :=
  after ← (match cursor with
           | None => mret None
           | Some raw =>
               if bool_decide (raw = "") then mret None
               else match decodeCursor uuid_Parse raw with Some c => mret (Some c) | None => raise invalid_cursor end
           end);
  let query state reason := mkListQuery state reason after (default 25 limit) (default false overdue) 0 in
  page ← (match known State_string AllStates state, known Reason_string AllReasons reason with
          | Some state, Some reason => svc (ListDisputesPage (v_ctx v) (query state reason))
          | _, _ => _ ← svc (ListDisputesPage (v_ctx v) (query None None)); mret (mkPage [] None)
          end);
  mret (ListDisputes200JSONResponse (mkDisputePage (made (map toSummary (pg_Items page))) (encodeCursor <$> pg_Next page))).

Definition event_of_name (name : string) : Event :=
  default (EventOther name) (List.find (fun e => bool_decide (Event_string e = name)) AllEvents).
Definition Handler_ApplyDisputeEvent (v : Values) (disputeId : uuid) (key : option string) (body : ApplyEventRequest)
    : A ApplyDisputeEventResponseObject :=
  let payload := match ApplyEventRequest_Payload body with
    | Some p => match ApplyEventRequestPayload_json p with Ok j => RawJSON j | Err _ => RawEmpty end
    | None => RawEmpty
    end in
  declared v (at_dispute disputeId "/events") disputeId
    [(404, ApplyDisputeEvent404ApplicationProblemPlusJSONResponse); (409, ApplyDisputeEvent409ApplicationProblemPlusJSONResponse);
     (422, ApplyDisputeEvent422ApplicationProblemPlusJSONResponse); (400, ApplyDisputeEvent400ApplicationProblemPlusJSONResponse)]
    (fun res => ApplyDisputeEvent200JSONResponse (toAPI (res_View res)))
    (svc (ApplyEvent (v_ctx v)
       (mkApplyEventInput disputeId (event_of_name (ApplyEventRequest_Event body)) payload
          (idempotency key (body_text (ApplyEventRequest_json body)))))).
Definition Handler_ReassignDispute (v : Values) (disputeId : uuid) (body : ReassignDisputeJSONBody) : A ReassignDisputeResponseObject :=
  _ ← svc (Reassign (v_ctx v) disputeId (ReassignDisputeJSONBody_Team body));
  mret ReassignDispute204Response.

(** ** Correspondence *)
Definition kind_of_name (name : string) : NoticeKind :=
  default (NoticeOther name) (List.find (fun k => bool_decide (NoticeKind_string k = name))
    [NoticeAcknowledgement; NoticeQuestionnaire; NoticeProvisionalCredit; NoticeRefund; NoticeReversal; NoticeResolution;
     NoticeRequestForInformation; NoticeStatusUpdate; NoticeDocumentsReceived; NoticeCustom]).
Definition toEmailTemplates (cat : Correspondence.EmailTemplates) : Oapi.EmailTemplates :=
  let f := et_Facts cat in
  Oapi.mkEmailTemplates (mkTemplateFacts (FvAmount f) (FvBank f) (FvCustomer f) (FvDispute f) (FvMerchant f) (FvToday f))
    (made (map templateOf (et_Templates cat))).
Definition Handler_ListEmailTemplates (v : Values) (disputeId : uuid) : A ListEmailTemplatesResponseObject :=
  or_not_found v (at_dispute disputeId "/email-templates") uuid_Nil ListEmailTemplates404ApplicationProblemPlusJSONResponse
    (fun cat => ListEmailTemplates200JSONResponse (toEmailTemplates cat))
    (svc (ListEmailTemplates (v_ctx v) disputeId)).

Definition Handler_ComposeEmail (v : Values) (disputeId : uuid) (body : ComposeEmailRequest) : A ComposeEmailResponseObject :=
  principal ← analyst_or v "emails to customers are written by analysts, not by tenant keys";
  let attachments := default [] (default None (ComposeEmailRequest_Attachments body)) in
  declared v (at_dispute disputeId "/notices") disputeId
    [(404, ComposeEmail404ApplicationProblemPlusJSONResponse); (422, ComposeEmail422ApplicationProblemPlusJSONResponse);
     (400, ComposeEmail400ApplicationProblemPlusJSONResponse)]
    (fun view => ComposeEmail201JSONResponse (toAPI view))
    (svc (ComposeEmail (v_ctx v)
       (mkComposeEmailInput disputeId (kind_of_name (ComposeEmailRequest_Template body)) (default ∅ (ComposeEmailRequest_Fields body))
          attachments (actor_name principal)))).

Definition Handler_UploadAttachment (v : Values) (disputeId : uuid) (form : Multipart) : A UploadAttachmentResponseObject :=
  principal ← analyst_or v "attachments are added by analysts, not by tenant keys";
  in_ ← answer (read_form (MaxAttachmentBytes + 1)
          (fun p content _ => mkUploadInput disputeId (FileName p) (PartType p) content (an_Email principal)) form
          (mkUploadInput disputeId "" "" "" (an_Email principal)));
  declared v (at_dispute disputeId "/attachments") disputeId
    [(404, UploadAttachment404ApplicationProblemPlusJSONResponse); (422, UploadAttachment422ApplicationProblemPlusJSONResponse);
     (400, UploadAttachment400ApplicationProblemPlusJSONResponse)]
    (fun a => UploadAttachment201JSONResponse (Oapi.mkAttachment (at_ContentType a) (at_Filename a) (at_ID a) (at_Size a)))
    (svc (Upload (v_ctx v) in_)).

(** [fileResponse]. *)
Definition fileResponse (a : Store.Attachment) : visitor := fun hd =>
  Ok (mkResp 200
        (<["X-Content-Type-Options" := "nosniff"]>
        (<["Content-Disposition" := FormatMediaType "inline" "filename" (at_Filename a)]>
        (<["Content-Length" := show (Z.of_nat (String.length (at_Content a)))]>
        (<["Content-Type" := at_ContentType a]> hd)))) (BytesBody (at_Content a))).
Definition Handler_GetAttachment (v : Values) (disputeId attachmentId : uuid) : A GetAttachmentResponseObject :=
  or_not_found v (at_dispute disputeId ("/attachments/" +:+ uuid_String attachmentId)) uuid_Nil
    GetAttachment404ApplicationProblemPlusJSONResponse (fun a => GetAttachmentOther (fileResponse a))
    (svc (GetAttachmentFile (v_ctx v) disputeId attachmentId)).

Definition Handler_ResendNotice (v : Values) (disputeId : uuid) (noticeId : Z) : A ResendNoticeResponseObject :=
  principal ← analyst_or v "emails to customers are sent by analysts, not by tenant keys";
  declared v (at_dispute disputeId ("/notices/" +:+ show noticeId +:+ "/resend")) disputeId
    [(404, ResendNotice404ApplicationProblemPlusJSONResponse); (409, ResendNotice409ApplicationProblemPlusJSONResponse)]
    (fun view => ResendNotice201JSONResponse (toAPI view))
    (svc (Resend (v_ctx v) (mkResendInput disputeId noticeId (actor_name principal)))).

(** The paragraphs of a stored document with none are nil. *)
Definition toNoticeDocument (rec : NoticeRecord) (doc : Document) : NoticeDocument :=
  mkNoticeDocument (DocBank doc) (some_text (Basis doc)) (Channel_string (nr_Channel rec)) (Closing doc) (nr_CreatedAt rec) (Greeting doc)
    (nr_ID rec) (NoticeKind_string (nr_Kind rec)) (appended (Paragraphs doc)) (nr_Recipient rec) (nr_SentAt rec) (Subject doc).
Definition Handler_GetNotice (v : Values) (disputeId : uuid) (noticeId : Z) : A GetNoticeResponseObject :=
  or_not_found v (at_dispute disputeId ("/notices/" +:+ show noticeId)) uuid_Nil GetNotice404ApplicationProblemPlusJSONResponse
    (fun n => GetNotice200JSONResponse (toNoticeDocument n.1 n.2))
    (svc (GetNoticeDocument (v_ctx v) disputeId noticeId)).

(** ** The tenant's wording *)
Definition Handler_ListTenantTemplates (v : Values) : A ListTenantTemplatesResponseObject :=
  settings ← svc (ListTemplateSettings (v_ctx v));
  mret (ListTenantTemplates200JSONResponse (made (map settingOf settings))).
Definition override_of (body : TemplateOverride) : Override :=
  mkOverride (default "" (TemplateOverride_Label body)) (default "" (TemplateOverride_Description body)) (default "" (TemplateOverride_Subject body))
    (default [] (default None (TemplateOverride_Paragraphs body))) (default ∅ (default None (TemplateOverride_OptionTexts body))).
Definition Handler_PutTenantTemplate (v : Values) (kind : string) (body : TemplateOverride) : A PutTenantTemplateResponseObject :=
  let actor := match PrincipalFrom v with Some p => actor_name p | None => "" end in
  declared v ("/tenant-templates/" +:+ kind) uuid_Nil
    [(422, PutTenantTemplate422ApplicationProblemPlusJSONResponse); (400, PutTenantTemplate400ApplicationProblemPlusJSONResponse)]
    (fun setting => PutTenantTemplate200JSONResponse (settingOf setting))
    (svc (PutTemplateSetting (v_ctx v) (kind_of_name kind) (override_of body) actor)).
Definition Handler_DeleteTenantTemplate (v : Values) (kind : string) : A DeleteTenantTemplateResponseObject :=
  or_not_found v ("/tenant-templates/" +:+ kind) uuid_Nil DeleteTenantTemplate404ApplicationProblemPlusJSONResponse
    (fun _ => DeleteTenantTemplate204Response)
    (svc (DeleteTemplateSetting (v_ctx v) (kind_of_name kind))).

(** ** The organisation and the analyst *)
(** [imageResponse]. *)
Definition imageResponse (img : Image) : visitor := fun hd =>
  Ok (mkResp 200
        (<["Cache-Control" := "private, no-cache"]>
        (<["X-Content-Type-Options" := "nosniff"]>
        (<["Content-Length" := show (Z.of_nat (String.length (im_Content img)))]>
        (<["Content-Type" := im_ContentType img]> hd)))) (BytesBody (im_Content img))).
Definition Handler_GetTenant (v : Values) : A GetTenantResponseObject :=
  t ← svc (Profile.Tenant (v_ctx v));
  mret (GetTenant200JSONResponse (toTenant t)).
Definition Handler_GetTenantLogo (v : Values) : A GetTenantLogoResponseObject :=
  or_not_found v "/tenant/logo" uuid_Nil GetTenantLogo404ApplicationProblemPlusJSONResponse
    (fun img => GetTenantLogoOther (imageResponse img))
    (svc (TenantLogo (v_ctx v))).
Definition Handler_PutTenantLogo (v : Values) (form : Multipart) : A PutTenantLogoResponseObject :=
  img ← answer (readImagePart form);
  declared v "/tenant/logo" uuid_Nil [(422, PutTenantLogo422ApplicationProblemPlusJSONResponse)]
    (fun t => PutTenantLogo200JSONResponse (toTenant t))
    (svc (Service_PutTenantLogo (v_ctx v) img)).
Definition Handler_GetMyAvatar (v : Values) : A GetMyAvatarResponseObject :=
  principal ← analyst_or v "a picture belongs to an analyst, not to a tenant key";
  or_not_found v "/me/avatar" uuid_Nil GetMyAvatar404ApplicationProblemPlusJSONResponse
    (fun img => GetMyAvatarOther (imageResponse img))
    (svc (AnalystAvatar (v_ctx v) (an_Subject principal))).
Definition Handler_PutMyAvatar (v : Values) (form : Multipart) : A PutMyAvatarResponseObject :=
  principal ← analyst_or v "a picture belongs to an analyst, not to a tenant key";
  img ← answer (readImagePart form);
  declared v "/me/avatar" uuid_Nil [(422, PutMyAvatar422ApplicationProblemPlusJSONResponse)]
    (fun _ => PutMyAvatar204Response)
    (svc (Service_PutAnalystAvatar (v_ctx v) (an_Subject principal) img)).

(** ** Suggestions *)
Definition Handler_SuggestSearchFilters (body : SearchFilterSuggestionRequest) : A SuggestSearchFiltersResponseObject :=
  let filters := SuggestSearchFilters h_decisions (SearchFilterSuggestionRequest_Query body) in
  mret (SuggestSearchFilters200JSONResponse
    (mkSearchFilterSuggestion (SOverdue filters) (Reason_string <$> SReason filters) (State_string <$> SState filters))).
Definition Handler_SuggestDisputeReason (body : DisputeReasonSuggestionRequest) : A SuggestDisputeReasonResponseObject :=
  let proposal := SuggestDisputeReason h_decisions (DisputeReasonSuggestionRequest_Description body) in
  mret (SuggestDisputeReason200JSONResponse
    (mkDisputeReasonSuggestion (snd <$> proposal) ((fun p => Reason_string p.1) <$> proposal))).
Definition toSuggestedAnswer (a : Suggest.Answer) : SuggestedAnswer := mkSuggestedAnswer (AProbability a) (AValue a).
Definition Handler_SuggestQuestionnaireAnswers (v : Values) (disputeId : uuid) (body : QuestionnaireSuggestionRequest)
    : A SuggestQuestionnaireAnswersResponseObject :=
  or_not_found v (at_dispute disputeId "/suggestions/questionnaire") disputeId SuggestQuestionnaireAnswers404ApplicationProblemPlusJSONResponse
    (fun proposals => SuggestQuestionnaireAnswers200JSONResponse (mkQuestionnaireSuggestion (Some (toSuggestedAnswer <$> proposals))))
    (svc (SuggestQuestionnaireAnswers (v_ctx v) h_decisions disputeId (QuestionnaireSuggestionRequest_Reply body))).
End handlers.
