(* ===== verification/Server.v ===== *)
(** * Server: from a request on the wire to the answer of an operation ([ports/http/oapi/oapi.gen.go], [Mount] of
    [ports/http/handler.go], [operations.go], and the middleware [cmd/api] puts around them).

    A request passes the chain of middleware, the routes, the binding of its parameters ([siw_X]), the contract's
    validator, the decoding of its body ([sh_X]) and the handler. The binding library and the validator are others'
    code: parameters. A path the mux would first clean and redirect is not modelled. *)
From S2P Require Import Oapi Answers Prelude Errs GoTime GoJson Ext Types Access Text Http Template Store Wire Tx Sql PgStore Directory Auth Keys Sessions Limits Guard Service Correspondence Profile Suggest Handlers.

(** ** Operations *)
Inductive Operation : Type :=
| op_ListDisputes | op_CreateDispute | op_GetDispute | op_UploadAttachment | op_GetAttachment | op_ListEmailTemplates
| op_ApplyDisputeEvent | op_ComposeEmail | op_GetNotice | op_ResendNotice | op_SuggestQuestionnaireAnswers
| op_ReassignDispute | op_GetHealthz | op_DeleteSessions | op_DeleteSession | op_GetSession | op_PutSession
| op_ListTenants | op_GetMyAvatar | op_PutMyAvatar | op_GetReadyz | op_SuggestDisputeReason | op_SuggestSearchFilters
| op_GetTenant | op_ListTenantKeys | op_CreateTenantKey | op_RevokeTenantKey | op_ListTenantTemplates
| op_DeleteTenantTemplate | op_PutTenantTemplate | op_GetTenantLogo | op_PutTenantLogo.
#[export] Instance Operation_eq_dec : EqDecision Operation.
Proof. solve_decision. Defined.

(** [opClass] and [operationClass]. *)
Inductive opClass : Type := public | internal | tenantWide | decided.
Definition operationClass (o : Operation) : opClass :=
  match o with
  | op_GetHealthz | op_GetReadyz => public
  | op_ListDisputes | op_GetDispute | op_GetAttachment | op_GetNotice | op_ListEmailTemplates | op_GetTenant | op_GetTenantLogo
  | op_GetMyAvatar | op_PutMyAvatar | op_SuggestQuestionnaireAnswers | op_SuggestSearchFilters | op_SuggestDisputeReason => tenantWide
  | op_CreateDispute | op_ApplyDisputeEvent | op_ComposeEmail | op_UploadAttachment | op_ResendNotice | op_ReassignDispute
  | op_ListTenantTemplates | op_PutTenantTemplate | op_DeleteTenantTemplate | op_PutTenantLogo | op_ListTenantKeys
  | op_CreateTenantKey | op_RevokeTenantKey => decided
  | op_PutSession | op_GetSession | op_DeleteSession | op_DeleteSessions | op_ListTenants => internal
  end.
(** The security schemes the contract asks of an operation: the bearer's unless it says otherwise. *)
Definition security (o : Operation) : list string :=
  match o with
  | op_GetHealthz | op_GetReadyz => []
  | op_PutSession | op_GetSession | op_DeleteSession | op_DeleteSessions | op_ListTenants => ["serviceKey"]
  | _ => ["bearerAuth"]
  end.

(** ** Routes: [HandlerWithOptions] over [http.ServeMux] *)
Definition routes : list (string * string * Operation) :=
  [("GET", "/healthz", op_GetHealthz); ("GET", "/readyz", op_GetReadyz);
   ("GET", "/disputes", op_ListDisputes); ("POST", "/disputes", op_CreateDispute);
   ("GET", "/disputes/{disputeId}", op_GetDispute); ("POST", "/disputes/{disputeId}/events", op_ApplyDisputeEvent);
   ("GET", "/disputes/{disputeId}/email-templates", op_ListEmailTemplates);
   ("POST", "/disputes/{disputeId}/notices", op_ComposeEmail);
   ("POST", "/disputes/{disputeId}/attachments", op_UploadAttachment);
   ("GET", "/disputes/{disputeId}/attachments/{attachmentId}", op_GetAttachment);
   ("POST", "/disputes/{disputeId}/team", op_ReassignDispute);
   ("POST", "/disputes/{disputeId}/notices/{noticeId}/resend", op_ResendNotice);
   ("GET", "/disputes/{disputeId}/notices/{noticeId}", op_GetNotice);
   ("GET", "/tenant-templates", op_ListTenantTemplates); ("DELETE", "/tenant-templates/{kind}", op_DeleteTenantTemplate);
   ("PUT", "/tenant-templates/{kind}", op_PutTenantTemplate); ("POST", "/suggestions/search-filters", op_SuggestSearchFilters);
   ("POST", "/disputes/{disputeId}/suggestions/questionnaire", op_SuggestQuestionnaireAnswers);
   ("POST", "/suggestions/dispute-reason", op_SuggestDisputeReason); ("GET", "/tenant", op_GetTenant);
   ("GET", "/tenant/logo", op_GetTenantLogo); ("PUT", "/tenant/logo", op_PutTenantLogo);
   ("GET", "/me/avatar", op_GetMyAvatar); ("PUT", "/me/avatar", op_PutMyAvatar);
   ("GET", "/tenant-keys", op_ListTenantKeys); ("POST", "/tenant-keys", op_CreateTenantKey);
   ("DELETE", "/tenant-keys/{keyId}", op_RevokeTenantKey); ("DELETE", "/internal/sessions/{sessionId}", op_DeleteSession);
   ("GET", "/internal/sessions/{sessionId}", op_GetSession); ("PUT", "/internal/sessions/{sessionId}", op_PutSession);
   ("DELETE", "/internal/sessions", op_DeleteSessions); ("GET", "/internal/tenants", op_ListTenants)].

(** A pattern's segments against a path's: a segment in braces matches any one that is not empty. *)
Definition wildcard (pattern : string) : option string :=
  match cut_prefix "{" pattern with
  | Some rest => match Cut rest "}" with (name, Some _) => Some name | _ => None end
  | None => None
  end.
Fixpoint match_segments (pattern path : list string) (values : gmap string string) : option (gmap string string) :=
  match pattern, path with
  | [], [] => Some values
  | p :: pattern, s :: path =>
      match wildcard p with
      | Some name => if bool_decide (s = "") then None else match_segments pattern path (<[name := s]> values)
      | None => if bool_decide (p = s) then match_segments pattern path values else None
      end
  | _, _ => None
  end.
Definition match_path (pattern path : string) : option (gmap string string) :=
  match_segments (Split pattern "/") (Split path "/") ∅.
(** A [GET] pattern serves [HEAD] as well. *)
Definition serves_method (pattern method : string) : bool :=
  bool_decide (pattern = method) || (bool_decide (pattern = "GET") && bool_decide (method = "HEAD")).
Inductive routed (T : Type) : Type :=
| Found (target : T) (values : gmap string string)
| WrongMethod (allowed : list string)
| NoRoute.
Arguments Found {T}.
Arguments WrongMethod {T}.
Arguments NoRoute {T}.
Definition route {T} (table : list (string * string * T)) (r : Req) : routed T :=
  let here := omap (fun e => (fun values => (e.1.1, e.2, values)) <$> match_path e.1.2 (Path r)) table in
  match List.find (fun e => serves_method e.1.1 (Method r)) here with
  | Some e => Found e.1.2 e.2
  | None =>
      match here with
      | [] => NoRoute
      | _ => WrongMethod (sort_Slice (fun m => m) (concat (map (fun e => if bool_decide (e.1.1 = "GET") then ["GET"; "HEAD"] else [e.1.1]) here)))
      end
  end.

Section server.
Context `{DC : Decimal} `{UU : UUID} {Body : Type} {BC : BankingCore} {RT : Runtime} {AZ : Authorizer} {VC : ViewCodec Body} {CO : Collation}.
Context {PF : Platform} {HC : Handler (Body := Body)}.

(** What the process keeps between requests. *)
Record Server : Type := mkServer {
  sv_site : Site (Body := Body);
  sv_failures : FailureLimiter;
  sv_budget : Budget;
  sv_draws : nat
}.
Definition put_site (x : Site) (s : Server) : Server := mkServer x (sv_failures s) (sv_budget s) (sv_draws s).
Definition put_failures (f : FailureLimiter) (s : Server) : Server := mkServer (sv_site s) f (sv_budget s) (sv_draws s).
Definition put_budget (b : Budget) (s : Server) : Server := mkServer (sv_site s) (sv_failures s) b (sv_draws s).
Definition put_draws (n : nat) (s : Server) : Server := mkServer (sv_site s) (sv_failures s) (sv_budget s) n.
Definition Endpoint : Type := Http.Handler Values Server.

(** [fail] as an endpoint. *)
Definition failing (err : error) : Endpoint := fun v r hd s => (Wrote (fail_with v r hd err), s).

(** ** The strict handlers *)
(** The library's texts of what cannot be bound or decoded are not modelled beyond what the program reads of them. *)
Definition malformed_request (cause : string) : error := detailed errMalformed cause.
Definition strict {R} (visit : R -> visitor) (handler : Values -> A R) : Endpoint := fun v r hd s =>
  let '(out, site) := handler v (sv_site s) in
  let s := put_site site s in
  match out with
  | Done response =>
      match visit response hd with
      | Ok resp => (Wrote resp, s)
      | Err err => failing err v r hd s
      end
  | Fails err => failing err v r hd s
  | Panics msg => (Panicked msg hd, s)
  end.
Definition with_json {B} (into : decoder B) (zero : B) (k : B -> Endpoint) : Endpoint := fun v r hd s =>
  match Unmarshal into (BodyJSON (rq_Body r)) zero with
  | Some body => k body v r hd s
  | None => failing (malformed_request ("can't decode JSON body: " +:+ json_error)) v r hd s
  end.
Definition with_form (k : Multipart -> Endpoint) : Endpoint := fun v r hd s =>
  match BodyForm (rq_Body r) with
  | Ok form => k form v r hd s
  | Err msg => failing (malformed_request ("can't decode multipart body: " +:+ msg)) v r hd s
  end.

Definition sh_ListDisputes (state reason : option string) (limit : option Z) (cursor : option string) (overdue : option bool) : Endpoint :=
  strict VisitListDisputesResponse (fun v => Handler_ListDisputes v state reason limit cursor overdue).
Definition sh_CreateDispute (key : option string) : Endpoint :=
  with_json (into_CreateDisputeRequest uuid_Parse) (zero_CreateDisputeRequest) (fun body =>
  strict VisitCreateDisputeResponse (fun v => Handler_CreateDispute v key body)).
Definition sh_GetDispute (disputeId : uuid) : Endpoint :=
  strict VisitGetDisputeResponse (fun v => Handler_GetDispute v disputeId).
Definition sh_UploadAttachment (disputeId : uuid) : Endpoint :=
  with_form (fun form =>
  strict VisitUploadAttachmentResponse (fun v => Handler_UploadAttachment v disputeId form)).
Definition sh_GetAttachment (disputeId : uuid) (attachmentId : uuid) : Endpoint :=
  strict VisitGetAttachmentResponse (fun v => Handler_GetAttachment v disputeId attachmentId).
Definition sh_ListEmailTemplates (disputeId : uuid) : Endpoint :=
  strict VisitListEmailTemplatesResponse (fun v => Handler_ListEmailTemplates v disputeId).
Definition sh_ApplyDisputeEvent (disputeId : uuid) (key : option string) : Endpoint :=
  with_json (into_ApplyEventRequest) (zero_ApplyEventRequest) (fun body =>
  strict VisitApplyDisputeEventResponse (fun v => Handler_ApplyDisputeEvent v disputeId key body)).
Definition sh_ComposeEmail (disputeId : uuid) : Endpoint :=
  with_json (into_ComposeEmailRequest uuid_Parse) (zero_ComposeEmailRequest) (fun body =>
  strict VisitComposeEmailResponse (fun v => Handler_ComposeEmail v disputeId body)).
Definition sh_GetNotice (disputeId : uuid) (noticeId : Z) : Endpoint :=
  strict VisitGetNoticeResponse (fun v => Handler_GetNotice v disputeId noticeId).
Definition sh_ResendNotice (disputeId : uuid) (noticeId : Z) : Endpoint :=
  strict VisitResendNoticeResponse (fun v => Handler_ResendNotice v disputeId noticeId).
Definition sh_SuggestQuestionnaireAnswers (disputeId : uuid) : Endpoint :=
  with_json (into_QuestionnaireSuggestionRequest) (mkQuestionnaireSuggestionRequest "") (fun body =>
  strict VisitSuggestQuestionnaireAnswersResponse (fun v => Handler_SuggestQuestionnaireAnswers v disputeId body)).
Definition sh_ReassignDispute (disputeId : uuid) : Endpoint :=
  with_json (into_ReassignDisputeJSONBody) (mkReassignDisputeJSONBody "") (fun body =>
  strict VisitReassignDisputeResponse (fun v => Handler_ReassignDispute v disputeId body)).
Definition sh_GetHealthz : Endpoint :=
  strict VisitGetHealthzResponse (fun v => Handler_GetHealthz).
Definition sh_DeleteSessions (sid : option string) (tenantId : option uuid) (subject : option string) : Endpoint :=
  strict VisitDeleteSessionsResponse (fun v => Handler_DeleteSessions sid tenantId subject).
Definition sh_DeleteSession (sessionId : uuid) : Endpoint :=
  strict VisitDeleteSessionResponse (fun v => Handler_DeleteSession sessionId).
Definition sh_GetSession (sessionId : uuid) : Endpoint :=
  strict VisitGetSessionResponse (fun v => Handler_GetSession sessionId).
Definition sh_PutSession (sessionId : uuid) : Endpoint :=
  with_json (into_SessionBlob uuid_Parse) (zero_SessionBlob) (fun body =>
  strict VisitPutSessionResponse (fun v => Handler_PutSession sessionId body)).
Definition sh_ListTenants : Endpoint :=
  strict VisitListTenantsResponse (fun v => Handler_ListTenants).
Definition sh_GetMyAvatar : Endpoint :=
  strict VisitGetMyAvatarResponse (fun v => Handler_GetMyAvatar v).
Definition sh_PutMyAvatar : Endpoint :=
  with_form (fun form =>
  strict VisitPutMyAvatarResponse (fun v => Handler_PutMyAvatar v form)).
Definition sh_GetReadyz : Endpoint :=
  strict VisitGetReadyzResponse (fun v => Handler_GetReadyz).
Definition sh_SuggestDisputeReason : Endpoint :=
  with_json (into_DisputeReasonSuggestionRequest) (mkDisputeReasonSuggestionRequest "") (fun body =>
  strict VisitSuggestDisputeReasonResponse (fun v => Handler_SuggestDisputeReason body)).
Definition sh_SuggestSearchFilters : Endpoint :=
  with_json (into_SearchFilterSuggestionRequest) (mkSearchFilterSuggestionRequest "") (fun body =>
  strict VisitSuggestSearchFiltersResponse (fun v => Handler_SuggestSearchFilters body)).
Definition sh_GetTenant : Endpoint :=
  strict VisitGetTenantResponse (fun v => Handler_GetTenant v).
Definition sh_ListTenantKeys : Endpoint :=
  strict VisitListTenantKeysResponse (fun v => Handler_ListTenantKeys v).
Definition sh_CreateTenantKey : Endpoint :=
  with_json (into_CreateTenantKeyRequest) (zero_CreateTenantKeyRequest) (fun body =>
  strict VisitCreateTenantKeyResponse (fun v => Handler_CreateTenantKey v body)).
Definition sh_RevokeTenantKey (keyId : uuid) : Endpoint :=
  strict VisitRevokeTenantKeyResponse (fun v => Handler_RevokeTenantKey v keyId).
Definition sh_ListTenantTemplates : Endpoint :=
  strict VisitListTenantTemplatesResponse (fun v => Handler_ListTenantTemplates v).
Definition sh_DeleteTenantTemplate (kind : string) : Endpoint :=
  strict VisitDeleteTenantTemplateResponse (fun v => Handler_DeleteTenantTemplate v kind).
Definition sh_PutTenantTemplate (kind : string) : Endpoint :=
  with_json (into_TemplateOverride) (zero_TemplateOverride) (fun body =>
  strict VisitPutTenantTemplateResponse (fun v => Handler_PutTenantTemplate v kind body)).
Definition sh_GetTenantLogo : Endpoint :=
  strict VisitGetTenantLogoResponse (fun v => Handler_GetTenantLogo v).
Definition sh_PutTenantLogo : Endpoint :=
  with_form (fun form =>
  strict VisitPutTenantLogoResponse (fun v => Handler_PutTenantLogo v form)).

(** ** The validator and the binding of parameters *)
(** What the binding library makes of the text of a parameter: a value, or the text of its error. *)
Class Binder : Type := {
  path_uuid : string -> res string uuid;
  path_int64 : string -> res string Z;
  path_text : string -> res string string;
  header_text : string -> res string string;
  query_text : list string -> res string string;
  query_int : list string -> res string Z;
  query_bool : list string -> res string bool;
  query_uuid : list string -> res string uuid
}.
(** What the validator finds wrong with a request of an operation, its security apart. *)
Class Validator : Type := violation : Operation -> Req -> option Violation.
Context {BD : Binder} {VD : Validator}.

(** Security first; whatever a scheme's check says, its failure is answered as an unauthenticated caller's. *)
Definition middlewares (o : Operation) (next : Endpoint) : Endpoint := fun v r hd s =>
  if existsb (fun scheme => bool_decide (RequiredScheme v scheme <> None)) (security o) then failing (EClass ErrUnauthenticated) v r hd s
  else match violation o r with
       | Some vi => failing (contractViolation vi) v r hd s
       | None => next v r hd s
       end.

Definition invalid_format (name text : string) : string := "Invalid format for parameter " +:+ name +:+ ": " +:+ text.
(** A parameter bound, or the answer of [ErrorHandlerFunc]. *)
Definition bound {T} (param : Req -> res string T) (k : T -> Endpoint) : Endpoint := fun v r hd s =>
  match param r with
  | Ok a => k a v r hd s
  | Err text => failing (malformed_request text) v r hd s
  end.
Definition path_param {T} (name : string) (bind : string -> res string T) (r : Req) : res string T :=
  match bind (default "" (rq_PathValues r !! name)) with Ok a => Ok a | Err text => Err (invalid_format name text) end.
Definition query_param {T} (name : string) (bind : list string -> res string T) (r : Req) : res string (option T) :=
  match rq_Query r !! name with
  | None => Ok None
  | Some values => match bind values with Ok a => Ok (Some a) | Err text => Err (invalid_format name text) end
  end.
Definition header_param {T} (name : string) (bind : string -> res string T) (r : Req) : res string (option T) :=
  match rq_Headers r !! name with
  | None => Ok None
  | Some [value] => match bind value with Ok a => Ok (Some a) | Err text => Err (invalid_format name text) end
  | Some values => Err ("Expected one value for " +:+ name +:+ ", got " +:+ show (Z.of_nat (length values)))
  end.

Definition siw_ListDisputes : Endpoint :=
  bound (query_param "state" query_text) (fun state =>
  bound (query_param "reason" query_text) (fun reason =>
  bound (query_param "limit" query_int) (fun limit =>
  bound (query_param "cursor" query_text) (fun cursor =>
  bound (query_param "overdue" query_bool) (fun overdue =>
  middlewares op_ListDisputes (sh_ListDisputes state reason limit cursor overdue)))))).
Definition siw_CreateDispute : Endpoint :=
  bound (header_param "Idempotency-Key" header_text) (fun key =>
  middlewares op_CreateDispute (sh_CreateDispute key)).
Definition siw_GetDispute : Endpoint :=
  bound (path_param "disputeId" path_uuid) (fun disputeId =>
  middlewares op_GetDispute (sh_GetDispute disputeId)).
Definition siw_UploadAttachment : Endpoint :=
  bound (path_param "disputeId" path_uuid) (fun disputeId =>
  middlewares op_UploadAttachment (sh_UploadAttachment disputeId)).
Definition siw_GetAttachment : Endpoint :=
  bound (path_param "disputeId" path_uuid) (fun disputeId =>
  bound (path_param "attachmentId" path_uuid) (fun attachmentId =>
  middlewares op_GetAttachment (sh_GetAttachment disputeId attachmentId))).
Definition siw_ListEmailTemplates : Endpoint :=
  bound (path_param "disputeId" path_uuid) (fun disputeId =>
  middlewares op_ListEmailTemplates (sh_ListEmailTemplates disputeId)).
Definition siw_ApplyDisputeEvent : Endpoint :=
  bound (path_param "disputeId" path_uuid) (fun disputeId =>
  bound (header_param "Idempotency-Key" header_text) (fun key =>
  middlewares op_ApplyDisputeEvent (sh_ApplyDisputeEvent disputeId key))).
Definition siw_ComposeEmail : Endpoint :=
  bound (path_param "disputeId" path_uuid) (fun disputeId =>
  middlewares op_ComposeEmail (sh_ComposeEmail disputeId)).
Definition siw_GetNotice : Endpoint :=
  bound (path_param "disputeId" path_uuid) (fun disputeId =>
  bound (path_param "noticeId" path_int64) (fun noticeId =>
  middlewares op_GetNotice (sh_GetNotice disputeId noticeId))).
Definition siw_ResendNotice : Endpoint :=
  bound (path_param "disputeId" path_uuid) (fun disputeId =>
  bound (path_param "noticeId" path_int64) (fun noticeId =>
  middlewares op_ResendNotice (sh_ResendNotice disputeId noticeId))).
Definition siw_SuggestQuestionnaireAnswers : Endpoint :=
  bound (path_param "disputeId" path_uuid) (fun disputeId =>
  middlewares op_SuggestQuestionnaireAnswers (sh_SuggestQuestionnaireAnswers disputeId)).
Definition siw_ReassignDispute : Endpoint :=
  bound (path_param "disputeId" path_uuid) (fun disputeId =>
  middlewares op_ReassignDispute (sh_ReassignDispute disputeId)).
Definition siw_GetHealthz : Endpoint :=
  middlewares op_GetHealthz (sh_GetHealthz).
Definition siw_DeleteSessions : Endpoint :=
  bound (query_param "sid" query_text) (fun sid =>
  bound (query_param "tenantId" query_uuid) (fun tenantId =>
  bound (query_param "subject" query_text) (fun subject =>
  middlewares op_DeleteSessions (sh_DeleteSessions sid tenantId subject)))).
Definition siw_DeleteSession : Endpoint :=
  bound (path_param "sessionId" path_uuid) (fun sessionId =>
  middlewares op_DeleteSession (sh_DeleteSession sessionId)).
Definition siw_GetSession : Endpoint :=
  bound (path_param "sessionId" path_uuid) (fun sessionId =>
  middlewares op_GetSession (sh_GetSession sessionId)).
Definition siw_PutSession : Endpoint :=
  bound (path_param "sessionId" path_uuid) (fun sessionId =>
  middlewares op_PutSession (sh_PutSession sessionId)).
Definition siw_ListTenants : Endpoint :=
  middlewares op_ListTenants (sh_ListTenants).
Definition siw_GetMyAvatar : Endpoint :=
  middlewares op_GetMyAvatar (sh_GetMyAvatar).
Definition siw_PutMyAvatar : Endpoint :=
  middlewares op_PutMyAvatar (sh_PutMyAvatar).
Definition siw_GetReadyz : Endpoint :=
  middlewares op_GetReadyz (sh_GetReadyz).
Definition siw_SuggestDisputeReason : Endpoint :=
  middlewares op_SuggestDisputeReason (sh_SuggestDisputeReason).
Definition siw_SuggestSearchFilters : Endpoint :=
  middlewares op_SuggestSearchFilters (sh_SuggestSearchFilters).
Definition siw_GetTenant : Endpoint :=
  middlewares op_GetTenant (sh_GetTenant).
Definition siw_ListTenantKeys : Endpoint :=
  middlewares op_ListTenantKeys (sh_ListTenantKeys).
Definition siw_CreateTenantKey : Endpoint :=
  middlewares op_CreateTenantKey (sh_CreateTenantKey).
Definition siw_RevokeTenantKey : Endpoint :=
  bound (path_param "keyId" path_uuid) (fun keyId =>
  middlewares op_RevokeTenantKey (sh_RevokeTenantKey keyId)).
Definition siw_ListTenantTemplates : Endpoint :=
  middlewares op_ListTenantTemplates (sh_ListTenantTemplates).
Definition siw_DeleteTenantTemplate : Endpoint :=
  bound (path_param "kind" path_text) (fun kind =>
  middlewares op_DeleteTenantTemplate (sh_DeleteTenantTemplate kind)).
Definition siw_PutTenantTemplate : Endpoint :=
  bound (path_param "kind" path_text) (fun kind =>
  middlewares op_PutTenantTemplate (sh_PutTenantTemplate kind)).
Definition siw_GetTenantLogo : Endpoint :=
  middlewares op_GetTenantLogo (sh_GetTenantLogo).
Definition siw_PutTenantLogo : Endpoint :=
  middlewares op_PutTenantLogo (sh_PutTenantLogo).

(** ** The mux *)
(** The operations, and the contract itself beside them. *)
Inductive target : Type := ToOperation (o : Operation) | ToSpec.
Definition serve (o : Operation) : Endpoint :=
  match o with
  | op_ListDisputes => siw_ListDisputes | op_CreateDispute => siw_CreateDispute | op_GetDispute => siw_GetDispute
  | op_UploadAttachment => siw_UploadAttachment | op_GetAttachment => siw_GetAttachment
  | op_ListEmailTemplates => siw_ListEmailTemplates | op_ApplyDisputeEvent => siw_ApplyDisputeEvent
  | op_ComposeEmail => siw_ComposeEmail | op_GetNotice => siw_GetNotice | op_ResendNotice => siw_ResendNotice
  | op_SuggestQuestionnaireAnswers => siw_SuggestQuestionnaireAnswers | op_ReassignDispute => siw_ReassignDispute
  | op_GetHealthz => siw_GetHealthz | op_DeleteSessions => siw_DeleteSessions | op_DeleteSession => siw_DeleteSession
  | op_GetSession => siw_GetSession | op_PutSession => siw_PutSession | op_ListTenants => siw_ListTenants
  | op_GetMyAvatar => siw_GetMyAvatar | op_PutMyAvatar => siw_PutMyAvatar | op_GetReadyz => siw_GetReadyz
  | op_SuggestDisputeReason => siw_SuggestDisputeReason | op_SuggestSearchFilters => siw_SuggestSearchFilters
  | op_GetTenant => siw_GetTenant | op_ListTenantKeys => siw_ListTenantKeys | op_CreateTenantKey => siw_CreateTenantKey
  | op_RevokeTenantKey => siw_RevokeTenantKey | op_ListTenantTemplates => siw_ListTenantTemplates
  | op_DeleteTenantTemplate => siw_DeleteTenantTemplate | op_PutTenantTemplate => siw_PutTenantTemplate
  | op_GetTenantLogo => siw_GetTenantLogo | op_PutTenantLogo => siw_PutTenantLogo
  end.

Context (specJSON : string).
Definition serve_spec : Endpoint := fun _ _ hd s => (Wrote (mkResp 200 (with_type "application/json" hd) (BytesBody specJSON)), s).
Definition table : list (string * string * target) :=
  map (fun e => (e.1.1, e.1.2, ToOperation e.2)) routes ++ [("GET", "/openapi.json", ToSpec)].
Definition with_path_values (values : gmap string string) (r : Req) : Req :=
  mkReq (Method r) (Path r) (RemoteAddr r) (rq_Headers r) (rq_Query r) values (rq_Body r).
Definition mux : Endpoint := fun v r hd s =>
  match route table r with
  | Found (ToOperation o) values => serve o v (with_path_values values r) hd s
  | Found ToSpec _ => serve_spec v r hd s
  | WrongMethod allowed => (Wrote (http_Error (<["Allow" := String.concat ", " allowed]> hd) "Method Not Allowed" 405), s)
  | NoRoute => (Wrote (http_NotFound hd), s)
  end.

(** ** The chain of [cmd/api] *)
Record Config : Type := mkConfig {
  cf_InternalCIDRs : list string;
  cf_CORSOrigins : list string;
  cf_AuthFailuresPerMinute : Z;
  cf_ServiceKey : string;
  cf_RatePerMinute : Z
}.
Context (cfg : Config) (oidc : option Issuers) (reachable : nat -> bool) (request_bytes : nat -> string).

(** [Bearer] over the key store: at most one of its queries runs, for the credential's hash or its issuer. *)
Definition resolved (r : Req) (kw : KeyWorld) : Resolver * option Issuers * KeyWorld :=
  let nobody : Resolver := fun _ => Err (EClass ErrNotFound) in
  match credential r with
  | None => (nobody, oidc, kw)
  | Some cred =>
      if LooksLikeJWT cred then
        match oidc with
        | None => (nobody, None, kw)
        | Some o =>
            match unverifiedIssuer o cred with
            | None => (nobody, Some o, kw)
            | Some issuer =>
                let '(tenant, kw) := KeyStore_TenantForIssuer fault db_now issuer kw in
                (nobody, Some (mkIssuers (fun _ => tenant) (json_text o) (discover o) (verify_token o)), kw)
            end
        end
      else
        let '(key, kw) := KeyForHash fault db_now (HashKey cred) kw in (fun _ => key, oidc, kw)
  end.
Definition BearerStore : Middleware Values Server := fun next v r hd s =>
  let site := sv_site s in
  let '(keys, issuers, kw) := resolved r (st_keys site) in
  Bearer keys issuers next v r hd (put_site (mkSite (st_world site) kw) s).

(** The request log and the span that names the route change nothing of an answer. *)
Definition middleware : list (Middleware Values Server) :=
  [Recover; RequestID request_bytes sv_draws put_draws;
   InternalOnly "/internal/" (cf_InternalCIDRs cfg);
   CORS (cf_CORSOrigins cfg);
   BearerStore;
   FailureMiddleware sv_failures put_failures (cf_AuthFailuresPerMinute cfg);
   ServiceKey (cf_ServiceKey cfg);
   RateMiddleware reachable sv_budget put_budget (cf_RatePerMinute cfg)].
Definition API : Endpoint := Chain mux middleware.
End server.
