(* ===== verification/Requests.v ===== *)
(** * Requests: everything the service does to a store on a caller's behalf, as one relation. *)
From S2P Require Import Prelude Errs GoTime GoJson Ext Types Regimes Lifecycle Deadlines Ledger Questionnaire Risk Notice Access Text Template Store Tx Service Correspondence ServiceFacts Frames Profile.

Section requests.
Context `{DC : Decimal} `{UU : UUID} {Body : Type} {BC : BankingCore} {RT : Runtime} {AZ : Authorizer} {VC : ViewCodec Body}.
Implicit Types (w : World Body) (id : uuid).

(** The outcome is forgotten: what is left is the world before and after. *)
Inductive correspondence (c : Ctx) : World Body -> World Body -> Prop :=
| cor_compose in_ w r w' : ComposeEmail c in_ w = (r, w') -> correspondence c w w'
| cor_resend in_ w r w' : Resend c in_ w = (r, w') -> correspondence c w w'
| cor_upload in_ w r w' : Upload c in_ w = (r, w') -> correspondence c w w'
| cor_put kind o actor w r w' : PutTemplateSetting c kind o actor w = (r, w') -> correspondence c w w'
| cor_delete kind w r w' : DeleteTemplateSetting c kind w = (r, w') -> correspondence c w w'
| cor_logo img w r w' : Service_PutTenantLogo c img w = (r, w') -> correspondence c w w'
| cor_avatar subject img w r w' : Service_PutAnalystAvatar c subject img w = (r, w') -> correspondence c w w'.
Inductive request (c : Ctx) : World Body -> World Body -> Prop :=
| req_create in_ w r w' : CreateDispute c in_ w = (r, w') -> request c w w'
| req_apply in_ w r w' : ApplyEvent c in_ w = (r, w') -> request c w w'
| req_reassign id team w r w' : Reassign c id team w = (r, w') -> request c w w'
| req_correspondence w w' : correspondence c w w' -> request c w w'.

Section frames.
Context (R : relation (MemStore Body)) {HR : PreOrder R} {HT : Restorable R}.
Context {MO : MailOps R} {WO : WordingOps R}.
Hypothesis logos : forall t img at_, frames R (op (PutTenantLogo t img at_)).
Hypothesis avatars : forall t subject img, frames R (op (PutAnalystAvatar t subject img)).
#[local] Hint Resolve logos avatars : frames.

Lemma frames_PutTenantLogo c img : frames R (Service_PutTenantLogo c img).
Proof. unfold Service_PutTenantLogo. frame_tac. Qed.
Lemma frames_PutAnalystAvatar c subject img : frames R (Service_PutAnalystAvatar c subject img).
Proof. unfold Service_PutAnalystAvatar. frame_tac. Qed.

Lemma correspondence_frame c w w' : correspondence c w w' -> R (w_store w) (w_store w').
Proof.
  intros [in_ w0 r w1 H|in_ w0 r w1 H|in_ w0 r w1 H|k o a w0 r w1 H|k w0 r w1 H|i w0 r w1 H|s i w0 r w1 H]; revert H.
  - apply frames_ComposeEmail; apply _.
  - apply frames_Resend; apply _.
  - apply frames_Upload; apply _.
  - apply frames_PutTemplateSetting; apply _.
  - apply frames_DeleteTemplateSetting; apply _.
  - apply frames_PutTenantLogo.
  - apply frames_PutAnalystAvatar.
Qed.
Context {SO : CaseOps R}.
Lemma request_frame c w w' : request c w w' -> R (w_store w) (w_store w').
Proof.
  intros [in_ w0 r w1 H|in_ w0 r w1 H|id team w0 r w1 H|w0 w1 H]; [revert H..|by eapply correspondence_frame].
  - apply frames_CreateDispute; apply _.
  - apply frames_ApplyEvent; apply _.
  - apply frames_Reassign; apply _.
Qed.
End frames.
End requests.
