(* ===== verification/DispatchFacts.v ===== *)
(** * DispatchFacts: the dispatcher against the requests that keep filling its outbox.

    The dispatcher is one goroutine: it claims a batch, then delivers its notices one at a time, and any request
    may run in between. Two dispatchers over this store would hand a notice out twice; the lease that keeps replicas
    apart is the SQL function behind the PostgreSQL store, which is not modelled. *)
From S2P Require Import Prelude Errs GoTime GoJson Ext Types Regimes Lifecycle Deadlines Ledger Questionnaire Risk Notice Access Text Template Store Tx Service Correspondence ServiceFacts Dispatch Frames Profile Requests.

Section grows.
Context `{DC : Decimal} `{UU : UUID} {Body : Type} {BC : BankingCore} {RT : Runtime}.
Implicit Types (m : MemStore Body).

(** Notices are only ever added, under ids no notice had. *)
Definition grows m m' : Prop := exists ns, mNotices m' = mNotices m ++ ns /\ mnextNotice m <= mnextNotice m' /\
  Forall (fun n => mnextNotice m < nr_ID n <= mnextNotice m') ns /\ NoDup (map nr_ID ns).
Lemma grows_quiet m m' : mNotices m' = mNotices m -> mnextNotice m' = mnextNotice m -> grows m m'.
Proof. intros H1 H2. exists []. rewrite H1, H2, app_nil_r. split_and!; [done|lia|constructor..]. Qed.

#[export] Instance grows_preorder : PreOrder grows.
Proof.
  split; [intros m; by apply grows_quiet|]. intros a b d (n1 & H1 & L1 & F1 & D1) (n2 & H2 & L2 & F2 & D2).
  exists (n1 ++ n2). rewrite H2, H1, <- app_assoc. rewrite list.Forall_forall in F1, F2. split_and!; [done|lia| |].
  - apply list.Forall_forall. intros n [Hn|Hn]%elem_of_app; [specialize (F1 n Hn)|specialize (F2 n Hn)]; lia.
  - rewrite map_app. apply list.NoDup_app. split_and!; [done| |done].
    intros k (x & -> & Hx)%list_elem_of_fmap (y & Hxy & Hy)%list_elem_of_fmap. specialize (F1 x Hx). specialize (F2 y Hy). lia.
Qed.
#[export] Instance grows_restorable : Restorable grows.
Proof. intros m m' (ns & _ & L & _). exists []. cbn. rewrite app_nil_r. split_and!; [done|done|constructor..]. Qed.

Lemma InsertNotice_grows t n m r m' : InsertNotice t n m = (r, m') -> grows m m'.
Proof.
  unfold InsertNotice, seeing. destruct (GetDispute _ _ m); intros [= _ <-]; [|done].
  eexists [_]. cbn. split_and!; [done|lia| |].
  - constructor; [cbn; lia|constructor].
  - constructor; [by intros ?%not_elem_of_nil|constructor].
Qed.
Lemma append_ledger_quiet id es m r m' : append_ledger id es m = (r, m') ->
  mNotices m' = mNotices m /\ mnextNotice m' = mnextNotice m.
Proof.
  revert m. induction es as [|e es IH]; intros m H; cbn [append_ledger] in H; [by injection H as _ <-|].
  destruct (existsb _ _); [by injection H as _ <-|]. apply IH in H. done.
Qed.
Lemma claim_attachments_quiet d nid ids n m n' m' : claim_attachments d nid ids n m = (n', m') ->
  mNotices m' = mNotices m /\ mnextNotice m' = mnextNotice m.
Proof.
  revert n m. induction ids as [|id ids IH]; intros n m H; cbn [claim_attachments] in H; [by injection H as _ <-|].
  destruct (mAttachments m !! id) as [a|]; [|by eapply IH]. destruct (_ || _); [by eapply IH|]. by apply IH in H.
Qed.

(** An operation that does not look at the notices keeps them, whichever branch it takes. *)
Ltac quiet := apply frames_op; intros ? ? ?; cbv beta zeta delta
  [InsertDispute UpdateDisputeState UpdateDisputeTeam AppendEvent PutIdempotent InsertDeadlines SettleDeadline SendQuestionnaire
   AnswerQuestionnaire InsertRisk InsertAttachment PutTenantTemplate DeleteTenantTemplate PutTenantLogo PutAnalystAvatar
   seeing ok_store failing];
  repeat case_match; intros; simplify_eq; by apply grows_quiet.
#[export] Instance grows_case : CaseOps grows.
Proof.
  split; intros; try quiet.
  - apply frames_seeing; [apply _|]. intros m r m' H. apply append_ledger_quiet in H as []. by apply grows_quiet.
  - apply frames_op. apply InsertNotice_grows.
Qed.
#[export] Instance grows_wording : WordingOps grows.
Proof. split; intros; quiet. Qed.
#[export] Instance grows_mail : MailOps grows.
Proof.
  split; intros; try quiet.
  - apply frames_op. apply InsertNotice_grows.
  - apply frames_op. intros m r m'. unfold ClaimAttachments.
    destruct (claim_attachments d nid ids 0 m) as [n m1] eqn:E. intros [= _ <-].
    apply claim_attachments_quiet in E as []. by apply grows_quiet.
Qed.
Lemma grows_logo t img at_ : frames grows (op (PutTenantLogo (Body := Body) t img at_)).
Proof. quiet. Qed.
Lemma grows_avatar t subject img : frames grows (op (PutAnalystAvatar (Body := Body) t subject img)).
Proof. quiet. Qed.
End grows.

(** ** The notices of a store *)
Section rows.
Context `{DC : Decimal} `{UU : UUID} {Body : Type} {BC : BankingCore} {RT : Runtime}.
Implicit Types (m : MemStore Body) (n : NoticeRecord).

Record notices_ok m : Prop := {
  no_unique : NoDup (map nr_ID (mNotices m));
  no_bound : Forall (fun n => nr_ID n <= mnextNotice m) (mNotices m)
}.
Lemma notices_ok_grows m m' : grows m m' -> notices_ok m -> notices_ok m'.
Proof.
  intros (ns & H & L & F & D) [Hu Hb]. rewrite list.Forall_forall in F, Hb. split; rewrite H.
  - rewrite map_app. apply list.NoDup_app. split_and!; [done| |done].
    intros k (x & -> & Hx)%list_elem_of_fmap (y & Hxy & Hy)%list_elem_of_fmap. specialize (Hb x Hx). specialize (F y Hy). lia.
  - apply list.Forall_forall. intros n [Hn|Hn]%elem_of_app; [specialize (Hb n Hn)|specialize (F n Hn)]; lia.
Qed.
Lemma same_row m n n' : notices_ok m -> n ∈ mNotices m -> n' ∈ mNotices m -> nr_ID n = nr_ID n' -> n = n'.
Proof.
  intros [Hu _]. revert Hu. generalize (mNotices m). induction l as [|x l IH]; [by intros _ ?%not_elem_of_nil|].
  intros [Hx Hu]%list.NoDup_cons [->|Hn]%elem_of_cons [->|Hn']%elem_of_cons E; [done| | |by apply IH].
  - destruct Hx. cbn. rewrite E. by apply list_elem_of_fmap_2.
  - destruct Hx. cbn. rewrite <- E. by apply list_elem_of_fmap_2.
Qed.

(** What an attempt leaves alone: everything but the record of the delivery. *)
Definition same_letter n n' : Prop := n' = nr_with_delivery n (nr_SentAt n') (nr_Attempts n') (nr_LastError n').
Lemma same_letter_refl n : same_letter n n.
Proof. by destruct n. Qed.
#[export] Instance same_letter_preorder : PreOrder same_letter.
Proof. split; [exact same_letter_refl|]. intros x y z. unfold same_letter. intros Hy Hz. rewrite Hz, Hy. reflexivity. Qed.
Lemma same_letter_mail n n' : same_letter n n' ->
  nr_ID n' = nr_ID n /\ nr_Channel n' = nr_Channel n /\ RenderMail n' = RenderMail n /\ source_of n' = source_of n.
Proof. by intros ->. Qed.

Lemma claim_notices_spec k ns out rest : claim_notices k ns = (out, rest) ->
  Forall2 (fun n n' => same_letter n n' /\ nr_SentAt n' = nr_SentAt n /\ queued n' = queued n) ns rest /\ out `sublist_of` rest /\
  Forall (fun n => queued n = true) out /\ length out = Nat.min k (length (List.filter queued ns)).
Proof.
  revert k out rest. induction ns as [|n ns IH]; intros k out rest H; cbn [claim_notices] in H.
  { injection H as <- <-. cbn. rewrite Nat.min_0_r. split_and!; [constructor|constructor|constructor|done]. }
  destruct (queued n) eqn:Eq; [destruct k as [|k]|].
  - destruct (claim_notices 0 ns) as [o r] eqn:E. injection H as <- <-. apply IH in E as (H1 & H2 & H3 & H4).
    cbn [List.filter]. rewrite Eq. split_and!; [|by constructor|done|done]. constructor; [|done]. split_and!; [apply same_letter_refl|done|done].
  - destruct (claim_notices k ns) as [o r] eqn:E. injection H as <- <-. apply IH in E as (H1 & H2 & H3 & H4).
    cbn [List.filter]. rewrite Eq. cbn. rewrite H4. split_and!; [|by constructor| |done].
    + constructor; [|done]. done.
    + by constructor.
  - destruct (claim_notices k ns) as [o r] eqn:E. injection H as <- <-. apply IH in E as (H1 & H2 & H3 & H4).
    cbn [List.filter]. rewrite Eq. split_and!; [|by constructor|done|done]. constructor; [|done]. split_and!; [apply same_letter_refl|done|done].
Qed.

Lemma kept_ids ns rest : Forall2 (fun n n' => same_letter n n' /\ nr_SentAt n' = nr_SentAt n /\ queued n' = queued n) ns rest ->
  map nr_ID rest = map nr_ID ns.
Proof. induction 1 as [|n n' ns rest [Hl _] _ IH]; cbn; [done|]. f_equal; [|done]. apply (same_letter_mail _ _ Hl). Qed.

Lemma ClaimNotices_done k m batch m' : notices_ok m -> ClaimNotices k m = (batch, m') ->
  notices_ok m' /\ NoDup (map nr_ID batch) /\ Forall (fun n => n ∈ mNotices m' /\ queued n = true) batch /\
  Forall2 (fun n n' => same_letter n n' /\ nr_SentAt n' = nr_SentAt n /\ queued n' = queued n) (mNotices m) (mNotices m') /\
  length batch = Nat.min (Z.to_nat k) (length (List.filter queued (mNotices m))).
Proof.
  unfold ClaimNotices. intros [Hu Hb] H. destruct (claim_notices _ _) as [out rest] eqn:E. injection H as <- <-.
  apply claim_notices_spec in E as (H1 & H2 & H3 & H4). cbn. pose proof (kept_ids _ _ H1) as Hi. split_and!; [|..|done|done].
  - split; cbn; [by rewrite Hi|]. apply (list.Forall_fmap nr_ID (fun i => i <= mnextNotice m)).
    change (nr_ID <$> rest) with (map nr_ID rest). rewrite Hi. by apply (list.Forall_fmap nr_ID (fun i => i <= mnextNotice m)).
  - rewrite <- Hi in Hu. eapply sublist_NoDup; [exact Hu|]. by apply (fmap_sublist nr_ID).
  - apply list.Forall_forall. intros n Hn. rewrite list.Forall_forall in H3. split; [|by apply H3]. by eapply elem_of_sublist.
Qed.
End rows.

(** ** The plant: requests on one side, the dispatcher on the other *)
Section plant.
Context `{DC : Decimal} `{UU : UUID} {Body : Type} {BC : BankingCore} {RT : Runtime} {AZ : Authorizer} {VC : ViewCodec Body} {ML : Mailer}.
Implicit Types (m : MemStore Body) (n : NoticeRecord) (w : World Body).

(** The world of the requests, the relay, the dispatcher's clock and log, and what it claimed and has not delivered. *)
Record Plant : Type := mkPlant {
  pl_world : World Body;
  pl_relay : relay;
  pl_ticks : nat;
  pl_log : list Attempt;
  pl_pending : list NoticeRecord
}.
Definition pl_store (p : Plant) : MemStore Body := w_store (pl_world p).
Definition outbox_of (p : Plant) : Outbox Body := mkOutbox (pl_store p) (pl_relay p) (pl_ticks p) (pl_log p).
Definition with_outbox (p : Plant) (o : Outbox Body) (pending : list NoticeRecord) : Plant :=
  mkPlant (with_store (pl_world p) (ob_store o)) (ob_relay o) (ob_ticks o) (ob_log o) pending.

Inductive plant_step : Plant -> Plant -> Prop :=
| ps_request c w w' r k l pending : request c w w' -> plant_step (mkPlant w r k l pending) (mkPlant w' r k l pending)
| ps_claim p batch m : pl_pending p = [] -> ClaimNotices batch_size (pl_store p) = (batch, m) ->
    plant_step p (with_outbox p (mkOutbox m (pl_relay p) (pl_ticks p) (pl_log p)) batch)
| ps_deliver p n pending : pl_pending p = n :: pending ->
    plant_step p (with_outbox p (deliver n (outbox_of p)) pending)
| ps_sweep_drafts p at_ : plant_step p
    (with_outbox p (mkOutbox (sweep_drafts at_ (pl_store p)).2 (pl_relay p) (pl_ticks p) (pl_log p)) (pl_pending p))
| ps_sweep_responses p at_ ttl : plant_step p
    (with_outbox p (mkOutbox (sweep_responses at_ ttl (pl_store p)).2 (pl_relay p) (pl_ticks p) (pl_log p)) (pl_pending p)).

(** An empty outbox, or any whose ids are in order, and a dispatcher just started. *)
Inductive running : Plant -> Prop :=
| running_start w r k : notices_ok (w_store w) -> running (mkPlant w r k [] [])
| running_step p p' : running p -> plant_step p p' -> running p'.

Definition is_sent (a : Attempt) : bool := bool_decide (ap_Outcome a = DeliverySent).
Definition sent_ids (l : list Attempt) : list Z := map ap_Notice (List.filter is_sent l).

(** What an entry of the log says of the notice it is about. *)
Definition accounts_for m (a : Attempt) : Prop :=
  exists n, n ∈ mNotices m /\ nr_ID n = ap_Notice a /\ nr_Channel n = ChannelEmail /\
    (ap_Outcome a = DeliverySent -> nr_SentAt n <> None) /\
    forall mail, ap_Mail a = Some mail -> exists letter, RenderMail n = Ok letter /\ mail = mail_with_files letter (Files mail).

Record plant_ok (p : Plant) : Prop := {
  pk_rows : notices_ok (pl_store p);
  pk_pending : NoDup (map nr_ID (pl_pending p)) /\
    Forall (fun n => n ∈ mNotices (pl_store p) /\ queued n = true) (pl_pending p);
  pk_once : NoDup (sent_ids (pl_log p));
  pk_log : Forall (accounts_for (pl_store p)) (pl_log p)
}.

Lemma accounts_for_grows m m' a : grows m m' -> accounts_for m a -> accounts_for m' a.
Proof. intros (ns & H & _) (n & Hn & Ha). exists n. rewrite H. split; [by apply elem_of_app; left|done]. Qed.
Lemma accounts_for_kept (R : NoticeRecord -> NoticeRecord -> Prop) m m' a :
  (forall n n', R n n' -> same_letter n n' /\ (nr_SentAt n <> None -> nr_SentAt n' <> None)) ->
  Forall2 R (mNotices m) (mNotices m') -> accounts_for m a -> accounts_for m' a.
Proof.
  intros HR HF (n & Hn & Hid & Hch & Hs & Hm). apply list_elem_of_lookup in Hn as [i Hi].
  destruct (Forall2_lookup_l _ _ _ _ _ HF Hi) as (n' & Hi' & Hr). destruct (HR _ _ Hr) as [Hl Hk].
  destruct (same_letter_mail _ _ Hl) as (E1 & E2 & E3 & _). exists n'. rewrite E1, E2, E3.
  split; [by eapply list_elem_of_lookup_2|]. split_and!; auto.
Qed.

Lemma plant_ok_grows p w' : grows (pl_store p) (w_store w') -> plant_ok p ->
  plant_ok (mkPlant w' (pl_relay p) (pl_ticks p) (pl_log p) (pl_pending p)).
Proof.
  intros Hg [H1 [H2 H3] H4 H5]. pose proof Hg as (ns & Hns & _). unfold pl_store in *. split; cbn; [by eapply notices_ok_grows| |done|].
  - split; [done|]. eapply list.Forall_impl; [exact H3|]. intros n [Hn Hq]. split; [|done]. unfold pl_store. cbn. rewrite Hns. by apply elem_of_app; left.
  - eapply list.Forall_impl; [exact H5|]. intros a. by apply accounts_for_grows.
Qed.

(** The notices after [FinishNotice], and what one attempt is. *)
Definition finished (at_ : time) (id : Z) (failure : string) n : NoticeRecord :=
  if nr_ID n =? id then
    if bool_decide (failure = "") then nr_with_delivery n (Some at_) (nr_Attempts n) None
    else nr_with_delivery n (nr_SentAt n) (nr_Attempts n) (Some failure)
  else n.
Lemma finished_letter at_ id failure n : same_letter n (finished at_ id failure n) /\
  (nr_SentAt n <> None -> nr_SentAt (finished at_ id failure n) <> None).
Proof. unfold finished. destruct (_ =? _); [case_bool_decide|]; (split; [|done]); done. Qed.

Lemma FinishNotice_ok at_ id failure m : notices_ok m -> notices_ok (FinishNotice at_ id failure m).
Proof.
  intros [Hu Hb]. assert (Hi : map nr_ID (map (finished at_ id failure) (mNotices m)) = map nr_ID (mNotices m)).
  { rewrite map_map. apply map_ext. intros n. apply (same_letter_mail _ _ (proj1 (finished_letter _ _ _ n))). }
  split; cbn; change (map _ (mNotices m)) with (map (finished at_ id failure) (mNotices m)); [by rewrite Hi|].
  apply (list.Forall_fmap nr_ID (fun i => i <= mnextNotice m)). change (nr_ID <$> ?l) with (map nr_ID l). rewrite Hi.
  by apply (list.Forall_fmap nr_ID (fun i => i <= mnextNotice m)).
Qed.
Lemma FinishNotice_rows at_ id failure m :
  Forall2 (fun n n' => n' = finished at_ id failure n) (mNotices m) (mNotices (FinishNotice at_ id failure m)).
Proof. apply Forall2_fmap_r. by apply Forall_Forall2_diag, Forall_true. Qed.
Lemma FinishNotice_other at_ id failure m n : n ∈ mNotices m -> nr_ID n <> id -> n ∈ mNotices (FinishNotice at_ id failure m).
Proof.
  intros Hn Hid. cbn. apply list_elem_of_fmap. exists n. split; [|done]. by rewrite (proj2 (Z.eqb_neq _ _) Hid).
Qed.

Lemma attempt_mail n (o : Outbox Body) failure d mail r : attempt n o = (failure, d, Some mail, r) ->
  exists letter, RenderMail n = Ok letter /\ mail = mail_with_files letter (Files mail).
Proof.
  unfold attempt. destruct (RenderMail n) as [letter|e]; [|done]. destruct (Send _ _) as [[[]|e] r']; intros [= _ _ <- _];
    exists letter; (split; [done|]); by destruct letter.
Qed.
Lemma attempt_sent n (o : Outbox Body) failure mail r : attempt n o = (failure, DeliverySent, mail, r) -> failure = "".
Proof. unfold attempt. destruct (RenderMail n); [|done]. by destruct (Send _ _) as [[[]|e] r']; intros [=]. Qed.

Lemma deliver_ok p n pending : pl_pending p = n :: pending -> plant_ok p ->
  plant_ok (with_outbox p (deliver n (outbox_of p)) pending).
Proof.
  intros Hp [Hrows [Hnd Hq] Honce Hlog]. rewrite Hp in Hnd, Hq. cbn in Hnd. apply list.NoDup_cons in Hnd as [Hni Hnd].
  apply list.Forall_cons in Hq as [[Hn Hqn] Hq]. unfold deliver.
  destruct (attempt n (outbox_of p)) as [[[failure d] mail] r] eqn:Ea. cbn [ob_store ob_ticks outbox_of ob_log ob_relay].
  set (at_ := now_at (pl_ticks p)). set (m' := FinishNotice at_ (nr_ID n) failure (pl_store p)).
  pose proof (FinishNotice_rows at_ (nr_ID n) failure (pl_store p)) as HF. unfold with_outbox. cbn [ob_store ob_log].
  assert (Hf : finished at_ (nr_ID n) failure n ∈ mNotices m') by (apply list_elem_of_fmap_2; exact Hn).
  unfold queued in Hqn. apply andb_true_iff in Hqn as [Hq1 Hq2]. to_prop.
  split; cbn [pl_store pl_world pl_pending pl_log w_store with_store].
  - by apply FinishNotice_ok.
  - split; [done|]. rewrite list.Forall_forall in Hq |- *. intros x Hx. destruct (Hq x Hx) as [Hx1 Hx2]. split; [|done].
    apply FinishNotice_other; [done|]. intros E. apply Hni. rewrite <- E. by apply list_elem_of_fmap_2.
  - unfold sent_ids. rewrite List.filter_app, map_app. cbn. unfold is_sent at 2. cbn [ap_Outcome].
    case_bool_decide as Hd; [|by rewrite app_nil_r]. cbn. apply list.NoDup_app. split_and!; [exact Honce| |].
    + intros k Hk ->%list_elem_of_singleton. unfold sent_ids in Hk.
      apply list_elem_of_fmap in Hk as (a & Ha1 & Ha). apply list_elem_of_In, List.filter_In in Ha as [Ha Has].
      apply list_elem_of_In in Ha. rewrite list.Forall_forall in Hlog. destruct (Hlog a Ha) as (x & Hx & Hxi & _ & Hxs & _).
      unfold is_sent in Has. to_prop. rewrite (same_row _ _ _ Hrows Hx Hn) in Hxs by congruence. by apply Hxs.
    + apply list.NoDup_singleton.
  - apply list.Forall_app. split.
    + eapply list.Forall_impl; [exact Hlog|]. intros a. eapply accounts_for_kept; [|exact HF]. intros x y ->. apply finished_letter.
    + constructor; [|constructor]. destruct (finished_letter at_ (nr_ID n) failure n) as [Hl _].
      destruct (same_letter_mail _ _ Hl) as (E1 & E2 & E3 & _). exists (finished at_ (nr_ID n) failure n). rewrite E1, E2, E3.
      cbn. split_and!; [exact Hf|done|done| |].
      * intros ->. apply attempt_sent in Ea as ->. unfold finished. rewrite Z.eqb_refl. by rewrite bool_decide_true.
      * intros mail0 ->. by eapply attempt_mail.
Qed.

Lemma plant_step_ok p p' : plant_step p p' -> plant_ok p -> plant_ok p'.
Proof.
  intros [c w w' r k l pending H|q batch m Hp H|q n pending Hp|q at_|q at_ ttl] Hok.
  - apply (plant_ok_grows (mkPlant w r k l pending)); [|done]. cbn.
    by apply (request_frame grows grows_logo grows_avatar _ _ _ H).
  - destruct Hok as [Hrows _ Honce Hlog]. apply ClaimNotices_done in H as (H1 & H2 & H3 & H4 & _); [|done].
    split; cbn; [done|by split|done|]. eapply list.Forall_impl; [exact Hlog|]. intros a.
    eapply accounts_for_kept; [|exact H4]. intros x y (Hl & Hs & _). by rewrite Hs.
  - by apply deliver_ok.
  - destruct q as [w r k l pending]. apply (plant_ok_grows (mkPlant w r k l pending)); [by apply grows_quiet|done].
  - destruct q as [w r k l pending]. apply (plant_ok_grows (mkPlant w r k l pending)); [by apply grows_quiet|done].
Qed.

End plant.

(** ** Draining *)
Section drain.
Context `{DC : Decimal} `{UU : UUID} {Body : Type} {RT : Runtime} {ML : Mailer}.
Implicit Types (m : MemStore Body) (n : NoticeRecord) (o : Outbox Body).

(** The ids waiting in the outbox, oldest first. *)
Definition waiting (ns : list NoticeRecord) : list Z := map nr_ID (List.filter queued ns).
Lemma waiting_backlog m : OutboxBacklog m = Z.of_nat (length (waiting (mNotices m))).
Proof. unfold OutboxBacklog, waiting. by rewrite length_map. Qed.

Lemma claim_notices_waiting k ns out rest : claim_notices k ns = (out, rest) ->
  map nr_ID out = take k (waiting ns) /\ waiting rest = waiting ns.
Proof.
  unfold waiting. revert k out rest. induction ns as [|n ns IH]; intros k out rest H; cbn [claim_notices] in H.
  { injection H as <- <-. by destruct k. }
  cbn [List.filter]. destruct (queued n) eqn:Eq; [destruct k as [|k]|].
  - destruct (claim_notices 0 ns) as [a b] eqn:E. injection H as <- <-. apply IH in E as [-> H2].
    cbn [List.filter]. rewrite Eq. cbn. by rewrite H2.
  - destruct (claim_notices k ns) as [a b] eqn:E. injection H as <- <-. apply IH in E as [H1 H2].
    cbn [List.filter map]. change (queued (nr_with_delivery n (nr_SentAt n) (nr_Attempts n + 1) (nr_LastError n))) with (queued n).
    rewrite Eq. cbn. by rewrite H1, H2.
  - destruct (claim_notices k ns) as [a b] eqn:E. injection H as <- <-. apply IH in E as [H1 H2].
    cbn [List.filter]. by rewrite Eq, H1, H2.
Qed.

Definition except (i : Z) (l : list Z) : list Z := List.filter (fun j => negb (j =? i)) l.
Lemma finished_at at_ i failure n : finished at_ i failure n =
  if nr_ID n =? i then
    if bool_decide (failure = "") then nr_with_delivery n (Some at_) (nr_Attempts n) None
    else nr_with_delivery n (nr_SentAt n) (nr_Attempts n) (Some failure)
  else n.
Proof. done. Qed.
Lemma waiting_finish at_ i ns : waiting (map (finished at_ i "") ns) = except i (waiting ns).
Proof.
  unfold waiting, except. induction ns as [|n ns IH]; [done|]. cbn [map List.filter].
  destruct (nr_ID n =? i) eqn:E; rewrite (finished_at at_ i "" n), E; cbn.
  - unfold queued at 1. cbn. destruct (queued n); [|done]. cbn. by rewrite E.
  - destruct (queued n); [|done]. cbn. rewrite E. cbn. f_equal. by apply IH.
Qed.
Lemma except_all l d : NoDup (l ++ d) -> foldl (fun q i => except i q) (l ++ d) l = d.
Proof.
  intros Hnd. induction l as [|i l IH]; [done|]. cbn [app foldl] in *. apply list.NoDup_cons in Hnd as [Hi Hnd].
  assert (He : except i (i :: l ++ d) = l ++ d); [|by rewrite He; apply IH].
  unfold except. cbn. rewrite Z.eqb_refl. cbn. revert Hi. generalize (l ++ d). clear. induction l as [|j l IH]; intros Hi; [done|].
  apply not_elem_of_cons in Hi as [Hne Hi]. cbn. destruct (j =? i) eqn:E; to_prop; [by subst|]. cbn. by rewrite IH.
Qed.

Lemma except_taken k l : NoDup l -> foldl (fun q i => except i q) l (take k l) = drop k l.
Proof. intros Hnd. pose proof (except_all (take k l) (drop k l)) as H. rewrite take_drop in H. by apply H. Qed.

(** A relay that accepts whatever it is given. *)
Definition accepting : Prop := forall r mail, exists r', Send r mail = (Ok tt, r').
Definition renderable ns : Prop := Forall (fun n => queued n = true -> exists letter, RenderMail n = Ok letter) ns.

Lemma deliver_accepted o n : accepting -> (exists letter, RenderMail n = Ok letter) ->
  mNotices (ob_store (deliver n o)) = map (finished (now_at (ob_ticks o)) (nr_ID n) "") (mNotices (ob_store o)) /\
  exists a, ob_log (deliver n o) = ob_log o ++ [a] /\ ap_Notice a = nr_ID n /\ ap_Outcome a = DeliverySent.
Proof.
  intros Hacc [letter Hl]. unfold deliver, attempt. rewrite Hl. edestruct Hacc as [r' ->]. split; [done|]. cbn. eauto.
Qed.

Definition all_sent (ids : list Z) (l : list Attempt) : Prop :=
  map ap_Notice l = ids /\ Forall (fun a => ap_Outcome a = DeliverySent) l.
Lemma deliver_all o batch : accepting -> Forall (fun n => exists letter, RenderMail n = Ok letter) batch ->
  let o' := foldl (fun o n => deliver n o) o batch in
  waiting (mNotices (ob_store o')) = foldl (fun q i => except i q) (waiting (mNotices (ob_store o))) (map nr_ID batch) /\
  Forall2 same_letter (mNotices (ob_store o)) (mNotices (ob_store o')) /\
  exists l, ob_log o' = ob_log o ++ l /\ all_sent (map nr_ID batch) l.
Proof.
  intros Hacc. revert o. induction batch as [|n batch IH]; intros o HF; cbn.
  { split; [done|]. split; [apply Forall_Forall2_diag, list.Forall_true; intros; apply same_letter_refl|].
    exists []. by rewrite app_nil_r. }
  apply list.Forall_cons in HF as [Hn HF]. destruct (deliver_accepted o n Hacc Hn) as (Hm & a & Ha & Hi & Hs).
  destruct (IH (deliver n o) HF) as (H1 & H2 & l & H3 & H4 & H5). rewrite Hm in H1, H2. rewrite waiting_finish in H1. split; [done|]. split.
  - etransitivity; [|exact H2]. eapply list.Forall2_impl; [apply (FinishNotice_rows (now_at (ob_ticks o)) (nr_ID n) "")|].
    intros x y ->. apply finished_letter.
  - exists (a :: l). rewrite H3, Ha, <- app_assoc. split; [done|]. split; cbn; [by rewrite Hi, H4|by constructor].
Qed.

Lemma renderable_claimed k ns out rest : claim_notices k ns = (out, rest) -> renderable ns ->
  Forall2 same_letter ns rest /\ renderable rest /\ Forall (fun n => exists letter, RenderMail n = Ok letter) out.
Proof.
  intros H%claim_notices_spec Hr. destruct H as (HF & Hsub & Hq & _).
  assert (Hrest : renderable rest).
  { unfold renderable in *. rewrite list.Forall_forall in *. intros n' [i Hi']%list_elem_of_lookup Hn'.
    destruct (Forall2_lookup_r _ _ _ _ _ HF Hi') as (n & Hi & Hl & _ & Hqn). apply same_letter_mail in Hl as (_ & _ & -> & _).
    apply Hr; [by eapply list_elem_of_lookup_2|congruence]. }
  split; [|split; [done|]].
  - eapply list.Forall2_impl; [exact HF|]. by intros x y [].
  - unfold renderable in *. rewrite list.Forall_forall in *. intros n Hn. apply Hrest; [by eapply elem_of_sublist|by apply Hq].
Qed.

(** A pass takes the first twenty waiting, and with such a relay none of them waits any longer. *)
Lemma pass_accepted o : accepting -> notices_ok (ob_store o) -> renderable (mNotices (ob_store o)) ->
  exists k o', pass o = (k, o') /\ k = Z.min batch_size (OutboxBacklog (ob_store o)) /\
  notices_ok (ob_store o') /\ renderable (mNotices (ob_store o')) /\
  waiting (mNotices (ob_store o')) = drop (Z.to_nat batch_size) (waiting (mNotices (ob_store o))) /\
  Forall2 same_letter (mNotices (ob_store o)) (mNotices (ob_store o')) /\
  exists l, ob_log o' = ob_log o ++ l /\ all_sent (take (Z.to_nat batch_size) (waiting (mNotices (ob_store o)))) l.
Proof.
  intros Hacc Hok Hr. unfold pass, ClaimNotices.
  destruct (claim_notices (Z.to_nat batch_size) (mNotices (ob_store o))) as [out rest] eqn:E.
  pose proof (claim_notices_waiting _ _ _ _ E) as [Hout Hrest]. pose proof (renderable_claimed _ _ _ _ E Hr) as (HF & Hr' & Hren).
  pose proof (deliver_all (mkOutbox (set_Notices rest (ob_store o)) (ob_relay o) (ob_ticks o) (ob_log o)) out Hacc Hren) as (H1 & H2 & H3).
  cbn in H1, H2, H3. set (o' := foldl (fun o n => deliver n o) _ _) in *. change (map nr_ID (List.filter queued rest)) with (waiting rest) in H1. rewrite Hrest, Hout in H1. rewrite Hout in H3.
  assert (Hnd : NoDup (waiting (mNotices (ob_store o)))).
  { destruct Hok as [Hu _]. eapply sublist_NoDup; [exact Hu|]. apply (fmap_sublist nr_ID). clear.
    induction (mNotices (ob_store o)) as [|n ns IH]; cbn; [constructor|]. destruct (queued n); by constructor. }
  assert (Hlet : Forall2 same_letter (mNotices (ob_store o)) (mNotices (ob_store o'))) by (by etransitivity).
  exists (Z.of_nat (length out)), o'. split_and!; [done| | | | |done|done].
  - rewrite waiting_backlog. rewrite <- (length_map nr_ID), Hout, length_take. unfold batch_size. lia.
  - destruct Hok as [Hu Hb]. assert (Hids : map nr_ID (mNotices (ob_store o')) = map nr_ID (mNotices (ob_store o))).
    { clear -Hlet. induction Hlet as [|n n' l l' Hl _ IH]; cbn; [done|]. rewrite IH. by destruct (same_letter_mail _ _ Hl) as [-> _]. }
    assert (Hnext : mnextNotice (ob_store o') = mnextNotice (ob_store o)).
    { unfold o'. clear. change (mnextNotice (ob_store o)) with
        (mnextNotice (ob_store (mkOutbox (set_Notices rest (ob_store o)) (ob_relay o) (ob_ticks o) (ob_log o)))).
      generalize (mkOutbox (set_Notices rest (ob_store o)) (ob_relay o) (ob_ticks o) (ob_log o)). clear.
      induction out as [|n out IH]; intros q; cbn; [done|]. rewrite IH. unfold deliver. by destruct (attempt n q) as [[[]]]. }
    split; [by rewrite Hids|]. rewrite Hnext. apply (list.Forall_fmap nr_ID (fun i => i <= mnextNotice (ob_store o))).
    change (nr_ID <$> ?l) with (map nr_ID l). rewrite Hids. by apply (list.Forall_fmap nr_ID (fun i => i <= mnextNotice (ob_store o))).
  - unfold renderable. apply list.Forall_forall. intros n' [i Hi']%list_elem_of_lookup Hq.
    destruct (Forall2_lookup_r _ _ _ _ _ Hlet Hi') as (n & Hi & Hl). apply same_letter_mail in Hl as (Hid & Hch & -> & _).
    unfold renderable in Hr. rewrite list.Forall_forall in Hr. apply Hr; [by eapply list_elem_of_lookup_2|].
    assert (Hw : nr_ID n' ∈ waiting (mNotices (ob_store o'))).
    { apply list_elem_of_fmap_2, list_elem_of_In, List.filter_In. split; [|done]. apply list_elem_of_In. by eapply list_elem_of_lookup_2. }
    rewrite H1, except_taken in Hw by done.
    assert (nr_ID n' ∈ waiting (mNotices (ob_store o))) as Hw' by
      (rewrite <- (take_drop (Z.to_nat batch_size) (waiting _)); apply elem_of_app; by right).
    apply list_elem_of_fmap in Hw' as (x & Hx & Hxin). apply list_elem_of_In, List.filter_In in Hxin as [Hxin Hxq].
    apply list_elem_of_In in Hxin. assert (x = n); [|by subst]. eapply same_row; [exact Hok|done|by eapply list_elem_of_lookup_2|congruence].
  - rewrite H1. by apply except_taken.
Qed.

(** With a relay that accepts mail, a dispatcher woken once empties the outbox: the loop of passes ends, after
    no more than one pass per twenty emails waiting and the one that finds nothing; each email that waited was
    accepted once, oldest first; and no notice changed otherwise. *)
Theorem drain_empties o fuel : accepting -> notices_ok (ob_store o) -> renderable (mNotices (ob_store o)) ->
  OutboxBacklog (ob_store o) <= batch_size * Z.of_nat fuel ->
  exists o', drain (S fuel) o = Some o' /\ OutboxBacklog (ob_store o') = 0 /\
    Forall2 same_letter (mNotices (ob_store o)) (mNotices (ob_store o')) /\
    exists l, ob_log o' = ob_log o ++ l /\ all_sent (waiting (mNotices (ob_store o))) l.
Proof.
  intros Hacc. revert o. induction fuel as [|fuel IH]; intros o Hok Hr Hb.
  all: destruct (pass_accepted o Hacc Hok Hr) as (k & o' & Hp & Hk & Hok' & Hr' & Hw & HF & l & Hl & Hs).
  all: rewrite waiting_backlog in Hb, Hk.
  - assert (waiting (mNotices (ob_store o)) = []) as E by (apply nil_length_inv; lia).
    exists o'. cbn [drain]. rewrite Hp, E in *. cbn in Hk. subst k. cbn. rewrite waiting_backlog, Hw. split_and!; [done|done|done|].
    rewrite take_nil in Hs. eauto.
  - cbn [drain]. rewrite Hp. destruct (k =? 0) eqn:E0; to_prop.
    + assert (waiting (mNotices (ob_store o)) = []) as E by (apply nil_length_inv; unfold batch_size in *; lia).
      exists o'. rewrite E in *. rewrite waiting_backlog, Hw. split_and!; [done|done|done|]. rewrite take_nil in Hs. eauto.
    + destruct (IH o' Hok' Hr') as (o2 & Hd & H0 & HF2 & l2 & Hl2 & Hs2).
      { rewrite waiting_backlog, Hw, length_drop. unfold batch_size in *. lia. }
      exists o2. cbn [drain] in Hd. split_and!; [exact Hd|done|by etransitivity|]. exists (l ++ l2). rewrite Hl2, Hl, <- app_assoc.
      split; [done|]. destruct Hs as [Hs1 Hs3], Hs2 as [Hs4 Hs5]. split; [|by apply list.Forall_app].
      rewrite map_app, Hs1, Hs4, Hw. apply take_drop.
Qed.
End drain.
