(* ===== verification/CorrespondenceFacts.v ===== *)
(** * CorrespondenceFacts: what an analyst's email, a second copy of one, and an upload do to the store. *)
From S2P Require Import Prelude Errs GoTime GoJson Ext Types Regimes Lifecycle Deadlines Ledger Questionnaire Risk Notice Access Text Template TemplateFacts Store Tx Service Correspondence ServiceFacts Frames.

Section correspondence_facts.
Context `{DC : Decimal} `{UU : UUID} {Body : Type} {BC : BankingCore} {RT : Runtime} {AZ : Authorizer}.
Implicit Types (m : MemStore Body) (w : World Body) (t : memTx) (id : uuid) (rec : DisputeRecord) (c : Ctx).

(** ** What correspondence leaves alone *)

(** Everything the state machine, the books and the clocks are made of. *)
Record same_case m m' : Prop := {
  sc_Disputes : mDisputes m' = mDisputes m;
  sc_Events : mEvents m' = mEvents m;
  sc_Deadlines : mDeadlines m' = mDeadlines m;
  sc_Ledger : mLedger m' = mLedger m;
  sc_Questions : mQuestions m' = mQuestions m;
  sc_Risk : mRisk m' = mRisk m;
  sc_Idempotent : mIdempotent m' = mIdempotent m
}.
#[export] Instance same_case_preorder : PreOrder same_case.
Proof.
  split; [done|]. intros a b d [? ? ? ? ? ? ?] [? ? ? ? ? ? ?]. split; congruence.
Qed.
#[export] Instance same_case_restorable : Restorable same_case.
Proof. by intros m m' H. Qed.

Lemma claim_attachments_same d nid ids n m n' m' :
  claim_attachments d nid ids n m = (n', m') -> same_case m m' /\ mNotices m' = mNotices m.
Proof.
  revert n m. induction ids as [|id ids IH]; intros n m H; cbn [claim_attachments] in H; [by injection H as _ <-|].
  destruct (mAttachments m !! id) as [a|]; [|by eapply IH]. destruct (_ || _); [by eapply IH|].
  apply IH in H as [H1 H2]. split; [|done]. by etransitivity; [|exact H1].
Qed.
#[export] Instance same_case_mail : MailOps same_case.
Proof.
  split; intros.
  - apply (frames_seeing same_case). by intros m r m' [= _ <-].
  - apply (frames_seeing same_case). by intros m r m' [= _ <-].
  - apply frames_op. intros m r m'. unfold ClaimAttachments.
    destruct (claim_attachments d nid ids 0 m) as [n m1] eqn:E. intros [= _ <-]. by eapply claim_attachments_same.
Qed.
#[export] Instance same_case_wording : WordingOps same_case.
Proof.
  split; intros.
  - apply frames_op. by intros m r m' [= _ <-].
  - apply frames_op. intros m r m'. unfold DeleteTenantTemplate. destruct (mTemplates m !! _); by intros [= _ <-].
Qed.

(** ** Claiming files *)
Definition draft_of (d : uuid) (a : Attachment) : Prop := at_NoticeID a = None /\ at_DisputeID a = d.

Lemma claim_attachments_all d nid ids n m n' m' :
  claim_attachments d nid ids n m = (n', m') ->
  n' <= n + Z.of_nat (length ids) /\
  (n' = n + Z.of_nat (length ids) ->
   NoDup ids /\ (forall id, id ∉ ids -> mAttachments m' !! id = mAttachments m !! id) /\
   forall id, id ∈ ids -> exists a, mAttachments m !! id = Some a /\ draft_of d a /\
     mAttachments m' !! id = Some (at_with_notice a nid)).
Proof.
  revert n m. induction ids as [|id ids IH]; intros n m H; cbn [claim_attachments] in H.
  - injection H as <- <-. cbn. split; [lia|]. intros _. split; [constructor|]. split; [done|]. by intros id ?%not_elem_of_nil.
  - change (length (id :: ids)) with (S (length ids)).
    assert (Hskip : forall k, claim_attachments d nid ids n m = (n', m') ->
      n' <= n + Z.of_nat (S (length ids)) /\ (n' = n + Z.of_nat (S (length ids)) -> k)).
    { intros k Hk. apply IH in Hk as [Hk _]. split; [lia|]. intros ->. lia. }
    destruct (mAttachments m !! id) as [a|] eqn:Ea; [|by apply Hskip].
    destruct (negb (bool_decide (at_NoticeID a = None)) || negb (bool_decide (at_DisputeID a = d))) eqn:Eb; [by apply Hskip|].
    clear Hskip. to_prop. apply IH in H as [Hle Hall]. split; [lia|]. intros Heq.
    destruct Hall as (Hnd & Hout & Hin); [lia|]. cbn in Hout, Hin.
    assert (Hid : id ∉ ids).
    { intros Hid. destruct (Hin id Hid) as (a' & Ha' & [Hn _] & _). rewrite lookup_insert_eq in Ha'. by injection Ha' as <-. }
    split; [by apply list.NoDup_cons|]. split.
    + intros j Hj. apply not_elem_of_cons in Hj as [Hne Hj]. rewrite (Hout j Hj). by rewrite lookup_insert_ne.
    + intros j [->|Hj]%elem_of_cons.
      * exists a. rewrite (Hout id Hid), lookup_insert_eq. done.
      * destruct (Hin j Hj) as (b & Hb & Hd & Hc). exists b. rewrite lookup_insert_ne in Hb by (by intros ->). done.
Qed.

Lemma InsertNotice_done t n m k m' : InsertNotice t n m = (Ok k, m') ->
  k = mnextNotice m + 1 /\ m' = set_Notices (mNotices m ++ [nr_with_id n k (t_tenant t)]) (set_nextNotice k m).
Proof. intros H%seeing_ok. by injection H as <- <-. Qed.

Lemma claimAttachments_done t d nid ids w files w' :
  claimAttachments t d nid ids w = (Done files, w') ->
  mNotices (w_store w') = mNotices (w_store w) /\ Z.of_nat (length ids) <= MaxAttachments /\ NoDup ids /\
  (forall id, id ∉ ids -> mAttachments (w_store w') !! id = mAttachments (w_store w) !! id) /\
  forall id, id ∈ ids -> exists a, mAttachments (w_store w) !! id = Some a /\ draft_of d a /\
    mAttachments (w_store w') !! id = Some (at_with_notice a nid).
Proof.
  unfold claimAttachments. intros H. destruct ids as [|i ids].
  { injection H as <- <-. split; [done|]. split; [done|]. split; [constructor|]. split; [done|]. by intros id ?%not_elem_of_nil. }
  set (l := i :: ids) in *. destruct (MaxAttachments <? _) eqn:El; [by inv_P|]. to_prop.
  apply P_bind_done in H as (n & w1 & H1 & H). apply op_done in H1 as (m1 & H1 & ->). unfold ClaimAttachments in H1.
  destruct (claim_attachments d nid l 0 (w_store w)) as [n1 m2] eqn:E. injection H1 as <- <-.
  destruct (negb (n1 =? _)) eqn:En; [by inv_P|]. to_prop.
  apply P_bind_done in H as (metas & w2 & H1 & H). apply rd_done in H1 as [_ ->]. injection H as <- <-. cbn.
  pose proof (claim_attachments_same _ _ _ _ _ _ _ E) as [_ Hn].
  apply claim_attachments_all in E as [_ E]. destruct E as (Hnd & Hout & Hin); [lia|]. done.
Qed.

(** ** Composing *)

(** The rows an email leaves behind. *)
Record queued_mail (in_ : ComposeEmailInput) rec (f : noticeFacts) (doc : Document) m m' : Prop := {
  qm_rows : exists email letters, mNotices m' = mNotices m ++ email :: letters /\
    nr_DisputeID email = dr_ID rec /\ nr_Kind email = ce_Template in_ /\ nr_Channel email = ChannelEmail /\
    nr_SentAt email = None /\ nr_ResendOf email = None /\ nr_Recipient email = nf_Email f /\ nf_Email f <> "" /\
    nr_Subject email = Subject doc /\ Unmarshal into_Document (nr_Document email) zero_Document = Some doc /\
    nr_Actor email = ce_Actor in_ /\
    (length letters <= 1)%nat /\
    Forall (fun l => nr_DisputeID l = dr_ID rec /\ nr_Channel l = ChannelLetter /\ nr_Recipient l = nf_PostalAddress f /\
                     nf_PostalAddress f <> "" /\ nr_SentAt l <> None) letters /\
    (forall id, id ∈ ce_Attachments in_ -> exists a, mAttachments m !! id = Some a /\ draft_of (dr_ID rec) a /\
      mAttachments m' !! id = Some (at_with_notice a (nr_ID email)));
  qm_files : NoDup (ce_Attachments in_) /\ Z.of_nat (length (ce_Attachments in_)) <= MaxAttachments /\
    forall id, id ∉ ce_Attachments in_ -> mAttachments m' !! id = mAttachments m !! id;
  qm_case : same_case m m'
}.

Lemma enqueue_done t rec rules tpl doc f at_ in_ w w' : TplKind tpl = ce_Template in_ ->
  enqueue t rec rules tpl doc f at_ (ce_Attachments in_) (ce_Actor in_) w = (Done tt, w') ->
  queued_mail in_ rec f doc (w_store w) (w_store w').
Proof.
  intros Hk H. pose proof (frames_enqueue same_case _ _ _ _ _ _ _ _ _ _ _ _ H) as Hcase.
  unfold enqueue in H. case_bool_decide as He; [by inv_P|].
  apply P_bind_done in H as (eid & w1 & H1 & H). apply op_done in H1 as (m1 & H1 & ->). apply InsertNotice_done in H1 as [Heid ->].
  apply P_bind_done in H as (files & w2 & H1 & H). apply claimAttachments_done in H1 as (Hn & Hmax & Hnd & Hout & Hin). cbn in *.
  assert (Hl : exists letters, mNotices (w_store w') = mNotices (w_store w2) ++ letters /\ mAttachments (w_store w') = mAttachments (w_store w2) /\
    (length letters <= 1)%nat /\
    Forall (fun l => nr_DisputeID l = dr_ID rec /\ nr_Channel l = ChannelLetter /\ nr_Recipient l = nf_PostalAddress f /\
                     nf_PostalAddress f <> "" /\ nr_SentAt l <> None) letters).
  { destruct (TplLetter tpl && WrittenNotices rules && negb (bool_decide (nf_PostalAddress f = ""))) eqn:Ew.
    - apply P_bind_done in H as (lid & w3 & H1 & H). injection H as <-. apply op_done in H1 as (m3 & H1 & ->).
      apply InsertNotice_done in H1 as [_ ->]. cbn. eexists [_]. split; [done|]. split; [done|]. split; [cbn; lia|].
      apply andb_true_iff in Ew as [_ Ew]. to_prop. constructor; [|constructor]. cbn. done.
    - injection H as <-. exists []. rewrite app_nil_r. split_and!; [done|done|cbn; lia|constructor]. }
  destruct Hl as (letters & Hl1 & Hl2 & Hlen & Hall).
  split; [|by rewrite Hl2|done].
  eexists _, letters. rewrite Hl1, Hn, <- app_assoc. split; [reflexivity|]. cbn. split_and!; try done.
  - apply Document_roundtrip.
  - by rewrite Hl2.
Qed.

Lemma tenantTemplate_done t kind w tpl w' : tenantTemplate t kind w = (Done tpl, w') -> w' = w /\ TplKind tpl = kind.
Proof.
  unfold tenantTemplate, tenantTemplates. intros H. apply P_bind_done in H as (all & w1 & H1 & H).
  apply P_bind_done in H1 as (os & w2 & H1 & H2). apply rd_done in H1 as [_ ->]. apply ret_done in H2 as [<- ->].
  destruct (List.find _ _) as [x|] eqn:E; [|by inv_P]. injection H as <- <-. split; [done|].
  apply List.find_some in E as [_ E]. by to_prop.
Qed.

Lemma authorizeDispute_done c t action id w u w' : authorizeDispute c t action id w = (Done u, w') -> w' = w.
Proof.
  unfold authorizeDispute. intros H. apply P_bind_done in H as (rec & w1 & H1 & H). apply rd_done in H1 as [_ ->].
  apply P_bind_done in H as (f & w1 & H1 & H). apply dispute_facts_done in H1 as [-> _].
  apply P_bind_done in H as (dec & w1 & H1 & H). apply authorize_done in H1 as [-> _]. by injection H as <-.
Qed.

Lemma composed_rows c in_ w v w' :
  ComposeEmail c in_ w = (Done v, w') ->
  exists tid rec tpl values f, IDFrom c = Some tid /\
    GetDispute (mkMemTx tid (From_ctx c)) (ce_DisputeID in_) (w_store w) = Ok rec /\
    TplKind tpl = ce_Template in_ /\ Validate tpl (ce_Fields in_) = Ok values /\
    queued_mail in_ rec f (Fill Local tpl (factValues (nf_Facts f)) values) (w_store w) (w_store w').
Proof.
  unfold ComposeEmail. destruct (TemplateFor (ce_Template in_)); [|by intros H; inv_P].
  intros H. apply P_bind_done in H as (v' & w1 & H1 & H). apply P_bind_done in H as ([] & w2 & H2 & H).
  injection H2 as <-. injection H as <- <-. cbn. apply WithTx_done in H1 as (tid & Ht & H).
  unfold ComposeEmail_tx in H. apply P_bind_done in H as (rec & w2 & H1 & H). apply rd_done in H1 as [Hg ->].
  apply P_bind_done in H as (u & w2 & H1 & H). apply authorizeDispute_done in H1 as ->.
  apply P_bind_done in H as (tpl & w2 & H1 & H). apply tenantTemplate_done in H1 as [-> Hk].
  apply P_bind_done in H as (values & w2 & H1 & H). apply lift_done in H1 as [Hv ->].
  apply P_bind_done in H as (at_ & w2 & H1 & H). injection H1 as <- <-.
  apply P_bind_done in H as (f & w2 & H1 & H). apply (readonly_done _ _ _ _ (frames_notice_facts eq _ _ _)) in H1 as Es. cbn in Es.
  apply P_bind_done in H as (rules & w3 & H2 & H). apply lift_done in H2 as [_ ->].
  apply P_bind_done in H as ([] & w3 & H2 & H). apply enqueue_done in H2; [|done].
  apply (readonly_done _ _ _ _ (frames_view eq _ _ _)) in H. rewrite Es in H2.
  exists tid, rec, tpl, values, f. rewrite H. done.
Qed.

(** ** Sending again *)

Lemma GetNotice_ok t d k m n : GetNotice t d k m = Ok n -> n ∈ mNotices m /\ nr_DisputeID n = d /\ nr_ID n = k.
Proof.
  unfold GetNotice. destruct (ListNotices t d m) as [l|] eqn:El; [|done]. cbn. unfold ListNotices, seeing_read in El.
  destruct (GetDispute t d m); [|done]. injection El as <-. destruct (List.find _ _) eqn:E; [|done]. intros [= <-].
  apply List.find_some in E as [Hin E]. apply List.filter_In in Hin as [Hin Hd]. to_prop. by apply list_elem_of_In in Hin.
Qed.

(** The row a second copy is, from the email it repeats. *)
Record copy_of (in_ : ResendInput) rec (orig : NoticeRecord) (account : AccountRecord) m (again : NoticeRecord) : Prop := {
  cp_id : nr_ID again = mnextNotice m + 1 /\ nr_DisputeID again = dr_ID rec;
  cp_words : nr_Kind again = nr_Kind orig /\ nr_Subject again = nr_Subject orig /\ nr_Document again = nr_Document orig;
  cp_to : nr_Recipient again = ac_Email account /\ nr_Channel again = ChannelEmail;
  cp_unsent : nr_SentAt again = None /\ nr_Attempts again = 0 /\ nr_LastError again = None;
  cp_actor : nr_Actor again = re_Actor in_;
  cp_chain : nr_ResendOf again = Some (default (nr_ID orig) (nr_ResendOf orig))
}.
Lemma resent_row c in_ w v w' :
  Resend c in_ w = (Done v, w') ->
  exists tid rec orig account again, IDFrom c = Some tid /\
    GetDispute (mkMemTx tid (From_ctx c)) (re_DisputeID in_) (w_store w) = Ok rec /\
    (orig ∈ mNotices (w_store w) /\ nr_DisputeID orig = dr_ID rec /\ nr_ID orig = re_NoticeID in_ /\
     nr_Channel orig = ChannelEmail /\ nr_SentAt orig <> None) /\
    GetAccount (dr_AccountID rec) (w_store w) = Ok account /\ ac_Email account <> "" /\
    mNotices (w_store w') = mNotices (w_store w) ++ [again] /\ copy_of in_ rec orig account (w_store w) again /\
    mAttachments (w_store w') = mAttachments (w_store w) /\ same_case (w_store w) (w_store w').
Proof.
  intros H. pose proof (frames_Resend same_case _ _ _ _ _ H) as Hcase. unfold Resend in H.
  apply P_bind_done in H as (v' & w1 & H1 & H). apply P_bind_done in H as ([] & w2 & H2 & H).
  injection H2 as <-. injection H as <- <-. apply WithTx_done in H1 as (tid & Ht & H).
  unfold Resend_tx in H. apply P_bind_done in H as (rec & w2 & H1 & H). apply rd_done in H1 as [Hg ->].
  apply P_bind_done in H as (u & w2 & H1 & H). apply authorizeDispute_done in H1 as ->.
  apply P_bind_done in H as (orig & w2 & H1 & H). apply rd_done in H1 as [Ho ->]. apply GetNotice_ok in Ho as (Hin & Hd & Hid).
  destruct (negb _ || _) eqn:Eb; [by inv_P|]. apply orb_false_iff in Eb as [Hch Hsent]. to_prop.
  apply P_bind_done in H as (account & w2 & H1 & H). apply rd_done in H1 as [Ha ->]. case_bool_decide as He; [by inv_P|].
  apply P_bind_done in H as (at_ & w2 & H1 & H). injection H1 as <- <-.
  apply P_bind_done in H as (k & w2 & H1 & H). apply op_done in H1 as (m1 & H1 & ->). apply InsertNotice_done in H1 as [-> ->].
  apply (readonly_done _ _ _ _ (frames_view eq _ _ _)) in H. cbn in *. rewrite H in *. cbn.
  eexists tid, rec, orig, account, _. split_and!; try done.
Qed.

(** Sending an email again is allowed only for an email that was sent, and queues one row: the same words and
    kind, to the customer's address as it is now, naming the first email of its chain, with no attempt made yet; the
    email it repeats and the case stay as they are. *)
Theorem Resend_copies c in_ w v w' :
  Resend c in_ w = (Done v, w') ->
  exists tid rec orig account again, IDFrom c = Some tid /\
    GetDispute (mkMemTx tid (From_ctx c)) (re_DisputeID in_) (w_store w) = Ok rec /\
    (orig ∈ mNotices (w_store w) /\ nr_DisputeID orig = dr_ID rec /\ nr_ID orig = re_NoticeID in_ /\
     nr_Channel orig = ChannelEmail /\ nr_SentAt orig <> None) /\
    GetAccount (dr_AccountID rec) (w_store w) = Ok account /\ ac_Email account <> "" /\
    mNotices (w_store w') = mNotices (w_store w) ++ [again] /\ copy_of in_ rec orig account (w_store w) again /\
    mAttachments (w_store w') = mAttachments (w_store w) /\ same_case (w_store w) (w_store w').
Proof. apply resent_row. Qed.

(** ** Uploading *)

(** What an accepted upload was, and the one file it adds. *)
Lemma uploaded c in_ w meta w' : Upload c in_ w = (Done meta, w') ->
  let size := Z.of_nat (String.length (up_Content in_)) in
  exists tid f at_, IDFrom c = Some tid /\ NewV7 (w_ids w) = Ok f /\
    meta = mkAttachment f (up_DisputeID in_) None (up_Filename in_) (up_ContentType in_) size "" (up_Actor in_) at_ /\
    w_store w' = set_Attachments (<[f := mkAttachment f (up_DisputeID in_) None (up_Filename in_) (up_ContentType in_) size
      (up_Content in_) (up_Actor in_) at_]> (mAttachments (w_store w))) (w_store w) /\
    0 < size <= MaxAttachmentBytes /\ up_ContentType in_ ∈ AllowedAttachmentTypes /\
    up_Filename in_ <> "" /\ Z.of_nat (String.length (up_Filename in_)) <= 200.
Proof.
  intros H. cbv zeta. unfold Upload in H. set (size := Z.of_nat (String.length (up_Content in_))) in *. cbv zeta in H.
  destruct (size =? 0) eqn:E0; [by inv_P|]. destruct (MaxAttachmentBytes <? size) eqn:E1; [by inv_P|].
  destruct (negb (slices_contains _ _)) eqn:E2; [by inv_P|]. destruct (_ || _) eqn:E3; [by inv_P|].
  apply negb_false_iff, slices_contains_spec in E2. apply orb_false_iff in E3 as [Hname Hlen]. to_prop.
  apply P_bind_done in H as (id & w1 & H1 & H). injection H1 as Hid <-.
  apply P_bind_done in H as (at_ & w2 & H1 & H). injection H1 as <- <-.
  apply P_bind_done in H as ([] & w3 & H1 & H). apply ret_done in H as [<- <-].
  apply WithTx_done in H1 as (tid & Ht & H). apply P_bind_done in H as (u & w2 & H1 & H). apply authorizeDispute_done in H1 as ->.
  apply op_done in H as (m1 & H & ->). apply seeing_ok in H. injection H as <-.
  eexists tid, id, _. split; [done|]. split; [|split; [reflexivity|split; [reflexivity|]]].
  - destruct (NewV7 (w_ids w)); [by injection Hid as ->|discriminate].
  - split_and!; try done; unfold size in *; lia.
Qed.

(** C28: What is uploaded can be fetched: after an accepted upload the file, under the id the caller was given,
    reads back with the name, type and bytes sent in, as a draft of its dispute; and only a file of one byte to
    five megabytes, of an allowed type, with a name of one to two hundred bytes, is accepted. *)
Theorem Upload_roundtrip c in_ w meta w' :
  Upload c in_ w = (Done meta, w') ->
  GetAttachmentFile c (up_DisputeID in_) (at_ID meta) w' =
    (Done (mkAttachment (at_ID meta) (up_DisputeID in_) None (up_Filename in_) (up_ContentType in_) (at_Size meta) (up_Content in_)
             (up_Actor in_) (at_UploadedAt meta)), w') /\
  at_Content meta = "" /\ at_Size meta = Z.of_nat (String.length (up_Content in_)) /\
  0 < at_Size meta <= 5 * 1024 * 1024 /\ up_ContentType in_ ∈ AllowedAttachmentTypes /\
  0 < Z.of_nat (String.length (up_Filename in_)) <= 200.
Proof.
  intros H. apply uploaded in H as (tid & f & at_ & Ht & _ & -> & Hs & Hsize & Htype & Hname & Hlen). cbn.
  change MaxAttachmentBytes with (5 * 1024 * 1024) in Hsize. split.
  - unfold GetAttachmentFile, WithTx. rewrite Ht. unfold rd, GetAttachment. cbn. rewrite Hs. cbn. rewrite lookup_insert_eq. cbn.
    by rewrite decide_True.
  - split_and!; try done; try lia. destruct (up_Filename in_); cbn [String.length] in *; [done|lia].
Qed.
End correspondence_facts.
