(* ===== verification/Integrity.v ===== *)
(** * Integrity: what the use cases guarantee of the stored data.

    The abstract specification of a transition is [transition]: the record, the log, the clocks, the books, the
    questionnaire, the notices and the scores of one dispute move together and nothing else does. The
    definitions of [Service] refine it, and [store_ok] - the log replays to the record, the version counts the log,
    the books are a run of the ledger, money only moved with the core's approval, a closed dispute has no
    running clock - is an invariant of every use case. *)
From S2P Require Import Prelude Errs GoTime GoJson Ext Types Regimes Lifecycle Deadlines Ledger Questionnaire Risk Notice Access Store Tx Service ServiceFacts.

Section integrity.
Context `{DC : Decimal} `{UU : UUID} {Body : Type} {BC : BankingCore} {RT : Runtime} {AZ : Authorizer} {VC : ViewCodec Body}.
Implicit Types (m : MemStore Body) (w : World Body) (t : memTx) (id : uuid) (rec : DisputeRecord).

(** ** Replaying a log *)
Fixpoint replay_from (d : Dispute) (seq : Z) (es : list EventRecord) : option Dispute :=
  match es with
  | [] => Some d
  | e :: es =>
      if negb (ev_Seq e =? seq) || negb (bool_decide (ev_FromState e = DState d)) then None
      else
        d' ← (if bool_decide (ev_Event e = EventReassigned) then Some d
              else match Apply d (ev_Event e) with Ok d' => Some d' | Err _ => None end);
        if bool_decide (ev_ToState e = DState d') then replay_from d' (seq + 1) es else None
  end.

(** The state machine run over a log from its opening entry: the dispute it leads to. *)
Definition replay (regime : Regime) (es : list EventRecord) : option Dispute :=
  match es with
  | e :: es =>
      match NewDispute regime with
      | Ok d =>
          if bool_decide (ev_Seq e = 1) && bool_decide (ev_Event e = EventOpened)
             && bool_decide (ev_FromState e = StateEmpty) && bool_decide (ev_ToState e = DState d)
          then replay_from d 2 es else None
      | Err _ => None
      end
  | [] => None
  end.

Lemma replay_from_snoc d seq es e :
  replay_from d seq (es ++ [e]) =
    d' ← replay_from d seq es; replay_from d' (seq + Z.of_nat (length es)) [e].
Proof.
  revert d seq. induction es as [|x es IH]; intros d seq; cbn [app replay_from length].
  - cbn. by rewrite Z.add_0_r.
  - destruct (negb _ || negb _); [done|].
    destruct (if bool_decide (ev_Event x = EventReassigned) then _ else _) as [d1|]; cbn [mbind option_bind]; [|done].
    destruct (bool_decide _); [|done]. rewrite IH.
    by replace (seq + Z.of_nat (S (length es))) with (seq + 1 + Z.of_nat (length es)) by lia.
Qed.

Lemma replay_snoc regime es e d d' :
  replay regime es = Some d -> ev_Seq e = Z.of_nat (length es) + 1 -> ev_FromState e = DState d ->
  ev_ToState e = DState d' -> (ev_Event e = EventReassigned /\ d' = d) \/ (ev_Event e <> EventReassigned /\ Apply d (ev_Event e) = Ok d') ->
  replay regime (es ++ [e]) = Some d'.
Proof.
  destruct es as [|x es]; [done|]. cbn [app replay length]. destruct (NewDispute regime) as [d0|]; [|done].
  destruct (bool_decide _ && _ && _ && _); [|done]. rewrite replay_from_snoc. intros -> Hs Hf Ht Hc.
  cbn [mbind option_bind replay_from].
  replace (ev_Seq e =? 2 + Z.of_nat (length es)) with true by (symmetry; apply Z.eqb_eq; lia).
  rewrite Hf, bool_decide_true by done. cbn.
  destruct Hc as [[-> ->]|[Hn Ha]].
  - rewrite bool_decide_true by done. cbn. by rewrite Ht, bool_decide_true by done.
  - rewrite (bool_decide_false _ Hn), Ha. cbn. by rewrite Ht, bool_decide_true by done.
Qed.

(** ** The specification of a transition *)
Record same_rest m m' : Prop := {
  sr_Transactions : mTransactions m' = mTransactions m;
  sr_Attachments : mAttachments m' = mAttachments m;
  sr_Templates : mTemplates m' = mTemplates m;
  sr_Accounts : mAccounts m' = mAccounts m;
  sr_Names : mNames m' = mNames m;
  sr_Logos : mTenantLogos m' = mTenantLogos m /\ mTenantLogoAt m' = mTenantLogoAt m /\ mAvatars m' = mAvatars m;
  sr_Config : mCalendars m' = mCalendars m /\ mCores m' = mCores m /\ mAccessData m' = mAccessData m
}.

Record transition rec (next : Dispute) (event : Event) (actorID : string) m m' : Prop := {
  tn_disputes : exists at_, mDisputes m' =
    <[dr_ID rec := dr_with_state rec (DState next) (DAppeals next) (dr_Version rec + 1) at_]> (mDisputes m);
  tn_events : exists e, mEvents m' = <[dr_ID rec := at_key (mEvents m) (dr_ID rec) ++ [e]]> (mEvents m) /\
    ev_Seq e = dr_Version rec + 1 /\ ev_Event e = event /\ ev_FromState e = dr_State rec /\
    ev_ToState e = DState next /\ ev_ActorID e = actorID;
  tn_deadlines : same_except (dr_ID rec) (mDeadlines m) (mDeadlines m') /\
    exists b0 extra, at_key (mDeadlines m') (dr_ID rec) = b0 ++ extra /\
      settled_some (at_key (mDeadlines m) (dr_ID rec)) b0 /\
      (forall d, d ∈ b0 -> Settle (DlKind d) (DState next) <> Untouched -> Open d = false) /\
      (DAppeals next <= dr_Appeals rec -> extra = []);
  tn_ledger : same_except (dr_ID rec) (mLedger m) (mLedger m') /\
    exists cfg l st es, RulesFor (dr_Regime rec) = Ok cfg /\ liability_ok cfg (dr_DisputedAmount rec) l /\
      at_key (mLedger m') (dr_ID rec) = at_key (mLedger m) (dr_ID rec) ++ es /\
      postingsOf es = Postings cfg (mkPostingInput (DState next) (dr_DisputedAmount rec) (dr_Currency rec) l
                        (SuspenseBalance (postingsOf (at_key (mLedger m) (dr_ID rec)))) st) /\
      Forall (entry_ok rec (dr_Version rec + 1)) es;
  tn_questions : same_except (dr_ID rec) (mQuestions m) (mQuestions m');
  tn_risk : same_except (dr_ID rec) (mRisk m) (mRisk m');
  tn_notices : exists ns, mNotices m' = mNotices m ++ ns /\ Forall (fun n => nr_DisputeID n = dr_ID rec) ns;
  tn_rest : same_rest m m'
}.

Lemma UpdateDisputeState_done t id v state appeals at_ m m' :
  UpdateDisputeState t id v state appeals at_ m = (Ok tt, m') ->
  exists r, mDisputes m !! id = Some r /\ dr_TenantID r = t_tenant t /\ dr_Version r = v /\
    m' = set_Disputes (<[id := dr_with_state r state appeals (v + 1) at_]> (mDisputes m)) m.
Proof.
  unfold UpdateDisputeState. destruct (mDisputes m !! id) as [r|]; [|done].
  destruct (bool_decide _ && _) eqn:E; [|done]. to_prop. intros [= <-]. eauto 10.
Qed.

Lemma AppendEvent_done id e m m' :
  AppendEvent id e m = (Ok tt, m') ->
  m' = set_Events (<[id := at_key (mEvents m) id ++ [e]]> (mEvents m)) m /\
  Forall (fun x => ev_Seq x <> ev_Seq e) (at_key (mEvents m) id).
Proof.
  unfold AppendEvent. destruct (existsb _ _) eqn:E; [done|]. intros [= <-]. split; [done|].
  apply list.Forall_forall. intros x Hx Heq. apply not_true_iff_false in E. apply E, existsb_exists.
  exists x. split; [by apply list_elem_of_In|by apply Z.eqb_eq].
Qed.

(** A settled clock stays settled. *)
Lemma settled_some_app a b0 extra c :
  settled_some (b0 ++ extra) c -> settled_some a b0 ->
  exists c0 cx, c = c0 ++ cx /\ settled_some a c0 /\ length cx = length extra /\ (forall d, d ∈ c0 -> Open d = true -> d ∈ b0).
Proof.
  intros Hc Ha. apply Forall2_app_inv_l in Hc as (c0 & cx & H0 & Hx & ->).
  exists c0, cx. split_and!; [done| |symmetry; by eapply Forall2_length|].
  - unfold settled_some in *. by transitivity b0.
  - intros d. by apply settled_some_open.
Qed.

Lemma apply_steps_done c t in_ rec next policies now w w' :
  mDisputes (w_store w) !! dr_ID rec = Some rec ->
  apply_steps c t in_ rec next policies now w = (Done tt, w') ->
  transition rec next (ae_Event in_) (actorOf c).2 (w_store w) (w_store w') /\
  mIdempotent (w_store w') = mIdempotent (w_store w).
Proof.
  intros Hrec H. unfold apply_steps in H. apply P_bind_done in H as (u & w1 & H1 & H). apply op_done in H1 as (m1 & H1 & ->).
  destruct u. apply UpdateDisputeState_done in H1 as (r & Hr & _ & _ & ->).
  rewrite Hrec in Hr. injection Hr as <-.
  destruct (withAuthorizedBy _ _) as [res|]; [|done].
  apply P_bind_done in H as (payload & w2 & H1 & H). apply lift_done in H1 as [_ ->].
  destruct (actorOf c) as [display actorID] eqn:Ea.
  apply P_bind_done in H as (u & w3 & H1 & H). apply op_done in H1 as (m1 & H1 & ->). destruct u.
  apply AppendEvent_done in H1 as [-> _].
  apply P_bind_done in H as ([] & w4 & Hq & H). apply questionnaire_done in Hq as (Q & Ew4 & HQ).
  apply P_bind_done in H as ([] & w5 & Hd & H). apply settleDeadlines_done in Hd as (D & Ew5 & HD & b0 & extra & Hb & Hset & Hopen & Hex).
  apply P_bind_done in H as ([] & w6 & Hp & H). apply post_done in Hp as (cfg & l & st & L & es & Hcfg & Hl & Ew6 & HL & HLk & Hpost & Hok).
  apply P_bind_done in H as ([] & w7 & Hn & H). apply notify_done in Hn as (D' & ns & n & Ew7 & HD' & Hset' & Hns).
  rewrite Ew6, Ew5, Ew4 in *. cbn in *.
  assert (Hrisk : exists R, w_store w' = set_Risk R (w_store w7) /\ same_except (dr_ID rec) (mRisk (w_store w)) R).
  { destruct (bool_decide _).
    - apply P_bind_done in H as (txn & w8 & H1 & H). apply rd_done in H1 as [_ ->].
      apply assess_done in H as (r & _ & _ & ->). eexists. split; [done|]. rewrite Ew7. apply same_except_insert.
    - injection H as <-. exists (mRisk (w_store w7)). rewrite set_Risk_id, Ew7. done. }
  destruct Hrisk as (R & Ew' & HR). rewrite Ew', Ew7. cbn. split; [|done].
  rewrite Hb in Hset'. destruct (settled_some_app _ _ _ _ Hset' Hset) as (c0 & cx & Hc & Hc0 & Hlen & Hco).
  split; cbn.
  - eauto.
  - eexists. split; [done|]. done.
  - split; [by transitivity D|]. exists c0, cx. split_and!; [done|done| |].
    + intros d Hd Hne. destruct (Open d) eqn:E; [|done]. rewrite <- E. apply Hopen; auto.
    + intros Hle. rewrite (Hex Hle) in Hlen. by destruct cx.
  - split; [done|]. exists cfg, l, st, es. auto.
  - done.
  - done.
  - eauto.
  - done.
Qed.

(** ** The body of [ApplyEvent], and the replay wrapper *)
Lemma idempotent_done c scope idem fn w res w' :
  idempotent c scope idem fn w = (Done res, w') ->
  exists id, IDFrom c = Some id /\
  ((res_Replayed res = true /\ w' = w /\ idem_Key idem <> "" /\
    exists r, GetIdempotent (mkMemTx id (From_ctx c)) (storeScope c scope) (idem_Key idem) (w_store w) = Ok r /\
      sr_RequestHash r = sha256 (idem_RequestBody idem) /\ unmarshal_view (sr_Body r) = Some (res_View res)) \/
   (res_Replayed res = false /\ exists w1,
    fn (mkMemTx id (From_ctx c)) w = (Done (res_View res), w1) /\
    w_core w' = w_core w1 /\ w_kicks w' = S (w_kicks w1) /\ w_ids w' = w_ids w1 /\
    ((idem_Key idem = "" /\ w_store w' = w_store w1) \/
     (idem_Key idem <> "" /\ exists body at_, marshal_view (res_View res) = Ok body /\
        w_store w' = set_Idempotent (<[idempotent_key (mkMemTx id (From_ctx c)) (storeScope c scope) (idem_Key idem) :=
          mkStoredResponse (sha256 (idem_RequestBody idem)) 0 body at_]> (mIdempotent (w_store w1))) (w_store w1))))).
Proof.
  unfold idempotent. intros H. apply P_bind_done in H as (out & w1 & H1 & H).
  apply WithTx_done in H1 as (id & Hid & H1). exists id. split; [done|].
  apply P_bind_done in H as (u & w2 & Hk & H). injection H as -> ->.
  apply P_bind_done in H1 as (prior & w3 & Hp & H1).
  assert (w3 = w /\ forall r, prior = Some r -> res_Replayed r = true /\ idem_Key idem <> "" /\
    exists sr, GetIdempotent (mkMemTx id (From_ctx c)) (storeScope c scope) (idem_Key idem) (w_store w) = Ok sr /\
      sr_RequestHash sr = sha256 (idem_RequestBody idem) /\ unmarshal_view (sr_Body sr) = Some (res_View r)) as [-> Hprior].
  { destruct (negb (bool_decide (idem_Key idem = ""))) eqn:Ek; [|injection Hp as <- <-; done].
    apply negb_true_iff, bool_decide_eq_false in Ek. unfold replayed in Hp.
    apply P_bind_done in Hp as (stored & w4 & Ht & Hp). unfold try_, rd in Ht.
    destruct (GetIdempotent _ _ _ _) as [sr|e] eqn:Eg; cbn in Ht; injection Ht as <- <-.
    - destruct (negb (bool_decide (sr_RequestHash sr = _))) eqn:Eh; [by inv_P|].
      apply negb_false_iff, bool_decide_eq_true in Eh.
      destruct (unmarshal_view (sr_Body sr)) as [v|] eqn:Eu; [|by inv_P].
      injection Hp as <- <-. split; [done|]. intros r [= <-]. cbn. eauto 10.
    - destruct (negb (errors_is e ErrNotFound)); [by inv_P|]. destruct (bool_decide _); [by injection Hp as <- <-|].
      apply P_bind_done in Hp as (bare & w5 & Ht & Hp). unfold try_, rd in Ht.
      destruct (GetIdempotent _ scope _ _) as [sr|e']; cbn in Ht; injection Ht as <- <-; [by inv_P|].
      destruct (errors_is e' ErrNotFound); [by injection Hp as <- <-|by inv_P]. }
  destruct prior as [r|].
  - injection H1 as <- <-. destruct (Hprior _ eq_refl) as (Hr & Hke & Hex). rewrite Hr in Hk. injection Hk as <- <-.
    left. auto.
  - apply P_bind_done in H1 as (v & w4 & Hf & H1). apply P_bind_done in H1 as (u' & w5 & Hput & H1).
    injection H1 as <- <-. cbn in *. injection Hk as <- <-. right. split; [done|]. exists w4.
    destruct (negb (bool_decide (idem_Key idem = ""))) eqn:Ek; to_prop.
    + apply P_bind_done in Hput as (body & w6 & Hm & Hput). apply lift_done in Hm as [Hm ->].
      apply P_bind_done in Hput as (at_ & w7 & Hn & Hput). injection Hn as <- <-.
      apply op_done in Hput as (m & Hput & ->). cbn in *. unfold PutIdempotent in Hput. cbn in Hput.
      injection Hput as <-. split_and!; [done..|]. right. split; [done|]. eauto.
    + injection Hput as <- <-. split_and!; [done..|]. by left.
Qed.

(** ** The invariant *)
Record dispute_ok m id rec : Prop := {
  dk_id : dr_ID rec = id;
  dk_log : replay (dr_Regime rec) (at_key (mEvents m) id) = Some (Lifecycle_of rec);
  dk_version : dr_Version rec = Z.of_nat (length (at_key (mEvents m) id));
  dk_ledger : exists cfg, RulesFor (dr_Regime rec) = Ok cfg /\
    ledger_run cfg (dr_DisputedAmount rec) (dr_Currency rec) (Lifecycle_of rec) (postingsOf (at_key (mLedger m) id));
  dk_entries : Forall (fun e => exists seq, 1 <= seq <= dr_Version rec /\ entry_ok rec seq e) (at_key (mLedger m) id);
  dk_closed : dr_State rec = StateClosed -> forall d, d ∈ at_key (mDeadlines m) id -> Open d = false
}.

Record store_ok m : Prop := {
  so_disputes : forall id rec, mDisputes m !! id = Some rec -> dispute_ok m id rec;
  so_fresh : forall id, mDisputes m !! id = None ->
    at_key (mEvents m) id = [] /\ at_key (mLedger m) id = [] /\ at_key (mDeadlines m) id = []
}.

Lemma dispute_ok_agree m m' id rec :
  at_key (mEvents m') id = at_key (mEvents m) id -> at_key (mLedger m') id = at_key (mLedger m) id ->
  at_key (mDeadlines m') id = at_key (mDeadlines m) id -> dispute_ok m id rec -> dispute_ok m' id rec.
Proof. intros He Hl Hd [H1 H2 H3 H4 H5 H6]. split; rewrite ?He, ?Hl, ?Hd; auto. Qed.

(** The invariant speaks of four fields only. *)
Lemma store_ok_agree m m' :
  mDisputes m' = mDisputes m -> mEvents m' = mEvents m -> mLedger m' = mLedger m -> mDeadlines m' = mDeadlines m ->
  store_ok m -> store_ok m'.
Proof.
  intros E1 E2 E3 E4 [H1 H2]. split; intros id; rewrite E1.
  - intros rec Hr. apply H1 in Hr. revert Hr. apply dispute_ok_agree; by rewrite ?E2, ?E3, ?E4.
  - rewrite E2, E3, E4. apply H2.
Qed.

(** A change to one dispute keeps the invariant when the dispute itself is in order after it. *)
Lemma store_ok_update id rec m m' :
  store_ok m -> (forall j, j <> id -> mDisputes m' !! j = mDisputes m !! j) -> mDisputes m' !! id = Some rec ->
  same_except id (mEvents m) (mEvents m') -> same_except id (mLedger m) (mLedger m') ->
  same_except id (mDeadlines m) (mDeadlines m') -> dispute_ok m' id rec -> store_ok m'.
Proof.
  intros [H1 H2] Hd Hid He Hl Hdl Hok. split; intros j.
  - intros r Hr. destruct (decide (j = id)) as [->|Hj]; [congruence|]. rewrite Hd in Hr by done.
    apply H1 in Hr. revert Hr. apply dispute_ok_agree; by apply at_key_other with id.
  - intros Hn. destruct (decide (j = id)) as [->|Hj]; [congruence|]. rewrite Hd in Hn by done.
    rewrite (at_key_other id _ _ j He Hj), (at_key_other id _ _ j Hl Hj), (at_key_other id _ _ j Hdl Hj). by apply H2.
Qed.

Lemma Apply_facts rec event next :
  Apply (Lifecycle_of rec) event = Ok next ->
  event <> EventReassigned /\ DRegime next = dr_Regime rec /\ (DState next = StateClosed -> DAppeals next = dr_Appeals rec).
Proof.
  intros H. apply Apply_ok in H as (cfg & Hc & Hr & Hcase). cbn in *. split_and!; [|done|].
  - intros ->. destruct Hcase as [(? & _)|(_ & Hn & _)]; [done|].
    unfold Lifecycle.next in Hn. by destruct (dr_State rec).
  - destruct Hcase as [(_ & _ & _ & E & _)|(_ & _ & E)]; [by rewrite E|done].
Qed.

Lemma transition_ok rec next event actorID m m' :
  store_ok m -> mDisputes m !! dr_ID rec = Some rec -> Apply (Lifecycle_of rec) event = Ok next ->
  transition rec next event actorID m m' -> store_ok m'.
Proof.
  intros Hm Hrec Happ [(at_ & Ed) (e & Ee & Hseq & Hev & Hfrom & Hto & _) (Hds & b0 & extra & Hdk & _ & Hopen & Hex)
    (Hls & cfg & l & st & es & Hcfg & Hl & Hlk & Hpost & Hes) _ _ _ _].
  destruct (so_disputes _ Hm _ _ Hrec) as [Hid Hlog Hver (cfg' & Hcfg' & Hrun) Hent Hclosed].
  destruct (Apply_facts _ _ _ Happ) as (Hne & Hreg & Hap).
  eapply (store_ok_update (dr_ID rec)); [exact Hm| | | |exact Hls|exact Hds|].
  - intros j Hj. rewrite Ed. by rewrite lookup_insert_ne.
  - rewrite Ed. by rewrite lookup_insert_eq.
  - rewrite Ee. apply same_except_insert.
  - rewrite Hcfg in Hcfg'. injection Hcfg' as <-. destruct next as [nr ns na]. cbn in *. subst nr.
    split; cbn.
    + done.
    + rewrite Ee, at_key_insert. eapply replay_snoc; [exact Hlog| |done|done|].
      * rewrite Hseq. lia.
      * right. by rewrite Hev.
    + rewrite Ee, at_key_insert, length_app. cbn. lia.
    + exists cfg. split; [done|]. rewrite Hlk. unfold postingsOf at 1. rewrite map_app. fold (postingsOf es). rewrite Hpost.
      eapply (ledger_apply cfg _ _ (Lifecycle_of rec) _ event); done.
    + rewrite Hlk. apply Forall_app. split.
      * eapply list.Forall_impl; [exact Hent|]. intros x (seq & Hs & Hx). exists seq. split; [cbn; lia|]. by destruct Hx.
      * eapply list.Forall_impl; [exact Hes|]. intros x Hx. exists (dr_Version rec + 1). split; [cbn; lia|]. by destruct Hx.
    + intros Hcl d Hd. rewrite Hdk, (Hex ltac:(rewrite (Hap Hcl); lia)), app_nil_r in Hd.
      apply Hopen; [done|]. rewrite Hcl. by destruct (DlKind d).
Qed.
End integrity.
