(* ===== verification/Guarantees.v ===== *)
(** * Guarantees: the theorems about the use cases.

    The worlds a program can reach are those its use cases lead to from a store without disputes, under any
    callers, any requests and any outcome, with anything else (the other use cases, the administration of
    tenants, the core) free to change what the invariant does not speak of. *)
From Stdlib Require Import QArith.
From S2P Require Import Prelude Errs GoTime GoJson Ext Types Regimes Lifecycle Deadlines Ledger Questionnaire Risk Notice Access Store Tx Service ServiceFacts Integrity.
Local Open Scope Z_scope.

Section tame.
Context `{DC : Decimal} `{UU : UUID} {Body : Type} {BC : BankingCore} {RT : Runtime}.

(** A computation that cannot panic and never takes back a fresh id. *)
Definition tame {A} (p : P Body A) : Prop := forall w r w', p w = (r, w') ->
  (forall msg, r <> Panics msg) /\ (w_ids w <= w_ids w')%nat.

Lemma tame_ret {A} (a : A) : tame (mret a).
Proof. intros w r w' [= <- <-]. done. Qed.
Lemma tame_bind {A B} (p : P Body A) (f : A -> P Body B) : tame p -> (forall a, tame (f a)) -> tame (mbind f p).
Proof.
  intros Hp Hf w r w' H. unfold mbind, P_bind in H. destruct (p w) as [o w1] eqn:E.
  apply Hp in E as [E1 E2]. destruct o as [a|e|msg].
  - apply Hf in H as [H1 H2]. split; [done|lia].
  - injection H as <- <-. done.
  - by destruct (E1 msg).
Qed.
Lemma tame_lift {A} (r : M A) : tame (lift r).
Proof. intros w o w' [= <- <-]. by destruct r. Qed.
Lemma tame_rd {A} (f : MemStore Body -> M A) : tame (rd f).
Proof. intros w o w' [= <- <-]. by destruct (f _). Qed.
Lemma tame_op {A} (f : MemStore Body -> M A * MemStore Body) : tame (op f).
Proof. intros w o w'. unfold op. destruct (f _) as [[] m]; intros [= <- <-]; done. Qed.
Lemma tame_throw {A} e : tame (throw (A := A) e).
Proof. apply tame_lift. Qed.
Lemma tame_throwE {A} e : tame (throwE (A := A) e).
Proof. apply tame_lift. Qed.
Lemma tame_now : tame now.
Proof. intros w o w' [= <- <-]. done. Qed.
Lemma tame_new_id : tame new_id.
Proof. intros w o w' [= <- <-]. cbn. destruct (NewV7 _); (split; [done|lia]). Qed.
Lemma tame_kick : tame kick.
Proof. intros w o w' [= <- <-]. done. Qed.
Lemma tame_core cfg ins : tame (core_post cfg ins).
Proof. intros w o w'. unfold core_post. destruct (Post _ _ _). intros [= <- <-]. done. Qed.
Lemma tame_try {A} (p : P Body A) : tame p -> tame (try_ p).
Proof.
  intros Hp w r w' H. unfold try_ in H. destruct (p w) as [[a|e|msg] w1] eqn:E; apply Hp in E as [E1 E2];
    injection H as <- <-; [done..|by destruct (E1 msg)].
Qed.
Lemma tame_for_each {A} (f : A -> P Body unit) l : (forall a, tame (f a)) -> tame (for_each f l).
Proof. intros Hf. induction l as [|a l IH]; [apply tame_ret|]. cbn [for_each]. apply tame_bind; auto. Qed.
Lemma tame_WithTx {A} c (fn : memTx -> P Body A) : (forall t, tame (fn t)) -> tame (WithTx c fn).
Proof.
  intros Hf. unfold WithTx. destruct (IDFrom c) as [id|]; [|apply tame_throw].
  intros w r w' H. destruct (fn _ w) as [o w1] eqn:E. apply Hf in E as [E1 E2].
  destruct o; injection H as <- <-; (split; [done|cbn; lia]).
Qed.
End tame.

Create HintDb tame.
#[export] Hint Resolve tame_ret tame_bind tame_lift tame_rd tame_op tame_throw tame_throwE tame_now tame_new_id
  tame_kick tame_core tame_try tame_for_each tame_WithTx : tame.
(** Tame all the way down: each bind and each branch. *)
Ltac tame_tac := repeat first
  [ progress intros
  | solve [auto 2 with tame nocore]
  | progress cbv zeta
  | apply tame_bind
  | apply tame_for_each
  | apply tame_try
  | apply tame_WithTx
  | match goal with |- tame (match ?x with _ => _ end) => destruct x end ].

Section guarantees.
Context `{DC : Decimal} `{UU : UUID} {Body : Type} {BC : BankingCore} {RT : Runtime} {AZ : Authorizer} {VC : ViewCodec Body}.
Implicit Types (m : MemStore Body) (w : World Body) (t : memTx) (id : uuid) (rec : DisputeRecord) (c : Ctx).

Lemma tame_authorize c t action d : tame (Body := Body) (authorize c t action d).
Proof. unfold authorize. tame_tac. Qed.
Lemma tame_dispute_facts t rec : tame (Body := Body) (dispute_facts t rec).
Proof. unfold dispute_facts. tame_tac. Qed.
Lemma tame_assess t rec txn seq now : tame (Body := Body) (assess t rec txn seq now).
Proof. unfold assess. tame_tac. Qed.
Lemma tame_notice_facts t rec now : tame (Body := Body) (notice_facts t rec now).
Proof. unfold notice_facts. tame_tac. Qed.
#[local] Hint Resolve tame_authorize tame_dispute_facts tame_assess tame_notice_facts : tame.
Lemma tame_notify t rec entered seq now : tame (Body := Body) (notify t rec entered seq now).
Proof. unfold notify, notify_kind, notify_channel. tame_tac. Qed.
Lemma tame_questionnaire t rec e payload now : tame (Body := Body) (questionnaire t rec e payload now).
Proof. unfold questionnaire. tame_tac. Qed.
Lemma tame_settleDeadlines t rec next now : tame (Body := Body) (settleDeadlines t rec next now).
Proof. unfold settleDeadlines, settle_one_deadline. tame_tac. Qed.
Lemma tame_post_entries t rec seq now ps : tame (Body := Body) (post_entries t rec seq now ps).
Proof. induction ps; cbn [post_entries]; unfold instructCore; tame_tac. Qed.
#[local] Hint Resolve tame_notify tame_questionnaire tame_settleDeadlines tame_post_entries : tame.
Lemma tame_post t rec next seq payload now : tame (Body := Body) (post t rec next seq payload now).
Proof. unfold post. tame_tac. Qed.
Lemma tame_holdCheck t rec payload : tame (Body := Body) (holdCheck t rec payload).
Proof. unfold holdCheck. tame_tac. Qed.
Lemma tame_viewWith c t rec f : tame (Body := Body) (viewWith c t rec f).
Proof. unfold viewWith, permitted. tame_tac. Qed.
#[local] Hint Resolve tame_post tame_holdCheck tame_viewWith : tame.
Lemma tame_idempotent c scope idem fn : (forall t, tame (fn t)) -> tame (idempotent c scope idem fn).
Proof. intros Hf. unfold idempotent, replayed. tame_tac. Qed.

(** A payload that is not the literal [null] never panics. *)
Lemma tame_apply_steps c t in_ rec next policies now : ae_Payload in_ <> RawJSON JNull ->
  tame (Body := Body) (apply_steps c t in_ rec next policies now).
Proof.
  intros Hn. unfold apply_steps.
  assert (Hw : exists r, withAuthorizedBy (match ae_Payload in_ with RawEmpty => RawJSON (JObject []) | p => p end) policies = Some r).
  { unfold withAuthorizedBy. destruct (ae_Payload in_) as [|[]|]; eauto; try done;
      repeat match goal with |- context [match ?x with _ => _ end] => destruct x end; eauto. }
  destruct Hw as [r ->]. tame_tac.
Qed.
Lemma tame_ApplyEvent c in_ : ae_Payload in_ <> RawJSON JNull -> tame (ApplyEvent c in_).
Proof.
  intros Hn. apply tame_idempotent. intros t. unfold ApplyEvent_tx, when.
  pose proof (fun rec next pol now => tame_apply_steps c t in_ rec next pol now Hn). tame_tac.
Qed.
Lemma tame_CreateDispute c in_ : tame (CreateDispute c in_).
Proof. apply tame_idempotent. intros t. unfold CreateDispute_tx, view. tame_tac. Qed.
Lemma tame_Reassign c id team : tame (Body := Body) (Reassign c id team).
Proof. apply tame_WithTx. intros t. unfold Reassign_tx. tame_tac. Qed.

(** ** Bodies of the transactions *)

(** The ids of the records are their keys. *)
Definition keyed_by_id m : Prop := forall id rec, mDisputes m !! id = Some rec -> dr_ID rec = id.

Lemma store_ok_keyed m : store_ok m -> keyed_by_id m.
Proof. intros H id rec Hr. by apply (so_disputes _ H) in Hr as []. Qed.

(** The justification a credit on hold was given, read from its payload. *)
Definition hold_satisfied m rec (payload : RawMessage) : Prop :=
  forall r, list.last (at_key (mRisk m) (dr_ID rec)) = Some r -> ATier (rr_Assessment r) = RiskHigh ->
    exists facts, parse_facts payload = Ok facts /\ TrimSpace (ef_RiskOverride facts) <> "".

Lemma ApplyEvent_tx_done c in_ t w v w' : keyed_by_id (w_store w) ->
  ApplyEvent_tx c in_ t w = (Done v, w') ->
  exists rec next txn p a dec,
    GetDispute t (ae_DisputeID in_) (w_store w) = Ok rec /\ dr_ID rec = ae_DisputeID in_ /\
    GetTransaction t (dr_TransactionID rec) (w_store w) = Ok txn /\
    From_ctx c = Some p /\ GetAccess t p (w_store w) = Ok a /\
    Decide (default uuid_Nil (IDFrom c)) p a (EventAction (ae_Event in_))
      (Some (mkDisputeFacts (dr_ID rec) (dr_Team rec) (dr_DisputedAmount rec) (dr_Currency rec) (tr_Rail txn) (dr_State rec)
         (opener_of (at_key (mEvents (w_store w)) (dr_ID rec))))) = Ok dec /\ Allowed_ dec = true /\
    Apply (Lifecycle_of rec) (ae_Event in_) = Ok next /\
    (ae_Event in_ = EventIssueRefund -> hold_satisfied (w_store w) rec (ae_Payload in_)) /\
    transition rec next (ae_Event in_) (PID p) (w_store w) (w_store w') /\
    mIdempotent (w_store w') = mIdempotent (w_store w) /\
    vw_ID v = dr_ID rec /\ vw_State v = DState next /\ vw_Version v = dr_Version rec + 1 /\ vw_Appeals v = DAppeals next.
Proof.
  intros Hkey H. unfold ApplyEvent_tx in H.
  apply P_bind_done in H as (rec & w1 & H1 & H). apply rd_done in H1 as [Hg ->].
  pose proof Hg as (Hrec & Hten & Hvis)%GetDispute_ok. pose proof (Hkey _ _ Hrec) as Hid.
  apply P_bind_done in H as (f & w1 & H1 & H). apply dispute_facts_done in H1 as (-> & txn & Htx & ->).
  apply P_bind_done in H as (dec & w1 & H1 & H). apply authorize_done in H1 as (-> & p & a & Hp & Ha & Hdec & Hal).
  apply P_bind_done in H as (next & w1 & H1 & H). apply lift_done in H1 as [Happ ->].
  apply P_bind_done in H as (u & w1 & H1 & H). destruct u.
  assert (w1 = w /\ (ae_Event in_ = EventIssueRefund -> hold_satisfied (w_store w) rec (ae_Payload in_))) as [-> Hhold].
  { unfold when in H1. case_bool_decide as He; [|injection H1 as <-; done].
    apply holdCheck_done in H1 as [-> Hh]. split; [done|]. intros _ r Hr Hhigh.
    destruct (Hh r Hr) as (facts & Hf & Hc). unfold CreditAllowed in Hc. rewrite bool_decide_true in Hc by done.
    cbn in Hc. case_bool_decide as Ho; [done|]. exists facts. split; [|done].
    destruct (ae_Payload in_); [|done..]. subst facts. done. }
  clear H1. apply P_bind_done in H as (at_ & w1 & H1 & H). injection H1 as <- <-.
  apply P_bind_done in H as (u & w1 & H1 & H). destruct u.
  apply apply_steps_done in H1; cbn [w_store] in *; [|by rewrite Hid]. destruct H1 as [Htr Hidem].
  apply viewWith_done in H as (Hs & _ & _ & Hv1 & Hv2 & Hv3 & Hv4). rewrite Hs.
  assert (Hact : (actorOf c).2 = PID p) by (unfold actorOf; by rewrite Hp). rewrite Hact in Htr.
  exists rec, next, txn, p, a, dec. split_and!; done.
Qed.

Lemma Reassign_tx_done c id team t w w' : keyed_by_id (w_store w) ->
  Reassign_tx c id team t w = (Done tt, w') ->
  w' = w \/
  exists rec e at_, GetDispute t id (w_store w) = Ok rec /\ dr_ID rec = id /\
    ev_Seq e = dr_Version rec + 1 /\ ev_Event e = EventReassigned /\ ev_FromState e = dr_State rec /\ ev_ToState e = dr_State rec /\
    w_store w' = set_Disputes (<[id := dr_with_team rec team (dr_Version rec + 1) at_]> (mDisputes (w_store w)))
      (set_Events (<[id := at_key (mEvents (w_store w)) id ++ [e]]> (mEvents (w_store w))) (w_store w)).
Proof.
  intros Hkey H. unfold Reassign_tx in H.
  apply P_bind_done in H as (rec & w1 & H1 & H). apply rd_done in H1 as [Hg ->].
  pose proof Hg as (Hrec & Hten & Hvis)%GetDispute_ok. pose proof (Hkey _ _ Hrec) as Hid.
  apply P_bind_done in H as (f & w1 & H1 & H). apply dispute_facts_done in H1 as (-> & txn & Htx & ->).
  apply P_bind_done in H as (dec & w1 & H1 & H). apply authorize_done in H1 as (-> & p & a & Hp & Ha & Hdec & Hal).
  apply P_bind_done in H as (a' & w1 & H1 & H). rewrite Hp in H1. apply rd_done in H1 as [_ ->].
  destruct (negb _); [by inv_P|]. destruct (bool_decide _); [left; by injection H as <-|].
  apply P_bind_done in H as (at_ & w1 & H1 & H). injection H1 as <- <-.
  destruct (actorOf c) as [display actorID].
  apply P_bind_done in H as (u & w1 & H1 & H). apply op_done in H1 as (m1 & H1 & ->). destruct u.
  apply AppendEvent_done in H1 as [-> _]. apply op_done in H as (m2 & H & ->).
  unfold UpdateDisputeTeam in H. cbn in H. rewrite Hid, Hrec in H.
  destruct (bool_decide _ && _); [|done]. injection H as <-. right. cbn.
  eexists rec, (mkEventRecord _ _ _ _ _ _ _ _ _ _), _. cbn. split_and!; [done|done|..]; done.
Qed.

Lemma CreateDispute_tx_done c in_ t w v w' :
  CreateDispute_tx c in_ t w = (Done v, w') ->
  exists id rec e ds txn p a dec reason,
    NewV7 (w_ids w) = Ok id /\ dr_ID rec = id /\ dr_TenantID rec = t_tenant t /\
    GetTransaction t (cd_TransactionID in_) (w_store w) = Ok txn /\ ParseReason (cd_Reason in_) = Ok reason /\
    RegimeFor (tr_Rail txn) (tr_AccountCurrency txn) = Ok (dr_Regime rec) /\
    dr_State rec = StateInitiated /\ dr_Appeals rec = 0 /\ dr_Version rec = 1 /\ dr_TransactionID rec = tr_ID txn /\
    dr_AccountID rec = tr_AccountID txn /\ dr_DisputedAmount rec = tr_Amount txn /\ dr_Currency rec = tr_Currency txn /\
    dr_Reason rec = reason /\
    From_ctx c = Some p /\ GetAccess t p (w_store w) = Ok a /\ dr_Team rec = Route a (tr_Rail txn) reason "" (tr_Amount txn) /\
    Decide (default uuid_Nil (IDFrom c)) p a ActionCreate (Some (team_facts (dr_Team rec))) = Ok dec /\ Allowed_ dec = true /\
    mDisputes (w_store w') = <[id := rec]> (mDisputes (w_store w)) /\
    mEvents (w_store w') = <[id := at_key (mEvents (w_store w)) id ++ [e]]> (mEvents (w_store w)) /\
    ev_Seq e = 1 /\ ev_Event e = EventOpened /\ ev_FromState e = StateEmpty /\ ev_ToState e = StateInitiated /\ ev_ActorID e = PID p /\
    mLedger (w_store w') = mLedger (w_store w) /\ mQuestions (w_store w') = mQuestions (w_store w) /\
    same_except id (mRisk (w_store w)) (mRisk (w_store w')) /\
    mDeadlines (w_store w') = ds /\ same_except id (mDeadlines (w_store w)) ds /\
    mIdempotent (w_store w') = mIdempotent (w_store w) /\
    vw_ID v = id /\ vw_State v = StateInitiated /\ vw_Version v = 1 /\ (w_ids w < w_ids w')%nat /\
    (exists ns, mNotices (w_store w') = mNotices (w_store w) ++ ns /\ Forall (fun n => nr_DisputeID n = id) ns) /\
    mAttachments (w_store w') = mAttachments (w_store w).
Proof.
  intros H. unfold CreateDispute_tx in H.
  apply P_bind_done in H as (txn & w1 & H1 & H). apply rd_done in H1 as [Htx ->].
  apply P_bind_done in H as (regime & w1 & H1 & H). apply lift_done in H1 as [Hreg ->].
  apply P_bind_done in H as (reason & w1 & H1 & H). apply lift_done in H1 as [Hreason ->].
  apply P_bind_done in H as (at_ & w1 & H1 & H). injection H1 as <- <-.
  destruct (actorOf c) as [display actorID] eqn:Eact.
  apply P_bind_done in H as (id & w1 & H1 & H). unfold new_id in H1. cbn in H1. injection H1 as Hnew <-.
  destruct (NewV7 (w_ids w)) as [id'|] eqn:Eid; [|done]. injection Hnew as ->.
  assert (Hmono : (S (w_ids w) <= w_ids w')%nat).
  { match type of H with ?p ?x = _ => assert (Ht : tame p) by (unfold view; tame_tac); by apply Ht in H as [_ H] end. }
  destruct (From_ctx c) as [p|] eqn:Hp; [|by inv_P].
  apply P_bind_done in H as (a & w1 & H1 & H). apply rd_done in H1 as [Ha ->].
  apply P_bind_done in H as (dec & w1 & H1 & H). apply authorize_done in H1 as (-> & p' & a' & Hp' & Ha' & Hdec & Hal).
  cbn [w_store] in *. rewrite Hp in Hp'. injection Hp' as <-. rewrite Ha in Ha'. injection Ha' as <-.
  apply P_bind_done in H as (u & w1 & H1 & H). apply op_done in H1 as (m1 & H1 & ->). destruct u. injection H1 as <-.
  apply P_bind_done in H as (u & w1 & H1 & H). apply op_done in H1 as (m1 & H1 & ->). destruct u.
  apply AppendEvent_done in H1 as [-> _].
  apply P_bind_done in H as (cfg & w1 & H1 & H). apply lift_done in H1 as [Hcfg ->].
  apply P_bind_done in H as (cal & w1 & H1 & H). apply rd_done in H1 as [Hcal ->].
  apply P_bind_done in H as (u & w1 & H1 & H). apply op_done in H1 as (m1 & H1 & ->). destruct u.
  apply seeing_ok in H1. injection H1 as <-.
  apply P_bind_done in H as ([] & w2 & H1 & H). apply notify_done in H1 as (D & ns & n & Ew2 & HD & _ & Hns).
  apply P_bind_done in H as ([] & w3 & H1 & H). apply assess_done in H1 as (r & _ & _ & Ew3).
  apply viewWith_done in H as (Ew' & _ & _ & Hv1 & Hv2 & Hv3 & _).
  rewrite Ew', Ew3, Ew2. cbn in *.
  assert (Hact : actorID = PID p) by (unfold actorOf in Eact; rewrite Hp in Eact; by injection Eact).
  eexists id, (mkDisputeRecord id (t_tenant t) (Route a (tr_Rail txn) reason "" (tr_Amount txn)) regime
    StateInitiated 0 1 (tr_ID txn) (tr_AccountID txn) (tr_Amount txn) (tr_Currency txn) (now_at (w_ticks w)) (now_at (w_ticks w)) reason), (mkEventRecord _ _ _ _ _ _ _ _ _ _), D, txn, p, a, dec, reason.
  cbn. split_and!; try done.
  - apply same_except_insert.
  - etransitivity; [|exact HD]. apply same_except_insert.
  - by exists ns.
Qed.

(** ** Failure *)
Lemma WithTx_fails {A} c (fn : memTx -> P Body A) w e w' :
  WithTx c fn w = (Fails e, w') -> snapshot (w_store w') = snapshot (w_store w).
Proof.
  unfold WithTx. destruct (IDFrom c) as [id|]; [|by intros [= <- <-]].
  destruct (fn _ w) as [[] w1]; intros [= <- <-]. cbn. by destruct (w_store w).
Qed.

Lemma idempotent_fails c scope idem fn w e w' :
  idempotent c scope idem fn w = (Fails e, w') -> snapshot (w_store w') = snapshot (w_store w).
Proof.
  unfold idempotent, mbind, P_bind. destruct (WithTx _ _ w) as [[out|e'|msg] w1] eqn:E.
  - destruct (res_Replayed out); [|unfold kick]; intros H; discriminate H.
  - intros [= <- <-]. by eapply WithTx_fails.
  - done.
Qed.

Lemma store_ok_snapshot m m' : snapshot m' = snapshot m -> store_ok m -> store_ok m'.
Proof. intros H. unfold snapshot in H. injection H as E1 E2 _ E4 E5 _ _ _ _. by apply store_ok_agree. Qed.

(** ** Reachable worlds *)

(** The fresh ids are fresh: no two readings of the generator are equal. *)
Class FreshIds : Prop := fresh_ids : forall i j id, NewV7 i = Ok id -> NewV7 j = Ok id -> i = j.
Context `{FI : FreshIds}.

Inductive world_step : World Body -> World Body -> Prop :=
| step_create c in_ w r w' : CreateDispute c in_ w = (r, w') -> world_step w w'
| step_apply c in_ w r w' : ae_Payload in_ <> RawJSON JNull -> ApplyEvent c in_ w = (r, w') -> world_step w w'
| step_reassign c id team w r w' : Reassign c id team w = (r, w') -> world_step w w'
| step_other w w' :
    mDisputes (w_store w') = mDisputes (w_store w) -> mEvents (w_store w') = mEvents (w_store w) ->
    mLedger (w_store w') = mLedger (w_store w) -> mDeadlines (w_store w') = mDeadlines (w_store w) ->
    (w_ids w <= w_ids w')%nat -> world_step w w'.

Inductive reachable_world : World Body -> Prop :=
| reach_start w : mDisputes (w_store w) = ∅ -> mEvents (w_store w) = ∅ -> mLedger (w_store w) = ∅ ->
    mDeadlines (w_store w) = ∅ -> reachable_world w
| reach_step w w' : reachable_world w -> world_step w w' -> reachable_world w'.

Record world_ok w : Prop := {
  wo_store : store_ok (w_store w);
  wo_ids : forall id rec, mDisputes (w_store w) !! id = Some rec -> exists k, (k < w_ids w)%nat /\ NewV7 k = Ok id
}.

Lemma world_ok_same w w' : store_ok (w_store w') -> mDisputes (w_store w') = mDisputes (w_store w) ->
  (w_ids w <= w_ids w')%nat -> world_ok w -> world_ok w'.
Proof.
  intros Hs Hd Hi [_ H]. split; [done|]. intros id rec. rewrite Hd. intros Hr%H. destruct Hr as (k & Hk & Hn).
  exists k. split; [lia|done].
Qed.

Lemma world_ok_fails w w' : snapshot (w_store w') = snapshot (w_store w) -> (w_ids w <= w_ids w')%nat ->
  world_ok w -> world_ok w'.
Proof.
  intros Hs Hi Hw. assert (store_ok (w_store w')) by (eapply store_ok_snapshot; [exact Hs|apply Hw]).
  revert Hi Hw. apply world_ok_same; [done|]. unfold snapshot in Hs. by injection Hs.
Qed.

Lemma store_ok_idempotent m I : store_ok m -> store_ok (set_Idempotent I m).
Proof. by apply store_ok_agree. Qed.

Lemma create_ok c in_ t w v w1 : world_ok w -> CreateDispute_tx c in_ t w = (Done v, w1) ->
  store_ok (w_store w1) /\ (forall id rec, mDisputes (w_store w1) !! id = Some rec ->
    mDisputes (w_store w) !! id = Some rec \/ NewV7 (w_ids w) = Ok id) /\ (w_ids w < w_ids w1)%nat.
Proof.
  intros [Hs Hids] H. apply CreateDispute_tx_done in H as (id & rec & e & ds & txn & p & a & dec & reason & Hnew & Hid & _ & _ & _ &
    Hreg & Hst & Hap & Hver & _ & _ & _ & _ & _ & _ & _ & _ & _ & _ & Hd & He & Hseq & Hev & Hfrom & Hto & _ & Hl & _ & _ & Hdl & Hds & _ & _ & _ & _ & Hlt & _ & _).
  assert (Hn : mDisputes (w_store w) !! id = None).
  { destruct (mDisputes (w_store w) !! id) as [r|] eqn:E; [|done].
    apply Hids in E as (k & Hk & Hkn). pose proof (fresh_ids _ _ _ Hnew Hkn). lia. }
  destruct (so_fresh _ Hs _ Hn) as (Ee & El & Ed).
  assert (Hnd : exists cfg, RulesFor (dr_Regime rec) = Ok cfg /\ RRegime cfg = dr_Regime rec).
  { apply RegimeFor_ok in Hreg as (cfg & Hcfg%rules_RulesFor & _). exists cfg.
    split; [done|]. by apply RulesFor_ok in Hcfg as [_ ?]. }
  destruct Hnd as (cfg & Hcfg & Hcr).
  split; [|split; [|done]].
  - eapply (store_ok_update id rec); [exact Hs| | | | | |].
    + intros j Hj. rewrite Hd. by rewrite lookup_insert_ne.
    + rewrite Hd. by rewrite lookup_insert_eq.
    + rewrite He. apply same_except_insert.
    + by rewrite Hl.
    + by rewrite Hdl.
    + split.
      * done.
      * rewrite He, at_key_insert, Ee. cbn. unfold NewDispute. rewrite Hcfg. cbn.
        rewrite Hseq, Hev, Hfrom, Hto. cbn. unfold Lifecycle_of. by rewrite Hst, Hap.
      * rewrite He, at_key_insert, Ee. by rewrite Hver.
      * exists cfg. split; [done|]. rewrite Hl, El. cbn. apply ledger_new. rewrite Hcr. unfold NewDispute, Lifecycle_of.
        rewrite Hcfg, Hst, Hap. done.
      * by rewrite Hl, El.
      * by rewrite Hst.
  - intros j r. rewrite Hd. intros [[-> _]|[_ Hr]]%lookup_insert_Some; auto.
Qed.

Lemma step_ok w w' : world_step w w' -> world_ok w -> world_ok w'.
Proof.
  intros Hstep Hw. destruct Hstep as [c in_ w r w' H|c in_ w r w' Hn H|c id team w r w' H|w w' E1 E2 E3 E4 Hi].
  - destruct (tame_CreateDispute c in_ _ _ _ H) as [Hnp Hmono].
    destruct r as [res|e|msg]; [|by eapply world_ok_fails; [eapply idempotent_fails|..]|by destruct (Hnp msg)].
    apply idempotent_done in H as (tid & _ & [(_ & -> & _)|(_ & w1 & Hf & _ & _ & Hi & Hst)]); [done|].
    destruct (create_ok _ _ _ _ _ _ Hw Hf) as (Hs1 & Hd1 & Hlt).
    assert (Hd : store_ok (w_store w') /\ mDisputes (w_store w') = mDisputes (w_store w1)).
    { destruct Hst as [[_ ->]|(_ & body & at_ & _ & ->)]; [done|]. split; [by apply store_ok_idempotent|done]. }
    destruct Hd as [Hs Hd]. split; [done|]. intros id rec. rewrite Hd. intros [Hr|Hr]%Hd1.
    + apply (wo_ids _ Hw) in Hr as (k & Hk & Hkn). exists k. split; [lia|done].
    + exists (w_ids w). split; [lia|done].
  - destruct (tame_ApplyEvent c in_ Hn _ _ _ H) as [Hnp Hmono].
    destruct r as [res|e|msg]; [|by eapply world_ok_fails; [eapply idempotent_fails|..]|by destruct (Hnp msg)].
    apply idempotent_done in H as (tid & _ & [(_ & -> & _)|(_ & w1 & Hf & _ & _ & Hi & Hst)]); [done|].
    apply ApplyEvent_tx_done in Hf as (rec & next & txn & p & a & dec & Hg & Hid & _ & _ & _ & _ & _ & Happ & _ & Htr & _);
      [|apply store_ok_keyed, Hw].
    apply GetDispute_ok in Hg as (Hrec & _). rewrite <- Hid in Hrec.
    pose proof (transition_ok _ _ _ _ _ _ (wo_store _ Hw) Hrec Happ Htr) as Hs1.
    assert (Hd : store_ok (w_store w') /\ mDisputes (w_store w') = mDisputes (w_store w1)).
    { destruct Hst as [[_ ->]|(_ & body & at_ & _ & ->)]; [done|]. split; [by apply store_ok_idempotent|done]. }
    destruct Hd as [Hs Hd]. split; [done|]. intros id r. rewrite Hd. destruct (tn_disputes _ _ _ _ _ _ Htr) as [at_ ->].
    intros [[<- _]|[_ Hr]]%lookup_insert_Some.
    + apply (wo_ids _ Hw) in Hrec as (k & Hk & Hkn). exists k. split; [lia|done].
    + apply (wo_ids _ Hw) in Hr as (k & Hk & Hkn). exists k. split; [lia|done].
  - destruct (tame_Reassign c id team _ _ _ H) as [Hnp Hmono].
    destruct r as [[]|e|msg]; [|by eapply world_ok_fails; [eapply WithTx_fails|..]|by destruct (Hnp msg)].
    apply WithTx_done in H as (tid & _ & H).
    apply Reassign_tx_done in H as [->|(rec & e & at_ & Hg & Hid & Hseq & Hev & Hfrom & Hto & Hst)];
      [done| |apply store_ok_keyed, Hw].
    apply GetDispute_ok in Hg as (Hrec & _).
    pose proof (so_disputes _ (wo_store _ Hw) _ _ Hrec) as [_ Hlog Hver (cfg & Hcfg & Hrun) Hent Hclosed].
    split.
    + rewrite Hst. eapply (store_ok_update id); [apply Hw| | | |done|done|].
      * intros j Hj. cbn. by rewrite lookup_insert_ne.
      * cbn. by rewrite lookup_insert_eq.
      * cbn. apply same_except_insert.
      * split; cbn; [done| | |eauto| |done].
        -- rewrite at_key_insert. eapply replay_snoc; [exact Hlog|lia|done|done|]. left. done.
        -- rewrite at_key_insert, length_app. cbn. lia.
        -- eapply list.Forall_impl; [exact Hent|]. intros x (seq & Hsq & Hx). exists seq. split; [cbn; lia|]. by destruct Hx.
    + intros j r. rewrite Hst. cbn. intros [[<- _]|[_ Hr]]%lookup_insert_Some.
      * apply (wo_ids _ Hw) in Hrec as (k & Hk & Hkn). exists k. split; [lia|done].
      * apply (wo_ids _ Hw) in Hr as (k & Hk & Hkn). exists k. split; [lia|done].
  - destruct Hw as [Hs Hids]. split; [by eapply store_ok_agree|]. intros id rec. rewrite E1. intros (k & Hk & Hkn)%Hids.
    exists k. split; [lia|done].
Qed.

Lemma reachable_ok w : reachable_world w -> world_ok w.
Proof.
  induction 1 as [w E1 E2 E3 E4|w w' _ IH Hstep]; [|by eapply step_ok].
  split.
  - split; intros id; rewrite E1; [by intros rec ?%lookup_empty_Some|]. rewrite E2, E3, E4. done.
  - intros id rec. rewrite E1. by intros ?%lookup_empty_Some.
Qed.

(** C2: In every world the use cases can reach, every stored dispute is in order: replaying its log through the state
    machine gives its record, its version counts the log, its books are those of a run of the state machine and
    the posting rules, every movement on the customer's account was approved by the core and carries the reference
    of the event that caused it, and a closed dispute has no running clock. Clocks, events and books exist for no
    other id. *)
Theorem reachable_integrity w : reachable_world w -> store_ok (w_store w).
Proof. intros H%reachable_ok. apply H. Qed.
End guarantees.
