(* ===== verification/Core.v ===== *)
(** * Core: the banking cores a tenant can be connected to ([application/core.go]).

    A core keeps state of its own on the other side of the wire, which no transaction of the store rolls back.
    [CoreRouter] picks the adapter of the tenant's configured kind; a tenant without one books without a core. *)
From S2P Require Import Prelude Errs GoTime GoJson Ext Types Store Tx.

Section core.
Context `{DC : Decimal} `{UU : UUID}.

(** One adapter: from the state of every core to the answer and the state after it. *)
Definition Poster (S : Type) : Type := S -> CoreConfig -> CoreInstruction -> M CoreReceipt * S.

Definition bookOnly {S : Type} : Poster S := fun s _ ins =>
  (Ok (mkCoreReceipt "" "00" "booked without a core" true false "" (ci_RequestedAt ins) 0), s).

Record CoreRouter (S : Type) : Type := mkCoreRouter { Adapters : gmap string (Poster S) }.
Arguments Adapters {S} _.
Arguments mkCoreRouter {S} _.

Definition Router_Post {S : Type} (r : CoreRouter S) : Poster S := fun s cfg ins =>
  if bool_decide (cc_Kind cfg = "") then bookOnly s cfg ins
  else match Adapters r !! cc_Kind cfg with
       | Some adapter => adapter s cfg ins
       | None => (Err (Wrap (EClass ErrUnavailable) ("no banking core adapter of kind " +:+ quoted (cc_Kind cfg))), s)
       end.

(** The router as the port the use cases call. *)
Definition routed {S : Type} (r : CoreRouter S) : BankingCore := {| core_state := S; Post := Router_Post r |}.

(** ** Facts *)
Lemma Router_book_only {S : Type} (r : CoreRouter S) s cfg ins :
  cc_Kind cfg = "" -> exists rcpt, Router_Post r s cfg ins = (Ok rcpt, s) /\ rc_Approved rcpt = true.
Proof. intros H. unfold Router_Post. rewrite bool_decide_true by done. eexists. split; reflexivity. Qed.

(** A property of a core's state every adapter keeps is kept whatever is posted and however the tenant is configured. *)
Lemma Router_invariant {S : Type} (r : CoreRouter S) (I : S -> Prop) s cfg ins res s' :
  (forall k a, Adapters r !! k = Some a -> forall s cfg ins res s', a s cfg ins = (res, s') -> I s -> I s') ->
  Router_Post r s cfg ins = (res, s') -> I s -> I s'.
Proof.
  intros Ha H Hs. unfold Router_Post in H. case_bool_decide; [by injection H as <- <-|].
  destruct (Adapters r !! cc_Kind cfg) as [a|] eqn:E; [by eapply Ha|by injection H as <- <-].
Qed.
End core.
Arguments CoreRouter {DC UU} S.
Arguments mkCoreRouter {DC UU S} _.
Arguments Adapters {DC UU S} _.
