(* ===== verification/MockCore.v ===== *)
(** * MockCore: the simulated banking core ([infrastructure/mockcore/mockcore.go]).

    The adapter keeps what it has answered on the other side of the wire, keyed by the retrieval reference
    number; its mutex makes a call atomic, so a call is one function of that state. How a decimal and a UUID read
    from JSON is their packages' business and a parameter, and so is whether the caller's context ends within the
    wait a tenant configures. The log and the span are left out. *)
From S2P Require Import Prelude Errs GoTime GoJson Ext Types Regimes Lifecycle Deadlines Ledger Questionnaire Risk Notice Access Text Template Store Tx Core.

Definition MockKind : string := "mock".
Definition currencyCodes : gmap string string := {["EUR" := "978"; "USD" := "840"; "HUF" := "348"; "GBP" := "826"]}.
Definition responseTexts : gmap string string :=
  {["00" := "approved"; "51" := "insufficient funds"; "61" := "exceeds amount limit"; "94" := "duplicate transmission";
    "96" := "system malfunction"]}.
Definition response_text (code : string) : string := default "" (responseTexts !! code).

(** ** Text *)
(** [strings.ToUpper] on the hexadecimal digits it is given. *)
Fixpoint ToUpper (s : string) : string := match s with EmptyString => EmptyString | String a s => String (upper a) (ToUpper s) end.
Definition hex_digit (n : nat) : Ascii.ascii := Ascii.ascii_of_nat (if Nat.ltb n 10 then 48 + n else 87 + n).
(** [hex.EncodeToString]. *)
Fixpoint EncodeToString (s : string) : string :=
  match s with
  | EmptyString => EmptyString
  | String a s =>
      let n := Ascii.nat_of_ascii a in String (hex_digit (n / 16)) (String (hex_digit (n mod 16)) (EncodeToString s))
  end.
(** [fmt.Sprintf] of a decimal padded with zeros to a width, the sign counted. *)
Definition pad_number (width : Z) (z : Z) : string :=
  if z <? 0 then "-" +:+ zeros (width - 1 - Z.of_nat (String.length (show (- z)))) +:+ show (- z)
  else zeros (width - Z.of_nat (String.length (show z))) +:+ show z.
(** [Format("0102150405")], in UTC. *)
Definition format_transmission (t : time) : string :=
  let '(_, m, d) := date_of UTC t in
  let c := local_clock UTC t in
  pad2 m +:+ pad2 d +:+ pad2 (c / 3600) +:+ pad2 (c / 60 mod 60) +:+ pad2 (c mod 60).

(** A duration is 64 bits wide. *)
Definition int64 (z : Z) : Z := (z + 2 ^ 63) mod 2 ^ 64 - 2 ^ 63.

Section mockcore.
Context `{DC : Decimal} `{UU : UUID} {RT : Runtime}.
Context (into_decimal : decoder dec) (into_uuid : decoder uuid) (expires : Z -> bool).

Record Settings : Type := mkSettings {
  DeclineAbove : option dec;
  InsufficientFundsAccounts : list uuid;
  LatencyMs : Z;
  Outage : bool
}.
Definition zero_Settings : Settings := mkSettings None [] 0 false.
Definition into_Settings : decoder Settings := into_struct [
  ("declineAbove", field DeclineAbove (fun s v => mkSettings v (InsufficientFundsAccounts s) (LatencyMs s) (Outage s))
     (into_pointer dec_zero into_decimal));
  ("insufficientFundsAccounts", field InsufficientFundsAccounts (fun s v => mkSettings (DeclineAbove s) v (LatencyMs s) (Outage s))
     (into_slice uuid_Nil into_uuid));
  ("latencyMs", field LatencyMs (fun s v => mkSettings (DeclineAbove s) (InsufficientFundsAccounts s) v (Outage s)) into_int);
  ("outage", field Outage (fun s v => mkSettings (DeclineAbove s) (InsufficientFundsAccounts s) (LatencyMs s) v) into_bool)].

Record Message : Type := mkMessage {
  MTI : string;
  ProcessingCode : string;
  MAmount : string;
  Transmission : string;
  STAN : string;
  RRN : string;
  MAuthCode : string;
  MResponseCode : string;
  MCurrency : string;
  MAccount : string
}.

(** [Core]: the system trace audit number counter, the first answers by reference, and the clock's readings so far. *)
Record MockState : Type := mkMockState { m_stan : Z; m_seen : gmap string CoreReceipt; m_ticks : nat }.
Definition new_core : MockState := mkMockState 0 ∅ 0.
Definition tick (s : MockState) : time * MockState := (now_at (m_ticks s), mkMockState (m_stan s) (m_seen s) (S (m_ticks s))).

Definition rrn_of (reference : string) : string := ToUpper (EncodeToString (str_take 6 (sha256 reference))).
Definition request_message (s : MockState) (ins : CoreInstruction) : Message * MockState :=
  let stan := (m_stan s + 1) mod 2 ^ 32 in
  (mkMessage "0200" (if ci_CreditAccount ins then "200000" else "010000")
     (pad_number 12 (IntPart (Shift (ci_Amount ins) 2))) (format_transmission (ci_RequestedAt ins))
     (pad_number 6 (stan mod 1000000)) (rrn_of (ci_Reference ins)) "" ""
     (default "" (currencyCodes !! ci_Currency ins)) (uuid_String (ci_AccountID ins)),
   mkMockState stan (m_seen s) (m_ticks s)).

(** The answer to a reference not seen before. *)
Definition response_code (s : Settings) (ins : CoreInstruction) : string :=
  if ci_CreditAccount ins && match DeclineAbove s with Some limit => GreaterThan (ci_Amount ins) limit | None => false end then "61"
  else if negb (ci_CreditAccount ins) && slices_contains (InsufficientFundsAccounts s) (ci_AccountID ins) then "51"
  else "00".
Definition rc_as_duplicate (r : CoreReceipt) (latency : Z) : CoreReceipt :=
  mkCoreReceipt (rc_RRN r) "94" (response_text "94") (rc_Approved r) true (rc_AuthCode r) (rc_ProcessedAt r) latency.

Definition Mock_Post : Poster MockState := fun s cfg ins =>
  match match cc_Settings cfg with RawEmpty => Some zero_Settings | raw => Unmarshal into_Settings raw zero_Settings end with
  | None => (Err (Wrap (EClass ErrUnavailable) ("mockcore: tenant core settings: " +:+ json_error)), s)
  | Some settings =>
      let '(req, s) := request_message s ins in
      let '(started, s) := tick s in
      if (0 <? LatencyMs settings) && expires (int64 (LatencyMs settings * Millisecond)) then
        (Err (Wrap (EClass ErrUnavailable) "mockcore: context deadline exceeded"), s)
      else if Outage settings then (Err (Wrap (EClass ErrUnavailable) "mockcore: outage configured for tenant"), s)
      else match m_seen s !! RRN req with
      | Some first => let '(now, s) := tick s in (Ok (rc_as_duplicate first (Sub now started)), s)
      | None =>
          let code := response_code settings ins in
          let '(at_, s) := tick s in
          let '(now, s) := tick s in
          let approved := bool_decide (code = "00") in
          let rcpt := mkCoreReceipt (RRN req) code (response_text code) approved false
            (if approved then ToUpper (str_take 6 (RRN req)) else "") at_ (Sub now started) in
          (Ok rcpt, if approved then mkMockState (m_stan s) (<[RRN req := rcpt]> (m_seen s)) (m_ticks s) else s)
      end
  end.

(** What the switch logs as the answer to a request. *)
Definition exchange_response (req : Message) (rcpt : CoreReceipt) : Message :=
  mkMessage "0210" (ProcessingCode req) (MAmount req) (Transmission req) (STAN req) (RRN req) (rc_AuthCode rcpt)
    (rc_ResponseCode rcpt) (MCurrency req) (MAccount req).

(** ** Money moves once *)

(** A receipt that moved money: approved, and not the repetition of an earlier answer. *)
Definition moved (r : M CoreReceipt) : bool :=
  match r with Ok r => rc_Approved r && negb (rc_Duplicate r) | Err _ => false end.

Record seen_ok (s : MockState) : Prop := {
  so_first : forall k r, m_seen s !! k = Some r -> rc_RRN r = k /\ rc_Approved r = true /\ rc_Duplicate r = false
}.

Lemma Mock_Post_cases s cfg ins r s' : Mock_Post s cfg ins = (r, s') ->
  let k := rrn_of (ci_Reference ins) in
  ((exists e, r = Err e) /\ m_seen s' = m_seen s) \/
  (exists first latency, m_seen s !! k = Some first /\ r = Ok (rc_as_duplicate first latency) /\ m_seen s' = m_seen s) \/
  (exists rcpt, m_seen s !! k = None /\ r = Ok rcpt /\ rc_RRN rcpt = k /\ rc_Duplicate rcpt = false /\
     ((rc_Approved rcpt = true /\ m_seen s' = <[k := rcpt]> (m_seen s)) \/ (rc_Approved rcpt = false /\ m_seen s' = m_seen s))).
Proof.
  unfold Mock_Post. intros H. cbv zeta. destruct (match cc_Settings cfg with RawEmpty => _ | _ => _ end) as [settings|];
    [|injection H as <- <-; left; eauto].
  cbn in H. destruct ((0 <? _) && _); [injection H as <- <-; left; eauto|].
  destruct (Outage settings); [injection H as <- <-; left; eauto|]. right.
  destruct (m_seen s !! rrn_of (ci_Reference ins)) as [first|] eqn:E.
  - left. injection H as <- <-. eexists first, _. done.
  - right. injection H as <- <-. eexists. split; [done|]. split; [done|]. cbn. split; [done|]. split; [done|].
    destruct (bool_decide _); [by left|by right].
Qed.

(** A run of calls, oldest first: each with its tenant's configuration; what each was answered. *)
Fixpoint posts (s : MockState) (calls : list (CoreConfig * CoreInstruction)) : list (CoreInstruction * M CoreReceipt) * MockState :=
  match calls with
  | [] => ([], s)
  | (cfg, ins) :: calls =>
      let '(r, s) := Mock_Post s cfg ins in
      let '(rest, s) := posts s calls in ((ins, r) :: rest, s)
  end.
(** The references money moved for, in a run. *)
Definition moved_references (l : list (CoreInstruction * M CoreReceipt)) : list string :=
  map (fun a => rrn_of (ci_Reference a.1)) (List.filter (fun a => moved a.2) l).

Lemma posts_moved calls s l s' : seen_ok s -> posts s calls = (l, s') ->
  seen_ok s' /\ NoDup (moved_references l) /\
  (forall k, k ∈ moved_references l -> m_seen s !! k = None /\ m_seen s' !! k <> None) /\
  (forall k r, m_seen s !! k = Some r -> m_seen s' !! k = Some r) /\
  Forall (fun a => match a.2 with
    | Ok r => rc_Approved r = true -> exists first, m_seen s' !! rrn_of (ci_Reference a.1) = Some first /\
        rc_RRN r = rrn_of (ci_Reference a.1) /\ rc_AuthCode r = rc_AuthCode first /\ rc_ProcessedAt r = rc_ProcessedAt first
    | Err _ => True end) l.
Proof.
  revert s l. induction calls as [|[cfg ins] calls IH]; intros s l Hok H; cbn [posts] in H.
  { injection H as <- <-. split_and!; [done|constructor|by intros k ?%not_elem_of_nil|done|constructor]. }
  destruct (Mock_Post s cfg ins) as [r s1] eqn:E. destruct (posts s1 calls) as [rest s2] eqn:Er. injection H as <- <-.
  apply Mock_Post_cases in E. cbv zeta in E. set (k := rrn_of (ci_Reference ins)) in *.
  assert (Hsame : m_seen s1 = m_seen s -> seen_ok s1) by (intros Es; destruct Hok as [Hf]; split; by rewrite Es).
  destruct E as [[[e ->] Es]|[(first & latency & Ek & -> & Es)|(rcpt & Ek & -> & Hid & Hd & Hcase)]].
  - apply IH in Er as (H1 & H2 & H3 & H4 & H5); [|auto]. rewrite Es in H3, H4. split_and!; [done|done|done|done|by constructor].
  - apply IH in Er as (H1 & H2 & H3 & H4 & H5); [|auto]. rewrite Es in H3, H4.
    unfold moved_references in *. cbn. rewrite andb_false_r. split_and!; [done|done|done|done|]. constructor; [|done].
    cbn. intros _. exists first. destruct (so_first _ Hok _ _ Ek) as (Hr & _). fold k. split; [by apply H4|done].
  - destruct Hcase as [[Ha Es]|[Ha Es]].
    + assert (Hok1 : seen_ok s1).
      { destruct Hok as [Hf]. split. rewrite Es. intros j x [[<- <-]|[_ Hx]]%lookup_insert_Some; [done|by apply Hf]. }
      apply IH in Er as (H1 & H2 & H3 & H4 & H5); [|done]. rewrite Es in H3, H4.
      assert (Hk2 : m_seen s2 !! k = Some rcpt) by (apply H4; by rewrite lookup_insert_eq).
      unfold moved_references in *. cbn. rewrite Ha, Hd. cbn. fold k. split_and!; [done| | | |].
      * apply list.NoDup_cons. split; [|done]. intros Hin. apply H3 in Hin as [Hin _]. by rewrite lookup_insert_eq in Hin.
      * intros j [->|Hj]%elem_of_cons; [by rewrite Hk2|]. apply H3 in Hj as [Hj1 Hj2]. split; [|done].
        destruct (decide (j = k)) as [->|Hne]; [done|]. by rewrite lookup_insert_ne in Hj1.
      * intros j x Hx. apply H4. rewrite lookup_insert_ne; [done|]. intros ->. by rewrite Ek in Hx.
      * constructor; [|done]. cbn. intros _. exists rcpt. fold k. done.
    + apply IH in Er as (H1 & H2 & H3 & H4 & H5); [|auto]. rewrite Es in H3, H4.
      unfold moved_references in *. cbn. rewrite Ha. cbn. split_and!; [done|done|done|done|]. constructor; [|done]. cbn. by rewrite Ha.
Qed.

(** C29: Money moves at most once per reference: over any run of instructions, from any tenants and with any settings
    in between, at most one answer per retrieval reference number is an approval that is not marked a duplicate;
    every other approval for it is that first one again, with its authorization code and processing time. *)
Theorem money_moves_once calls :
  NoDup (moved_references (posts new_core calls).1) /\
  Forall (fun a => match a.2 with
    | Ok r => rc_Approved r = true ->
        exists first, m_seen (posts new_core calls).2 !! rrn_of (ci_Reference a.1) = Some first /\
          rc_RRN r = rrn_of (ci_Reference a.1) /\ rc_AuthCode r = rc_AuthCode first /\ rc_ProcessedAt r = rc_ProcessedAt first
    | Err _ => True end) (posts new_core calls).1.
Proof.
  destruct (posts new_core calls) as [l s'] eqn:H. apply posts_moved in H as (_ & H2 & _ & _ & H5); [done|]. by split.
Qed.

(** Only the reference tells a repetition from a new instruction: one with another amount is answered as the first. *)
Lemma duplicate_whatever_amount s ins amount kind first :
  m_seen s !! rrn_of (ci_Reference ins) = Some first ->
  exists r, (Mock_Post s (mkCoreConfig kind RawEmpty) (mkCoreInstruction (ci_Reference ins) (ci_DisputeID ins) (ci_AccountID ins)
    (ci_TransactionID ins) (ci_Kind ins) (ci_CreditAccount ins) amount (ci_Currency ins) (ci_RequestedAt ins))).1 = Ok r /\
    rc_Approved r = rc_Approved first /\ rc_Duplicate r = true /\ rc_AuthCode r = rc_AuthCode first.
Proof. intros H. unfold Mock_Post. cbn. rewrite H. cbn. eexists. done. Qed.
End mockcore.
