(* ===== verification/Contract.v ===== *)
(** * Contract: what the use cases promise their callers.

    The properties of [Service] as an auditor, a tenant, a customer or a client of the API would ask for them,
    proved from [Integrity] and [Guarantees], and the scenario they are instantiated on. *)
From Stdlib Require Import QArith Lqa.
From S2P Require Import Prelude Errs GoTime GoJson Ext Types Regimes Lifecycle Deadlines Ledger Questionnaire Risk Notice Access Text Template Store Tx Service Correspondence ServiceFacts Frames CorrespondenceFacts Profile Requests Integrity Guarantees Core.
Local Open Scope Z_scope.

Section contract.
Context `{DC : Decimal} `{UU : UUID} {Body : Type} {BC : BankingCore} {RT : Runtime} {AZ : Authorizer} {VC : ViewCodec Body}.
Implicit Types (m : MemStore Body) (w : World Body) (t : memTx) (id : uuid) (rec : DisputeRecord) (c : Ctx).

(** The transaction a request's context opens. *)
Definition tx_of (tid : uuid) c : memTx := mkMemTx tid (From_ctx c).

(** ** Transitions *)

(** What an applied event amounts to: the caller may see the dispute and was allowed the event at the facts of that
    moment, the state machine and the hold on credits accept it, and the store moves by one [transition]. *)
Record applied c (in_ : ApplyEventInput) w (v : DisputeView) w' (tid : uuid) (p : Principal) rec (next : Dispute) : Prop := {
  ap_tenant : IDFrom c = Some tid;
  ap_caller : From_ctx c = Some p;
  ap_record : GetDispute (tx_of tid c) (ae_DisputeID in_) (w_store w) = Ok rec;
  ap_id : dr_ID rec = ae_DisputeID in_;
  ap_allowed : exists txn a dec, GetTransaction (tx_of tid c) (dr_TransactionID rec) (w_store w) = Ok txn /\
    GetAccess (tx_of tid c) p (w_store w) = Ok a /\
    Decide tid p a (EventAction (ae_Event in_))
      (Some (mkDisputeFacts (dr_ID rec) (dr_Team rec) (dr_DisputedAmount rec) (dr_Currency rec) (tr_Rail txn) (dr_State rec)
         (opener_of (at_key (mEvents (w_store w)) (dr_ID rec))))) = Ok dec /\ Allowed_ dec = true;
  ap_accepted : Apply (Lifecycle_of rec) (ae_Event in_) = Ok next;
  ap_hold : ae_Event in_ = EventIssueRefund -> hold_satisfied (w_store w) rec (ae_Payload in_);
  ap_moved : transition rec next (ae_Event in_) (PID p) (w_store w) (w_store w');
  ap_view : vw_ID v = dr_ID rec /\ vw_State v = DState next /\ vw_Version v = dr_Version rec + 1 /\ vw_Appeals v = DAppeals next
}.

Lemma transition_idempotent rec next e actor m m' I :
  transition rec next e actor m m' -> transition rec next e actor m (set_Idempotent I m').
Proof. intros [? ? ? ? ? ? ? []]. done. Qed.

(** C1: The use case refines its specification: when [ApplyEvent] answers, either the answer is the stored one of an
    earlier request and nothing at all has changed, or the caller could see the dispute and was allowed the event,
    the state machine and the fraud hold accepted it, and record, log, clocks, books and notices of that one dispute
    moved together by one transition. *)
Theorem ApplyEvent_refines c in_ w res w' :
  store_ok (w_store w) -> ApplyEvent c in_ w = (Done res, w') ->
  (res_Replayed res = true /\ w' = w /\ idem_Key (ae_Idempotency in_) <> "") \/
  (res_Replayed res = false /\ exists tid p rec next, applied c in_ w (res_View res) w' tid p rec next).
Proof.
  intros Hok H. apply idempotent_done in H as (tid & Htid & [(Hr & -> & Hk & _)|(Hr & w1 & Hf & _ & _ & _ & Hst)]); [by left|].
  right. split; [done|].
  apply ApplyEvent_tx_done in Hf as (rec & next & txn & p & a & dec & Hg & Hid & Htx & Hp & Ha & Hd & Hal & Happ & Hh & Htr & _ & Hv);
    [|by apply store_ok_keyed].
  rewrite Htid in Hd. exists tid, p, rec, next. split; try done.
  - exists txn, a, dec. done.
  - destruct Hst as [[_ ->]|(_ & body & at_ & _ & ->)]; [done|by apply transition_idempotent].
Qed.

(** ** Failure *)

(** Any of the calls of a request, with its outcome forgotten: what is left is the world before and after. *)
Inductive uses c : World Body -> World Body -> Prop :=
| uses_create in_ w r w' : CreateDispute c in_ w = (r, w') -> uses c w w'
| uses_apply in_ w r w' : ae_Payload in_ <> RawJSON JNull -> ApplyEvent c in_ w = (r, w') -> uses c w w'
| uses_reassign id team w r w' : Reassign c id team w = (r, w') -> uses c w w'
| uses_correspondence w w' : correspondence c w w' -> uses c w w'.

(** What a transaction can change in the store is as it was. *)
Definition rolled_back w w' : Prop := snapshot (w_store w') = snapshot (w_store w).


Lemma WithTx_error {A} c tid (fn : memTx -> P Body A) w e : IDFrom c = Some tid ->
  fn (tx_of tid c) w = (Fails e, w) -> WithTx c fn w = (Fails e, w).
Proof.
  intros Ht Hf. unfold WithTx, tx_of in *. rewrite Ht, Hf. f_equal. destruct w as [[] ? ? ? ?]. reflexivity.
Qed.
Lemma idempotent_error c tid scope idem fn w e : IDFrom c = Some tid -> idem_Key idem = "" ->
  fn (tx_of tid c) w = (Fails e, w) -> idempotent c scope idem fn w = (Fails e, w).
Proof.
  intros Ht Hk Hf. unfold idempotent, mbind, P_bind. rewrite Hk. cbn.
  rewrite (WithTx_error c tid _ w e Ht); [done|]. rewrite bool_decide_true by done. unfold tx_of in *. cbn. by rewrite Hf.
Qed.

Lemma bind_rd {A B} (f : MemStore Body -> M A) (k : A -> P Body B) w :
  (x ← rd f; k x) w = match f (w_store w) with Ok a => k a w | Err e => (Fails e, w) end.
Proof. unfold mbind, P_bind, rd. by destruct (f (w_store w)). Qed.

(** The facts a dispute is judged by. *)
Definition judged w rec (txn : TransactionRecord) : DisputeFacts :=
  mkDisputeFacts (dr_ID rec) (dr_Team rec) (dr_DisputedAmount rec) (dr_Currency rec) (tr_Rail txn) (dr_State rec)
    (opener_of (at_key (mEvents (w_store w)) (dr_ID rec))).
(** What the policy engine makes of the caller. *)
Definition allows tid c t w (action : Action) (f : DisputeFacts) : bool :=
  match From_ctx c with
  | Some p => match GetAccess t p (w_store w) with
              | Ok a => match Decide tid p a action (Some f) with Ok dec => Allowed_ dec | Err _ => false end
              | Err _ => false
              end
  | None => false
  end.

Lemma authorize_refused c tid w action f : IDFrom c = Some tid -> allows tid c (tx_of tid c) w action f = false ->
  exists e, authorize c (tx_of tid c) action (Some f) w = (Fails e, w) /\ KindOf e = Forbidden.
Proof.
  intros Ht H. unfold allows, authorize in *. rewrite Ht. destruct (From_ctx c) as [p|]; [|eexists; split; reflexivity].
  rewrite bind_rd. destruct (GetAccess _ p _) as [a|e] eqn:E.
  - change (default uuid_Nil (Some tid)) with tid. destruct (Decide tid p a action (Some f)) as [dec|]; [|eexists; split; reflexivity].
    rewrite H. destruct (Policies dec); eexists; split; reflexivity.
  - unfold GetAccess in E. by destruct (mAccessData (w_store w) !! _).
Qed.

Lemma authorize_granted c tid w action f : IDFrom c = Some tid -> allows tid c (tx_of tid c) w action f = true ->
  exists dec, authorize c (tx_of tid c) action (Some f) w = (Done dec, w).
Proof.
  intros Ht H. unfold allows, authorize in *. rewrite Ht. destruct (From_ctx c) as [p|]; [|done].
  rewrite bind_rd. destruct (GetAccess _ p _) as [a|e] eqn:E; [|done].
  change (default uuid_Nil (Some tid)) with tid. destruct (Decide tid p a action (Some f)) as [dec|]; [|done]. rewrite H. eauto.
Qed.

Lemma ApplyEvent_tx_facts c tid in_ w rec txn : IDFrom c = Some tid ->
  GetDispute (tx_of tid c) (ae_DisputeID in_) (w_store w) = Ok rec ->
  GetTransaction (tx_of tid c) (dr_TransactionID rec) (w_store w) = Ok txn ->
  ApplyEvent_tx c in_ (tx_of tid c) w =
    (dec ← authorize c (tx_of tid c) (EventAction (ae_Event in_)) (Some (judged w rec txn));
     next ← lift (Apply (Lifecycle_of rec) (ae_Event in_));
     _ ← when (bool_decide (ae_Event in_ = EventIssueRefund)) (holdCheck (tx_of tid c) rec (ae_Payload in_));
     now ← now;
     _ ← apply_steps c (tx_of tid c) in_ rec next (Policies dec) now;
     viewWith c (tx_of tid c) (dr_with_state rec (DState next) (DAppeals next) (dr_Version rec + 1) now)
       (Some (facts_after (judged w rec txn) (DState next) (ae_Event in_) (actorOf c).2))) w.
Proof.
  intros Ht Hg Hx. unfold ApplyEvent_tx. rewrite bind_rd, Hg.
  unfold dispute_facts at 1, mbind at 1, P_bind at 1. rewrite bind_rd. cbn [ListEvents]. rewrite bind_rd, Hx. reflexivity.
Qed.


(** ** Idempotency keys *)

Lemma idempotent_stored {VL : ViewCodecLaws Body VC} c tid scope idem fn w res w1 :
  IDFrom c = Some tid -> idem_Key idem <> "" -> idempotent c scope idem fn w = (Done res, w1) ->
  exists r, GetIdempotent (tx_of tid c) (storeScope c scope) (idem_Key idem) (w_store w1) = Ok r /\
    sr_RequestHash r = sha256 (idem_RequestBody idem) /\ unmarshal_view (sr_Body r) = Some (res_View res).
Proof.
  intros Ht Hk H. apply idempotent_done in H as (tid' & Ht' & [(_ & -> & _ & Hex)|(_ & w2 & _ & _ & _ & _ & [[? _]|(_ & body & at_ & Hm & ->)])]);
    rewrite Ht in Ht'; injection Ht' as <-; [done..|].
  eexists. unfold GetIdempotent. cbn. rewrite lookup_insert_eq. split_and!; [done|done|]. cbn. by apply view_roundtrip.
Qed.

(** C14: An answered request can be repeated safely: as long as the stored answer is kept, repeating it in any later
    world gives the same view again, marked as replayed, and changes nothing whatever; and using its key with a
    different body is refused, also without any effect. *)
Theorem idempotent_replay {VL : ViewCodecLaws Body VC} c tid scope idem fn w res w1 w2 :
  IDFrom c = Some tid -> idem_Key idem <> "" -> idempotent c scope idem fn w = (Done res, w1) ->
  mIdempotent (w_store w2) !! idempotent_key (tx_of tid c) (storeScope c scope) (idem_Key idem) =
  mIdempotent (w_store w1) !! idempotent_key (tx_of tid c) (storeScope c scope) (idem_Key idem) ->
  idempotent c scope idem fn w2 = (Done (mkResult (res_View res) true), w2) /\
  forall body, sha256 body <> sha256 (idem_RequestBody idem) ->
    idempotent c scope (mkIdempotency (idem_Key idem) body) fn w2 = (Fails (EClass ErrIdempotencyReuse), w2).
Proof.
  intros Ht Hk H Hsame. apply (idempotent_stored c tid) in H as (r & Hg & Hh & Hu); [|done..].
  assert (Hg2 : GetIdempotent (tx_of tid c) (storeScope c scope) (idem_Key idem) (w_store w2) = Ok r).
  { unfold GetIdempotent in *. by rewrite Hsame. }
  unfold tx_of in Hg2. split.
  - unfold idempotent, mbind, P_bind, WithTx. rewrite Ht. rewrite bool_decide_false by done. cbn [negb].
    unfold replayed, try_, rd, mbind, P_bind. rewrite Hg2. cbn [of_M].
    rewrite Hh, bool_decide_true by done. cbn [negb]. rewrite Hu. reflexivity.
  - intros body Hb. unfold idempotent, mbind, P_bind, WithTx. rewrite Ht. cbn [idem_Key idem_RequestBody].
    rewrite bool_decide_false by done. cbn [negb].
    unfold replayed, try_, rd, mbind, P_bind. cbn [idem_Key idem_RequestBody]. rewrite Hg2. cbn [of_M].
    rewrite Hh, (bool_decide_false (sha256 (idem_RequestBody idem) = sha256 body)) by congruence. cbn [negb].
    unfold throw, lift, fail. cbn [of_M]. f_equal. destruct w2 as [[] ? ? ? ?]. reflexivity.
Qed.

(** ** Isolation and integrity *)
Context {FI : FreshIds}.

(** The letters and emails of one dispute. *)
Definition notices_of id m : list NoticeRecord := List.filter (fun n => bool_decide (nr_DisputeID n = id)) (mNotices m).
Lemma notices_of_other id j m m' ns : id <> j -> mNotices m' = mNotices m ++ ns ->
  Forall (fun n => nr_DisputeID n = j) ns -> notices_of id m' = notices_of id m.
Proof.
  intros Hn H HF. unfold notices_of. rewrite H, List.filter_app. rewrite <- (app_nil_r (List.filter _ (mNotices m))) at 2. f_equal.
  clear H. induction HF as [|n ns Hd _ IH]; [done|]. cbn. rewrite bool_decide_false by congruence. exact IH.
Qed.

(** Everything the store keeps of one dispute is as it was. *)
Record untouched id m m' : Prop := {
  un_record : mDisputes m' !! id = mDisputes m !! id;
  un_events : at_key (mEvents m') id = at_key (mEvents m) id;
  un_deadlines : at_key (mDeadlines m') id = at_key (mDeadlines m) id;
  un_ledger : at_key (mLedger m') id = at_key (mLedger m) id;
  un_risk : at_key (mRisk m') id = at_key (mRisk m) id;
  un_questions : mQuestions m' !! id = mQuestions m !! id;
  un_notices : notices_of id m' = notices_of id m
}.

Lemma untouched_snapshot id m m' : snapshot m' = snapshot m -> untouched id m m'.
Proof. unfold snapshot. intros H. injection H as H1 H2 _ H4 H5 H6 H7 H8 _. split; unfold notices_of; congruence. Qed.

Lemma untouched_idempotent id m m' I : untouched id m m' -> untouched id m (set_Idempotent I m').
Proof. by intros []. Qed.

Lemma untouched_transition rec next e actor m m' id : id <> dr_ID rec ->
  transition rec next e actor m m' -> untouched id m m'.
Proof.
  intros Hn [(at_ & Ed) (ev & Ee & _) (Hd & _) (Hl & _) Hq Hr (ns & Hns & HF) _]. split.
  - rewrite Ed. by rewrite lookup_insert_ne.
  - rewrite Ee. apply (at_key_other (dr_ID rec)); [apply same_except_insert|done].
  - by apply (at_key_other (dr_ID rec)).
  - by apply (at_key_other (dr_ID rec)).
  - by apply (at_key_other (dr_ID rec)).
  - by apply Hq.
  - by apply (notices_of_other _ (dr_ID rec) _ _ ns).
Qed.

(** The files of one dispute are as they were, those apart that are stored under an id still to be given out. *)
Definition files_kept id w w' : Prop := forall f a, mAttachments (w_store w) !! f = Some a -> at_DisputeID a = id ->
  (forall k, (w_ids w <= k)%nat -> NewV7 k <> Ok f) -> mAttachments (w_store w') !! f = Some a.
Lemma files_kept_same id w w' : mAttachments (w_store w') = mAttachments (w_store w) -> files_kept id w w'.
Proof. intros H f a Hf _ _. by rewrite H. Qed.
Lemma files_kept_snapshot id w w' : snapshot (w_store w') = snapshot (w_store w) -> files_kept id w w'.
Proof. intros H. apply files_kept_same. unfold snapshot in H. by injection H. Qed.

(** A computation that leaves the transaction's part of the store as it was, unless it ends with a value. *)
Definition same_snapshot m m' : Prop := snapshot m' = snapshot m.
#[export] Instance same_snapshot_preorder : PreOrder same_snapshot.
Proof. unfold same_snapshot. split; [done|]. intros a b d. congruence. Qed.
#[export] Instance same_snapshot_restorable : Restorable same_snapshot.
Proof. intros m m' H. by destruct m. Qed.
#[export] Instance same_snapshot_wording : WordingOps same_snapshot.
Proof.
  split; intros; apply frames_op; intros m r m'; [by intros [= _ <-]|].
  unfold DeleteTenantTemplate. destruct (mTemplates m !! _); by intros [= _ <-].
Qed.

Lemma same_snapshot_logo t img at_ : frames same_snapshot (op (PutTenantLogo (Body := Body) t img at_)).
Proof. apply frames_op. by intros m r m' [= _ <-]. Qed.
Lemma same_snapshot_avatar t subject img : frames same_snapshot (op (PutAnalystAvatar (Body := Body) t subject img)).
Proof. apply frames_op. by intros m r m' [= _ <-]. Qed.

Definition clean {A} (p : P Body A) : Prop := forall w r w', p w = (r, w') -> (forall a, r <> Done a) ->
  same_snapshot (w_store w) (w_store w').
Lemma clean_frames {A} (p : P Body A) : frames same_snapshot p -> clean p.
Proof. intros H w r w' Hp _. by apply H in Hp. Qed.
Lemma clean_bind {A B} (p : P Body A) (f : A -> P Body B) : frames same_snapshot p -> (forall a, clean (f a)) -> clean (mbind f p).
Proof.
  intros Hp Hf w r w' H Hr. unfold mbind, P_bind in H. destruct (p w) as [o w1] eqn:E. apply Hp in E.
  destruct o as [a|e|msg]; [|by injection H as _ <-..]. specialize (Hf _ _ _ _ H Hr). by transitivity (w_store w1).
Qed.
Lemma clean_last {A B} (p : P Body A) (f : A -> P Body B) : clean p -> (forall a w, exists b w', f a w = (Done b, w')) ->
  clean (mbind f p).
Proof.
  intros Hp Hf w r w' H Hr. unfold mbind, P_bind in H. destruct (p w) as [o w1] eqn:E.
  destruct o as [a|e|msg]; [|injection H as _ <-; by apply Hp in E; apply E..].
  destruct (Hf a w1) as (b & w2 & H2). rewrite H2 in H. injection H as <- <-. by destruct (Hr b).
Qed.
Lemma clean_WithTx {A} c (fn : memTx -> P Body A) : (forall t, tame (fn t)) -> clean (WithTx c fn).
Proof.
  intros Hf w r w' H Hr. destruct r as [a|e|msg]; [by destruct (Hr a)|by apply WithTx_fails in H|].
  apply (tame_WithTx c fn Hf) in H as [H _]. by destruct (H msg).
Qed.

Lemma tame_view c t rec : tame (Body := Body) (view c t rec).
Proof. apply tame_viewWith. Qed.
Lemma tame_authorizeDispute c t action id : tame (Body := Body) (authorizeDispute c t action id).
Proof. pose proof (tame_authorize (Body := Body) c t) as Ha. pose proof (tame_dispute_facts (Body := Body) t) as Hf. unfold authorizeDispute. tame_tac. Qed.
Lemma tame_ComposeEmail_tx c in_ t : tame (Body := Body) (ComposeEmail_tx c in_ t).
Proof.
  pose proof (tame_notice_facts (Body := Body) t) as Hf. pose proof (tame_view c t) as Hv. pose proof (tame_authorizeDispute c t) as Ha.
  unfold ComposeEmail_tx, tenantTemplate, tenantTemplates, enqueue, claimAttachments. tame_tac.
Qed.
Lemma tame_Resend_tx c in_ t : tame (Body := Body) (Resend_tx c in_ t).
Proof.
  pose proof (tame_view c t) as Hv. pose proof (tame_authorizeDispute c t) as Ha. unfold Resend_tx. tame_tac.
Qed.
Lemma clean_ComposeEmail c in_ : clean (ComposeEmail (Body := Body) c in_).
Proof.
  unfold ComposeEmail. destruct (TemplateFor _); [|by apply clean_frames, frames_throw, _].
  apply clean_last; [apply clean_WithTx, tame_ComposeEmail_tx|]. intros v w. by eexists _, _.
Qed.
Lemma clean_Resend c in_ : clean (Resend (Body := Body) c in_).
Proof. apply clean_last; [apply clean_WithTx, tame_Resend_tx|]. intros v w. by eexists _, _. Qed.
Lemma clean_Upload c in_ : clean (Upload (Body := Body) c in_).
Proof.
  unfold Upload. cbv zeta. repeat match goal with |- clean (if ?b then _ else _) => destruct b; [by apply clean_frames, frames_throw, _|] end.
  apply clean_bind; [apply frames_new_id, _|]. intros id. apply clean_bind; [apply frames_now, _|]. intros at_.
  apply clean_last; [apply clean_WithTx|intros v w; by eexists _, _].
  intros t. pose proof (tame_authorizeDispute c t) as Ha. tame_tac.
Qed.

(** What isolation means for one dispute. *)
Definition isolated id w w' : Prop := untouched id (w_store w) (w_store w') /\ files_kept id w w'.
Lemma isolated_snapshot id w w' : snapshot (w_store w') = snapshot (w_store w) -> isolated id w w'.
Proof. intros H. split; [by apply untouched_snapshot|by apply files_kept_snapshot]. Qed.
Lemma isolated_stored id w w1 w' : isolated id w w1 ->
  w_store w' = w_store w1 \/ (exists I, w_store w' = set_Idempotent I (w_store w1)) -> isolated id w w'.
Proof.
  intros [Hu Hf] [Hs|(I & Hs)].
  - split; [by rewrite Hs|]. intros f a Ha Hi Hk. rewrite Hs. by apply Hf.
  - split; [rewrite Hs; by apply untouched_idempotent|]. intros f a Ha Hi Hk. rewrite Hs. by apply Hf.
Qed.

Lemma isolated_create c in_ w v w' id rec t : world_ok w -> mDisputes (w_store w) !! id = Some rec ->
  CreateDispute_tx c in_ t w = (Done v, w') -> isolated id w w'.
Proof.
  intros Hw Hrec Hf.
  apply CreateDispute_tx_done in Hf as (j & rec' & e & ds & txn & p & a & dec & reason & Hnew & _ & _ & _ & _ & _ & _ & _ & _ &
    _ & _ & _ & _ & _ & _ & _ & _ & _ & _ & Hd & He & _ & _ & _ & _ & _ & Hl & Hq & Hr & Hdl & Hds & _ & _ & _ & _ & _ & (ns & Hns & HF) & Hat).
  assert (Hj : id <> j).
  { intros ->. apply (wo_ids _ Hw) in Hrec as (k & Hk & Hkn). pose proof (fresh_ids _ _ _ Hnew Hkn). lia. }
  split; [|by apply files_kept_same]. split; rewrite ?Hd, ?He, ?Hl, ?Hq, ?Hdl; try done; [by rewrite lookup_insert_ne| | | |].
  - apply (at_key_other j); [apply same_except_insert|done].
  - by apply (at_key_other j).
  - by apply (at_key_other j).
  - by apply (notices_of_other _ j _ _ ns).
Qed.

(** The dispute a tenant reaches is not another tenant's. *)
Lemma reached_other tid c j m rec rec' id : GetDispute (mkMemTx tid (From_ctx c)) j m = Ok rec' ->
  mDisputes m !! id = Some rec -> IDFrom c = Some tid -> IDFrom c <> Some (dr_TenantID rec) -> id <> j.
Proof.
  intros (Hr' & Ht' & _)%GetDispute_ok Hrec Htid Hten ->. rewrite Hr' in Hrec. injection Hrec as ->. by rewrite Htid, Ht' in Hten.
Qed.

(** Requests about correspondence: what they change is the tenant's own. *)
Lemma untouched_mail id m m' : same_case m m' -> notices_of id m' = notices_of id m -> untouched id m m'.
Proof. intros [] H. split; congruence. Qed.
Lemma isolated_pictures id w w' : same_but_pictures (w_store w) (w_store w') -> isolated id w w'.
Proof. intros [H _]. by apply isolated_snapshot. Qed.

Lemma isolated_compose c in_ w v w' id rec : keyed_by_id (w_store w) -> mDisputes (w_store w) !! id = Some rec ->
  IDFrom c <> Some (dr_TenantID rec) -> ComposeEmail c in_ w = (Done v, w') -> isolated id w w'.
Proof.
  intros Hkey Hrec Hten H. apply composed_rows in H as (tid & rec' & tpl & values & f & Htid & Hg & _ & _ & [Hrows Hfiles Hcase]).
  destruct Hrows as (email & letters & Hrows & Hd & _ & _ & _ & _ & _ & _ & _ & _ & _ & _ & Hl & Hin).
  destruct Hfiles as (_ & _ & Hout). pose proof (reached_other _ _ _ _ _ _ _ Hg Hrec Htid Hten) as Hj.
  assert (Hrid : dr_ID rec' = ce_DisputeID in_) by (apply GetDispute_ok in Hg as (Hr' & _); by apply Hkey).
  split.
  - apply untouched_mail; [done|]. apply (notices_of_other _ (dr_ID rec') _ _ (email :: letters)); [by rewrite Hrid|done|].
    constructor; [done|]. eapply list.Forall_impl; [exact Hl|]. by intros x [? _].
  - intros f0 a Ha Hi _. destruct (decide (f0 ∈ ce_Attachments in_)) as [Hf|Hf]; [|by rewrite Hout].
    destruct (Hin _ Hf) as (a' & Ha' & [_ Hd'] & _). rewrite Ha in Ha'. injection Ha' as <-. congruence.
Qed.
Lemma isolated_resend c in_ w v w' id rec : keyed_by_id (w_store w) -> mDisputes (w_store w) !! id = Some rec ->
  IDFrom c <> Some (dr_TenantID rec) -> Resend c in_ w = (Done v, w') -> isolated id w w'.
Proof.
  intros Hkey Hrec Hten H. apply resent_row in H as (tid & rec' & orig & acc & again & Htid & Hg & _ & _ & _ & Hrows & [[_ Hd] _ _ _ _ _] & Hat & Hcase).
  pose proof (reached_other _ _ _ _ _ _ _ Hg Hrec Htid Hten) as Hj.
  assert (Hrid : dr_ID rec' = re_DisputeID in_) by (apply GetDispute_ok in Hg as (Hr' & _); by apply Hkey).
  split; [|by apply files_kept_same]. apply untouched_mail; [done|].
  apply (notices_of_other _ (dr_ID rec') _ _ [again]); [by rewrite Hrid|done|by repeat constructor].
Qed.
Lemma isolated_upload c in_ w v w' id : Upload c in_ w = (Done v, w') -> isolated id w w'.
Proof.
  intros H. apply uploaded in H as (tid & f & at_ & Htid & Hnew & _ & Hs & _). split.
  - apply untouched_mail; [by rewrite Hs|]. unfold notices_of. by rewrite Hs.
  - intros f0 a0 Ha Hi Hk. rewrite Hs. cbn. rewrite lookup_insert_ne; [done|]. intros ->. by apply (Hk (w_ids w)).
Qed.
Lemma isolated_correspondence c w w' id rec : keyed_by_id (w_store w) -> mDisputes (w_store w) !! id = Some rec ->
  IDFrom c <> Some (dr_TenantID rec) -> correspondence c w w' -> isolated id w w'.
Proof.
  intros Hkey Hrec Hten Hc.
  destruct Hc as [in_ w r w' H|in_ w r w' H|in_ w r w' H|k o a w r w' H|k w r w' H|i w r w' H|u i w r w' H].
  - destruct r; [by eapply isolated_compose|..]; apply isolated_snapshot, (clean_ComposeEmail _ _ _ _ _ H); by intros.
  - destruct r; [by eapply isolated_resend|..]; apply isolated_snapshot, (clean_Resend _ _ _ _ _ H); by intros.
  - destruct r; [by eapply isolated_upload|..]; apply isolated_snapshot, (clean_Upload _ _ _ _ _ H); by intros.
  - apply isolated_snapshot. by apply (frames_PutTemplateSetting same_snapshot) in H.
  - apply isolated_snapshot. by apply (frames_DeleteTemplateSetting same_snapshot) in H.
  - apply isolated_snapshot. by apply (frames_PutTenantLogo same_snapshot same_snapshot_logo) in H.
  - apply isolated_snapshot. by apply (frames_PutAnalystAvatar same_snapshot same_snapshot_avatar) in H.
Qed.

Lemma isolated_uses c w w' id rec :
  world_ok w -> uses c w w' -> mDisputes (w_store w) !! id = Some rec -> IDFrom c <> Some (dr_TenantID rec) ->
  isolated id w w'.
Proof.
  intros Hw Hu Hrec Hten. pose proof (store_ok_keyed _ (wo_store _ Hw)) as Hkey.
  destruct Hu as [in_ w r w' H|in_ w r w' Hn H|j team w r w' H|w w' H]; [..|by eapply isolated_correspondence].
  - destruct (tame_CreateDispute c in_ _ _ _ H) as [Hnp _].
    destruct r as [res|e|msg]; [|by apply isolated_snapshot; eapply idempotent_fails|by destruct (Hnp msg)].
    apply idempotent_done in H as (tid & _ & [(_ & -> & _)|(_ & w1 & Hf & _ & _ & _ & Hst)]); [by apply isolated_snapshot|].
    eapply isolated_stored; [by eapply isolated_create|].
    destruct Hst as [[_ ?]|(_ & body & at_ & _ & ?)]; [by left|right; by eexists].
  - destruct (tame_ApplyEvent c in_ Hn _ _ _ H) as [Hnp _].
    destruct r as [res|e|msg]; [|by apply isolated_snapshot; eapply idempotent_fails|by destruct (Hnp msg)].
    apply idempotent_done in H as (tid & Htid & [(_ & -> & _)|(_ & w1 & Hf & _ & _ & _ & Hst)]); [by apply isolated_snapshot|].
    apply ApplyEvent_tx_done in Hf as (rec' & next & txn & p & a & dec & Hg & Hid & _ & _ & _ & _ & _ & _ & _ & Htr & _); [|done].
    pose proof (reached_other _ _ _ _ _ _ _ Hg Hrec Htid Hten) as Hj. rewrite <- Hid in Hj.
    eapply isolated_stored.
    + split; [by eapply untouched_transition|]. apply files_kept_same. by destruct Htr as [? ? ? ? ? ? ? []].
    + destruct Hst as [[_ ?]|(_ & body & at_ & _ & ?)]; [by left|right; by eexists].
  - destruct (tame_Reassign c j team _ _ _ H) as [Hnp _].
    destruct r as [[]|e|msg]; [|by apply isolated_snapshot; eapply WithTx_fails|by destruct (Hnp msg)].
    apply WithTx_done in H as (tid & Htid & H).
    apply Reassign_tx_done in H as [Hs|(rec' & e & at_ & Hg & Hid & _ & _ & _ & _ & Hs)]; [by apply isolated_snapshot; rewrite Hs| |done].
    pose proof (reached_other _ _ _ _ _ _ _ Hg Hrec Htid Hten) as Hj. split; [rewrite Hs|by apply files_kept_same; rewrite Hs].
    split; cbn; try done; [by rewrite lookup_insert_ne|]. apply (at_key_other j); [apply same_except_insert|done].
Qed.

(** Tenants are isolated: no request of one tenant, whatever it asks for and whether it succeeds or fails, changes
    anything the store keeps of another tenant's dispute: its record, log, clocks, books, scores, questionnaire,
    letters and emails, or its files. *)
Theorem tenant_isolation c w w' id rec :
  reachable_world w -> uses c w w' -> mDisputes (w_store w) !! id = Some rec -> IDFrom c <> Some (dr_TenantID rec) ->
  isolated id w w'.
Proof. intros Hw%reachable_ok. by apply isolated_uses. Qed.

Context {DL : DecimalLaws DC}.
Local Open Scope Q_scope.

(** The totals of a dispute's books. *)
Definition books w id : list Posting := postingsOf (at_key (mLedger (w_store w)) id).

Lemma reachable_books w id rec : reachable_world w -> mDisputes (w_store w) !! id = Some rec ->
  exists cfg, RulesFor (dr_Regime rec) = Ok cfg /\ rules (RRegime cfg) = Some cfg /\
    ledger_run cfg (dr_DisputedAmount rec) (dr_Currency rec) (Lifecycle_of rec) (books w id).
Proof.
  intros Hw Hr. apply reachable_ok in Hw as [Hw _]. apply (so_disputes _ Hw) in Hr as [_ _ _ (cfg & Hcfg & Hrun) _ _].
  exists cfg. split; [done|]. split; [|done]. by apply RulesFor_ok in Hcfg as [Hc ->].
Qed.

(** C10: A closed dispute is at rest, however it was handled: nothing of it is left in suspense, what the customer
    kept is exactly what the bank recovered or wrote off, no clock of it runs, and the customer holds at least
    nothing and at most the claim once per cycle. *)
Theorem closed_dispute_at_rest w id rec :
  reachable_world w -> mDisputes (w_store w) !! id = Some rec -> dr_State rec = StateClosed ->
  suspense (books w id) == 0 /\
  customer (books w id) == recovery (books w id) + loss (books w id) /\
  0 <= customer (books w id) <= inject_Z (dr_Appeals rec + 1) * claimed (dr_DisputedAmount rec) /\
  (forall d, d ∈ at_key (mDeadlines (w_store w)) id -> Open d = false).
Proof.
  intros Hw Hr Hcl. destruct (reachable_books _ _ _ Hw Hr) as (cfg & _ & Hc & Hrun).
  apply ledger_run_inv in Hrun as [_ Hset Hs Hcu1 Hcu2]; [|done]. cbn in *. specialize (Hset ltac:(by rewrite Hcl)).
  pose proof (double_entry (books w id)).
  pose proof (mul_claimed_mono (dr_Appeals rec) (dr_Appeals rec + 1) (dr_DisputedAmount rec) ltac:(lia)).
  split; [done|]. split; [lra|]. split.
  - destruct (unrefunded_state (dr_State rec)); lra.
  - apply reachable_ok in Hw as [Hw _]. apply (so_disputes _ Hw) in Hr as [_ _ _ _ _ Hcd]. by apply Hcd.
Qed.

(** ** What a Regulation Z customer is told *)

Lemma reg_z_books cfg disputed cur d ps : rules RegimeUSRegZ = Some cfg -> ledger_run cfg disputed cur d ps ->
  dispute_inv RegimeUSRegZ d /\ ps = [].
Proof.
  intros Hc H. assert (Hr : RRegime cfg = RegimeUSRegZ) by (injection Hc as <-; done).
  induction H as [d Hd|d ps e d' l s Hrun [Hinv ->] Happ Hl].
  - rewrite Hr in Hd. split; [by eapply new_inv|done].
  - pose proof (apply_inv _ _ _ _ Hinv Happ) as Hinv'. split; [done|]. cbn.
    destruct Hinv' as (_ & Hin & _).
    assert (Hz : IsPositive dec_zero = false) by (apply IsPositive_false; rewrite dval_zero; lra).
    unfold Postings, settle_one, post_one. cbn.
    destruct (DState d') eqn:E; rewrite ?Hz; try destruct s; try destruct (HasProvisionalCredit cfg); try done.
    all: exfalso; revert Hin; apply (bool_decide_eq_false _); by vm_compute.
Qed.

Lemma notice_facts_outcome t rec now w f w' : notice_facts t rec now w = (Done f, w') ->
  FOutcome (nf_Facts f) = outcome_of (reversal_amount (at_key (mLedger (w_store w)) (dr_ID rec)))
                            (ledger_balances (at_key (mLedger (w_store w)) (dr_ID rec))).
Proof.
  unfold notice_facts. intros H. inv_P.
  match goal with H : try_ _ _ = _ |- _ => apply try_done in H as [(? & -> & H)|(? & -> & H)]; unfold rd in H; injection H as _ <- end.
  2: destruct (errors_is _ ErrNotFound).
  all: inv_P; cbn; by repeat match goal with H : ListLedger _ _ _ = Ok _ |- _ => apply seeing_read_ok in H; injection H as <- end.
Qed.

(** A Regulation Z dispute never books a credit, even when the chargeback is won, and the outcome every notice about it is composed from is DENIED (the notices of a transition are composed after its
    postings): the resolution notice of a customer who won says that no error occurred and no credit was made. *)
Theorem reg_z_always_denied w id rec t now w1 f w2 :
  reachable_world w -> mDisputes (w_store w) !! id = Some rec -> dr_Regime rec = RegimeUSRegZ ->
  mLedger (w_store w1) = mLedger (w_store w) -> notice_facts t rec now w1 = (Done f, w2) ->
  books w id = [] /\ FOutcome (nf_Facts f) = OutcomeDenied.
Proof.
  intros Hw Hr Hz Hl Hf. destruct (reachable_books _ _ _ Hw Hr) as (cfg & Hcfg & Hc & Hrun).
  rewrite Hz in Hcfg. apply RulesFor_ok in Hcfg as [Hcfg _].
  destruct (reg_z_books _ _ _ _ _ Hcfg Hrun) as [_ Hnil]. split; [done|].
  apply notice_facts_outcome in Hf. rewrite Hf, Hl.
  assert (Hid : dr_ID rec = id) by (apply (store_ok_keyed _ (wo_store _ (reachable_ok _ Hw)) _ _ Hr)).
  unfold books, postingsOf in Hnil. apply map_eq_nil in Hnil. rewrite Hid, Hnil. cbn.
  unfold outcome_of. cbn. by rewrite (proj2 (IsPositive_false dec_zero)) by (rewrite dval_zero; lra).
Qed.
End contract.

(** ** A scenario, executed *)
Module Scenario.
  Import QDec NUuid.

(** A clock that advances an hour per reading, ids counted from 101, and a digest that is the text itself. *)
#[export] Instance runtime : Runtime := {
  now_at n := Date 2026 3 2 9 0 0 0 UTC + Z.of_nat n * Hour;
  NewV7 n := Ok (N.of_nat (101 + n));
  Local := UTC;
  sha256 s := s;
  address _ := "0xc000012345"
}.
#[export] Instance core : BankingCore := routed (mkCoreRouter (S := unit) ∅).
#[export] Instance allow_all : Authorizer := { Decide _ _ _ _ _ := Ok (mkDecision true ["grant"]) }.
#[export] Instance codec : ViewCodec DisputeView := { marshal_view v := Ok v; unmarshal_view := Some }.
#[export] Instance codec_laws : ViewCodecLaws DisputeView codec.
Proof. split. by intros v b [= ->]. Qed.
#[export] Instance fresh : FreshIds.
Proof. intros i j id [= <-] [=]. lia. Qed.

Definition bank : uuid := 1%N.
Definition alice : Principal := mkPrincipal Analyst "alice" "Alice" false.
Definition ctx : Ctx := mkCtx _ (Some bank) (Some alice) None.
Definition other_ctx : Ctx := mkCtx _ (Some 2%N) (Some alice) None.

Definition purchase (id : uuid) (rail : Rail) : TransactionRecord :=
  mkTransactionRecord id bank 20%N rail (inject_Z 100) "USD" "USD" (Date 2020 1 1 0 0 0 0 UTC) "Shop" "5999"
    (Date 2026 2 20 12 0 0 0 UTC).
Definition start : World DisputeView :=
  mkWorld
    (mkMemStore {[10%N := purchase 10%N RailCard; 11%N := purchase 11%N RailCreditCard]} ∅ ∅ ∅ ∅ ∅ ∅ [] ∅ ∅ ∅
       {[20%N := mkAccountRecord 20%N "Jane Doe" "USD" "jane@example.com" "1 Main St" (Date 2020 1 1 0 0 0 0 UTC)]}
       ∅ ∅ ∅ ∅ 0 ∅ ∅ ∅)
    tt 0 0 0.

Definition no_key : Idempotency := mkIdempotency "" "".
Definition opening (txn : uuid) : CreateDisputeInput := mkCreateDisputeInput txn "UNAUTHORISED" no_key None.
Definition event (id : uuid) (e : Event) : ApplyEventInput := mkApplyEventInput id e RawEmpty no_key.

Definition opened (txn : uuid) : World DisputeView := (CreateDispute ctx (opening txn) start).2.
Definition play (es : list Event) (w : World DisputeView) : World DisputeView :=
  foldl (fun w e => (ApplyEvent ctx (event 101%N e) w).2) w es.

(** A card dispute under Regulation E that ends with the merchant's loss, and a credit card dispute under
    Regulation Z that is won. *)
Definition won_e : World DisputeView :=
  play [EventOpenInvestigation; EventIssueRefund; EventFileChargeback; EventAcknowledgeChargeback; EventWinChargeback;
        EventIssueFinalCredit; EventClose] (opened 10%N).
Definition won_z : World DisputeView :=
  play [EventOpenInvestigation; EventFileChargeback; EventAcknowledgeChargeback; EventWinChargeback; EventClose] (opened 11%N).

Lemma reachable_opened txn : reachable_world (opened txn).
Proof.
  eapply reach_step; [|eapply (step_create ctx (opening txn) start); apply surjective_pairing].
  by apply reach_start.
Qed.
Lemma reachable_play es w : reachable_world w -> reachable_world (play es w).
Proof.
  revert w. induction es as [|e es IH]; intros w Hw; [done|]. apply IH. eapply reach_step; [exact Hw|].
  eapply (step_apply ctx (event 101%N e)); [done|apply surjective_pairing].
Qed.

Definition record_of (w : World DisputeView) : DisputeRecord :=
  default (mkDisputeRecord 0%N 0%N "" RegimeUSRegE StateEmpty 0 0 0%N 0%N 0%Q "" 0 0 ReasonDuplicate) (mDisputes (w_store w) !! 101%N).
Definition view_of (r : outcome Result * World DisputeView) : Result :=
  match r.1 with
  | Done res => res
  | _ => mkResult (mkDisputeView 0%N RegimeUSRegE ReasonDuplicate StateEmpty 0 0 0%N 0%N 0%Q "" 0 0 [] [] [] []
                     zero_balances None [] None) false
  end.
Definition is_done (r : outcome Result * World DisputeView) : bool := match r.1 with Done _ => true | _ => false end.
Lemma done_view r : is_done r = true -> r = (Done (view_of r), r.2).
Proof. by destruct r as [[] ?]. Qed.

Lemma ApplyEvent_refines_witness :
  let in_ := event 101%N EventOpenInvestigation in
  let r := ApplyEvent ctx in_ (opened 10%N) in
  res_Replayed (view_of r) = false /\
  exists tid p rec next, applied ctx in_ (opened 10%N) (res_View (view_of r)) r.2 tid p rec next.
Proof.
  cbv zeta. destruct (ApplyEvent_refines ctx (event 101%N EventOpenInvestigation) (opened 10%N)
    (view_of (ApplyEvent ctx (event 101%N EventOpenInvestigation) (opened 10%N)))
    (ApplyEvent ctx (event 101%N EventOpenInvestigation) (opened 10%N)).2) as [(H & _)|H]; [| | |exact H].
  - exact (wo_store _ (reachable_ok _ (reachable_opened 10%N))).
  - apply done_view. vm_compute. reflexivity.
  - exfalso. revert H. vm_compute. discriminate.
Defined.

Definition stores_it (w : World DisputeView) : bool :=
  match mDisputes (w_store w) !! 101%N with Some _ => true | None => false end.
Lemma stored w : stores_it w = true -> mDisputes (w_store w) !! 101%N = Some (record_of w).
Proof. unfold stores_it, record_of. by destruct (mDisputes (w_store w) !! 101%N). Qed.

(** Evaluates a test without spelling its types out. *)
Local Ltac run := vm_compute; reflexivity.

Definition txn_of (w : World DisputeView) (id : uuid) : TransactionRecord :=
  default (purchase 0%N RailCard) (mTransactions (w_store w) !! id).


Definition keyed_event (e : Event) : ApplyEventInput := mkApplyEventInput 101%N e RawEmpty (mkIdempotency "key-1" "body").
Definition keyed_run : outcome Result * World DisputeView :=
  idempotent ctx "dispute.apply_event" (mkIdempotency "key-1" "body") (ApplyEvent_tx ctx (keyed_event EventOpenInvestigation)) (opened 10%N).
(** The dispute itself may have gone in between. *)
Definition forgotten (w : World DisputeView) : World DisputeView := with_store w (set_Disputes ∅ (w_store w)).
Lemma forgotten_idempotent w : mIdempotent (w_store (forgotten w)) = mIdempotent (w_store w).
Proof. reflexivity. Qed.
Definition later : World DisputeView := forgotten keyed_run.2.
Lemma idempotent_replay_witness :
  idempotent ctx "dispute.apply_event" (mkIdempotency "key-1" "body") (ApplyEvent_tx ctx (keyed_event EventOpenInvestigation)) later =
    (Done (mkResult (res_View (view_of keyed_run)) true), later).
Proof.
  apply (idempotent_replay ctx bank "dispute.apply_event" (mkIdempotency "key-1" "body")
    (ApplyEvent_tx ctx (keyed_event EventOpenInvestigation)) (opened 10%N) (view_of keyed_run) keyed_run.2 later);
    [reflexivity|discriminate| |].
  - apply done_view. run.
  - unfold later. rewrite forgotten_idempotent. exact eq_refl.
Defined.

Lemma tenant_isolation_witness : isolated 101%N won_e (ApplyEvent other_ctx (event 101%N EventAppeal) won_e).2.
Proof.
  apply (tenant_isolation other_ctx won_e _ 101%N (record_of won_e)).
  - exact (reachable_play _ _ (reachable_opened 10%N)).
  - eapply (uses_apply other_ctx (event 101%N EventAppeal)); [discriminate|apply surjective_pairing].
  - apply stored. run.
  - assert (Ht : bool_decide (IDFrom other_ctx = Some (dr_TenantID (record_of won_e))) = false) by run.
    by apply bool_decide_eq_false in Ht.
Defined.

Lemma reachable_integrity_witness : store_ok (w_store won_e) /\ dr_Version (record_of won_e) = 8.
Proof.
  split; [|run]. exact (reachable_integrity won_e (reachable_play _ _ (reachable_opened 10%N))).
Defined.

Lemma closed_dispute_at_rest_witness :
  (suspense (books won_e 101%N) == 0)%Q /\ (customer (books won_e 101%N) == 100)%Q.
Proof.
  split; [|run]. refine (proj1 (closed_dispute_at_rest won_e 101%N (record_of won_e) _ _ _)).
  - exact (reachable_play _ _ (reachable_opened 10%N)).
  - apply stored. run.
  - run.
Defined.

Definition facts_z : outcome noticeFacts * World DisputeView :=
  notice_facts (tx_of bank ctx) (record_of won_z) 0 won_z.
Definition facts_of (r : outcome noticeFacts * World DisputeView) : noticeFacts :=
  match r.1 with Done f => f | _ => mkNoticeFacts (mkFacts "" "" "" ReasonDuplicate RegimeUSRegE "" 0%Q "" 0%Q 0 0 0 None [] OutcomeCredited 0%Q) "" "" end.
Lemma done_facts r : match r.1 with Done _ => true | _ => false end = true -> r = (Done (facts_of r), r.2).
Proof. by destruct r as [[] ?]. Qed.
Lemma reg_z_always_denied_witness :
  (ev_ToState <$> at_key (mEvents (w_store won_z)) 101%N) =
    [StateInitiated; StateInvestigating; StateChargebackFiled; StateChargebackAcknowledged; StateChargebackWon; StateClosed] /\
  books won_z 101%N = [] /\ FOutcome (nf_Facts (facts_of facts_z)) = OutcomeDenied.
Proof.
  split; [run|].
  apply (reg_z_always_denied won_z 101%N (record_of won_z) (tx_of bank ctx) 0 won_z (facts_of facts_z) facts_z.2).
  - exact (reachable_play _ _ (reachable_opened 11%N)).
  - apply stored. run.
  - run.
  - reflexivity.
  - apply done_facts. run.
Defined.

(** The letter the winner of the Regulation Z dispute is sent. *)
Lemma reg_z_winner_is_told_no_credit :
  existsb (fun n => bool_decide (nr_Kind n = NoticeResolution) &&
    match Unmarshal into_Document (nr_Document n) zero_Document with
    | Some doc => existsb (fun p => bool_decide (p = "We have completed our investigation of your dispute of 100.00 USD to Shop and found that no error occurred. No credit has been made.")) (Paragraphs doc)
    | None => false
    end) (mNotices (w_store won_z)) = true.
Proof. vm_compute. reflexivity. Qed.

(** A payload of [null] is a panic, not an error. *)
Lemma null_payload_panics :
  match (ApplyEvent ctx (mkApplyEventInput 101%N EventOpenInvestigation (RawJSON JNull) no_key) (opened 10%N)).1 with
  | Panics msg => bool_decide (msg = "assignment to entry in nil map")
  | _ => false
  end = true.
Proof. run. Qed.
End Scenario.
