(* ===== verification/Wakeup.v ===== *)
(** * Wakeup: no email waits for want of a nudge ([Dispatcher.Run] and [Kick] of [application/mail.go], and the calls of
    [afterCommit] in the use cases).

    A use case that queued an email nudges the dispatcher once its transaction is committed; between the two anything may
    run. The nudge is a token in a channel of capacity one, dropped when one is there already; the loop takes it, or
    wakes on its timer, and makes passes until one claims nothing. *)
From S2P Require Import Prelude Errs GoTime GoJson Ext Types Regimes Lifecycle Deadlines Ledger Questionnaire Risk Notice Access Text Template Store Tx Service Correspondence ServiceFacts Dispatch Frames Profile Requests DispatchFacts Integrity Guarantees Contract.

(** ** Who nudges *)
Section silent.
Context `{DC : Decimal} `{UU : UUID} {Body : Type} {BC : BankingCore} {RT : Runtime}.

(** A computation that does not nudge the dispatcher. *)
Definition silent {A} (p : P Body A) : Prop := forall w r w', p w = (r, w') -> w_kicks w' = w_kicks w.

Lemma silent_ret {A} (a : A) : silent (mret a).
Proof. by intros w r w' [= _ <-]. Qed.
Lemma silent_lift {A} (r : M A) : silent (lift r).
Proof. by intros w o w' [= _ <-]. Qed.
Lemma silent_rd {A} (f : MemStore Body -> M A) : silent (rd f).
Proof. by intros w o w' [= _ <-]. Qed.
Lemma silent_op {A} (f : MemStore Body -> M A * MemStore Body) : silent (op f).
Proof. intros w o w'. unfold op. destruct (f _). by intros [= _ <-]. Qed.
Lemma silent_throw {A} e : silent (throw (A := A) e).
Proof. apply silent_lift. Qed.
Lemma silent_throwE {A} e : silent (throwE (A := A) e).
Proof. apply silent_lift. Qed.
Lemma silent_panic {A} msg : silent (panic (A := A) msg).
Proof. by intros w o w' [= _ <-]. Qed.
Lemma silent_now : silent now.
Proof. by intros w o w' [= _ <-]. Qed.
Lemma silent_new_id : silent new_id.
Proof. by intros w o w' [= _ <-]. Qed.
Lemma silent_core cfg ins : silent (core_post cfg ins).
Proof. intros w o w'. unfold core_post. destruct (Post _ _ _). by intros [= _ <-]. Qed.
Lemma silent_bind {A B} (p : P Body A) (f : A -> P Body B) : silent p -> (forall a, silent (f a)) -> silent (mbind f p).
Proof.
  intros Hp Hf w r w' H. unfold mbind, P_bind in H. destruct (p w) as [o w1] eqn:E. apply Hp in E.
  destruct o; [apply Hf in H; congruence|by injection H as _ <-..].
Qed.
Lemma silent_try {A} (p : P Body A) : silent p -> silent (try_ p).
Proof. intros Hp w r w' H. unfold try_ in H. destruct (p w) as [[] w1] eqn:E; apply Hp in E; by injection H as _ <-. Qed.
Lemma silent_for_each {A} (f : A -> P Body unit) l : (forall a, silent (f a)) -> silent (for_each f l).
Proof. intros Hf. induction l as [|a l IH]; [apply silent_ret|]. cbn [for_each]. apply silent_bind; auto. Qed.
Lemma silent_WithTx {A} c (fn : memTx -> P Body A) : (forall t, silent (fn t)) -> silent (WithTx c fn).
Proof.
  intros Hf. unfold WithTx. destruct (IDFrom c); [|apply silent_throw].
  intros w r w' H. destruct (fn _ w) as [[] w1] eqn:E; apply Hf in E; by injection H as _ <-.
Qed.
End silent.

Create HintDb silent.
#[export] Hint Resolve silent_ret silent_lift silent_rd silent_op silent_throw silent_throwE silent_panic silent_now silent_new_id
  silent_core : silent.
Ltac silent_tac := repeat first
  [ progress intros
  | progress cbv zeta
  | solve [auto 2 with silent nocore]
  | apply silent_bind
  | apply silent_for_each
  | apply silent_try
  | apply silent_WithTx
  | match goal with |- silent (match ?x with _ => _ end) => destruct x end ].

Section nudges.
Context `{DC : Decimal} `{UU : UUID} {Body : Type} {BC : BankingCore} {RT : Runtime} {AZ : Authorizer} {VC : ViewCodec Body}.
Implicit Types (t : memTx) (id : uuid) (rec : DisputeRecord) (c : Ctx) (w : World Body).

Lemma silent_authorize c t action d : silent (Body := Body) (authorize c t action d).
Proof. unfold authorize. silent_tac. Qed.
Lemma silent_dispute_facts t rec : silent (Body := Body) (dispute_facts t rec).
Proof. unfold dispute_facts. silent_tac. Qed.
Lemma silent_notice_facts t rec at_ : silent (Body := Body) (notice_facts t rec at_).
Proof. unfold notice_facts. silent_tac. Qed.
Lemma silent_viewWith c t rec f : silent (Body := Body) (viewWith c t rec f).
Proof. unfold viewWith, permitted. silent_tac. Qed.
#[local] Hint Resolve silent_authorize silent_dispute_facts silent_notice_facts silent_viewWith : silent.
Lemma silent_authorizeDispute c t action id : silent (Body := Body) (authorizeDispute c t action id).
Proof. unfold authorizeDispute. silent_tac. Qed.
Lemma silent_assess t rec txn seq at_ : silent (Body := Body) (assess t rec txn seq at_).
Proof. unfold assess. silent_tac. Qed.
Lemma silent_notify t rec entered seq at_ : silent (Body := Body) (notify t rec entered seq at_).
Proof. unfold notify, notify_kind, notify_channel. silent_tac. Qed.
Lemma silent_questionnaire t rec e payload at_ : silent (Body := Body) (questionnaire t rec e payload at_).
Proof. unfold questionnaire. silent_tac. Qed.
Lemma silent_settleDeadlines t rec next at_ : silent (Body := Body) (settleDeadlines t rec next at_).
Proof. unfold settleDeadlines, settle_one_deadline. silent_tac. Qed.
Lemma silent_post_entries t rec seq at_ ps : silent (Body := Body) (post_entries t rec seq at_ ps).
Proof. induction ps; cbn [post_entries]; unfold instructCore; silent_tac. Qed.
#[local] Hint Resolve silent_post_entries : silent.
Lemma silent_post t rec next seq payload at_ : silent (Body := Body) (post t rec next seq payload at_).
Proof. unfold post. silent_tac. Qed.
Lemma silent_holdCheck t rec payload : silent (Body := Body) (holdCheck t rec payload).
Proof. unfold holdCheck. silent_tac. Qed.
#[local] Hint Resolve silent_authorizeDispute silent_assess silent_notify silent_questionnaire silent_settleDeadlines silent_post silent_holdCheck : silent.

Lemma silent_CreateDispute_tx c in_ t : silent (Body := Body) (CreateDispute_tx c in_ t).
Proof. unfold CreateDispute_tx, view. silent_tac. Qed.
Lemma silent_ApplyEvent_tx c in_ t : silent (Body := Body) (ApplyEvent_tx c in_ t).
Proof. unfold ApplyEvent_tx, apply_steps, when. silent_tac. Qed.
Lemma silent_ComposeEmail_tx c in_ t : silent (Body := Body) (ComposeEmail_tx c in_ t).
Proof. unfold ComposeEmail_tx, tenantTemplate, tenantTemplates, enqueue, claimAttachments, view. silent_tac. Qed.
Lemma silent_Resend_tx c in_ t : silent (Body := Body) (Resend_tx c in_ t).
Proof. unfold Resend_tx, view. silent_tac. Qed.

(** ** Whoever queues an email nudges *)
Definition same_notices (m m' : MemStore Body) : Prop := mNotices m' = mNotices m.
#[export] Instance same_notices_preorder : PreOrder same_notices.
Proof. unfold same_notices. split; [done|]. intros a b d. congruence. Qed.
#[export] Instance same_notices_restorable : Restorable same_notices.
Proof. by intros m m' H. Qed.
#[export] Instance same_notices_wording : WordingOps same_notices.
Proof.
  split; intros; apply frames_op; intros m r m'; [by intros [= _ <-]|].
  unfold DeleteTenantTemplate. destruct (mTemplates m !! _); by intros [= _ <-].
Qed.
Lemma snapshot_notices m m' : same_snapshot m m' -> same_notices m m'.
Proof. unfold same_snapshot, snapshot. intros H. by injection H. Qed.

(** It nudges, or it leaves the notices as they were. *)
Definition wakes {A} (p : P Body A) : Prop := forall w r w', p w = (r, w') ->
  (w_kicks w <= w_kicks w')%nat /\ (w_kicks w' = w_kicks w -> same_notices (w_store w) (w_store w')).
Lemma wakes_quiet {A} (p : P Body A) : silent p -> frames same_notices p -> wakes p.
Proof. intros Hs Hf w r w' H. split; [by rewrite (Hs _ _ _ H)|]. intros _. by eapply Hf. Qed.
Lemma wakes_committed {A} (p : P Body A) : silent p -> clean p -> wakes (v ← p; _ ← kick; mret v).
Proof.
  intros Hs Hc w r w' H. unfold mbind, P_bind in H. destruct (p w) as [o w1] eqn:E. pose proof (Hs _ _ _ E) as Ek.
  destruct o as [a|e|msg]; cbn in H; injection H as <- <-; cbn; rewrite Ek; (split; [lia|]); intros H; [lia|..];
    by eapply snapshot_notices, Hc.
Qed.
(** A transaction that panics before it has a notice to queue. *)
Definition panics_early {A} (p : P Body A) : Prop := forall w msg w', p w = (Panics msg, w') -> same_notices (w_store w) (w_store w').
Lemma tame_panics_early {A} (p : P Body A) : tame p -> panics_early p.
Proof. intros Hp w msg w' H. apply Hp in H as [H _]. by destruct (H msg). Qed.

Lemma panics_early_bind {A B} (p : P Body A) (f : A -> P Body B) : frames same_notices p -> (forall a, panics_early (f a)) -> panics_early (mbind f p).
Proof.
  intros Hp Hf w msg w' H. unfold mbind, P_bind in H. destruct (p w) as [o w1] eqn:E. apply Hp in E.
  destruct o; [apply Hf in H; by transitivity (w_store w1)|done|by injection H as _ <-].
Qed.
Lemma panics_early_then {A B} (p : P Body A) (f : A -> P Body B) : panics_early p -> (forall a, tame (f a)) -> panics_early (mbind f p).
Proof.
  intros Hp Hf w msg w' H. unfold mbind, P_bind in H. destruct (p w) as [o w1] eqn:E.
  destruct o; [apply Hf in H as [H _]; by destruct (H msg)|done|injection H as -> <-; by eapply Hp].
Qed.
Lemma panics_early_WithTx {A} c (fn : memTx -> P Body A) : (forall t, panics_early (fn t)) -> panics_early (WithTx c fn).
Proof.
  intros Hp w msg w' H. unfold WithTx in H. destruct (IDFrom c); [|done].
  destruct (fn _ w) as [o w1] eqn:E. destruct o; [done..|]. injection H as -> <-. by eapply Hp.
Qed.
Lemma panics_early_idempotent c scope idem fn : (forall t, panics_early (fn t)) -> panics_early (idempotent c scope idem fn).
Proof.
  intros Hp. apply panics_early_then; [|intros out; tame_tac].
  apply panics_early_WithTx. intros t. apply panics_early_bind; [unfold replayed; frame_tac|].
  intros [r|]; [apply tame_panics_early, tame_ret|]. apply panics_early_then; [done|]. intros v. tame_tac.
Qed.

Lemma wakes_idempotent c scope idem fn : (forall t, silent (fn t)) -> (forall t, panics_early (fn t)) -> wakes (idempotent c scope idem fn).
Proof.
  intros Hs Hp w r w' H. assert (Hk : (forall a, r <> Done a) -> w_kicks w' = w_kicks w).
  { intros Hr. unfold idempotent in H. unfold mbind at 1, P_bind in H. destruct (WithTx _ _ w) as [o w1] eqn:E.
    assert (Hk : w_kicks w1 = w_kicks w) by (revert E; apply silent_WithTx; intros t; unfold replayed; silent_tac).
    destruct o as [out| |]; [|by injection H as _ <-..]. destruct (res_Replayed out); injection H as <- _; by destruct (Hr out). }
  destruct r as [res|e|msg].
  - pose proof (idempotent_done _ _ _ _ _ _ _ H) as (id & _ & [(_ & -> & _)|(_ & w1 & Hf & _ & Hk1 & _)]); [by split|].
    rewrite Hk1, (Hs _ _ _ _ Hf). split; lia.
  - rewrite Hk by done. split; [done|]. intros _. by eapply snapshot_notices, idempotent_fails.
  - rewrite Hk by done. split; [done|]. intros _. by eapply panics_early_idempotent.
Qed.

(** A payload that is the literal [null] panics at once; any other does not panic at all. *)
Lemma panics_early_ApplyEvent c in_ t : panics_early (ApplyEvent_tx c in_ t).
Proof.
  assert (Hd : ae_Payload in_ = RawJSON JNull \/ ae_Payload in_ <> RawJSON JNull) by (destruct (ae_Payload in_) as [|[]|]; naive_solver).
  destruct Hd as [Hn|Hn].
  - unfold ApplyEvent_tx, when, apply_steps. rewrite Hn.
    repeat (apply panics_early_bind; [frame_tac; try (apply frames_op; intros m r m'; unfold UpdateDisputeState, seeing; repeat case_match; by intros [= _ <-])|intros ?]).
    apply tame_panics_early, tame_ret.
  - apply tame_panics_early. unfold ApplyEvent_tx, when. pose proof (fun rec next pol at_ => tame_apply_steps (Body := Body) c t in_ rec next pol at_ Hn).
    pose proof (tame_authorize (Body := Body) c). pose proof (tame_dispute_facts (Body := Body)). pose proof (tame_holdCheck (Body := Body)).
    pose proof (tame_viewWith (Body := Body)). tame_tac.
Qed.

Ltac quiet_op := apply frames_op; intros ? ? ?; cbv beta zeta delta [AppendEvent UpdateDisputeTeam InsertAttachment PutTenantLogo PutAnalystAvatar seeing ok_store failing];
  repeat case_match; by intros; simplify_eq.
Lemma wakes_Reassign c id team : wakes (Reassign c id team).
Proof.
  apply wakes_quiet; [unfold Reassign, Reassign_tx; silent_tac|]. unfold Reassign, Reassign_tx. frame_tac; quiet_op.
Qed.
Lemma wakes_Upload c in_ : wakes (Upload (Body := Body) c in_).
Proof. apply wakes_quiet; unfold Upload; [silent_tac|]. frame_tac; quiet_op. Qed.
Lemma wakes_pictures c :
  (forall img, wakes (Service_PutTenantLogo (Body := Body) c img)) /\ (forall subject img, wakes (Service_PutAnalystAvatar (Body := Body) c subject img)).
Proof.
  split; intros; (apply wakes_quiet; [unfold Service_PutTenantLogo, Service_PutAnalystAvatar; silent_tac|
    unfold Service_PutTenantLogo, Service_PutAnalystAvatar; frame_tac; quiet_op]).
Qed.

Lemma wakes_request c w w' : request c w w' ->
  (w_kicks w <= w_kicks w')%nat /\ (w_kicks w' = w_kicks w -> same_notices (w_store w) (w_store w')).
Proof.
  intros [in_ w0 r w1 H|in_ w0 r w1 H|id team w0 r w1 H|w0 w1 H]; [revert H..|].
  - apply wakes_idempotent; intros t; [apply silent_CreateDispute_tx|apply tame_panics_early].
    pose proof (tame_authorize (Body := Body) c). pose proof (tame_notify (Body := Body)). pose proof (tame_assess (Body := Body)).
    pose proof (tame_view (Body := Body) c). unfold CreateDispute_tx. tame_tac.
  - apply wakes_idempotent; intros t; [apply silent_ApplyEvent_tx|apply panics_early_ApplyEvent].
  - apply wakes_Reassign.
  - destruct H as [in_ w0 r w1 H|in_ w0 r w1 H|in_ w0 r w1 H|k o a w0 r w1 H|k w0 r w1 H|i w0 r w1 H|s i w0 r w1 H]; revert H.
    + unfold ComposeEmail. destruct (TemplateFor _); [|apply wakes_quiet; [silent_tac|frame_tac]].
      apply wakes_committed; [apply silent_WithTx, silent_ComposeEmail_tx|apply clean_WithTx, tame_ComposeEmail_tx].
    + apply wakes_committed; [apply silent_WithTx, silent_Resend_tx|apply clean_WithTx, tame_Resend_tx].
    + apply wakes_Upload.
    + apply wakes_quiet; [unfold PutTemplateSetting; silent_tac|apply frames_PutTemplateSetting; apply _].
    + apply wakes_quiet; [unfold DeleteTemplateSetting; silent_tac|apply frames_DeleteTemplateSetting; apply _].
    + apply wakes_pictures.
    + apply wakes_pictures.
Qed.
End nudges.

(** ** The loop *)
Section loop.
Context `{DC : Decimal} `{UU : UUID} {Body : Type} {BC : BankingCore} {RT : Runtime} {AZ : Authorizer} {VC : ViewCodec Body} {ML : Mailer}.

(** Where [Run] is: in its [select], or in the inner loop, between passes or within one. *)
Inductive Where : Type := Selecting | Draining.
(** The plant; the token in the channel; the calls of [Kick] still to come of transactions that are committed; and whether
    the last time the inner loop ended it had found nothing to claim. *)
Record Loop : Type := mkLoop {
  lp_plant : Plant (Body := Body);
  lp_at : Where;
  lp_kick : bool;
  lp_due : nat;
  lp_clear : bool
}.
Definition backlog (l : Loop) : Z := OutboxBacklog (pl_store (lp_plant l)).
Definition with_claim (p : Plant (Body := Body)) (batch : list NoticeRecord) (m : MemStore Body) : Plant :=
  with_outbox p (mkOutbox m (pl_relay p) (pl_ticks p) (pl_log p)) batch.

(** [Kick]: the token is put in the channel, unless one is there. *)
Definition Kick (token : bool) : bool := if token then token else true.
(** What happens without anyone's asking: [Kick]; the loop taking its token; a pass that claims; and an attempt. *)
Inductive stirs : Loop -> Loop -> Prop :=
| st_kick p a k due b : stirs (mkLoop p a k (S due) b) (mkLoop p a (Kick k) due b)
| st_woken p due b : stirs (mkLoop p Selecting true due b) (mkLoop p Draining false due b)
| st_claim p k due b batch m : pl_pending p = [] -> ClaimNotices batch_size (pl_store p) = (batch, m) ->
    stirs (mkLoop p Draining k due b)
      (if decide (batch = []) then mkLoop (with_claim p batch m) Selecting k due true else mkLoop (with_claim p batch m) Draining k due b)
| st_deliver p k due b n pending : pl_pending p = n :: pending ->
    stirs (mkLoop p Draining k due b) (mkLoop (with_outbox p (deliver n (outbox_of p)) pending) Draining k due b).
(** Besides: a request, which leaves calls of [Kick] to come; the timer; a claim that is refused, which ends the inner loop;
    and the sweeps. *)
Inductive loop_step : Loop -> Loop -> Prop :=
| ls_stirs l l' : stirs l l' -> loop_step l l'
| ls_request c w w' r n lg pending a k due b : request c w w' ->
    loop_step (mkLoop (mkPlant w r n lg pending) a k due b) (mkLoop (mkPlant w' r n lg pending) a k (due + (w_kicks w' - w_kicks w)) b)
| ls_timer p k due b : loop_step (mkLoop p Selecting k due b) (mkLoop p Draining k due b)
| ls_refused p k due b : pl_pending p = [] -> loop_step (mkLoop p Draining k due b) (mkLoop p Selecting k due false)
| ls_drafts p a k due b at_ : loop_step (mkLoop p a k due b) (mkLoop (with_claim p (pl_pending p) (sweep_drafts at_ (pl_store p)).2) a k due b)
| ls_responses p a k due b at_ ttl : loop_step (mkLoop p a k due b) (mkLoop (with_claim p (pl_pending p) (sweep_responses at_ ttl (pl_store p)).2) a k due b).

(** A process that starts: its loop waits for its timer. *)
Inductive started : Loop -> Prop :=
| started_now w r k : notices_ok (w_store w) -> started (mkLoop (mkPlant w r k [] []) Selecting false 0 false)
| started_step l l' : started l -> loop_step l l' -> started l'.

(** Whoever selects has delivered what it claimed, and what is in the outbox then is announced. *)
Record loop_ok (l : Loop) : Prop := {
  lk_plant : plant_ok (lp_plant l);
  lk_pending : lp_at l = Selecting -> pl_pending (lp_plant l) = [];
  lk_announced : lp_at l = Selecting -> lp_clear l = true -> lp_kick l = false -> lp_due l = 0%nat -> backlog l = 0
}.

Lemma empty_claim (p : Plant (Body := Body)) m : plant_ok p -> ClaimNotices batch_size (pl_store p) = ([], m) -> OutboxBacklog (Body := Body) m = 0.
Proof.
  intros [Hr _ _ _] H. pose proof H as Hd. apply ClaimNotices_done in Hd as (_ & _ & _ & _ & Hl); [|done].
  unfold ClaimNotices in H. destruct (claim_notices _ _) as [out rest] eqn:E. injection H as -> <-.
  apply claim_notices_waiting in E as [_ E]. rewrite waiting_backlog. cbn [mNotices set_Notices]. rewrite E. cbn in Hl.
  unfold waiting. rewrite length_map. unfold batch_size in Hl. lia.
Qed.

Lemma stirs_ok l l' : stirs l l' -> loop_ok l -> loop_ok l'.
Proof.
  intros [p a k due b|p due b|p k due b batch m Hp H|p k due b n pending Hp] [H1 H2 H3]; cbn in *.
  - split; cbn; [done|done|]. by destruct k.
  - by split.
  - assert (Hok : plant_ok (with_claim p batch m)) by (eapply plant_step_ok; [by apply ps_claim|done]).
    case_decide as Hb; [|by split]. subst batch. split; cbn; [done|done|]. intros _ _ _ _. exact (empty_claim p m H1 H).
  - split; cbn; [by apply deliver_ok|done|done].
Qed.
Lemma loop_step_ok l l' : loop_step l l' -> loop_ok l -> loop_ok l'.
Proof.
  intros [l1 l2 H|c w w' r n lg pending a k due b H|p k due b|p k due b Hp|p a k due b at_|p a k due b at_ ttl] Hok.
  - by eapply stirs_ok.
  - destruct Hok as [H1 H2 H3]. pose proof (wakes_request _ _ _ H) as [Hm Hn]. split; cbn in *; [|done|].
    + eapply plant_step_ok; [by eapply ps_request|done].
    + intros Ha Hb Hk Hd. assert (E : w_kicks w' = w_kicks w) by lia. specialize (Hn E).
      specialize (H3 Ha Hb Hk ltac:(lia)). unfold backlog, pl_store, OutboxBacklog in *. cbn in *. by rewrite Hn.
  - destruct Hok as [H1 H2 H3]. by split.
  - destruct Hok as [H1 H2 H3]. by split.
  - destruct Hok as [H1 H2 H3]. split; cbn in *; [eapply plant_step_ok; [apply ps_sweep_drafts|done]|done|done].
  - destruct Hok as [H1 H2 H3]. split; cbn in *; [eapply plant_step_ok; [apply ps_sweep_responses|done]|done|done].
Qed.
Lemma started_ok l : started l -> loop_ok l.
Proof.
  induction 1 as [w r k Hn|l l' _ IH Hs]; [|by eapply loop_step_ok].
  split; cbn; [|done|done]. split; cbn; [done|by split; constructor|constructor|constructor].
Qed.

(** ** Left alone *)
Definition announced (l : Loop) : Prop := lp_at l = Selecting -> lp_clear l = true \/ lp_kick l = true \/ lp_due l <> 0%nat.
Definition effort (l : Loop) : nat :=
  3 * length (waiting (mNotices (pl_store (lp_plant l)))) + 4 * lp_due l + (if lp_kick l then 2 else 0)
  + (match lp_at l, pl_pending (lp_plant l) with Draining, [] => 1 | _, _ => 0 end).
Definition letters_render (l : Loop) : Prop := renderable (mNotices (pl_store (lp_plant l))).

Lemma except_shorter i ids : i ∈ ids -> (length (except i ids) < length ids)%nat.
Proof.
  unfold except. induction ids as [|j ids IH]; [by intros ?%not_elem_of_nil|]. intros Hi. cbn.
  assert (Hle : (length (List.filter (fun j => negb (j =? i)%Z) ids) <= length ids)%nat) by apply List.filter_length_le.
  destruct (j =? i) eqn:E; cbn; [lia|]. to_prop. apply elem_of_cons in Hi as [->|Hi]; [done|]. specialize (IH Hi). lia.
Qed.
Lemma waiting_queued n ns : n ∈ ns -> queued n = true -> nr_ID n ∈ waiting ns.
Proof. intros Hn Hq. apply list_elem_of_fmap_2, list_elem_of_In, List.filter_In. split; [by apply list_elem_of_In|done]. Qed.
Lemma renderable_finished at_ i ns : renderable ns -> renderable (map (finished at_ i "") ns).
Proof.
  unfold renderable. rewrite !list.Forall_forall. intros H n' (n & -> & Hn)%list_elem_of_fmap Hq.
  unfold finished in *. destruct (nr_ID n =? i); [|by apply H]. rewrite bool_decide_true in Hq by done.
  unfold queued in Hq. cbn in Hq. done.
Qed.

Lemma stirs_down l l' : accepting -> stirs l l' -> loop_ok l -> announced l -> letters_render l ->
  announced l' /\ letters_render l' /\ (effort l' < effort l)%nat.
Proof.
  intros Hacc H Hok Ha Hr. destruct H as [p a k due b|p due b|p k due b batch m Hp H|p k due b n pending Hp]; unfold announced, letters_render, effort in *; cbn [lp_plant lp_at lp_kick lp_due lp_clear] in *.
  - split_and!; [by destruct k; auto|done|]. destruct k; cbn; lia.
  - split_and!; [done|done|]. destruct (pl_pending p); lia.
  - rewrite Hp. unfold ClaimNotices in H. destruct (claim_notices _ _) as [out rest] eqn:E. injection H as <- <-.
    pose proof (claim_notices_waiting _ _ _ _ E) as [_ Hw]. destruct (renderable_claimed _ _ _ _ E Hr) as (_ & Hr' & _).
    case_decide as Hb; cbn [lp_plant lp_at lp_kick lp_due lp_clear with_claim with_outbox pl_pending pl_store pl_world w_store with_store ob_store mNotices set_Notices];
      rewrite Hw; (split_and!; [by auto|exact Hr'|]); [lia|]. destruct out; [done|lia].
  - destruct Hok as [[_ [_ Hq] _ _] _ _]. cbn in Hq. rewrite Hp in Hq. apply list.Forall_cons in Hq as [[Hn Hqn] _].
    assert (Hl : exists letter, RenderMail n = Ok letter) by (unfold renderable in Hr; rewrite list.Forall_forall in Hr; by apply Hr).
    destruct (deliver_accepted (outbox_of p) n Hacc Hl) as [Hm _]. cbn [ob_store ob_ticks outbox_of] in Hm.
    cbn [pl_store pl_world with_outbox w_store with_store pl_pending]. rewrite Hm, Hp, waiting_finish.
    pose proof (except_shorter (nr_ID n) _ (waiting_queued n _ Hn Hqn)) as Hlt.
    split_and!; [done|by apply renderable_finished|]. destruct pending; lia.
Qed.
Lemma stirs_along l l' n : accepting -> nsteps stirs n l l' -> loop_ok l -> announced l -> letters_render l ->
  loop_ok l' /\ announced l' /\ (n + effort l' <= effort l)%nat.
Proof.
  intros Hacc H. induction H as [l|n l1 l2 l3 H _ IH]; intros Hok Ha Hr; [by split_and!; [..|lia]|].
  destruct (stirs_down _ _ Hacc H Hok Ha Hr) as (Ha2 & Hr2 & Hlt).
  destruct (IH (stirs_ok _ _ H Hok) Ha2 Hr2) as (Hok3 & Ha3 & Hle). split_and!; [done|done|lia].
Qed.
(** Nothing stirs only in a [select] that nothing is about to end. *)
Lemma nothing_stirs l : (forall l', ~ stirs l l') -> lp_at l = Selecting /\ lp_kick l = false /\ lp_due l = 0%nat.
Proof.
  destruct l as [p a k due b]. intros H. cbn. destruct due as [|due]; [|by destruct (H _ (st_kick p a k due b))].
  destruct a; [destruct k; [by destruct (H _ (st_woken p 0 b))|done]|]. exfalso.
  destruct (pl_pending p) as [|n pending] eqn:Hp; [|by eapply H, st_deliver].
  destruct (ClaimNotices batch_size (pl_store p)) as [batch m] eqn:E. by eapply H, st_claim.
Qed.

(** Left alone, with one choice where there are several. *)
Definition stir (l : Loop) : option Loop :=
  let '(mkLoop p a k due b) := l in
  match due, a with
  | S due, _ => Some (mkLoop p a (Kick k) due b)
  | O, Selecting => if k then Some (mkLoop p Draining false 0 b) else None
  | O, Draining =>
      match pl_pending p with
      | n :: pending => Some (mkLoop (with_outbox p (deliver n (outbox_of p)) pending) Draining k 0 b)
      | [] =>
          let '(batch, m) := ClaimNotices batch_size (pl_store p) in
          Some (if decide (batch = []) then mkLoop (with_claim p batch m) Selecting k 0 true else mkLoop (with_claim p batch m) Draining k 0 b)
      end
  end.
Fixpoint settle (fuel : nat) (l : Loop) : option Loop :=
  match stir l with
  | None => Some l
  | Some l' => match fuel with O => None | S fuel => settle fuel l' end
  end.
Lemma stir_stirs l l' : stir l = Some l' -> stirs l l'.
Proof.
  destruct l as [p a k [|due] b]; cbn; [|intros [= <-]; apply st_kick].
  destruct a; [destruct k; [intros [= <-]; apply st_woken|done]|].
  destruct (pl_pending p) as [|n pending] eqn:Hp; [|intros [= <-]; by apply st_deliver].
  destruct (ClaimNotices _ _) as [batch m] eqn:E. intros [= <-]. by apply st_claim.
Qed.
Lemma stir_none l : stir l = None -> forall l', ~ stirs l l'.
Proof.
  intros H l' Hs. destruct Hs as [p a k due b|p due b|p k due b batch m Hp Hc|p k due b n pending Hp]; cbn in H; [done|by destruct due|..];
    destruct due; try done; rewrite Hp in H; [|done]. by destruct (ClaimNotices _ _).
Qed.
Lemma settle_stirs fuel l l' : settle fuel l = Some l' -> rtc stirs l l' /\ forall l'', ~ stirs l' l''.
Proof.
  revert l. induction fuel as [|fuel IH]; intros l H; cbn [settle] in H; destruct (stir l) as [l1|] eqn:E; try done.
  1,3: injection H as <-; split; [done|by apply stir_none].
  apply IH in H as [H Hn]. split; [|done]. eapply rtc_l; [by apply stir_stirs|done].
Qed.
Lemma settle_enough l : accepting -> loop_ok l -> announced l -> letters_render l -> forall fuel, (effort l <= fuel)%nat -> settle fuel l <> None.
Proof.
  intros Hacc Hok Ha Hr fuel. revert l Hok Ha Hr. induction fuel as [|fuel IH]; intros l Hok Ha Hr Hle; cbn [settle];
    destruct (stir l) as [l1|] eqn:E; try done; apply stir_stirs in E; destruct (stirs_down _ _ Hacc E Hok Ha Hr) as (Ha1 & Hr1 & Hlt); [lia|].
  apply IH; [by eapply stirs_ok|done|done|lia].
Qed.
Lemma at_rest_empty l l' : accepting -> started l -> announced l -> letters_render l -> rtc stirs l l' -> (forall l'', ~ stirs l' l'') ->
  lp_at l' = Selecting /\ backlog l' = 0.
Proof.
  intros Hacc Hs%started_ok Ha Hr [n H]%rtc_nsteps Hst. destruct (stirs_along _ _ _ Hacc H Hs Ha Hr) as ([_ _ Hann] & Ha' & _).
  destruct (nothing_stirs _ Hst) as (Hsel & Hk & Hd). split; [done|]. apply Hann; [done| |done|done]. destruct (Ha' Hsel) as [?|[?|?]]; [done|congruence|done].
Qed.

(** C27: No email waits for want of a nudge: whatever requests, sweeps, timers and refused claims came before, in whatever
    order committed transactions and their nudges reached the dispatcher, and however many nudges were dropped because
    one was there already - unless it has just started or its last claim was refused, the dispatcher needs no timer: of
    itself, in a number of steps bounded by what waits and however the steps fall, it comes to rest, and then the outbox
    is empty, as long as the relay accepts and the documents can be read. *)
Theorem nudged_and_drained l : started l -> accepting -> letters_render l -> announced l ->
  (forall n l', nsteps stirs n l l' -> (n <= effort l)%nat) /\
  (forall l', rtc stirs l l' -> (forall l'', ~ stirs l' l'') -> lp_at l' = Selecting /\ backlog l' = 0) /\
  exists l', settle (effort l) l = Some l' /\ lp_at l' = Selecting /\ backlog l' = 0.
Proof.
  intros Hs Hacc Hr Ha. pose proof (started_ok _ Hs) as Hok. split_and!.
  - intros n l' H. destruct (stirs_along _ _ _ Hacc H Hok Ha Hr) as (_ & _ & Hle). lia.
  - intros l'. by apply at_rest_empty.
  - destruct (settle (effort l) l) as [l'|] eqn:E; [|by destruct (settle_enough l Hacc Hok Ha Hr (effort l) (le_n _) E)].
    exists l'. split; [done|]. apply settle_stirs in E as [H1 H2]. by apply (at_rest_empty l).
Qed.
End loop.
