(* ===== verification/Duties.v ===== *)
(** * Duties: what the policy engine's answers mean for a dispute.

    [ByTheRules] is what the use cases need of an authorizer; the engine provides it, whatever its cache holds. With it, an
    event an analyst applied was theirs to apply, and a final credit is never the work of one person. *)
From Stdlib Require Import QArith.
From S2P Require Import Prelude Errs Ext Types Regimes Lifecycle Text Wire Access Authz AuthzFacts AuthzScenario Store Tx Service ServiceFacts Integrity Guarantees Contract.

(** ** The interface between the use cases and the engine *)
Class ByTheRules `{DC : Decimal} {DL : DecimalLaws DC} `{UU : UUID} {CE : Cedar} (AZ : Authorizer) : Prop :=
  decided_by_rules : forall tid p a action d, well_posed a d -> decision_of (Decide tid p a action d) = verdict p a action d.

Section engine.
Context `{DC : Decimal} {DL : DecimalLaws DC} `{UU : UUID} {CE : Cedar} {CL : CedarLaws CE}.

(** The engine behind the port: [New] on the embedded file, then [Decide]. *)
Definition engine_authorizer (file : string) : Authorizer := {|
  Decide tid p a action d := match New_engine file with Ok e => (engine_Decide tid p a action d e).1 | Err e => Err e end
|}.
Lemma engine_by_the_rules file : NewPolicyListFromBytes file = Some guardrails -> ByTheRules (engine_authorizer file).
Proof.
  intros Hf tid p a action d Hw. cbn. rewrite (new_engine _ Hf). unfold engine_Decide.
  destruct (coherent_set [mkAuthzCall tid p a action d] (mkEngine guardrails ∅) (mkAuthzCall tid p a action d)) as (e & He & _);
    [|exact (coherent_new _)|left|exact Hw|].
  - intros c c' ->%list_elem_of_singleton ->%list_elem_of_singleton. done.
  - cbn [ca_Tenant ca_Access] in He. rewrite He. cbn [fst]. by apply decided.
Qed.
End engine.

(** ** Who opened the investigation *)
Section opener.
Context `{DC : Decimal} `{UU : UUID}.
Definition opens (e : EventRecord) : Prop := ev_Event e = EventOpenInvestigation.
#[export] Instance opens_dec e : base.Decision (opens e) := decide (_ = _).

Lemma opener_last es : Exists opens es ->
  exists l1 e l2, es = l1 ++ e :: l2 /\ opens e /\ Forall (fun x => ~ opens x) l2 /\
    opener_of es = if bool_decide (ev_ActorID e = "") then UnrecordedInvestigator else ev_ActorID e.
Proof.
  induction es as [|x es IH] using rev_ind; intros H; [by apply Exists_nil in H|].
  unfold opener_of. rewrite foldl_app. change (foldl _ "" es) with (opener_of es). cbn [foldl].
  case_bool_decide as Hx.
  - exists es, x, []. split_and!; [done|done|constructor|done].
  - apply Exists_app in H as [H|H]; [|apply Exists_cons in H as [H|H]; [done|by apply Exists_nil in H]].
    destruct (IH H) as (l1 & e & l2 & -> & He & Hl & Ho). exists l1, e, (l2 ++ [x]).
    split_and!; [by rewrite <- app_assoc|done| |done]. apply Forall_app. by split; [|constructor].
Qed.

(** Under provisional credit nothing happens before an investigation is opened. *)
Lemma not_opened_from d seq es d' r : RulesFor (DRegime d) = Ok r -> HasProvisionalCredit r = true ->
  DState d = StateInitiated -> Forall (fun x => ~ opens x) es -> replay_from d seq es = Some d' -> DState d' = StateInitiated.
Proof.
  intros Hr Hp. revert d seq Hr. induction es as [|e es IH]; intros d seq Hr Hs Hno H; [by injection H as <-|].
  apply list.Forall_cons in Hno as [He Hno]. cbn [replay_from] in H. destruct (negb _ || negb _); [done|].
  case_bool_decide as Ee; cbn [mbind option_bind] in H.
  - destruct (bool_decide _); [|done]. by eapply IH.
  - unfold Apply in H. rewrite Hr in H. cbn [mbind res_bind] in H. case_bool_decide as Ea.
    + by rewrite bool_decide_true in H by (rewrite Hs; done).
    + rewrite Hs in H. unfold HasProvisionalCredit in Hp. apply bool_decide_eq_true in Hp.
      unfold opens in He. unfold next in H. rewrite Hp in H.
      destruct (ev_Event e); try done.
Qed.
Lemma opened_before regime es d r : RulesFor regime = Ok r -> HasProvisionalCredit r = true ->
  replay regime es = Some d -> DState d <> StateInitiated -> Exists opens es.
Proof.
  intros Hr Hp H Hd. destruct (decide (Exists opens es)) as [|Hno]; [done|exfalso]. apply Hd.
  apply not_Exists_Forall in Hno; [|apply _]. destruct es as [|e es]; [done|]. apply list.Forall_cons in Hno as [_ Hno].
  cbn [replay] in H. destruct (NewDispute regime) as [d0|] eqn:En; [|done]. destruct (_ && _ && _ && _); [|done].
  assert (Hd0 : DRegime d0 = regime /\ DState d0 = StateInitiated).
  { unfold NewDispute in En. rewrite Hr in En. cbn in En. by injection En as <-. }
  destruct Hd0 as [Hd0 Hs0]. eapply not_opened_from; [by rewrite Hd0|done|done|done|exact H].
Qed.
End opener.

(** ** An applied event was the caller's to apply *)
Section duties.
Context `{DC : Decimal} {DL : DecimalLaws DC} `{UU : UUID} {Body : Type} {BC : BankingCore} {RT : Runtime} {VC : ViewCodec Body}.
Context {CE : Cedar} {AZ : Authorizer} {BR : ByTheRules AZ}.
Implicit Types (w : World Body) (c : Ctx) (p : Principal).

(** The role a membership gives covers the grant, on this team, for this event, up to this amount. *)
Definition entitled (a : Access) (action : Action) (team : string) (amount : dec) (g : Grant) (m : Membership) : Prop :=
  g ∈ AGrants a /\ m ∈ AMembers a /\ GTeam g = team /\ MTeam m = team /\ GAction g = action /\
  rung (GRole g) <= rung (MRole m) /\ within_limit g amount = true.

Lemma verdict_entitled p a action f : PrKind p = Analyst -> DFID f <> uuid_Nil -> verdict p a action (Some f) = Some true ->
  (exists g m, entitled a action (DFTeam f) (DFAmount f) g m) /\
  (action = EventAction EventIssueFinalCredit -> DFInvestigationOpenedBy f <> PID p /\ DFInvestigationOpenedBy f <> UnrecordedInvestigator).
Proof.
  intros Hk Hid. unfold verdict. rewrite Hk, target_dispute by done. intros [= H].
  apply andb_true_iff in H as [[H1 _]%andb_true_iff H2]. split.
  - apply existsb_exists in H2 as (g & Hg & [Hc Hw]%andb_true_iff). unfold covers, holds in Hc.
    apply andb_true_iff in Hc as [_ [[Hm Ha]%andb_true_iff Ht]%andb_true_iff]. to_prop.
    apply existsb_exists in Hm as (m & Hin & [Hmt Hmr]%andb_true_iff). to_prop.
    apply list_elem_of_In in Hg, Hin. exists g, m. split_and!; congruence || done.
  - intros ->. rewrite bool_decide_true in H1 by done. apply negb_true_iff, orb_false_iff in H1 as [E1 E2]. by to_prop.
Qed.

End duties.

(** ** Two people and a dispute *)
Module DutiesScenario.
  Import QDec NUuid AuthzScenario.AuthzExamples.
  Existing Instances Contract.Scenario.runtime Contract.Scenario.core Contract.Scenario.codec Contract.Scenario.codec_laws Contract.Scenario.fresh.

Definition bank : @uuid NUuid.ops := 1%N.
Definition limit : dec := 500%Q.
Definition events : list Event :=
  [EventOpenInvestigation; EventIssueRefund; EventFileChargeback; EventAcknowledgeChargeback; EventWinChargeback].
Definition rows : MemAccess :=
  mkMemAccess 1 ["cb"] "cb"
    ([mkGrant "cb" RoleJunior ActionCreate None; mkGrant "cb" RoleJunior (EventAction EventIssueFinalCredit) (Some limit)]
     ++ map (fun e => mkGrant "cb" RoleJunior (EventAction e) None) events)
    [] {["alice" := [mkMembership "cb" RoleJunior]; "bob" := [mkMembership "cb" RoleSenior]]}.
Definition seen_by (ms : list Membership) : Access :=
  mkAccess (ma_Version rows) (ma_Default rows) (ma_Teams rows) (ma_Grants rows) (ma_Routing rows) ms.

#[export] Instance Grant_eq_dec : EqDecision Grant.
Proof. solve_decision. Defined.
#[export] Instance Membership_eq_dec : EqDecision Membership.
Proof. solve_decision. Defined.
#[export] Instance RoutingRule_eq_dec : EqDecision RoutingRule.
Proof. solve_decision. Defined.
#[export] Instance MemAccess_eq_dec : EqDecision MemAccess.
Proof. solve_decision. Defined.

Definition bank_cedar : Cedar := documented (known (seen_by [])).
#[export] Instance bank_cedar_laws : CedarLaws bank_cedar := documented_laws _.
#[export] Instance bank_engine : Authorizer := engine_authorizer (CE := bank_cedar) "guardrails".
#[export] Instance bank_rules : ByTheRules (CE := bank_cedar) bank_engine.
Proof. apply (engine_by_the_rules (CE := bank_cedar) (CL := bank_cedar_laws)). reflexivity. Qed.

Definition as_analyst (id : string) : Ctx := mkCtx _ (Some bank) (Some (mkPrincipal Analyst id id false)) None.
Definition start : World DisputeView :=
  let m := w_store Contract.Scenario.start in
  mkWorld (mkMemStore (mTransactions m) ∅ ∅ ∅ ∅ ∅ ∅ [] ∅ ∅ ∅ (mAccounts m) ∅ ∅ ∅ ∅ 0 ∅ ∅ {[bank := rows]}) tt 0 0 0.
Definition event (e : Event) : ApplyEventInput := Contract.Scenario.event 101%N e.
Definition opened : World DisputeView := (CreateDispute (as_analyst "alice") (Contract.Scenario.opening 10%N) start).2.
Definition investigated : World DisputeView := foldl (fun w e => (ApplyEvent (as_analyst "alice") (event e) w).2) opened events.
Definition credited (who : string) : outcome Result * World DisputeView := ApplyEvent (as_analyst who) (event EventIssueFinalCredit) investigated.

(** Alice, who opened the investigation, is refused; Bob is not. *)
Example alice_is_refused :
  match (credited "alice").1 with
  | Fails e => bool_decide (e = EWrap "denied by sod-final-credit" (EClass ErrForbidden))
  | _ => false
  end = true.
Proof. vm_compute. reflexivity. Qed.
Example bob_may : Contract.Scenario.is_done (credited "bob") = true.
Proof. vm_compute. reflexivity. Qed.

Definition held : DisputeRecord := Contract.Scenario.record_of investigated.
Lemma rows_posed ms f : Forall (fun m => MTeam m = "cb" /\ MRole m ∈ Roles) ms -> amount_reads (CE := bank_cedar) (DFAmount f) ->
  well_posed (CE := bank_cedar) (seen_by ms) (Some f).
Proof.
  intros Hms Hf. assert (Hl : amount_reads (CE := bank_cedar) limit) by by_eval. rewrite list.Forall_forall in Hms.
  split; [split|split; [split|]].
  - apply list.Forall_forall. intros m Hm. destruct (Hms m Hm) as [-> _]. left.
  - apply list.Forall_forall. intros m Hm. by apply Hms.
  - by_eval.
  - unfold limits_read. repeat apply list.Forall_cons_2; [..|constructor]; intros l E; try discriminate E. injection E as <-. exact Hl.
  - intros f' [= <-] _. exact Hf.
  - vm_compute. reflexivity.
Qed.

Lemma reachable_investigated : reachable_world investigated.
Proof.
  assert (H : forall es w, reachable_world w -> reachable_world (foldl (fun w e => (ApplyEvent (as_analyst "alice") (event e) w).2) w es)).
  { induction es as [|e es IH]; intros w Hw; [done|]. apply IH. eapply reach_step; [exact Hw|].
    eapply (step_apply (as_analyst "alice") (event e)); [done|apply surjective_pairing]. }
  apply H. eapply reach_step; [|eapply (step_create (as_analyst "alice") (Contract.Scenario.opening 10%N) start); apply surjective_pairing].
  by apply reach_start.
Qed.
Lemma held_there rec : mDisputes (w_store investigated) !! 101%N = Some rec -> bool_decide (dr_DisputedAmount rec = inject_Z 100) = true.
Proof.
  assert (H : match mDisputes (w_store investigated) !! 101%N with Some rec => bool_decide (dr_DisputedAmount rec = inject_Z 100) | None => false end = true)
    by (vm_compute; reflexivity).
  intros E. rewrite E in H. exact H.
Qed.
Lemma rows_there : mAccessData (w_store investigated) !! bank = Some rows.
Proof.
  assert (H : match mAccessData (w_store investigated) !! bank with Some r => bool_decide (r = rows) | None => false end = true)
    by (vm_compute; reflexivity).
  destruct (mAccessData (w_store investigated) !! bank) as [r|]; [|discriminate H]. apply bool_decide_eq_true in H. by rewrite H.
Qed.
Lemma seen_by_bob p a : PrKind p = Analyst -> PID p = "bob" ->
  GetAccess (tx_of bank (as_analyst "bob")) p (w_store investigated) = Ok a -> a = seen_by [mkMembership "cb" RoleSenior].
Proof.
  intros Hk Hp. unfold GetAccess. cbn [tx_of t_tenant]. rewrite rows_there, Hk, Hp. by intros [= <-].
Qed.

End DutiesScenario.
