(* ===== verification/Mailroom.v ===== *)
(** * Mailroom: a dispute's correspondence played out, and the instances of the theorems about it. *)
From Stdlib Require Import QArith.
From S2P Require Import Prelude Errs GoTime GoJson Ext Types Regimes Lifecycle Deadlines Ledger Questionnaire Risk Notice Access Text Template Store Tx Service Correspondence ServiceFacts Dispatch Frames Profile CorrespondenceFacts Requests DispatchFacts Suggest Integrity Guarantees Core Contract Wakeup.
Local Open Scope Z_scope.

Module Mailroom.
  Import QDec NUuid Scenario.

(** A relay that accepts everything. *)
#[export] Instance open_relay : Mailer := { relay := unit; Send r _ := (Ok tt, r) }.

Definition is_done {A} (o : outcome A) : bool := match o with Done _ => true | _ => false end.
Lemma done_pair {A} (r : outcome A * World DisputeView) : is_done r.1 = true -> exists a, r = (Done a, r.2).
Proof. destruct r as [[a|e|msg] w]; cbn; [by eexists|done..]. Qed.
Local Ltac run := vm_compute; reflexivity.

(** A file is uploaded, an email is written with it, the dispatcher empties the outbox, and the email is sent again. *)
Definition receipt : UploadInput := mkUploadInput 101%N "receipt.pdf" "application/pdf" "%PDF" "alice".
Definition uploaded_w : outcome Attachment * World DisputeView := Upload ctx receipt (opened 10%N).
Definition message : ComposeEmailInput :=
  mkComposeEmailInput 101%N NoticeCustom {["subject" := "Your papers"; "body" := "We have what you sent."]} [102%N] "alice".
Definition composed_w : outcome DisputeView * World DisputeView := ComposeEmail ctx message uploaded_w.2.
Definition box : Outbox DisputeView := mkOutbox (w_store composed_w.2) tt 50 [].
Definition emptied : option (Outbox DisputeView) := drain 3 box.
Definition sent_w : World DisputeView :=
  match emptied with Some o => with_store composed_w.2 (ob_store o) | None => composed_w.2 end.
Definition message_id : Z := match List.rev (mNotices (w_store composed_w.2)) with n :: _ => nr_ID n | [] => 0 end.
Definition second : ResendInput := mkResendInput 101%N message_id "bob".
Definition resent_w : outcome DisputeView * World DisputeView := Resend ctx second sent_w.
Example played : is_done uploaded_w.1 && is_done composed_w.1 && is_done resent_w.1 = true.
Proof. run. Qed.

(** Two emails went out, the second with the file; a letter went with the first; the copy waits. *)
Example outbox_story :
  map (fun n => (nr_ID n, nr_Channel n, bool_decide (nr_SentAt n = None), nr_Attempts n, nr_ResendOf n)) (mNotices (w_store resent_w.2)) =
    [(1, ChannelEmail, false, 1, None); (2, ChannelLetter, false, 0, None); (3, ChannelEmail, false, 1, None);
     (4, ChannelEmail, true, 0, Some 3)] /\
  match emptied with
  | Some o => map (fun a => (ap_Notice a, ap_Outcome a, match ap_Mail a with Some m => map mf_Name (Files m) | None => [] end)) (ob_log o)
  | None => []
  end = [(1, DeliverySent, []); (3, DeliverySent, ["receipt.pdf"])].
Proof. split; run. Qed.

(** ** Witnesses *)
Lemma Upload_roundtrip_witness : exists meta, uploaded_w.1 = Done meta /\
  (GetAttachmentFile ctx 101%N (at_ID meta) uploaded_w.2).1 =
    Done (mkAttachment (at_ID meta) 101%N None "receipt.pdf" "application/pdf" (at_Size meta) "%PDF" "alice" (at_UploadedAt meta)).
Proof.
  destruct (done_pair uploaded_w) as [meta Hm]; [run|]. exists meta. split; [by rewrite Hm|].
  exact (f_equal fst (proj1 (Upload_roundtrip ctx receipt (opened 10%N) meta uploaded_w.2 Hm))).
Defined.


Lemma Resend_copies_witness : exists rec orig account again,
  nr_ID orig = re_NoticeID second /\ copy_of second rec orig account (w_store sent_w) again /\
  mNotices (w_store resent_w.2) = mNotices (w_store sent_w) ++ [again].
Proof.
  destruct (done_pair resent_w) as [v Hv]; [run|]. unfold resent_w at 1 in Hv.
  destruct (Resend_copies ctx second sent_w v resent_w.2 Hv)
    as (tid & rec & orig & account & again & _ & _ & (_ & _ & Hid & _) & _ & _ & Hn & Hc & _).
  exists rec, orig, account, again. exact (conj Hid (conj Hc Hn)).
Defined.

Definition logo : Image := mkImage "PNG" "image/png".
Definition branded : outcome TenantProfile * World DisputeView := Service_PutTenantLogo ctx logo (opened 10%N).
Lemma logo_roundtrip_witness : TenantLogo ctx branded.2 = (Done logo, branded.2).
Proof.
  destruct (done_pair branded) as [p Hp]; [run|].
  by destruct (logo_roundtrip ctx logo (opened 10%N) p branded.2 Hp) as (tid & _ & _ & H & _).
Defined.

Lemma start_notices : notices_ok (w_store start).
Proof. split; constructor. Qed.
Lemma grows_from_start : grows (w_store start) (w_store composed_w.2).
Proof.
  transitivity (w_store (opened 10%N)); [|transitivity (w_store uploaded_w.2)].
  - apply (request_frame grows grows_logo grows_avatar ctx). eapply (req_create ctx (opening 10%N)). apply surjective_pairing.
  - apply (request_frame grows grows_logo grows_avatar ctx), req_correspondence. eapply (cor_upload ctx receipt). apply surjective_pairing.
  - apply (request_frame grows grows_logo grows_avatar ctx), req_correspondence. eapply (cor_compose ctx message). apply surjective_pairing.
Qed.

Definition rendered (n : NoticeRecord) : bool :=
  negb (queued n) || match RenderMail n with Ok _ => true | Err _ => false end.
Lemma rendered_ok ns : forallb rendered ns = true -> renderable ns.
Proof.
  intros H. apply list.Forall_forall. intros n Hn Hq. rewrite List.forallb_forall in H.
  specialize (H n (proj1 (list_elem_of_In _ _) Hn)). unfold rendered in H. rewrite Hq in H. destruct (RenderMail n); [by eexists|done].
Qed.
Lemma drain_empties_witness : exists o, emptied = Some o /\ OutboxBacklog (ob_store o) = 0 /\ map ap_Notice (ob_log o) = [1; 3].
Proof.
  destruct (drain_empties box 2) as (o & Hd & H0 & _ & l & Hl & Hs & _).
  - intros r mail. by exists r.
  - exact (notices_ok_grows _ _ grows_from_start start_notices).
  - apply rendered_ok. run.
  - apply Z.leb_le. run.
  - exists o. split; [exact Hd|]. split; [exact H0|]. rewrite Hl. cbn [box ob_log app]. rewrite Hs. run.
Defined.

(** The dispatcher of the plant, between the requests. *)
Definition at_rest : Plant := mkPlant start tt 50 [] [].
Definition filled : Plant := mkPlant (opened 10%N) tt 50 [] [].
Definition claimed : Plant :=
  with_outbox filled (mkOutbox (ClaimNotices batch_size (pl_store filled)).2 tt 50 []) (ClaimNotices batch_size (pl_store filled)).1.
Definition first_claim : NoticeRecord := match pl_pending claimed with n :: _ => n | [] => email_record (record_of start) NoticeCustom zero_Document "" 0 "" end.
Definition delivered : Plant := with_outbox claimed (deliver first_claim (outbox_of claimed)) (List.tl (pl_pending claimed)).
(** A dispute is opened while the dispatcher waits: the nudge is on its way, no timer is needed. *)
Definition quiet_loop : Loop := mkLoop at_rest Selecting false 0 true.
Definition opened_loop : Loop := mkLoop filled Selecting false 1 true.
Lemma quiet_started : started quiet_loop.
Proof.
  apply (started_step (mkLoop at_rest Draining false 0 false)); [apply (started_step (mkLoop at_rest Selecting false 0 false))|].
  - exact (started_now start tt 50 start_notices).
  - apply ls_timer.
  - apply ls_stirs. exact (st_claim at_rest false 0 false [] _ eq_refl eq_refl).
Qed.
Lemma nudged_and_drained_witness : backlog opened_loop = 1 /\
  exists l', settle (effort opened_loop) opened_loop = Some l' /\ backlog l' = 0.
Proof.
  split; [run|].
  destruct (nudged_and_drained opened_loop) as (_ & _ & l' & Hl & _ & Hb).
  - apply (started_step quiet_loop); [exact quiet_started|].
    assert (E : (w_kicks (opened 10%N) - w_kicks start)%nat = 1%nat) by run. unfold opened_loop. rewrite <- E.
    apply (ls_request ctx start (opened 10%N)). eapply (req_create ctx (opening 10%N)). apply surjective_pairing.
  - intros r mail. by exists r.
  - apply rendered_ok. run.
  - intros _. by left.
  - exists l'. exact (conj Hl Hb).
Defined.
(** The story as it runs: the token, the loop, one claim, one attempt, an empty claim. *)
Example nudge_story : match settle (effort opened_loop) opened_loop with
  | Some l' => (sent_ids (pl_log (lp_plant l')), lp_clear l', effort opened_loop)
  | None => ([], false, O)
  end = ([1], true, 7%nat).
Proof. run. Qed.
(** A model that answers every question with the least probability that is shown. *)
Definition agreeable : Decisions := fun _ qs => Ok ((fun _ => mkAnswer "yes" MinConfidence) <$> qs).
Definition suggested : outcome (gmap string Answer) * World DisputeView :=
  SuggestQuestionnaireAnswers ctx (Some agreeable) 101%N "yes to all of it" (opened 10%N).
Lemma suggestions_guarded_witness : exists out, suggested.1 = Done out /\ Nat.ltb 0 (size out) = true /\
  w_store suggested.2 = w_store (opened 10%N) /\ out !! relevanceGate = None.
Proof.
  destruct (done_pair suggested) as [out Ho]; [run|]. exists out. split; [by rewrite Ho|]. split.
  { pose (f := match suggested.1 with Done out => Nat.ltb 0 (size out) | _ => false end). assert (Hf : f = true) by run.
    unfold f in Hf. by rewrite Ho in Hf. }
  destruct (suggestions_guarded ctx (Some agreeable) 101%N "yes to all of it" (opened 10%N) out suggested.2 Ho) as (H1 & H2 & _).
  exact (conj H1 H2).
Defined.
End Mailroom.
