(* ===== verification/ApiFacts.v ===== *)
(** * ApiFacts: what holds of every request to the API. *)
From S2P Require Import Oapi Answers Prelude Errs GoTime GoJson Ext Types Regimes Lifecycle Deadlines Ledger Questionnaire Risk Notice Access Text Http Template Store Wire Tx Sql PgStore Directory Auth Keys Sessions Limits Guard Service Correspondence Profile Suggest ServiceFacts Frames Guarantees Handlers Server.

Section facts.
Context `{DC : Decimal} `{UU : UUID} {Body : Type} {BC : BankingCore} {RT : Runtime} {AZ : Authorizer} {VC : ViewCodec Body} {CO : Collation}.
Context {PF : Platform} {HC : Handler (Body := Body)} {BD : Binder} {VD : Validator}.

Abbreviation EP := (Endpoint (Body := Body)).
Abbreviation SV := (Server (Body := Body)).

(** ** Computations of the handlers that end with a value *)
Lemma A_bind_done {T U} (f : T -> A U) (p : A T) (s : Site (Body := Body)) b s' :
  mbind f p s = (Done b, s') <-> exists a s1, p s = (Done a, s1) /\ f a s1 = (Done b, s').
Proof. unfold mbind, A_bind. destruct (p s) as [[a|e|msg] s1]; split; naive_solver. Qed.
Lemma A_ret_done {T} (a : T) (s : Site (Body := Body)) b s' : mret (M := A) a s = (Done b, s') <-> a = b /\ s' = s.
Proof. unfold mret, A_ret. naive_solver. Qed.
Lemma attempt_done {T} (p : A T) (s : Site (Body := Body)) r s' : attempt p s = (Done r, s') <->
  (exists a, r = Ok a /\ p s = (Done a, s')) \/ (exists e, r = Err e /\ p s = (Fails e, s')).
Proof. unfold attempt. destruct (p s) as [[a|e|msg] s1]; naive_solver. Qed.
Lemma svc_out {T} (q : P Body T) (s : Site (Body := Body)) r s' : svc q s = (r, s') <->
  exists w, q (st_world s) = (r, w) /\ s' = mkSite w (st_keys s).
Proof. unfold svc. destruct (q (st_world s)) as [o w]. naive_solver. Qed.

(** ** The two writers of problems *)

(** The problem of a handler's response, without the events a transition would allow. *)
Definition plain_problem (p : Http.Problem) : Oapi.Problem :=
  Oapi.mkProblem None (PCode p) (some_text (PDetail p))
    (match PErrors p with [] => None | es => Some (made (map (fun f => Oapi.mkFieldError (Field f) (Message f)) es)) end)
    (Some (PInstance p)) (PRequestID p) (PRetryAfter p) (PRetryable p) (PStatus p) (PTitle p) (PType p).

Lemma problem_plain v inst err id (s : Site (Body := Body)) p s' : problem v inst err id s = (Done p, s') ->
  errors_is err ErrInvalidTransition = false \/ id = uuid_Nil ->
  p = plain_problem (ProblemFrom (v_request_id v) inst err) /\ s' = s.
Proof.
  unfold problem. intros H [E|E].
  - rewrite E in H. cbn in H. by injection H as <- <-.
  - rewrite (bool_decide_true _ E), andb_false_r in H. cbn in H. by injection H as <- <-.
Qed.

Lemma field_errors_json es : mapM Oapi.FieldError_json (map (fun f => Oapi.mkFieldError (Field f) (Message f)) es) = Ok (map Http.FieldError_json es).
Proof. induction es as [|e es IH]; [done|]. cbn [map mapM]. rewrite IH. done. Qed.

Lemma problem_bodies p : PInstance p <> "" -> Oapi.Problem_json (plain_problem p) = Ok (Problem_marshal p).
Proof.
  intros Hi. unfold Oapi.Problem_json, struct_json, plain_problem, Problem_marshal. cbn [Problem_AllowedEvents Problem_Code Problem_Detail
    Problem_Errors Problem_Instance Problem_RequestId Problem_RetryAfterSeconds Problem_Retryable Problem_Status Problem_Title Problem_Type].
  rewrite (bool_decide_false _ Hi). unfold some_text. pose proof (field_errors_json (PErrors p)) as Hf.
  destruct (PErrors p) as [|e es].
  - clear Hf. destruct (bool_decide (PDetail p = "")), (PRetryAfter p); reflexivity.
  - set (fes := map _ (e :: es)) in *. set (jes := map Http.FieldError_json (e :: es)) in *. clearbody fes jes.
    destruct (bool_decide (PDetail p = "")), (PRetryAfter p); cbn; rewrite ?Hf; reflexivity.
Qed.

(** The problem of a handler's response: the plain one, with what the dispute would accept when the error is a
    refused transition and the dispute can be read. *)
Lemma problem_cases v inst err id (s : Site (Body := Body)) p s' : problem v inst err id s = (Done p, s') ->
  exists allowed, let q := plain_problem (ProblemFrom (v_request_id v) inst err) in
    p = Oapi.mkProblem (made <$> allowed) (Problem_Code q) (Problem_Detail q) (Problem_Errors q) (Problem_Instance q) (Problem_RequestId q)
          (Problem_RetryAfterSeconds q) (Problem_Retryable q) (Problem_Status q) (Problem_Title q) (Problem_Type q) /\
    (allowed = None \/ errors_is err ErrInvalidTransition = true /\
       exists view w', GetDisputeView (v_ctx v) id (st_world s) = (Done view, w') /\ allowed = Some (map Event_string (vw_AllowedEvents view))).
Proof.
  unfold problem. rewrite A_bind_done. intros (allowed & s1 & Ha & H). apply A_ret_done in H as [<- ->].
  destruct (errors_is err ErrInvalidTransition && _) eqn:E.
  - apply andb_true_iff in E as [E _]. apply A_bind_done in Ha as (r & s2 & Ha & H). apply A_ret_done in H as [<- ->].
    apply attempt_done in Ha as [(view & -> & Ha)|(e & -> & Ha)].
    + apply svc_out in Ha as (w & Ha & _). exists (Some (map Event_string (vw_AllowedEvents view))). split; [done|]. right. eauto.
    + exists None. split; [done|by left].
  - apply A_ret_done in Ha as [<- _]. exists None. split; [done|by left].
Qed.

Lemma strings_json l : mapM string_json l = Ok (map JString l).
Proof. induction l as [|a l IH]; [done|]. cbn. by rewrite IH. Qed.
Lemma allowed_json q es members : Problem_AllowedEvents q = None -> Oapi.Problem_json q = Ok (JObject members) ->
  Oapi.Problem_json (Oapi.mkProblem (Some (made es)) (Problem_Code q) (Problem_Detail q) (Problem_Errors q) (Problem_Instance q)
    (Problem_RequestId q) (Problem_RetryAfterSeconds q) (Problem_Retryable q) (Problem_Status q) (Problem_Title q) (Problem_Type q))
  = Ok (JObject (("allowedEvents", JArray (map JString es)) :: members)).
Proof.
  intros Ha. destruct q as [a b c d e f g h i j k]. cbn in Ha. subst a. unfold Oapi.Problem_json. intros H%struct_inv. cbn in H.
  unfold optional at 1. cbn [slice_json made Problem_AllowedEvents]. rewrite strings_json. by apply struct_some.
Qed.


(** ** Who may call what *)

(** An endpoint that answers for itself: nobody's handler runs. *)
Definition turned_away (v : Values) (r : Req) (hd : Headers) (s : SV) (e : EP) : Prop :=
  exists err, e v r hd s = (Wrote (fail_with v r hd err), s) /\ (err = EClass ErrUnauthenticated \/ exists cause, err = malformed_request cause).
Lemma bound_away {T} (param : Req -> res string T) (k : T -> EP) v r hd s :
  (forall a, turned_away v r hd s (k a)) -> turned_away v r hd s (bound param k).
Proof.
  intros H. unfold bound, turned_away. destruct (param r) as [a|text]; [apply H|]. eexists. split; [reflexivity|]. right. by eexists.
Qed.
Lemma middlewares_away o (next : EP) v r hd s :
  existsb (fun scheme => bool_decide (RequiredScheme v scheme <> None)) (security o) = true -> turned_away v r hd s (middlewares o next).
Proof. intros H. unfold turned_away, middlewares. rewrite H. eexists. split; [reflexivity|by left]. Qed.

(** What an operation asks of the caller: nothing, the service's key, or a tenant. *)
Definition admitted_to (o : Operation) (v : Values) : Prop :=
  match operationClass o with
  | public => True
  | internal => IsService v = true
  | tenantWide | decided => IDFrom (v_ctx v) <> None
  end.
Lemma not_admitted_schemes o v : ~ admitted_to o v ->
  existsb (fun scheme => bool_decide (RequiredScheme v scheme <> None)) (security o) = true.
Proof.
  unfold admitted_to, security, operationClass, RequiredScheme. intros H. destruct o; cbn in H |- *; try (by destruct H);
    try (destruct (IsService v); [by destruct H|reflexivity]);
    (destruct (IDFrom (v_ctx v)) as [u|]; [destruct H; done|]); by destruct (v_auth v).
Qed.
Lemma serve_away o v r hd (s : SV) : ~ admitted_to o v -> turned_away v r hd s (serve o).
Proof.
  intros H%not_admitted_schemes. destruct o; repeat (apply bound_away; intros); by apply middlewares_away.
Qed.

(** *** Through the chain *)
Context (specJSON : string) (cfg : Config) (oidc : option Issuers) (reachable : nat -> bool) (request_bytes : nat -> string).
Abbreviation api_mux := (mux (Body := Body) specJSON).
Abbreviation api := (API (Body := Body) specJSON cfg oidc reachable request_bytes).

(** Refusals: an answer that is no success, from a handler that leaves the use cases' world as it is. *)
Definition refuses (kw : option KeyWorld) (v : Values) (r : Req) (e : EP) : Prop := forall hd s,
  match kw with Some kw => st_keys (sv_site s) = kw | None => True end ->
  exists resp s', e v r hd s = (Wrote resp, s') /\ st_world (sv_site s') = st_world (sv_site s) /\ Status resp ∈ [400; 401; 404; 429].

Lemma refuses_mux o values v r : route table r = Found (ToOperation o) values -> ~ admitted_to o v -> refuses None v r api_mux.
Proof.
  intros Hr Ho hd s _. unfold mux. rewrite Hr. destruct (serve_away o v (with_path_values values r) hd s Ho) as (err & He & Hc).
  exists (fail_with v (with_path_values values r) hd err), s. split_and!; [done|done|].
  destruct Hc as [->|(cause & ->)]; set_solver.
Qed.
Lemma refuses_rate v r next : refuses None v r next -> refuses None v r (RateMiddleware reachable sv_budget put_budget (cf_RatePerMinute cfg) next).
Proof.
  intros H hd s _. unfold RateMiddleware. destruct (cf_RatePerMinute cfg <=? 0); [by apply H|].
  destruct (rate_verdict _ _ _ _ _ _) as [[h|resp] b] eqn:E; [by apply (H h (put_budget b s))|]. eexists _, _. split_and!; [reflexivity|done|].
  unfold rate_verdict in E. destruct (IDFrom (v_ctx v)); [|done]. destruct (Bump _ _ _ _) as [[n|] b']; [|done].
  destruct (_ <? n); [|done]. injection E as <- _. set_solver.
Qed.
Lemma refuses_failures v r next : refuses None v r next ->
  refuses None v r (FailureMiddleware sv_failures put_failures (cf_AuthFailuresPerMinute cfg) next).
Proof.
  intros H hd s _. unfold FailureMiddleware. destruct (_ <=? 0); [by apply H|]. destruct (bool_decide _); [by apply H|].
  destruct (blocked _ _) as [[] f]; [|by apply (H hd (put_failures _ s))]. eexists _, _. split_and!; [reflexivity|done|set_solver].
Qed.
Lemma refuses_bearer kw v r next : refuses None (let '(keys, issuers, _) := resolved oidc r kw in Bearer_values keys issuers v r) r next ->
  refuses (Some kw) v r (BearerStore oidc next).
Proof.
  intros H hd s Hs. unfold BearerStore, Bearer. rewrite Hs. destruct (resolved _ _ _) as [[keys issuers] kw'].
  by apply (H hd (put_site (mkSite (st_world (sv_site s)) kw') s)).
Qed.
Lemma refuses_cors kw v r next : Method r <> "OPTIONS" -> refuses kw v r next -> refuses kw v r (CORS (cf_CORSOrigins cfg) next).
Proof.
  intros Hm H hd s Hs. unfold CORS. destruct (_ && _); [|by apply H]. rewrite bool_decide_false by done. by apply H.
Qed.
Lemma refuses_internal kw v r next : refuses kw v r next -> refuses kw v r (InternalOnly "/internal/" (cf_InternalCIDRs cfg) next).
Proof.
  intros H hd s Hs. unfold InternalOnly. destruct (_ && _); [|by apply H]. eexists _, _. split_and!; [reflexivity|done|set_solver].
Qed.
Lemma refuses_id kw v r next : (forall id, refuses kw (v_with_request_id v id) r next) -> refuses kw v r (RequestID request_bytes sv_draws put_draws next).
Proof.
  intros H hd s Hs. unfold RequestID. destruct (bool_decide _); [|by apply H].
  by apply (H _ _ (put_draws (1 + sv_draws s)%nat s)).
Qed.
Lemma refuses_recover kw v r next : refuses kw v r next -> refuses kw v r (Recover next).
Proof. intros H hd s Hs. destruct (H hd s Hs) as (resp & s' & E & H1 & H2). unfold Recover. rewrite E. eauto. Qed.

Lemma routed_method r t values : route (table) r = Found t values -> Method r <> "OPTIONS".
Proof.
  unfold route. destruct (List.find _ _) as [[[m t'] vs]|] eqn:E; [|by destruct (omap _ _)]. intros _ Ho.
  apply List.find_some in E as [Hin Hs]. rewrite Ho in Hs. cbn [fst] in Hs. apply list_elem_of_In in Hin.
  apply list_elem_of_omap in Hin as ([[m' pat] t''] & Hin & He).
  assert (Hall : forallb (fun e => negb (serves_method e.1.1 "OPTIONS")) (table) = true) by (vm_compute; reflexivity).
  rewrite forallb_forall in Hall. apply list_elem_of_In in Hin. specialize (Hall _ Hin). cbn [fst snd] in He, Hall.
  destruct (match_path _ _); [|done]. cbn in He. injection He as <- _ _. by rewrite Hs in Hall.
Qed.

Lemma Bearer_values_proven keys issuers v r id : anonymous v -> IDFrom (v_ctx (Bearer_values keys issuers v r)) = Some id ->
  exists p, proven keys issuers r id p.
Proof.
  intros Hv. unfold Bearer_values. destruct (credential r) as [cred|] eqn:Ec; [|destruct Hv as [E0 _]; cbn; by rewrite E0].
  destruct (authenticate keys issuers v cred) as [[tid v1]|err] eqn:Ea; [|destruct Hv as [E0 _]; cbn; by rewrite E0].
  apply (authenticate_ok _ _ _ r) in Ea as (p & Hp & _); [|done..]. unfold IDFrom, WithID. cbn.
  destruct (decide (tid = uuid_Nil)); [done|]. intros [= <-]. by exists p.
Qed.
Lemma Bearer_values_service keys issuers v r : v_service (Bearer_values keys issuers v r) = v_service v.
Proof.
  unfold Bearer_values. destruct (credential r) as [cred|]; [|done]. unfold authenticate. destruct (LooksLikeJWT cred).
  - destruct issuers as [o|]; [|done]. by destruct (Verify o cred).
  - by destruct (keys _).
Qed.

(** What a request has to carry for an operation: nothing; the secret of the frontend server; or a live key or a
    genuine token of a tenant, by the tables as they are. *)
Definition carries (o : Operation) (r : Req) (kw : KeyWorld) : Prop :=
  match operationClass o with
  | public => True
  | internal => cf_ServiceKey cfg <> "" /\ header r "X-Service-Key" = cf_ServiceKey cfg
  | tenantWide | decided => exists tenant p, let '(keys, issuers, _) := resolved oidc r kw in proven keys issuers r tenant p
  end.

(** C33: No operation but the health checks answers a request that does not prove its caller: whatever the request, when it
    is routed to an operation and does not carry what the operation's class asks for - the shared secret for the
    internal surface, a live key or a genuine token of some tenant for the rest - it is refused with one of four
    statuses, through the whole chain of middleware, and nothing of the disputes, the clock of the use cases or the
    banking core has changed. *)
Theorem api_requires_proof o values v r hd (s : SV) : anonymous v -> v_service v = false ->
  route table r = Found (ToOperation o) values -> ~ carries o r (st_keys (sv_site s)) ->
  exists resp s', api v r hd s = (Wrote resp, s') /\ st_world (sv_site s') = st_world (sv_site s) /\ Status resp ∈ [400; 401; 404; 429].
Proof.
  intros Hv Hsv Hr Hc. apply (refuses_recover (Some (st_keys (sv_site s)))); [|done]. apply refuses_id. intros id. apply refuses_internal, refuses_cors; [by eapply routed_method|].
  apply refuses_bearer. unfold carries in Hc. set (v' := let '(keys, issuers, _) := _ in _).
  assert (Hv' : (exists tenant p, let '(keys, issuers, _) := resolved oidc r (st_keys (sv_site s)) in proven keys issuers r tenant p) \/ IDFrom (v_ctx v') = None).
  { subst v'. destruct (resolved _ _ _) as [[keys issuers] kw]. destruct (IDFrom _) as [t|] eqn:E; [left|by right].
    apply Bearer_values_proven in E as (p & Hp); [|done]. eauto. }
  assert (Hs' : v_service v' = false).
  { subst v'. destruct (resolved _ _ _) as [[keys issuers] kw]. by rewrite Bearer_values_service. }
  apply refuses_failures. apply refuses_rate. eapply refuses_mux; [done|]. intros Ha. apply Hc. unfold admitted_to in Ha.
  destruct (operationClass o); [done|..].
  - unfold ServiceKey_values in Ha. destruct (_ && _) eqn:E; [|unfold IsService in Ha; congruence].
    apply andb_true_iff in E as [E E3]. apply andb_true_iff in E as [E1 E2]. by to_prop.
  - destruct Hv' as [Hv'|Hv']; [done|]. destruct Ha. unfold ServiceKey_values. by destruct (_ && _).
  - destruct Hv' as [Hv'|Hv']; [done|]. destruct Ha. unfold ServiceKey_values. by destruct (_ && _).
Qed.
End facts.
