(* ===== verification/ApiGuarantees.v ===== *)
(** * ApiGuarantees: what requests over HTTP can do to what the service keeps. *)
From S2P Require Import Oapi Answers Prelude Errs GoTime GoJson Ext Types Regimes Lifecycle Deadlines Ledger Questionnaire Risk Notice Access Text Http Template Store Wire Tx Sql PgStore Directory Auth Keys Sessions Limits Guard Service Correspondence Profile Suggest ServiceFacts Frames CorrespondenceFacts Requests Integrity Guarantees Contract Handlers Server ApiFacts.

Section readers.
Context `{DC : Decimal} `{UU : UUID} {Body : Type} {BC : BankingCore} {RT : Runtime} {AZ : Authorizer}.
Implicit Types (c : Ctx) (id : uuid).

(** ** The calls that only read *)
#[export] Instance same_restorable : Restorable (@eq (MemStore Body)).
Proof. intros m m' <-. by destruct m. Qed.

(** It panics never, takes no id back, and leaves the store as it was. *)
Definition reader {T} (p : P Body T) : Prop := readonly p /\ tame p.
Lemma reader_WithTx {T} c (f : memTx -> P Body T) : (forall t, reader (f t)) -> reader (WithTx c f).
Proof.
  intros H. split; [apply frames_WithTx; [apply _..|]|apply tame_WithTx]; intros t; apply H.
Qed.
Lemma reader_view c t rec : reader (view c t rec).
Proof. split; [apply frames_view, _|apply tame_view]. Qed.
Lemma reader_bind {T U} (p : P Body T) (f : T -> P Body U) : reader p -> (forall a, reader (f a)) -> reader (mbind f p).
Proof. intros [H1 H2] H. split; [apply frames_bind; [apply _|done|]|apply tame_bind; [done|]]; intros a; apply H. Qed.
Lemma reader_rd {T} (f : MemStore Body -> M T) : reader (rd f).
Proof. split; [apply frames_rd, _|apply tame_rd]. Qed.
Lemma reader_ret {T} (a : T) : reader (mret a).
Proof. split; [apply frames_ret, _|apply tame_ret]. Qed.
Lemma reader_now : reader now.
Proof. split; [apply frames_now, _|apply tame_now]. Qed.
Lemma reader_try {T} (p : P Body T) : reader p -> reader (try_ p).
Proof. intros [H1 H2]. split; [by apply frames_try|by apply tame_try]. Qed.
Lemma reader_throwE {T} e : reader (throwE (A := T) e).
Proof. split; [apply frames_throwE, _|apply tame_throwE]. Qed.
Lemma reader_authorize c t action d : reader (authorize c t action d).
Proof. split; [apply frames_authorize, _|apply tame_authorize]. Qed.
Lemma reader_notice_facts t rec at_ : reader (notice_facts t rec at_).
Proof. split; [apply frames_notice_facts, _|apply tame_notice_facts]. Qed.
End readers.

Create HintDb reader.
#[export] Hint Resolve reader_WithTx reader_view reader_bind reader_rd reader_ret reader_now reader_try reader_throwE
  reader_authorize reader_notice_facts : reader.
Ltac reader_tac := repeat first
  [ progress intros | solve [auto 2 with reader nocore] | progress cbv zeta
  | apply reader_WithTx | apply reader_bind | apply reader_try
  | match goal with |- reader (match ?x with _ => _ end) => destruct x end ].

Section readings.
Context `{DC : Decimal} `{UU : UUID} {Body : Type} {BC : BankingCore} {RT : Runtime} {AZ : Authorizer}.
Implicit Types (c : Ctx) (id : uuid).

Lemma reader_GetDisputeView c id : reader (Body := Body) (GetDisputeView c id).
Proof. unfold GetDisputeView. reader_tac. Qed.
Lemma reader_ListDisputesPage c q : reader (Body := Body) (ListDisputesPage c q).
Proof. unfold ListDisputesPage. reader_tac. Qed.
Lemma reader_GetNoticeDocument c id n : reader (Body := Body) (GetNoticeDocument c id n).
Proof. unfold GetNoticeDocument. reader_tac. Qed.
Lemma reader_GetAttachmentFile c d id : reader (Body := Body) (GetAttachmentFile c d id).
Proof. unfold GetAttachmentFile. reader_tac. Qed.
Lemma reader_tenantTemplates t : reader (Body := Body) (tenantTemplates t).
Proof. unfold tenantTemplates. reader_tac. Qed.
Lemma reader_ListEmailTemplates c id : reader (Body := Body) (ListEmailTemplates c id).
Proof. pose proof reader_tenantTemplates as H. unfold ListEmailTemplates. reader_tac. Qed.
Lemma reader_ListTemplateSettings c : reader (Body := Body) (ListTemplateSettings c).
Proof. unfold ListTemplateSettings. reader_tac. Qed.
Lemma reader_Tenant c : reader (Body := Body) (Profile.Tenant c).
Proof. unfold Profile.Tenant. reader_tac. Qed.
Lemma reader_TenantLogo c : reader (Body := Body) (TenantLogo c).
Proof. unfold TenantLogo. reader_tac. Qed.
Lemma reader_AnalystAvatar c subject : reader (Body := Body) (AnalystAvatar c subject).
Proof. unfold AnalystAvatar. reader_tac. Qed.
Lemma reader_Authorize c action : reader (Body := Body) (Authorize c action).
Proof. unfold Authorize. reader_tac. Qed.
Lemma reader_SuggestQuestionnaireAnswers c d id reply : reader (Body := Body) (SuggestQuestionnaireAnswers c d id reply).
Proof. unfold SuggestQuestionnaireAnswers, questions_to_ask. reader_tac. Qed.
End readings.
#[export] Hint Resolve reader_GetDisputeView reader_ListDisputesPage reader_GetNoticeDocument reader_GetAttachmentFile
  reader_ListEmailTemplates reader_ListTemplateSettings reader_Tenant reader_TenantLogo reader_AnalystAvatar reader_Authorize
  reader_SuggestQuestionnaireAnswers : reader.

Section moves.
Context `{DC : Decimal} `{UU : UUID} {Body : Type} {BC : BankingCore} {RT : Runtime} {AZ : Authorizer} {VC : ViewCodec Body} {CO : Collation}.
Context {PF : Platform} {HC : Handler (Body := Body)} {BD : Binder} {VD : Validator}.
Abbreviation AS := (Site (Body := Body)).

(** ** What a handler does to the two halves of the state
    [W] relates the worlds of the use cases before and after, [D] the tables of keys, tenants and sessions. *)
Context (W : relation (World Body)) (D : relation Directory) {HW : PreOrder W} {HD : PreOrder D}.
Context (reading : forall w w', w_store w' = w_store w -> (w_ids w <= w_ids w')%nat -> W w w').

Definition moves {T} (p : A (Body := Body) T) : Prop := forall (s : AS) r s', p s = (r, s') ->
  (forall msg, r <> Panics msg) /\ W (st_world s) (st_world s') /\ D (kw_dir (st_keys s)) (kw_dir (st_keys s')).

Lemma moves_ret {T} (a : T) : moves (mret a).
Proof. by intros s r s' [= <- <-]. Qed.
Lemma moves_answer {T} (r : M T) : moves (answer r).
Proof. intros s o s' [= <- <-]. by destruct r. Qed.
Lemma moves_raise {T} e : moves (raise (T := T) e).
Proof. apply moves_answer. Qed.
Lemma moves_bind {T U} (p : A T) (f : T -> A U) : moves p -> (forall a, moves (f a)) -> moves (mbind f p).
Proof.
  intros Hp Hf s r s' H. unfold mbind, A_bind in H. destruct (p s) as [o s1] eqn:E. apply Hp in E as (H1 & H2 & H3).
  destruct o as [a|e|msg]; [|by injection H as <- <-|by destruct (H1 msg)].
  apply Hf in H as (H4 & H5 & H6). split_and!; [done|by etrans..].
Qed.
Lemma moves_attempt {T} (p : A T) : moves p -> moves (attempt p).
Proof.
  intros Hp s r s' H. unfold attempt in H. destruct (p s) as [[a|e|msg] s1] eqn:E; apply Hp in E as (H1 & H2 & H3);
    injection H as <- <-; [done..|by destruct (H1 msg)].
Qed.
Lemma moves_svc {T} (p : P Body T) : (forall w r w', p w = (r, w') -> (forall msg, r <> Panics msg) /\ W w w') -> moves (svc p).
Proof. intros Hp s r s' (w & H & ->)%svc_out. apply Hp in H as [H1 H2]. done. Qed.
Lemma moves_reader {T} (p : P Body T) : reader p -> moves (svc p).
Proof.
  intros [Hr Ht]. apply moves_svc. intros w r w' H. pose proof (readonly_done _ _ _ _ Hr H) as Hs. apply Ht in H as [H1 H2].
  split; [done|by apply reading].
Qed.
Lemma moves_problem v inst err id : moves (problem v inst err id).
Proof.
  unfold problem. apply moves_bind; [|intros; apply moves_ret]. destruct (_ && _); [|apply moves_ret].
  apply moves_bind; [|intros; apply moves_ret]. apply moves_attempt, moves_reader, reader_GetDisputeView.
Qed.
Lemma moves_declared {T R} v inst id rs (ok : T -> R) p : moves p -> moves (declared v inst id rs ok p).
Proof.
  intros Hp. apply moves_bind; [by apply moves_attempt|]. intros [a|e]; [apply moves_ret|].
  apply moves_bind; [apply moves_problem|]. intros q. destruct (List.find _ rs); [apply moves_ret|apply moves_raise].
Qed.
Lemma moves_or_not_found {T R} v inst id nf (ok : T -> R) p : moves p -> moves (or_not_found v inst id nf ok p).
Proof.
  intros Hp. apply moves_bind; [by apply moves_attempt|]. intros [a|e]; [apply moves_ret|].
  destruct (errors_is e _); [|apply moves_raise]. apply moves_bind; [apply moves_problem|]. intros q. apply moves_ret.
Qed.

(** *** The calls on the tables *)
Definition kmoves {T} (k : K T) : Prop := forall kw, D (kw_dir kw) (kw_dir (k kw).2).
Lemma moves_dir {T} (k : K T) : kmoves k -> moves (dir k).
Proof. intros Hk s r s' H. unfold dir in H. specialize (Hk (st_keys s)). destruct (k _) as [[a|e] kw]; injection H as <- <-; done. Qed.
Lemma kmoves_bind {T U} (p : K T) (f : T -> K U) : kmoves p -> (forall a, kmoves (f a)) -> kmoves (mbind f p).
Proof.
  intros Hp Hf kw. unfold mbind, K_bind. specialize (Hp kw). destruct (p kw) as [[a|e] kw1]; [|done]. etrans; [exact Hp|apply Hf].
Qed.
Lemma kmoves_still {T} (k : K T) : (forall kw, kw_dir (k kw).2 = kw_dir kw) -> kmoves k.
Proof. intros H kw. by rewrite H. Qed.
Lemma kmoves_pool {T} (q : DStmt T) : (forall now d, D d (q now d).2) -> forall kw, D (kw_dir kw) (kw_dir (pool fault db_now q kw).2).
Proof.
  intros Hq kw. unfold pool. destruct (fault _); [done|]. specialize (Hq (db_now (kw_statements kw)) (kw_dir kw)). by destruct (q _ _) as [r d].
Qed.
Lemma kmoves_mapped {T} (q : DStmt T) : (forall now d, D d (q now d).2) -> kmoves (mapped fault db_now q).
Proof. intros Hq kw. pose proof (kmoves_pool q Hq kw) as H. unfold mapped. by destruct (pool _ _ _ _) as [[a|e] kw1]. Qed.
Lemma kmoves_plain {T} (q : DStmt T) : (forall now d, D d (q now d).2) -> kmoves (plain fault db_now q).
Proof. intros Hq kw. pose proof (kmoves_pool q Hq kw) as H. unfold plain. by destruct (pool _ _ _ _) as [[a|e] kw1]. Qed.
Lemma kmoves_now : kmoves k_now.
Proof. by apply kmoves_still. Qed.
Lemma kmoves_ret {T} (a : T) : kmoves (mret a).
Proof. by apply kmoves_still. Qed.
Lemma D_select_one {T} (f : time -> Directory -> list T) now d : D d (select_one f now d).2.
Proof. unfold select_one. by destruct (f now d). Qed.
Lemma kmoves_ActiveTenants : kmoves (ActiveTenants fault db_now).
Proof. apply kmoves_bind; [by apply kmoves_mapped|]. intros rows. apply kmoves_ret. Qed.
Lemma kmoves_ListForTenant id : kmoves (ListForTenant fault db_now id).
Proof. apply kmoves_bind; [by apply kmoves_mapped|]. intros rows. apply kmoves_ret. Qed.
Lemma kmoves_getForTenant id tid : kmoves (getForTenant fault db_now id tid).
Proof. apply kmoves_bind; [apply kmoves_mapped, D_select_one|]. intros row. apply kmoves_ret. Qed.
Lemma kmoves_session_Get id : kmoves (session_Get fault db_now id).
Proof.
  intros kw. pose proof (kmoves_pool (q_GetWebSession id) (D_select_one _) kw) as H. unfold session_Get.
  by destruct (pool _ _ _ _) as [[[[t c] e]|[]] kw1].
Qed.

(** *** Handlers that only read *)
#[local] Hint Resolve moves_ret moves_answer moves_raise moves_declared moves_or_not_found moves_reader moves_dir kmoves_now
  kmoves_ActiveTenants kmoves_ListForTenant kmoves_session_Get : moves.
#[local] Hint Extern 1 (reader _) => auto 1 with reader : moves.
Local Ltac moves_tac := repeat first
  [ progress intros | solve [auto 4 with moves nocore] | progress cbv zeta
  | apply moves_bind | apply moves_or_not_found | apply moves_declared
  | match goal with |- moves (match ?x with _ => _ end) => destruct x end ].

Lemma moves_enabled on : moves (enabled_or_404 on).
Proof. unfold enabled_or_404. moves_tac. Qed.
Lemma moves_analyst v detail : moves (analyst_or v detail).
Proof. unfold analyst_or. moves_tac. Qed.
Lemma moves_tenantAdmin v : moves (tenantAdmin v).
Proof. pose proof moves_enabled as H. unfold tenantAdmin. moves_tac. Qed.
#[local] Hint Resolve moves_enabled moves_analyst moves_tenantAdmin : moves.

Lemma moves_ListDisputes v state reason limit cursor overdue : moves (Handler_ListDisputes v state reason limit cursor overdue).
Proof. unfold Handler_ListDisputes. moves_tac. Qed.
Lemma moves_GetDispute v id : moves (Handler_GetDispute v id).
Proof. unfold Handler_GetDispute. moves_tac. Qed.
Lemma moves_GetAttachment v d id : moves (Handler_GetAttachment v d id).
Proof. unfold Handler_GetAttachment. moves_tac. Qed.
Lemma moves_ListEmailTemplates v id : moves (Handler_ListEmailTemplates v id).
Proof. unfold Handler_ListEmailTemplates. moves_tac. Qed.
Lemma moves_GetNotice v d id : moves (Handler_GetNotice v d id).
Proof. unfold Handler_GetNotice. moves_tac. Qed.
Lemma moves_GetHealthz : moves Handler_GetHealthz.
Proof. apply moves_ret. Qed.
Lemma moves_GetReadyz : moves Handler_GetReadyz.
Proof. intros s r s'. unfold Handler_GetReadyz. destruct (h_ready s); by intros [= <- <-]. Qed.
Lemma moves_GetSession id : moves (Handler_GetSession id).
Proof. unfold Handler_GetSession. moves_tac. Qed.
Lemma moves_ListTenants : moves Handler_ListTenants.
Proof. unfold Handler_ListTenants. moves_tac. Qed.
Lemma moves_GetTenant v : moves (Handler_GetTenant v).
Proof. unfold Handler_GetTenant. moves_tac. Qed.
Lemma moves_GetTenantLogo v : moves (Handler_GetTenantLogo v).
Proof. unfold Handler_GetTenantLogo. moves_tac. Qed.
Lemma moves_GetMyAvatar v : moves (Handler_GetMyAvatar v).
Proof. unfold Handler_GetMyAvatar. moves_tac. Qed.
Lemma moves_ListTenantTemplates v : moves (Handler_ListTenantTemplates v).
Proof. unfold Handler_ListTenantTemplates. moves_tac. Qed.
Lemma moves_ListTenantKeys v : moves (Handler_ListTenantKeys v).
Proof. unfold Handler_ListTenantKeys. moves_tac. Qed.
Lemma moves_SuggestSearchFilters body : moves (Handler_SuggestSearchFilters body).
Proof. apply moves_ret. Qed.
Lemma moves_SuggestDisputeReason body : moves (Handler_SuggestDisputeReason body).
Proof. apply moves_ret. Qed.
Lemma moves_SuggestQuestionnaireAnswers v id body : moves (Handler_SuggestQuestionnaireAnswers v id body).
Proof. unfold Handler_SuggestQuestionnaireAnswers. moves_tac. Qed.
End moves.

(** ** What a caller may do to the state *)
Section acts.
Context `{DC : Decimal} `{UU : UUID} {Body : Type} {BC : BankingCore} {RT : Runtime} {AZ : Authorizer} {VC : ViewCodec Body}.
Implicit Types (c : Ctx) (id : uuid) (w : World Body).

(** No call of a request panics or takes an id back. *)
Lemma tame_correspondence_calls c :
  (forall in_, tame (ComposeEmail (Body := Body) c in_)) /\ (forall in_, tame (Resend (Body := Body) c in_)) /\
  (forall in_, tame (Upload (Body := Body) c in_)) /\ (forall k o a, tame (PutTemplateSetting (Body := Body) c k o a)) /\
  (forall k, tame (DeleteTemplateSetting (Body := Body) c k)) /\ (forall i, tame (Service_PutTenantLogo (Body := Body) c i)) /\
  (forall s i, tame (Service_PutAnalystAvatar (Body := Body) c s i)).
Proof.
  pose proof (tame_ComposeEmail_tx (Body := Body) c) as H1. pose proof (tame_Resend_tx (Body := Body) c) as H2.
  pose proof (tame_authorizeDispute (Body := Body) c) as H3. pose proof (tame_authorize (Body := Body) c) as H4.
  split_and!; intros; unfold ComposeEmail, Resend, Upload, PutTemplateSetting, DeleteTemplateSetting, Service_PutTenantLogo, Service_PutAnalystAvatar; tame_tac.
Qed.
Lemma correspondence_same c w w' : correspondence c w w' -> same_case (w_store w) (w_store w').
Proof.
  apply correspondence_frame; try apply _; intros; apply frames_op; by intros m r m' [= _ <-].
Qed.

(** The tenants [T] speaks of: what a caller acting for one of them, or for none, does to the world. *)
Inductive act (T : uuid -> Prop) : World Body -> World Body -> Prop :=
| act_uses c w w' : (forall t, IDFrom c = Some t -> T t) -> uses c w w' -> (w_ids w <= w_ids w')%nat -> act T w w'
| act_read w w' : w_store w' = w_store w -> (w_ids w <= w_ids w')%nat -> act T w w'.
Definition acts (T : uuid -> Prop) : relation (World Body) := rtc (act T).
#[export] Instance acts_preorder T : PreOrder (acts T).
Proof. unfold acts. apply _. Qed.
Lemma acts_read T w w' : w_store w' = w_store w -> (w_ids w <= w_ids w')%nat -> acts T w w'.
Proof. intros H1 H2. by apply rtc_once, act_read. Qed.
Lemma acts_ids T w w' : acts T w w' -> (w_ids w <= w_ids w')%nat.
Proof. induction 1 as [|w w1 w2 H _ IH]; [done|]. enough (w_ids w <= w_ids w1)%nat by lia. by destruct H. Qed.

Section kept.
Context {FI : FreshIds}.

Lemma acts_reachable T w w' : acts T w w' -> reachable_world w -> reachable_world w'.
Proof.
  induction 1 as [|w w1 w2 H _ IH]; [done|]. intros Hw. apply IH. apply (reach_step w); [done|]. clear IH.
  destruct H as [c w w' Hc Hu Hi|w w' Hs Hi]; [|apply step_other; [by rewrite Hs..|done]].
  destruct Hu as [in_ w r w' H|in_ w r w' Hn H|id team w r w' H|w w' H].
  - by eapply step_create.
  - by eapply step_apply.
  - by eapply step_reassign.
  - apply correspondence_same in H as []. by apply step_other.
Qed.

Lemma isolated_refl id w : isolated id w w.
Proof. by apply isolated_snapshot. Qed.
Lemma isolated_trans id w w1 w2 : (w_ids w <= w_ids w1)%nat -> isolated id w w1 -> isolated id w1 w2 -> isolated id w w2.
Proof.
  intros Hi [[] Hf1] [[] Hf2]. split; [split; congruence|]. intros f a Ha Hd Hk. apply Hf2; [by apply Hf1|done|].
  intros k Hk'. apply Hk. lia.
Qed.
Lemma acts_isolated T id rec w w' : acts T w w' -> reachable_world w -> mDisputes (w_store w) !! id = Some rec ->
  ~ T (dr_TenantID rec) -> isolated id w w'.
Proof.
  induction 1 as [|w w1 w2 H Hr IH]; [intros; apply isolated_refl|]. intros Hw Hrec Ht.
  assert (Hi : isolated id w w1).
  { destruct H as [c w w' Hc Hu Hi|w w' Hs Hi]; [|apply isolated_snapshot; by rewrite Hs].
    apply (isolated_uses c w w' id rec); [by apply reachable_ok|done..|]. intros E. by apply Hc in E. }
  apply (isolated_trans id w w1 w2); [|done|].
  - by destruct H.
  - apply IH; [|by rewrite (un_record _ _ _ (proj1 Hi))|done]. eapply acts_reachable; [by apply rtc_once|done].
Qed.
End kept.

(** *** The tables *)
Definition keys_of (t : uuid) (d : Directory) : list KeyRow := List.filter (fun k => bool_decide (kr_TenantID k = t)) (dir_keys d).
(** Callers acting for the tenants of [T]; the frontend server, when [S]. *)
Record keeps (T : uuid -> Prop) (S : Prop) (d d' : Directory) : Prop := {
  kp_tenants : dir_tenants d' = dir_tenants d;
  kp_keys : forall t, ~ T t -> keys_of t d' = keys_of t d;
  kp_sessions : ~ S -> dir_sessions d' = dir_sessions d
}.
#[export] Instance keeps_preorder T S : PreOrder (keeps T S).
Proof.
  split; [by split|]. intros a b d [H1 H2 H3] [H4 H5 H6]. split; [congruence|..].
  - intros t Ht. by rewrite H5, H2.
  - intros HS. by rewrite H6, H3.
Qed.
Lemma keeps_sessions T (S : Prop) v d : S -> keeps T S d (put_sessions v d).
Proof. by split. Qed.
Lemma keeps_insert (T : uuid -> Prop) S id t h p l e now d : T t -> keeps T S d (q_InsertTenantKey id t h p l e now d).2.
Proof.
  intros Ht. unfold q_InsertTenantKey. destruct (to_text l); [|done]. repeat case_match; try done. split; [done| |done].
  intros u Hu. unfold keys_of. cbn. rewrite List.filter_app. cbn. rewrite bool_decide_false by (intros ->; done). apply app_nil_r.
Qed.
Lemma keys_of_update (p : KeyRow -> bool) f t l : (forall k, p k = true -> kr_TenantID k <> t /\ kr_TenantID (f k) <> t) ->
  List.filter (fun k => bool_decide (kr_TenantID k = t)) (update_where p f l).1 = List.filter (fun k => bool_decide (kr_TenantID k = t)) l.
Proof.
  intros Hp. induction l as [|k l IH]; [done|]. cbn. destruct (update_where p f l) as [l' n] eqn:E. cbn in IH.
  destruct (p k) eqn:Ek; cbn; [|by rewrite IH]. apply Hp in Ek as [H1 H2]. by rewrite !bool_decide_false by done.
Qed.
Lemma keeps_revoke (T : uuid -> Prop) S id t now d : T t -> keeps T S d (q_RevokeTenantKeyForTenant id t now d).2.
Proof.
  intros Ht. unfold q_RevokeTenantKeyForTenant, update_keys.
  assert (H : forall u, ~ T u -> List.filter (fun k => bool_decide (kr_TenantID k = u))
    (update_where (fun k => key_of id t k && unrevoked k) (revoked_at now) (dir_keys d)).1 = keys_of u d).
  { intros u Hu. apply keys_of_update. intros k Hk. unfold key_of in Hk. cbn. to_prop. split; intros <-; naive_solver. }
  destruct (update_where _ _ _) as [rows n]. by split.
Qed.
End acts.

(** ** Handlers that write *)
Section writers.
Context `{DC : Decimal} `{UU : UUID} {Body : Type} {BC : BankingCore} {RT : Runtime} {AZ : Authorizer} {VC : ViewCodec Body} {CO : Collation}.
Context {PF : Platform} {HC : Handler (Body := Body)} {BD : Binder} {VD : Validator}.
Context (T : uuid -> Prop) (S : Prop).
Abbreviation ok_moves := (moves (Body := Body) (acts T) (keeps T S)).

Lemma moves_call v {R} (p : P Body R) : (forall t, IDFrom (v_ctx v) = Some t -> T t) -> tame p ->
  (forall w r w', p w = (r, w') -> uses (v_ctx v) w w') -> ok_moves (svc p).
Proof.
  intros Hv Ht Hu. apply (moves_svc _ _). intros w r w' H. pose proof (Hu _ _ _ H) as Hu'. apply Ht in H as [H1 H2].
  split; [done|]. apply rtc_once. by apply (act_uses _ (v_ctx v)).
Qed.
#[local] Hint Resolve moves_ret moves_answer moves_raise moves_dir kmoves_now : moves.
#[local] Hint Extern 1 (reader _) => auto 1 with reader : moves.
Local Ltac moves_tac := repeat first
  [ progress intros | solve [auto 4 with moves nocore typeclass_instances] | progress cbv zeta
  | apply (moves_or_not_found _ _); [apply acts_read|] | apply (moves_declared _ _); [apply acts_read|] | apply (moves_bind _ _)
  | apply (moves_enabled _ _) | apply (moves_analyst _ _)
  | match goal with |- moves _ _ (match ?x with _ => _ end) => destruct x end ].

Section caller.
Context (v : Values) (Hv : forall t, IDFrom (v_ctx v) = Some t -> T t).

Lemma moves_CreateDispute key body : ok_moves (Handler_CreateDispute v key body).
Proof. unfold Handler_CreateDispute. moves_tac. apply (moves_call v); [done|apply tame_CreateDispute|]. intros w r w'. apply uses_create. Qed.
Lemma event_payload_object p : match ApplyEventRequestPayload_json p with Ok j => RawJSON j | Err _ => RawEmpty end <> RawJSON JNull.
Proof. unfold ApplyEventRequestPayload_json. by destruct (mapM _ _). Qed.
Lemma moves_ApplyDisputeEvent id key body : ok_moves (Handler_ApplyDisputeEvent v id key body).
Proof.
  unfold Handler_ApplyDisputeEvent. cbv zeta. apply (moves_declared _ _); [apply acts_read|].
  assert (Hn : match ApplyEventRequest_Payload body with
    | Some p => match ApplyEventRequestPayload_json p with Ok j => RawJSON j | Err _ => RawEmpty end
    | None => RawEmpty end <> RawJSON JNull) by (destruct (ApplyEventRequest_Payload body); [apply event_payload_object|done]).
  apply (moves_call v); [done|by apply tame_ApplyEvent|]. intros w r w'. by apply uses_apply.
Qed.
Lemma moves_ReassignDispute id body : ok_moves (Handler_ReassignDispute v id body).
Proof. unfold Handler_ReassignDispute. moves_tac. apply (moves_call v); [done|apply tame_Reassign|]. intros w r w'. apply uses_reassign. Qed.
Lemma moves_ComposeEmail id body : ok_moves (Handler_ComposeEmail v id body).
Proof.
  unfold Handler_ComposeEmail. moves_tac. apply (moves_call v); [done|apply tame_correspondence_calls|].
  intros w r w' H. by eapply uses_correspondence, cor_compose.
Qed.
Lemma moves_UploadAttachment id form : ok_moves (Handler_UploadAttachment v id form).
Proof.
  unfold Handler_UploadAttachment. moves_tac. apply (moves_call v); [done|apply tame_correspondence_calls|].
  intros w r w' H. by eapply uses_correspondence, cor_upload.
Qed.
Lemma moves_ResendNotice id n : ok_moves (Handler_ResendNotice v id n).
Proof.
  unfold Handler_ResendNotice. moves_tac. apply (moves_call v); [done|apply tame_correspondence_calls|].
  intros w r w' H. by eapply uses_correspondence, cor_resend.
Qed.
Lemma moves_PutTenantTemplate kind body : ok_moves (Handler_PutTenantTemplate v kind body).
Proof.
  unfold Handler_PutTenantTemplate. moves_tac. apply (moves_call v); [done|apply tame_correspondence_calls|].
  intros w r w' H. by eapply uses_correspondence, cor_put.
Qed.
Lemma moves_DeleteTenantTemplate kind : ok_moves (Handler_DeleteTenantTemplate v kind).
Proof.
  unfold Handler_DeleteTenantTemplate. moves_tac. apply (moves_call v); [done|apply tame_correspondence_calls|].
  intros w r w' H. by eapply uses_correspondence, cor_delete.
Qed.
Lemma moves_PutTenantLogo form : ok_moves (Handler_PutTenantLogo v form).
Proof.
  unfold Handler_PutTenantLogo. moves_tac. apply (moves_call v); [done|apply tame_correspondence_calls|].
  intros w r w' H. by eapply uses_correspondence, cor_logo.
Qed.
Lemma moves_PutMyAvatar form : ok_moves (Handler_PutMyAvatar v form).
Proof.
  unfold Handler_PutMyAvatar. moves_tac. apply (moves_call v); [done|apply tame_correspondence_calls|].
  intros w r w' H. by eapply uses_correspondence, cor_avatar.
Qed.

(** The keys of the tenant the caller acts for. *)
Lemma tenantAdmin_moves {R} (k : uuid -> A R) : (forall t, T t -> ok_moves (k t)) -> ok_moves (mbind k (tenantAdmin v)).
Proof.
  intros Hk s r s' H. unfold mbind, A_bind in H. destruct (tenantAdmin v s) as [o s1] eqn:E.
  pose proof (moves_tenantAdmin (acts T) (keeps T S) (acts_read T) v _ _ _ E) as (H1 & H2 & H3).
  destruct o as [t|e|msg]; [|by injection H as <- <-|by destruct (H1 msg)].
  assert (Ht : T t).
  { unfold tenantAdmin in E. apply A_bind_done in E as (_ & s2 & _ & E). apply A_bind_done in E as (_ & s3 & _ & E).
    destruct (IDFrom (v_ctx v)) as [t'|]; [|discriminate E]. apply A_ret_done in E as [<- _]. by apply Hv. }
  apply (Hk t Ht) in H as (H4 & H5 & H6). split_and!; [done|by etrans..].
Qed.
Lemma kmoves_Issue t label e : T t -> kmoves (keeps T S) (Issue fault db_now rand_Read t label e).
Proof.
  intros Ht. unfold Issue. apply (kmoves_bind _); [by apply (kmoves_still _)|]. intros secret. apply (kmoves_bind _); [by apply (kmoves_still _)|].
  intros id. apply (kmoves_bind _); [apply (kmoves_mapped _); intros; by apply keeps_insert|]. intros [].
  apply (kmoves_bind _); [apply (kmoves_getForTenant _)|]. intros rec. by apply (kmoves_still _).
Qed.
Lemma kmoves_Revoke t id : T t -> kmoves (keeps T S) (Revoke fault db_now t id).
Proof.
  intros Ht. unfold Revoke. apply (kmoves_bind _); [apply (kmoves_getForTenant _)|]. intros rec.
  apply (kmoves_bind _); [apply (kmoves_mapped _); intros; by apply keeps_revoke|]. intros n. by apply (kmoves_still _).
Qed.
Lemma moves_CreateTenantKey body : ok_moves (Handler_CreateTenantKey v body).
Proof.
  apply tenantAdmin_moves. intros t Ht. apply (moves_bind _ _).
  - moves_tac.
  - intros []. apply (moves_bind _ _); [apply (moves_dir _ _), kmoves_Issue, Ht|]. intros [rec secret]. moves_tac.
Qed.
Lemma moves_RevokeTenantKey id : ok_moves (Handler_RevokeTenantKey v id).
Proof.
  apply tenantAdmin_moves. intros t Ht. apply (moves_bind _ _); [apply (moves_dir _ _), kmoves_Revoke, Ht|]. moves_tac.
Qed.
End caller.

(** The frontend server's sessions. *)
Section frontend.
Context (HS : S).
Lemma kmoves_delete p : kmoves (keeps T S) (plain fault db_now (delete_sessions p)).
Proof. apply (kmoves_plain _). intros now d. by apply keeps_sessions. Qed.
Lemma moves_PutSession id body : ok_moves (Handler_PutSession id body).
Proof.
  unfold Handler_PutSession. cbv zeta. apply (moves_bind _ _); [apply (moves_enabled _ _)|]. intros _.
  apply (moves_bind _ _); [|moves_tac]. apply (moves_dir _ _). unfold session_Put. destruct (_ || _); [by apply (kmoves_still _)|].
  apply (kmoves_bind _); [by apply (kmoves_still _)|]. intros now. destruct (negb _); [by apply (kmoves_still _)|].
  apply (kmoves_plain _). intros n d. unfold q_PutWebSession. repeat case_match; solve [done | by apply keeps_sessions].
Qed.
Lemma moves_DeleteSession id : ok_moves (Handler_DeleteSession id).
Proof.
  unfold Handler_DeleteSession. apply (moves_bind _ _); [apply (moves_enabled _ _)|]. intros _.
  apply (moves_bind _ _); [|moves_tac]. apply (moves_dir _ _). apply (kmoves_bind _); [apply kmoves_delete|]. intros n. by apply (kmoves_still _).
Qed.
Lemma moves_DeleteSessions sid t subject : ok_moves (Handler_DeleteSessions sid t subject).
Proof.
  unfold Handler_DeleteSessions. apply (moves_bind _ _); [apply (moves_enabled _ _)|]. intros _. cbv zeta.
  destruct (_ && _); [moves_tac|]. apply (moves_bind _ _); [|moves_tac]. apply (moves_dir _ _). unfold DeleteMatching.
  repeat case_match; try apply kmoves_delete. by apply (kmoves_still _).
Qed.
End frontend.
End writers.

(** ** Requests *)
Section requests.
Context `{DC : Decimal} `{UU : UUID} {Body : Type} {BC : BankingCore} {RT : Runtime} {AZ : Authorizer} {VC : ViewCodec Body} {CO : Collation}.
Context {PF : Platform} {HC : Handler (Body := Body)} {BD : Binder} {VD : Validator}.
Abbreviation EP := (Endpoint (Body := Body)).
Abbreviation SV := (Server (Body := Body)).

Section does.
Context (W : relation (World Body)) (D : relation Directory) {HW : PreOrder W} {HD : PreOrder D}.

Local Ltac untouched_state := split_and!; [by eexists|reflexivity..].

(** An endpoint answers - it does not panic - and what it does to the state is [W] and [D]; [kw], where it matters,
    is what the tables and caches are when the request arrives. *)
Definition does (kw : option KeyWorld) (v : Values) (r : Req) (e : EP) : Prop := forall hd (s : SV) x s',
  e v r hd s = (x, s') -> match kw with Some kw => st_keys (sv_site s) = kw | None => True end ->
  (exists resp, x = Wrote resp) /\ W (st_world (sv_site s)) (st_world (sv_site s')) /\
  D (kw_dir (st_keys (sv_site s))) (kw_dir (st_keys (sv_site s'))).

Lemma does_failing kw err v r : does kw v r (failing err).
Proof. intros hd s x s' [= <- <-] _. untouched_state. Qed.
Lemma does_strict {R} (visit : R -> visitor) handler v r : moves (Body := Body) W D (handler v) -> does None v r (strict visit handler).
Proof.
  intros Hm hd s x s' H _. unfold strict in H. destruct (handler v (sv_site s)) as [o site] eqn:E. apply Hm in E as (H1 & H2 & H3).
  destruct o as [a|e|msg]; [|injection H as <- <-; split_and!; [by eexists|done..]|by destruct (H1 msg)]. destruct (visit a hd); injection H as <- <-; split_and!; (by eexists) || done.
Qed.
Lemma does_json {B} into (zero : B) k v r : (forall b, does None v r (k b)) -> does None v r (with_json into zero k).
Proof.
  intros Hk hd s x s' H _. unfold with_json in H. destruct (Unmarshal _ _ _); [by eapply Hk|by eapply (does_failing None)].
Qed.
Lemma does_form k v r : (forall f, does None v r (k f)) -> does None v r (with_form k).
Proof. intros Hk hd s x s' H _. unfold with_form in H. destruct (BodyForm _); [by eapply Hk|by eapply (does_failing None)]. Qed.
Lemma does_bound {B} param (k : B -> EP) v r : (forall b, does None v r (k b)) -> does None v r (bound param k).
Proof. intros Hk hd s x s' H _. unfold bound in H. destruct (param r); [by eapply Hk|by eapply (does_failing None)]. Qed.
Lemma does_middlewares o next v r : (forallb (fun scheme => bool_decide (RequiredScheme v scheme = None)) (security o) = true -> does None v r next) ->
  does None v r (middlewares o next).
Proof.
  intros Hn hd s x s' H _. unfold middlewares in H. destruct (existsb _ _) eqn:E; [by eapply (does_failing None)|].
  destruct (violation o r); [by eapply (does_failing None)|]. eapply Hn; [|exact H|done].
  apply forallb_forall. intros sch Hs. destruct (RequiredScheme v sch) eqn:Er; [|done].
  enough (existsb (fun scheme => bool_decide (RequiredScheme v scheme <> None)) (security o) = true) by congruence.
  apply existsb_exists. exists sch. split; [done|]. by rewrite Er.
Qed.
Lemma does_any kw v r e : does None v r e -> does kw v r e.
Proof. intros H hd s x s' He _. by eapply H. Qed.

(** *** The middleware *)
Context (cfg : Config) (oidc : option Issuers) (reachable : nat -> bool) (request_bytes : nat -> string) (specJSON : string).

Lemma does_recover kw v r next : does kw v r next -> does kw v r (Recover next).
Proof.
  intros H hd s x s' He Hs. unfold Recover in He. destruct (next v r hd s) as [y s1] eqn:E. destruct (H _ _ _ _ E Hs) as ((resp & ->) & H2).
  injection He as <- <-. split; [by eexists|done].
Qed.
Lemma does_id kw v r next : (forall id, does kw (v_with_request_id v id) r next) ->
  does kw v r (RequestID request_bytes sv_draws put_draws next).
Proof. intros H hd s x s' He Hs. unfold RequestID in He. destruct (bool_decide _); exact (H _ _ _ _ _ He Hs). Qed.
Lemma does_internal kw v r next : does kw v r next -> does kw v r (InternalOnly "/internal/" (cf_InternalCIDRs cfg) next).
Proof. intros H hd s x s' He Hs. unfold InternalOnly in He. destruct (_ && _); [injection He as <- <-; untouched_state|exact (H _ _ _ _ He Hs)]. Qed.
Lemma does_cors kw v r next : does kw v r next -> does kw v r (CORS (cf_CORSOrigins cfg) next).
Proof.
  intros H hd s x s' He Hs. unfold CORS in He. destruct (_ && _); [|exact (H _ _ _ _ He Hs)].
  destruct (bool_decide _); [injection He as <- <-; untouched_state|exact (H _ _ _ _ He Hs)].
Qed.
Lemma does_failures v r next : does None v r next ->
  does None v r (FailureMiddleware sv_failures put_failures (cf_AuthFailuresPerMinute cfg) next).
Proof.
  intros H hd s x s' He _. unfold FailureMiddleware in He. destruct (_ <=? 0); [exact (H _ _ _ _ He I)|].
  destruct (bool_decide _); [exact (H _ _ _ _ He I)|]. destruct (blocked _ _) as [[] f]; [injection He as <- <-; untouched_state|exact (H _ _ _ _ He I)].
Qed.
Lemma does_rate v r next : does None v r next ->
  does None v r (RateMiddleware reachable sv_budget put_budget (cf_RatePerMinute cfg) next).
Proof.
  intros H hd s x s' He _. unfold RateMiddleware in He. destruct (_ <=? 0); [exact (H _ _ _ _ He I)|].
  destruct (rate_verdict _ _ _ _ _ _) as [[h|resp] b]; [exact (H _ _ _ _ He I)|injection He as <- <-; untouched_state].
Qed.
Lemma resolved_dir r kw : kw_dir (resolved oidc r kw).2 = kw_dir kw.
Proof.
  unfold resolved. destruct (credential r) as [cred|]; [|done]. destruct (LooksLikeJWT cred).
  - destruct oidc as [o|]; [|done]. destruct (unverifiedIssuer o cred) as [i|]; [|done].
    assert (H : kmoves eq (KeyStore_TenantForIssuer fault db_now i)).
    { apply (kmoves_bind _); [apply (kmoves_mapped _), (D_select_one _)|]. intros row. apply (kmoves_ret _). }
    specialize (H kw). by destruct (KeyStore_TenantForIssuer _ _ _ _) as [t kw'].
  - assert (H : kmoves eq (KeyForHash fault db_now (HashKey cred))).
    { apply (kmoves_bind _); [apply (kmoves_mapped _), (D_select_one _)|]. intros row. apply (kmoves_bind _).
      - apply (kmoves_still _). intros kw1. unfold touch. by destruct (match _ with Some _ => _ | None => _ end).
      - intros _. apply (kmoves_ret _). }
    specialize (H kw). by destruct (KeyForHash _ _ _ _) as [k kw'].
Qed.
Lemma does_bearer kw v r next : does None (let '(keys, issuers, _) := resolved oidc r kw in Bearer_values keys issuers v r) r next ->
  does (Some kw) v r (BearerStore oidc next).
Proof.
  intros H hd s x s' He Hs. unfold BearerStore, Bearer in He. pose proof (resolved_dir r (st_keys (sv_site s))) as Hd.
  rewrite <- Hs in H. destruct (resolved _ _ _) as [[keys issuers] kw']. cbn in Hd. destruct (H _ _ _ _ He I) as (H1 & H2 & H3).
  cbn in H2, H3. by rewrite Hd in H3.
Qed.
Lemma Bearer_ctx keys issuers v id r :
  v_ctx (Bearer_values keys issuers (v_with_request_id v id) r) = v_ctx (Bearer_values keys issuers v r).
Proof.
  unfold Bearer_values, authenticate. destruct (credential r) as [cred|]; [|done]. destruct (LooksLikeJWT cred).
  - destruct issuers as [o|]; [|done]. by destruct (Verify o cred) as [[t a]|].
  - by destruct (keys _).
Qed.

(** Who a request acts for, once the middleware is through with it. *)
Definition caller (r : Req) (kw : KeyWorld) (v : Values) : Ctx :=
  v_ctx (let '(keys, issuers, _) := resolved oidc r kw in Bearer_values keys issuers v r).
Definition from_frontend (r : Req) : Prop := cf_ServiceKey cfg <> "" /\ header r "X-Service-Key" = cf_ServiceKey cfg.

Lemma does_api v r kw : v_service v = false ->
  (forall v2, v_ctx v2 = caller r kw v -> (IsService v2 = true -> from_frontend r) -> does None v2 r (mux specJSON)) ->
  does (Some kw) v r (API specJSON cfg oidc reachable request_bytes).
Proof.
  intros Hsv H. apply does_recover, does_id. intros id. apply does_internal, does_cors, does_bearer, does_failures.
  apply (fun H => H : does None _ r (ServiceKey _ _)). intros hd s x s' He _. unfold ServiceKey in He. revert He.
  intros He. refine (does_rate _ _ _ _ _ _ _ _ He I). apply H.
  - unfold ServiceKey_values, caller. destruct (resolved _ _ _) as [[keys issuers] kw']. destruct (_ && _); exact (Bearer_ctx keys issuers v id r).
  - unfold ServiceKey_values, IsService. destruct (_ && _) eqn:E.
    + intros _. apply andb_true_iff in E as [E E3]. apply andb_true_iff in E as [E1 E2]. split; by to_prop.
    + destruct (resolved _ _ _) as [[keys issuers] kw']. rewrite Bearer_values_service. cbn. by rewrite Hsv.
Qed.
End does.

Section operations.
Context (specJSON : string) (cfg : Config) (oidc : option Issuers) (reachable : nat -> bool) (request_bytes : nat -> string).
Abbreviation api := (API (Body := Body) specJSON cfg oidc reachable request_bytes).

Lemma mux_eq v r hd (s : SV) : mux specJSON v r hd s = match route table r with
  | Found (ToOperation o) values => serve o v (with_path_values values r) hd s
  | Found ToSpec _ => serve_spec specJSON v r hd s
  | WrongMethod allowed => (Wrote (http_Error (<["Allow" := String.concat ", " allowed]> hd) "Method Not Allowed" 405), s)
  | NoRoute => (Wrote (http_NotFound hd), s)
  end.
Proof. reflexivity. Qed.
Lemma does_mux W D {HW : PreOrder W} {HD : PreOrder D} v r :
  (forall o values, route table r = Found (ToOperation o) values -> does W D None v (with_path_values values r) (serve o)) ->
  does W D None v r (mux specJSON).
Proof.
  intros H hd s x s' He _. rewrite mux_eq in He. destruct (route table r) as [[o|] values|allowed|].
  - exact (H _ _ eq_refl _ _ _ _ He I).
  - injection He as <- <-. split_and!; [by eexists|reflexivity..].
  - injection He as <- <-. split_and!; [by eexists|reflexivity..].
  - injection He as <- <-. split_and!; [by eexists|reflexivity..].
Qed.

Local Ltac head t := match t with ?f _ => head f | _ => t end.
Local Ltac through := repeat match goal with
  | |- does _ _ _ _ _ (bound _ _) => apply (does_bound _ _); intros ?
  | |- does _ _ _ _ _ (middlewares _ _) => apply (does_middlewares _ _); intros ?
  | |- does _ _ _ _ _ (with_json _ _ _) => apply (does_json _ _); intros ?
  | |- does _ _ _ _ _ (with_form _) => apply (does_form _ _); intros ?
  | |- does _ _ _ _ _ (strict _ _) => apply (does_strict _ _)
  | |- does _ _ _ _ _ ?e => let h := head e in unfold h
  end.

(** Every operation does what its caller may do. *)
Lemma serve_acts (T : uuid -> Prop) (S : Prop) v r o : (forall t, IDFrom (v_ctx v) = Some t -> T t) -> (IsService v = true -> S) ->
  does (acts T) (keeps T S) None v r (serve o).
Proof.
  intros Hv HS. pose proof (acts_read T) as Hr.
  assert (Hf : forallb (fun scheme => bool_decide (RequiredScheme v scheme = None)) ["serviceKey"] = true -> S).
  { intros H. apply HS. unfold RequiredScheme in H. cbn in H. by destruct (IsService v). }
  destruct o; cbn [serve]; through.
  - by apply (moves_ListDisputes _ _). - by apply moves_CreateDispute. - by apply (moves_GetDispute _ _). - by apply moves_UploadAttachment.
  - by apply (moves_GetAttachment _ _). - by apply (moves_ListEmailTemplates _ _). - by apply moves_ApplyDisputeEvent.
  - by apply moves_ComposeEmail. - by apply (moves_GetNotice _ _). - by apply moves_ResendNotice.
  - by apply (moves_SuggestQuestionnaireAnswers _ _). - by apply moves_ReassignDispute. - apply (moves_GetHealthz _ _).
  - apply moves_DeleteSessions; auto. - apply moves_DeleteSession; auto. - apply (moves_GetSession _ _). - apply moves_PutSession; auto.
  - apply (moves_ListTenants _ _). - by apply (moves_GetMyAvatar _ _). - by apply moves_PutMyAvatar. - apply (moves_GetReadyz _ _).
  - apply (moves_SuggestDisputeReason _ _). - apply (moves_SuggestSearchFilters _ _). - by apply (moves_GetTenant _ _).
  - by apply (moves_ListTenantKeys _ _). - by apply moves_CreateTenantKey. - by apply moves_RevokeTenantKey.
  - by apply (moves_ListTenantTemplates _ _). - by apply moves_DeleteTenantTemplate. - by apply moves_PutTenantTemplate.
  - by apply (moves_GetTenantLogo _ _). - by apply moves_PutTenantLogo.
Qed.

(** The operations of the [GET] routes. *)
Definition reads (o : Operation) : bool := existsb (fun e => bool_decide (e.1.1 = "GET") && bool_decide (e.2 = o)) routes.
Definition same_world (w w' : World Body) : Prop := w_store w' = w_store w.
#[local] Instance same_world_preorder : PreOrder same_world.
Proof. unfold same_world. split; [done|]. intros a b d. congruence. Qed.
Lemma serve_reads v r o : reads o = true -> does same_world eq None v r (serve o).
Proof.
  assert (Hr : forall w w', w_store w' = w_store w -> (w_ids w <= w_ids w')%nat -> same_world w w') by done.
  destruct o; intros Ho; try discriminate Ho; cbn [serve]; through.
  - by apply (moves_ListDisputes _ _). - by apply (moves_GetDispute _ _). - by apply (moves_GetAttachment _ _).
  - by apply (moves_ListEmailTemplates _ _). - by apply (moves_GetNotice _ _). - apply (moves_GetHealthz _ _). - apply (moves_GetSession _ _).
  - apply (moves_ListTenants _ _). - by apply (moves_GetMyAvatar _ _). - apply (moves_GetReadyz _ _). - by apply (moves_GetTenant _ _).
  - by apply (moves_ListTenantKeys _ _). - by apply (moves_ListTenantTemplates _ _). - by apply (moves_GetTenantLogo _ _).
Qed.
Lemma routed_reads r o values : Method r = "GET" \/ Method r = "HEAD" -> route table r = Found (ToOperation o) values -> reads o = true.
Proof.
  intros Hm. unfold route. destruct (List.find _ _) as [[[m t'] vs]|] eqn:E; [|by destruct (omap _ _)]. intros [= -> ->].
  apply List.find_some in E as [Hin Hs]. apply list_elem_of_In, list_elem_of_omap in Hin as ([[m' pat] t''] & Hin & He).
  assert (Hall : forallb (fun e : string * string * target => match e.2 with
    | ToOperation o => reads o || negb (serves_method e.1.1 "GET") && negb (serves_method e.1.1 "HEAD") | ToSpec => true end) table = true)
    by (vm_compute; reflexivity).
  rewrite forallb_forall in Hall. apply list_elem_of_In in Hin. specialize (Hall _ Hin). cbn [fst snd] in *.
  destruct (match_path _ _); [|done]. cbn in He. injection He as <- -> _.
  destruct Hm as [Hm|Hm]; rewrite Hm in Hs; rewrite Hs in Hall; destruct (reads o); try done; cbn in Hall; rewrite ?andb_false_r in Hall; done.
Qed.

(** Which tenants a request proves it may act for, by the tables as they are. *)
Definition proves (r : Req) (kw : KeyWorld) (t : uuid) : Prop :=
  exists p, let '(keys, issuers, _) := resolved oidc r kw in proven keys issuers r t p.
Lemma caller_proves v r kw t : anonymous v -> IDFrom (caller oidc r kw v) = Some t -> proves r kw t.
Proof. intros Hv. unfold caller, proves. destruct (resolved _ _ _) as [[keys issuers] kw']. by apply Bearer_values_proven. Qed.



Context {FI : FreshIds}.

(** C6: A request has the authority it proves and no more, end to end: through the whole chain of middleware, whatever
    it asks for and however it is answered, everything kept of a dispute of a tenant it carries no live key and no
    genuine token of is untouched, and so are that tenant's keys; the tenants themselves no request changes, and
    the sessions only one with the frontend server's secret. And the world it leaves is one the use cases reach, so
    that everything shown of those holds of what the service keeps behind its API. *)
Theorem api_authority v r hd (s : SV) x s' : anonymous v -> v_service v = false -> reachable_world (st_world (sv_site s)) ->
  api v r hd s = (x, s') ->
  let w := st_world (sv_site s) in let w' := st_world (sv_site s') in
  let d := kw_dir (st_keys (sv_site s)) in let d' := kw_dir (st_keys (sv_site s')) in
  reachable_world w' /\
  (forall t, ~ proves r (st_keys (sv_site s)) t ->
     (forall id rec, mDisputes (w_store w) !! id = Some rec -> dr_TenantID rec = t -> isolated id w w') /\ keys_of t d' = keys_of t d) /\
  dir_tenants d' = dir_tenants d /\
  (~ from_frontend cfg r -> dir_sessions d' = dir_sessions d).
Proof.
  intros Hv Hsv Hw He. set (T := proves r (st_keys (sv_site s))).
  assert (Hd : does (acts T) (keeps T (from_frontend cfg r)) (Some (st_keys (sv_site s))) v r api).
  { apply (does_api _ _); [done|]. intros v2 Hc Hf. apply (does_mux _ _). intros o values _. apply serve_acts; [|exact Hf].
    intros t. rewrite Hc. by apply caller_proves. }
  destruct (Hd _ _ _ _ He eq_refl) as (_ & H1 & [H2 H3 H4]).
  cbv zeta. split_and!; [by eapply acts_reachable| |done|done]. intros t Ht. split; [|by apply H3].
  intros id rec Hr <-. by eapply acts_isolated.
Qed.
End operations.
End requests.
