(* ===== verification/ApiScenario.v ===== *)
(** * ApiScenario: requests played against the whole server, and the instances of the theorems about it. *)
From Stdlib Require Import QArith.
From S2P Require Import Oapi Answers Prelude Errs GoTime GoJson Ext Types Regimes Lifecycle Deadlines Ledger Questionnaire Risk Notice Access Text Http Template Store Wire Tx Sql PgStore Directory Auth Keys Sessions Limits Guard Service Correspondence Profile Suggest ServiceFacts Frames Handlers Server Integrity Guarantees Contract ApiFacts ApiGuarantees.
Local Open Scope Z_scope.

Module ApiScenario.
  Import QDec NUuid Scenario.

(** Identifiers are decimal numbers here; no statement fails; nothing is found wrong with a request. *)
Definition number (s : string) : option Z := if bool_decide (s = "") then None else digits s 0.
Definition decimal (s : string) : option N := Z.to_N <$> number s.
#[export] Instance platform : Platform := {
  uuid_Parse := decimal;
  fault _ := None;
  db_now n := Z.of_nat n * Second;
  rand_Read n := Ok ("random" +:+ show (Z.of_nat n))
}.
#[export] Instance by_bytes : Collation := fun a b => match String.compare a b with Lt => true | _ => false end.
#[export] Instance everything : Handler (Body := DisputeView) := {
  h_sessions := true; h_tenants := true; h_keys := true; h_ready _ := Ok tt; h_decisions := None
}.
Definition one {T} (bind : string -> res string T) (values : list string) : res string T :=
  match values with [v] => bind v | _ => Err "multiple values for single value parameter" end.
Definition or_invalid {T} (o : option T) : res string T := match o with Some a => Ok a | None => Err "invalid value" end.
#[export] Instance binder : Binder := {
  path_uuid s := or_invalid (decimal s);
  path_int64 s := or_invalid (number s);
  path_text := Ok;
  header_text := Ok;
  query_text := one Ok;
  query_int := one (fun s => or_invalid (number s));
  query_bool := one (fun s => if bool_decide (s = "true") then Ok true else if bool_decide (s = "false") then Ok false else Err "invalid value");
  query_uuid := one (fun s => or_invalid (decimal s))
}.
#[export] Instance lenient : Validator := fun _ _ => None.

(** A bank with one live key; the secret of the frontend server; a budget of three requests a minute. *)
Definition secret : string := "tk_aaaaaaaaaaaa".
Definition otp : @uuid NUuid.ops := 1%N.
Definition keys : KeyWorld := mkKeyWorld
  (mkDirectory [mkTenantEntry 1%N "OTP Bank" "otp" None [] None ∅]
     [mkKeyRow 11%N 1%N (HashKey secret) (key_prefix secret) "key" 0 None None None] ∅) ∅ [] 0 0 100 0.
Definition settings : Config := mkConfig ["10.0.0.0/8"] [] 3 "frontend-secret" 3.
Definition server : Server (Body := DisputeView) :=
  mkServer (mkSite start keys) (NewFailureLimiter 3 0) (mkBudget ∅ 0) 0.
Definition arriving : Values := mkValues (mkCtx _ None None None) None None false "".
Definition api : Endpoint := API "{}" settings None (fun _ => true) (fun n => "id" +:+ show (Z.of_nat n)).
Definition call (r : Req) (s : Server) : served * Server := api arriving r ∅ s.
Definition status_of (x : served) : Z := match x with Wrote r => Status r | Panicked _ _ => 0 end.
Definition with_body (r : Req) (j : json) : Req :=
  mkReq (Method r) (Path r) (RemoteAddr r) (rq_Headers r) (rq_Query r) (rq_PathValues r) (mkReqBody (RawJSON j) (Err "no form")).
Definition bearer : gmap string string := {["Authorization" := "Bearer " +:+ secret]}.
Definition get (path : string) : Req := bare_request "GET" path "10.0.0.1:5000" bearer.
Definition post (path : string) (j : json) : Req := with_body (bare_request "POST" path "10.0.0.1:5000" bearer) j.

(** A dispute is opened, investigated, closed, and refused what its state no longer allows; one that does not exist
    is not found; nobody reaches the internal surface with a tenant's key, or anything with none. *)
Definition played (rs : list Req) : list Z * Server :=
  foldl (fun acc r => let '(x, s) := call r acc.2 in (acc.1 ++ [status_of x], s)) ([], server) rs.
Definition create : Req := post "/disputes" (JObject [("transactionId", JString "10"); ("reason", JString "UNAUTHORISED")]).
Definition event_on (name : string) : Req := post "/disputes/101/events" (JObject [("event", JString name)]).
Definition stranger (path : string) : Req := bare_request "GET" path "10.9.9.9:5000" ∅.
Example answers :
  (played [create; event_on "OPEN_INVESTIGATION"; event_on "CLOSE"; event_on "WIN_CHARGEBACK"]).1 = [201; 200; 200; 409] /\
  (played [create; get "/disputes/101"; get "/disputes/102"; get "/disputes"]).1 = [201; 200; 404; 200] /\
  (played [get "/internal/tenants"; get "/healthz"; get "/nowhere"; post "/readyz" JNull]).1 = [401; 200; 404; 405] /\
  (played [stranger "/disputes"; stranger "/tenant"; stranger "/disputes/x"; stranger "/tenant-keys"]).1 = [401; 401; 400; 401].
Proof. split_and!; vm_compute; reflexivity. Qed.

(** ** Witnesses *)
Lemma nobody : credential (stranger "/disputes") = None.
Proof. reflexivity. Qed.
Lemma api_requires_proof_witness : exists resp s', call (stranger "/disputes") server = (Wrote resp, s') /\
  st_world (sv_site s') = start /\ Status resp ∈ [400; 401; 404; 429].
Proof.
  apply (api_requires_proof "{}" settings None (fun _ => true) (fun n => "id" +:+ show (Z.of_nat n)) op_ListDisputes ∅ arriving
    (stranger "/disputes") ∅ server).
  - by split_and!.
  - reflexivity.
  - reflexivity.
  - intros (tenant & p & H). unfold resolved in H. rewrite nobody in H. destruct H as [cred k H|cred o issuer tenant tok cl H];
      rewrite nobody in H; discriminate H.
Defined.

(** What the handler says of an event the state of the dispute refuses. *)
Definition dispute : @uuid NUuid.ops := 101%N.
Definition opened_site : Site (Body := DisputeView) := mkSite (opened 10%N) keys.
Definition refusal : outcome Oapi.Problem * Site :=
  problem (v_with_ctx arriving ctx) "/disputes/101/events" (EClass ErrInvalidTransition) dispute opened_site.

(** Reading a dispute; and an event without credentials on the dispute of the bank. *)
Definition opened_server : Server (Body := DisputeView) := mkServer opened_site (NewFailureLimiter 3 0) (mkBudget ∅ 0) 0.
Definition intruder : Req := with_body (stranger "/disputes/101/events") (JObject [("event", JString "OPEN_INVESTIGATION")]).
Lemma nothing_proven t : ~ proves None intruder keys t.
Proof. intros (p & H). destruct H as [cred k H|cred o issuer tenant tok cl H]; discriminate H. Qed.
Lemma api_authority_witness : reachable_world (st_world (sv_site (call intruder opened_server).2)) /\
  isolated dispute (opened 10%N) (st_world (sv_site (call intruder opened_server).2)).
Proof.
  destruct (api_authority "{}" settings None (fun _ => true) (fun n => "id" +:+ show (Z.of_nat n)) arriving intruder ∅ opened_server
    (call intruder opened_server).1 (call intruder opened_server).2) as (H1 & H2 & _ & _).
  - by split_and!.
  - reflexivity.
  - apply reachable_opened.
  - apply surjective_pairing.
  - split; [exact H1|]. destruct (H2 (dr_TenantID (record_of (opened 10%N)))) as [H3 _]; [apply nothing_proven|].
    apply (H3 dispute (record_of (opened 10%N))); [|reflexivity]. apply stored. vm_compute. reflexivity.
Defined.
End ApiScenario.
